(** * JetStream client context (js.c): a shallow embedding and its properties

    The development follows the layout of [src/js.c]:
    - statuses, C strings and the thread's error slot;
    - the consumer configuration differ ([_checkConfig]);
    - the ack-reply metadata parser ([_getMetaData]);
    - the acknowledgement API ([_ackMsg] and its five entry points);
    - the pull subscription entry point ([js_PullSubscribe]);
    - the asynchronous publish pipeline ([_newAsyncReply],
      [_registerPubMsg], [js_PublishMsgAsync], [js_PublishAsyncComplete],
      [js_PublishAsyncGetPendingList]);
    - the pull fetcher ([_checkMsg], [_sendPullRequest],
      [natsSubscription_Fetch]).

    Calls into the rest of the library (transport, condition variables,
    allocator, clock, random source) are not part of this file; each one is
    represented by the outcome it hands back, supplied by the caller of the
    model as an explicit argument. *)

From Stdlib Require Import ZArith NArith String Ascii List Bool Lia.
From stdpp Require Import gmap strings list.

Local Open Scope string_scope.
Local Open Scope Z_scope.

(** ** Statuses *)

(** The [natsStatus] values that js.c names, and one constructor for every
    other status a collaborator may hand back. *)
Inductive natsStatus : Type :=
| NATS_OK
| NATS_ERR
| NATS_INVALID_ARG
| NATS_INVALID_SUBSCRIPTION
| NATS_INVALID_TIMEOUT
| NATS_ILLEGAL_STATE
| NATS_NO_MEMORY
| NATS_TIMEOUT
| NATS_NOT_FOUND
| NATS_NO_RESPONDERS
| NATS_MISMATCH
| NATS_MISSED_HEARTBEAT
| NATS_STATUS_OTHER (code : nat).

#[global] Instance natsStatus_eq_dec : EqDecision natsStatus.
Proof. solve_decision. Defined.

Definition is_ok (s : natsStatus) : bool :=
  match s with NATS_OK => true | _ => false end.

Definition is_timeout (s : natsStatus) : bool :=
  match s with NATS_TIMEOUT => true | _ => false end.

Definition is_not_found (s : natsStatus) : bool :=
  match s with NATS_NOT_FOUND => true | _ => false end.

(** ** C strings *)

(** A [const char*] is either NULL or points to a NUL-terminated string. *)
Definition cstr := option string.

(** [nats_IsStringEmpty(s)]: NULL or the empty string. *)
Definition nats_IsStringEmpty (s : cstr) : bool :=
  match s with
  | None => true
  | Some EmptyString => true
  | Some (String _ _) => false
  end.

(** [strcmp(a, b) != 0] on two non-NULL strings. *)
Definition strcmp_ne (a b : string) : bool :=
  if decide (a = b) then false else true.

(** ** The thread's error slot *)

(** [nats_setError] and [nats_setDefaultError] record a status (and a text)
    in a per-thread slot and return the status; [nats_clearLastError] empties
    the slot.  [NATS_UPDATE_ERR_STACK] only appends the function name to the
    stack of an error already recorded: it changes neither the returned
    status nor the recorded one, so it has no counterpart below. *)
Definition errSlot := option (natsStatus * string).

Definition nats_setError (s : natsStatus) (txt : string) (_ : errSlot)
  : natsStatus * errSlot := (s, Some (s, txt)).

Definition nats_setDefaultError (s : natsStatus) (e : errSlot)
  : natsStatus * errSlot := nats_setError s "" e.

Definition nats_clearLastError (_ : errSlot) : errSlot := None.

(** ** Consumer configuration and its differ *)

(** [jsConsumerConfig], with the fields [_checkConfig] and [_subscribe]
    read.  Enum fields are kept as the [int] they are cast to; the
    sentinel for "unset" is [-1] (see [jsSubOptions_Init]). *)
Record jsConsumerConfig := mkConsumerConfig {
  Durable         : cstr;
  Description     : cstr;
  DeliverSubject  : cstr;
  DeliverGroup    : cstr;
  DeliverPolicy   : Z;
  OptStartSeq     : N;
  OptStartTime    : Z;
  AckPolicy       : Z;
  AckWait         : Z;
  MaxDeliver      : Z;
  FilterSubject   : cstr;
  ReplayPolicy    : Z;
  RateLimit       : N;
  SampleFrequency : cstr;
  MaxWaiting      : Z;
  MaxAckPending   : Z;
  FlowControl     : bool;
  Heartbeat       : Z
}.

(** [_stringPropertyDiffer(user, server)]. *)
Definition _stringPropertyDiffer (user server : cstr) : bool :=
  if nats_IsStringEmpty user then false
  else if nats_IsStringEmpty server then true
  else match user, server with
       | Some u, Some s => strcmp_ne u s
       | _, _ => true
       end.

Definition Z_ne (a b : Z) : bool := negb (a =? b).
Definition N_ne (a b : N) : bool := negb (a =? b)%N.

(** The outcome of [_checkConfig]: [NATS_OK], or [NATS_ERR] together with
    the name of the first field found to differ (the field name is the
    [%s] argument of [CFG_CHECK_ERR_START]; the two rendered values of the
    message are not reproduced). *)
Definition cfg_mismatch (field : string) : natsStatus * option string :=
  (NATS_ERR, Some field).

(** [_checkConfig(s, u)]: [s] is the server's configuration, [u] the
    user's.  The checks are made in the order of the source and the first
    mismatch returns. *)
Definition _checkConfig (s u : jsConsumerConfig) : natsStatus * option string :=
  if _stringPropertyDiffer (Durable u) (Durable s) then cfg_mismatch "durable"
  else if _stringPropertyDiffer (Description u) (Description s) then cfg_mismatch "description"
  else if (DeliverPolicy u >=? 0) && Z_ne (DeliverPolicy u) (DeliverPolicy s) then cfg_mismatch "deliver policy"
  else if (0 <? OptStartSeq u)%N && N_ne (OptStartSeq u) (OptStartSeq s) then cfg_mismatch "optional start sequence"
  else if (OptStartTime u >? 0) && Z_ne (OptStartTime u) (OptStartTime s) then cfg_mismatch "optional start time"
  else if (AckPolicy u >=? 0) && Z_ne (AckPolicy u) (AckPolicy s) then cfg_mismatch "ack policy"
  else if (AckWait u >? 0) && Z_ne (AckWait u) (AckWait s) then cfg_mismatch "ack wait"
  else if (MaxDeliver u >? 0) && Z_ne (MaxDeliver u) (MaxDeliver s) then cfg_mismatch "max deliver"
  else if (ReplayPolicy u >=? 0) && Z_ne (ReplayPolicy u) (ReplayPolicy s) then cfg_mismatch "replay policy"
  else if (0 <? RateLimit u)%N && N_ne (RateLimit u) (RateLimit s) then cfg_mismatch "rate limit"
  else if _stringPropertyDiffer (SampleFrequency u) (SampleFrequency s) then cfg_mismatch "sample frequency"
  else if (MaxWaiting u >? 0) && Z_ne (MaxWaiting u) (MaxWaiting s) then cfg_mismatch "max waiting"
  else if (MaxAckPending u >? 0) && Z_ne (MaxAckPending u) (MaxAckPending s) then cfg_mismatch "max ack pending"
  else if FlowControl u && negb (FlowControl s) then cfg_mismatch "flow control"
  else if (Heartbeat u >? 0) && Z_ne (Heartbeat u) (Heartbeat s) then cfg_mismatch "heartbeat"
  else (NATS_OK, None).

(** A configuration has no "unset" field when none of its three enum
    fields holds the negative sentinel. *)
Definition no_unset (c : jsConsumerConfig) : Prop :=
  0 <= DeliverPolicy c /\ 0 <= AckPolicy c /\ 0 <= ReplayPolicy c.

(** A fully set configuration, used to exercise the differ. *)
Definition sample_config : jsConsumerConfig :=
  {| Durable := Some "dur"; Description := Some "orders consumer";
     DeliverSubject := Some "_INBOX.x"; DeliverGroup := None;
     DeliverPolicy := 4; OptStartSeq := 10%N; OptStartTime := 0;
     AckPolicy := 0; AckWait := 30000000000; MaxDeliver := 5;
     FilterSubject := Some "ORDERS.new"; ReplayPolicy := 0;
     RateLimit := 1024%N; SampleFrequency := Some "100";
     MaxWaiting := 0; MaxAckPending := 1000; FlowControl := true;
     Heartbeat := 5000000000 |}.

(** ** The ack-reply metadata parser *)

(** A pointer into a NUL-terminated string is the rest of the string from
    that position on.  [strchr_dot p] is the distance from [p] to the first
    ['.'], when [strchr(p, '.')] is not NULL. *)
Fixpoint strchr_dot (p : string) : option nat :=
  match p with
  | EmptyString => None
  | String c r => if Ascii.eqb c "." then Some O else option_map S (strchr_dot r)
  end.

(** [p + n] and the first [n] bytes at [p]. *)
Fixpoint str_drop (n : nat) (p : string) : string :=
  match n, p with
  | O, _ => p
  | S _, EmptyString => EmptyString
  | S k, String _ r => str_drop k r
  end.

Fixpoint str_take (n : nat) (p : string) : string :=
  match n, p with
  | O, _ => EmptyString
  | S _, EmptyString => EmptyString
  | S k, String c r => String c (str_take k r)
  end.

(** [struct token { const char* start; int len; }]. *)
Record token := mkToken { tok_start : cstr; tok_len : nat }.

(** An entry of the zeroed array ([memset(tokens, 0, sizeof(tokens))]). *)
Definition tok_zero : token := {| tok_start := None; tok_len := O |}.

(** The variables of the tokenising loop. *)
Record scan_state := mkScan {
  sc_nt     : nat;
  sc_p      : string;
  sc_np     : cstr;
  sc_tokens : list token
}.

(** [while ((nt < 9) && ((np = strchr(p, '.')) != NULL)) { ... }].  The
    test is short-circuit: once [nt] is 9, [strchr] is not called and [np]
    keeps the non-NULL value of the last iteration.  [nt] grows at every
    iteration, so 9 iterations at most are made; [fuel] counts them. *)
Fixpoint scan_tokens (fuel : nat) (st : scan_state) : scan_state :=
  match fuel with
  | O => st
  | S f =>
      if (sc_nt st <? 9)%nat then
        match strchr_dot (sc_p st) with
        | Some d =>
            scan_tokens f
              {| sc_nt := S (sc_nt st);
                 sc_p := str_drop (S d) (sc_p st);
                 sc_np := Some (str_drop d (sc_p st));
                 sc_tokens := <[sc_nt st := mkToken (Some (sc_p st)) d]> (sc_tokens st) |}
        | None =>
            {| sc_nt := sc_nt st; sc_p := sc_p st; sc_np := None;
               sc_tokens := sc_tokens st |}
        end
      else st
  end.

(** The tokens of [reply] and their number: the loop, then the last token
    when the loop stopped on [np == NULL]. *)
Definition find_tokens (reply : string) : nat * list token :=
  let st := scan_tokens 9 (mkScan O reply None (replicate 9 tok_zero)) in
  match sc_np st with
  | None =>
      (S (sc_nt st),
       <[sc_nt st := mkToken (Some (sc_p st)) (String.length (sc_p st))]> (sc_tokens st))
  | Some _ => (sc_nt st, sc_tokens st)
  end.

(** [memmove(&(tokens[2]), &(tokens[0]), 7*sizeof(struct token))] followed by
    the reset of the first two entries. *)
Definition promote_v1 (tokens : list token) : list token :=
  tok_zero :: tok_zero :: take 7 tokens.

(** [_copyString(new_str, str, l)]: [ok] tells whether [NATS_MALLOC]
    returned a block.  The second component is what [*new_str] holds
    afterwards (NULL when the allocation failed). *)
Definition _copyString (ok : bool) (str : cstr) (l : nat) : natsStatus * cstr :=
  if ok then (NATS_OK, Some (str_take l (default EmptyString str)))
  else (NATS_NO_MEMORY, None).

(** Which output pointers of [_getMetaData] are not NULL. *)
Record jsMetaAsk := mkMetaAsk {
  ask_domain : bool; ask_stream : bool; ask_consumer : bool;
  ask_numDelivered : bool; ask_sseq : bool; ask_dseq : bool;
  ask_tm : bool; ask_numPending : bool
}.

(** The locations the output pointers designate. *)
Record jsMetaOut := mkMetaOut {
  md_domain : cstr; md_stream : cstr; md_consumer : cstr;
  md_numDelivered : Z; md_sseq : Z; md_dseq : Z;
  md_tm : Z; md_numPending : Z
}.

(** [(uint64_t) val] for an [int64_t] [val]. *)
Definition to_uint64 (v : Z) : Z := v mod 2 ^ 64.

Definition set_domain (o : jsMetaOut) (v : cstr) : jsMetaOut :=
  mkMetaOut v (md_stream o) (md_consumer o) (md_numDelivered o) (md_sseq o)
            (md_dseq o) (md_tm o) (md_numPending o).
Definition set_stream (o : jsMetaOut) (v : cstr) : jsMetaOut :=
  mkMetaOut (md_domain o) v (md_consumer o) (md_numDelivered o) (md_sseq o)
            (md_dseq o) (md_tm o) (md_numPending o).
Definition set_consumer (o : jsMetaOut) (v : cstr) : jsMetaOut :=
  mkMetaOut (md_domain o) (md_stream o) v (md_numDelivered o) (md_sseq o)
            (md_dseq o) (md_tm o) (md_numPending o).
Definition set_numDelivered (o : jsMetaOut) (v : Z) : jsMetaOut :=
  mkMetaOut (md_domain o) (md_stream o) (md_consumer o) v (md_sseq o)
            (md_dseq o) (md_tm o) (md_numPending o).
Definition set_sseq (o : jsMetaOut) (v : Z) : jsMetaOut :=
  mkMetaOut (md_domain o) (md_stream o) (md_consumer o) (md_numDelivered o) v
            (md_dseq o) (md_tm o) (md_numPending o).
Definition set_dseq (o : jsMetaOut) (v : Z) : jsMetaOut :=
  mkMetaOut (md_domain o) (md_stream o) (md_consumer o) (md_numDelivered o)
            (md_sseq o) v (md_tm o) (md_numPending o).
Definition set_tm (o : jsMetaOut) (v : Z) : jsMetaOut :=
  mkMetaOut (md_domain o) (md_stream o) (md_consumer o) (md_numDelivered o)
            (md_sseq o) (md_dseq o) v (md_numPending o).
Definition set_numPending (o : jsMetaOut) (v : Z) : jsMetaOut :=
  mkMetaOut (md_domain o) (md_stream o) (md_consumer o) (md_numDelivered o)
            (md_sseq o) (md_dseq o) (md_tm o) v.

(** What one iteration of the field loop does: leave the function with a
    status, or go on with the new count of filled outputs. *)
Inductive field_step :=
| FieldReturn (s : natsStatus) (o : jsMetaOut)
| FieldNext (done : Z) (o : jsMetaOut).

(** [str[0] == '_'] with [l == 1]. *)
Definition is_underscore (str : string) (l : nat) : bool :=
  (l =? 1)%nat && match str with
                  | String c _ => Ascii.eqb c "_"
                  | EmptyString => false
                  end.

Section MetaData.

(** [nats_ParseInt64(str, len)] lives in util.c; it returns [-1] on a
    token that is not a non-negative decimal number. *)
Variable nats_ParseInt64 : cstr -> nat -> Z.

(** [mem i] tells whether the allocation made for token [i] succeeds
    (tokens 0, 2 and 3 are the only ones copied, once each). *)
Variable mem : nat -> bool.

Variable ask : jsMetaAsk.

(** The [switch (i)] of the field loop, for a token that passed the
    numeric check. *)
Definition store_field (i : nat) (str : cstr) (l : nat) (val done : Z)
           (o : jsMetaOut) : field_step :=
  match i with
  | 0%nat =>
      if ask_domain ask then
        match str with
        | None => FieldNext (done + 1) (set_domain o None)
        | Some t =>
            if is_underscore t l then FieldNext (done + 1) (set_domain o None)
            else
              let '(s, d) := _copyString (mem i) str l in
              if is_ok s then FieldNext (done + 1) (set_domain o d)
              else FieldReturn s (set_domain o d)
        end
      else FieldNext done o
  | 1%nat => FieldNext done o
  | 2%nat =>
      if ask_stream ask then
        let '(s, d) := _copyString (mem i) str l in
        if is_ok s then FieldNext (done + 1) (set_stream o d)
        else FieldReturn s (set_stream o d)
      else FieldNext done o
  | 3%nat =>
      if ask_consumer ask then
        let '(s, d) := _copyString (mem i) str l in
        if is_ok s then FieldNext (done + 1) (set_consumer o d)
        else FieldReturn s (set_consumer o d)
      else FieldNext done o
  | 4%nat =>
      if ask_numDelivered ask
      then FieldNext (done + 1) (set_numDelivered o (to_uint64 val))
      else FieldNext done o
  | 5%nat =>
      if ask_sseq ask then FieldNext (done + 1) (set_sseq o (to_uint64 val))
      else FieldNext done o
  | 6%nat =>
      if ask_dseq ask then FieldNext (done + 1) (set_dseq o (to_uint64 val))
      else FieldNext done o
  | 7%nat =>
      if ask_tm ask then FieldNext (done + 1) (set_tm o val)
      else FieldNext done o
  | 8%nat =>
      if ask_numPending ask
      then FieldNext (done + 1) (set_numPending o (to_uint64 val))
      else FieldNext done o
  | _ => FieldNext done o
  end.

(** [for (i = ...; i < nt; i++) { ... }], with [n = nt - i] iterations
    left.  [val] keeps the last parsed number, as the C variable does. *)
Fixpoint field_loop (n i : nat) (tokens : list token) (asked val done : Z)
         (o : jsMetaOut) : natsStatus * jsMetaOut :=
  match n with
  | O => (NATS_OK, o)
  | S n' =>
      let tk := nth i tokens tok_zero in
      let str := tok_start tk in
      let l := tok_len tk in
      let val' := if (3 <? i)%nat then nats_ParseInt64 str l else val in
      if (3 <? i)%nat && (val' =? -1) then (NATS_ERR, o)
      else
        match store_field i str l val' done o with
        | FieldReturn s o' => (s, o')
        | FieldNext done' o' =>
            if done' =? asked then (NATS_OK, o')
            else field_loop n' (S i) tokens asked val' done' o'
        end
  end.

(** [_getMetaData(reply, domain, ..., numPending, asked)].  [o] holds the
    contents of the output locations before the call. *)
Definition _getMetaData (reply : string) (asked : Z) (o : jsMetaOut)
  : natsStatus * jsMetaOut :=
  let '(nt, tokens) := find_tokens reply in
  if (nt <? 7)%nat || ((7 <? nt)%nat && (nt <? 9)%nat) then (NATS_ERR, o)
  else
    let '(nt, tokens) :=
      if (nt =? 7)%nat then (9%nat, promote_v1 tokens) else (nt, tokens) in
    field_loop nt 0 tokens asked 0 0 o.

End MetaData.

(** Modelled from the spec: [nats_ParseInt64] (util.c) is not part of this
    file; "numeric tokens must parse as a non-negative integer; -1 from the
    integer parser signals a format error".  An empty token, or one with a
    character that is not a decimal digit, gives [-1]. *)
Fixpoint parse_digits (s : string) (acc : Z) : Z :=
  match s with
  | EmptyString => acc
  | String c r =>
      let n := Z.of_nat (nat_of_ascii c) in
      if (48 <=? n) && (n <=? 57) then parse_digits r (acc * 10 + (n - 48))
      else -1
  end.

Definition nats_ParseInt64_model (str : cstr) (l : nat) : Z :=
  match l with
  | O => -1
  | _ => parse_digits (str_take l (default EmptyString str)) 0
  end.

(** All eight outputs requested, as [natsMsg_GetMetaData] does, and the
    zeroed [jsMsgMetaData] it passes. *)
Definition ask_all : jsMetaAsk := mkMetaAsk true true true true true true true true.
Definition meta_zero : jsMetaOut := mkMetaOut None None None 0 0 0 0 0.

(** The number of ['.'] in a subject: a subject with [n] dots is made of
    [n + 1] dot-separated tokens. *)
Fixpoint count_dots (p : string) : nat :=
  match p with
  | EmptyString => O
  | String c r => if Ascii.eqb c "." then S (count_dots r) else count_dots r
  end.

(** The output locations after one iteration of the field loop. *)
Definition step_out (st : field_step) : jsMetaOut :=
  match st with FieldReturn _ o => o | FieldNext _ o => o end.

(** ** Options, subscriptions and messages *)

(** [struct jsOptionsPublishAsync]: [ErrHandler] is kept as whether a
    handler is installed. *)
Record jsOptionsPublishAsync := mkPublishAsync {
  MaxPending : Z;
  ErrHandler : bool;
  StallWait  : Z
}.

(** [jsOptions], with the fields this file reads besides the purge and
    stream-info defaults. *)
Record jsOptions := mkOptions {
  Prefix       : cstr;
  Domain       : cstr;
  Wait         : Z;
  PublishAsync : jsOptionsPublishAsync
}.

(** [jsSub]: the JetStream part of a subscription.  [jsi_js] stands for
    the context [jsi->js], of which the ack API reads the (immutable)
    options only. *)
Record jsSub := mkJsSub {
  jsi_js         : jsOptions;
  jsi_pull       : bool;
  jsi_nxtMsgSubj : cstr
}.

(** [natsSubscription]: its subject, its JetStream part ([sub->jsi], NULL
    for a plain subscription) and the number of messages queued in
    [sub->msgList]. *)
Record natsSubscription := mkSub {
  sub_subject : cstr;
  sub_jsi     : option jsSub;
  sub_msgs    : Z
}.

(** [natsMsg]: subject and reply, payload and header sizes, the headers,
    the "acked" flag ([natsMsg_isAcked] / [natsMsg_setAcked]) and the
    subscription it was delivered on ([msg->sub]).  [msg_hdrFault] is the
    status [natsMsgHeader_Get] returns when the headers cannot be read. *)
Record natsMsg := mkMsg {
  msg_subject  : cstr;
  msg_reply    : cstr;
  msg_dataLen  : Z;
  msg_hdrLen   : Z;
  msg_hdrs     : list (string * string);
  msg_hdrFault : option natsStatus;
  msg_acked    : bool;
  msg_sub      : option natsSubscription
}.

Definition natsMsg_isAcked (m : natsMsg) : bool := msg_acked m.

Definition natsMsg_setAcked (m : natsMsg) : natsMsg :=
  mkMsg (msg_subject m) (msg_reply m) (msg_dataLen m) (msg_hdrLen m)
        (msg_hdrs m) (msg_hdrFault m) true (msg_sub m).

(** What goes out on the connection. *)
Inductive net_op :=
| NetPublish (subj : cstr) (payload : string)
| NetRequest (subj : cstr) (payload : string) (timeout : Z).

(** ** The ack API *)

(** Modelled from the spec: the ack payloads are constants of js.h, which
    is not part of this file; "Ack +ACK, Nak -NAK, InProgress +WPI,
    Term +TERM". *)
Definition jsAckAck : string := "+ACK".
Definition jsAckNak : string := "-NAK".
Definition jsAckInProgress : string := "+WPI".
Definition jsAckTerm : string := "+TERM".

(** The outcome of an ack call: the status, the message afterwards, what
    was sent and the error slot. *)
Record ack_result := mkAckResult {
  ar_status : natsStatus;
  ar_msg    : option natsMsg;
  ar_sent   : list net_op;
  ar_err    : errSlot
}.

Section AckApi.

(** The status the [IFOK_JSR] macro of js.h leaves in [s], given the
    status of the call it wraps. *)
Variable IFOK_JSR_status : natsStatus -> natsStatus.

(** Texts of js.h. *)
Variable jsErrMsgNotBound : string.
Variable jsErrMsgNotJS : string.

(** [_ackMsg(msg, opts, ackType, inProgress, sync, errCode)].  [net] is
    the status of the publish, or of the request when [sync].  The result
    is [None] when [msg->sub->jsi] is NULL: the function reads [jsi->js]
    without a test. *)
Definition _ackMsg (msg : option natsMsg) (opts : option jsOptions)
           (ackType : string) (inProgress sync : bool)
           (net : natsStatus) (e : errSlot) : option ack_result :=
  match msg with
  | None =>
      let '(s, e') := nats_setDefaultError NATS_INVALID_ARG e in
      Some (mkAckResult s None [] e')
  | Some m =>
      if natsMsg_isAcked m then Some (mkAckResult NATS_OK (Some m) [] e)
      else
        match msg_sub m with
        | None =>
            let '(s, e') := nats_setError NATS_ILLEGAL_STATE jsErrMsgNotBound e in
            Some (mkAckResult s (Some m) [] e')
        | Some sub =>
            if nats_IsStringEmpty (msg_reply m) then
              let '(s, e') := nats_setError NATS_ILLEGAL_STATE jsErrMsgNotJS e in
              Some (mkAckResult s (Some m) [] e')
            else
              match sub_jsi sub with
              | None => None
              | Some jsi =>
                  let js := jsi_js jsi in
                  let '(s, sent) :=
                    if sync then
                      let wait := match opts with Some o => Wait o | None => 0 end in
                      let wait := if wait =? 0 then Wait js else wait in
                      (IFOK_JSR_status net,
                       [NetRequest (msg_reply m) ackType wait])
                    else (net, [NetPublish (msg_reply m) ackType]) in
                  let m' := if is_ok s && negb inProgress
                            then natsMsg_setAcked m else m in
                  Some (mkAckResult s (Some m') sent e)
              end
        end
  end.

Definition natsMsg_Ack msg opts := _ackMsg msg opts jsAckAck false false.
Definition natsMsg_AckSync msg opts := _ackMsg msg opts jsAckAck false true.
Definition natsMsg_Nak msg opts := _ackMsg msg opts jsAckNak false false.
Definition natsMsg_InProgress msg opts := _ackMsg msg opts jsAckInProgress true false.
Definition natsMsg_Term msg opts := _ackMsg msg opts jsAckTerm false false.

End AckApi.

(** The five entry points. *)
Inductive ack_kind := KAck | KAckSync | KNak | KInProgress | KTerm.

Definition ack_call (jsr : natsStatus -> natsStatus) (t1 t2 : string)
           (k : ack_kind) :=
  match k with
  | KAck => natsMsg_Ack jsr t1 t2
  | KAckSync => natsMsg_AckSync jsr t1 t2
  | KNak => natsMsg_Nak jsr t1 t2
  | KInProgress => natsMsg_InProgress jsr t1 t2
  | KTerm => natsMsg_Term jsr t1 t2
  end.

(** A message delivered on a JetStream subscription, not acknowledged. *)
Definition sample_jsi : jsSub :=
  mkJsSub (mkOptions (Some "$JS.API") None 5000 (mkPublishAsync 0 false 200))
          false None.
Definition sample_sub : natsSubscription :=
  mkSub (Some "_INBOX.abc") (Some sample_jsi) 0.
Definition sample_delivered : natsMsg :=
  mkMsg (Some "ORDERS.new") (Some "$JS.ACK.ORDERS.dur.1.42.7.1700000000000000000.3")
        1 0 [] None false (Some sample_sub).

(** ** Pull subscription *)

(** [jsSubOptions]. *)
Record jsSubOptions := mkSubOptions {
  so_Stream    : cstr;
  so_Consumer  : cstr;
  so_Queue     : cstr;
  so_ManualAck : bool;
  so_Config    : jsConsumerConfig
}.

(** What a subscribe call leaves behind: its status, the subscription
    stored in [*sub] (if any), the requests sent to the server and the
    error slot. *)
Record sub_result := mkSubResult {
  sr_status : natsStatus;
  sr_sub    : option natsSubscription;
  sr_sent   : list net_op;
  sr_err    : errSlot
}.

Section PullSubscribe.

(** Enum values of nats.h and texts of js.h. *)
Variable js_AckNone js_AckAll : Z.
Variable jsErrDurRequired jsAckNoneStr jsAckAllStr : string.

(** [_subscribe(sub, js, subject, pullDurable, usrCB, usrCBClosure,
    isPullMode, jsOpts, opts, errCode)], the one place where the server is
    contacted and the subscription created; [usrCB] is kept as whether a
    callback is given. *)
Variable _subscribe :
  cstr -> cstr -> bool -> bool -> option jsOptions -> option jsSubOptions ->
  errSlot -> sub_result.

(** [js_PullSubscribe(sub, js, subject, durable, jsOpts, opts, errCode)]. *)
Definition js_PullSubscribe (subject durable : cstr)
           (jsOpts : option jsOptions) (opts : option jsSubOptions)
           (e : errSlot) : sub_result :=
  if nats_IsStringEmpty durable then
    let '(s, e') := nats_setError NATS_INVALID_ARG jsErrDurRequired e in
    mkSubResult s None [] e'
  else
    let bad :=
      match opts with
      | Some o =>
          let p := AckPolicy (so_Config o) in
          if (p =? js_AckNone) || (p =? js_AckAll)
          then Some (if p =? js_AckNone then jsAckNoneStr else jsAckAllStr)
          else None
      | None => None
      end in
    match bad with
    | Some ap =>
        let '(s, e') :=
          nats_setError NATS_INVALID_ARG
            ("invalid ack mode '" ++ ap ++ "' for pull consumers") e in
        mkSubResult s None [] e'
    | None => _subscribe subject durable false true jsOpts opts e
    end.

End PullSubscribe.

(** A [_subscribe] that always reaches the server and creates a
    subscription, to exercise [js_PullSubscribe]. *)
Definition subscribe_always (subject durable : cstr) (usrCB isPullMode : bool)
           (jsOpts : option jsOptions) (opts : option jsSubOptions)
           (e : errSlot) : sub_result :=
  mkSubResult NATS_OK (Some (mkSub subject (Some (mkJsSub
    (mkOptions (Some "$JS.API") None 5000 (mkPublishAsync 0 false 200))
    isPullMode (Some "$JS.API.CONSUMER.MSG.NEXT.S.C"))) 0))
    [NetRequest (Some "$JS.API.CONSUMER.INFO.S.C") "" 5000] e.

Definition config_with_ack (p : Z) : jsConsumerConfig :=
  mkConsumerConfig None None None None (-1) 0%N 0 p 0 0 None (-1) 0%N None 0 0 false 0.

Definition opts_with_ack (p : Z) : jsSubOptions :=
  mkSubOptions None None None false (config_with_ack p).

(** A delivered JetStream message: bound to a subscription that has a
    JetStream part, and carrying a reply subject. *)
Definition delivered (m : natsMsg) : Prop :=
  exists sub jsi,
    msg_sub m = Some sub /\ sub_jsi sub = Some jsi /\
    nats_IsStringEmpty (msg_reply m) = false.

(** The payload of each entry point. *)
Definition ack_payload (k : ack_kind) : string :=
  match k with
  | KAck | KAckSync => jsAckAck
  | KNak => jsAckNak
  | KInProgress => jsAckInProgress
  | KTerm => jsAckTerm
  end.

(** ** The asynchronous publish pipeline: state *)

(** Two's complement wrap-around of a [w]-bit signed integer. *)
Definition wrap (w : Z) (z : Z) : Z := (z + 2 ^ (w - 1)) mod 2 ^ w - 2 ^ (w - 1).
Definition int32 (z : Z) : Z := wrap 32 z.
Definition int64 (z : Z) : Z := wrap 64 z.

Definition in_int64 (z : Z) : Prop := - 2 ^ 63 <= z < 2 ^ 63.

(** In the pipeline a message is a [natsMsg*]: the inflight map, the
    pending list and [natsMsg_Destroy] only handle its address. *)
Definition natsMsgPtr := nat.

(** [jsCtx]: the fields guarded by the context's mutex.  [js_pm] is the
    inflight map (NULL until the first async publish), keyed by reply
    token; [js_cond] and [js_rsub] tell whether the condition variable and
    the reply subscription exist; [js_freed] is set by [_freeContext]. *)
Record jsCtx := mkCtx {
  js_opts    : jsOptions;
  js_refs    : Z;
  js_cond    : bool;
  js_pm      : option (gmap string natsMsgPtr);
  js_rsub    : bool;
  js_rpre    : cstr;
  js_pacw    : Z;
  js_pmcount : Z;
  js_stalled : Z;
  js_freed   : bool
}.

Definition set_refs (js : jsCtx) (v : Z) : jsCtx :=
  mkCtx (js_opts js) v (js_cond js) (js_pm js) (js_rsub js) (js_rpre js)
        (js_pacw js) (js_pmcount js) (js_stalled js) (js_freed js).
Definition set_pm (js : jsCtx) (v : option (gmap string natsMsgPtr)) : jsCtx :=
  mkCtx (js_opts js) (js_refs js) (js_cond js) v (js_rsub js) (js_rpre js)
        (js_pacw js) (js_pmcount js) (js_stalled js) (js_freed js).
Definition set_pacw (js : jsCtx) (v : Z) : jsCtx :=
  mkCtx (js_opts js) (js_refs js) (js_cond js) (js_pm js) (js_rsub js) (js_rpre js)
        v (js_pmcount js) (js_stalled js) (js_freed js).
Definition set_pmcount (js : jsCtx) (v : Z) : jsCtx :=
  mkCtx (js_opts js) (js_refs js) (js_cond js) (js_pm js) (js_rsub js) (js_rpre js)
        (js_pacw js) v (js_stalled js) (js_freed js).
Definition set_stalled (js : jsCtx) (v : Z) : jsCtx :=
  mkCtx (js_opts js) (js_refs js) (js_cond js) (js_pm js) (js_rsub js) (js_rpre js)
        (js_pacw js) (js_pmcount js) v (js_freed js).
Definition set_freed (js : jsCtx) : jsCtx :=
  mkCtx (js_opts js) (js_refs js) (js_cond js) (js_pm js) (js_rsub js) (js_rpre js)
        (js_pacw js) (js_pmcount js) (js_stalled js) true.

(** [_retain(js)]: [refs++]. *)
Definition _retain (js : jsCtx) : jsCtx := set_refs js (int32 (js_refs js + 1)).

(** [js_unlockAndRelease(js)]: [--refs], and [_freeContext] when it
    reaches zero. *)
Definition js_unlockAndRelease (js : jsCtx) : jsCtx :=
  let js1 := set_refs js (int32 (js_refs js - 1)) in
  if js_refs js1 =? 0 then set_freed js1 else js1.

(** ** The pipeline's collaborators *)

(** What the other threads did to the context while the mutex was
    released: the amounts added to the counters and the change made to the
    inflight map (entries removed by the ack handler or by a drain, entries
    added by other publishers). *)
Record interference := mkInterference {
  i_pmcount : Z;
  i_stalled : Z;
  i_pacw    : Z;
  i_refs    : Z;
  i_pm      : gmap string natsMsgPtr -> gmap string natsMsgPtr
}.

Definition interfere (i : interference) (js : jsCtx) : jsCtx :=
  mkCtx (js_opts js) (int32 (js_refs js + i_refs i)) (js_cond js)
        (i_pm i <$> js_pm js) (js_rsub js) (js_rpre js)
        (int32 (js_pacw js + i_pacw i)) (int64 (js_pmcount js + i_pmcount i))
        (int32 (js_stalled js + i_stalled i)) (js_freed js).

Definition no_interference : interference := mkInterference 0 0 0 0 (fun m => m).

(** One return of a wait on the context's condition: the time at which the
    waiter runs again, and what happened to the context meanwhile. *)
Record wake := mkWake { wk_now : Z; wk_by : interference }.

(** Modelled from the spec: [nats_setTargetTime] is not part of this file;
    "the absolute deadline now + StallWait".  [now] is the clock at the
    call. *)
Definition nats_setTargetTime (now timeout : Z) : Z := now + timeout.

(** Modelled from the spec: the condition variable is not part of this
    file; a wait releases the mutex, lets the other threads run and takes
    the mutex again; the timed wait "with an absolute deadline" returns
    [NATS_TIMEOUT] when the waiter runs again at or after the deadline and
    [NATS_OK] before it. *)
Definition natsCondition_AbsoluteTimedWait (target : Z) (w : wake) (js : jsCtx)
  : natsStatus * jsCtx :=
  (if target <=? wk_now w then NATS_TIMEOUT else NATS_OK, interfere (wk_by w) js).

Definition natsCondition_Wait (w : wake) (js : jsCtx) : jsCtx :=
  interfere (wk_by w) js.

(** Modelled from the spec: the string hash (hash.c) is not part of this
    file; "the map's insert-and-return-old semantics".  [natsStrHash_Set]
    replaces the value of a key already present and hands the old value back
    when [oldData] is not NULL ([want_old]); a new key needs memory ([ok]
    tells whether it is obtained).  The result is the status, the map and
    what [*oldData] receives. *)
Definition natsStrHash_Set (h : gmap string natsMsgPtr) (key : string)
           (data : natsMsgPtr) (want_old : bool) (ok : bool)
  : natsStatus * gmap string natsMsgPtr * option natsMsgPtr :=
  match h !! key with
  | Some old => (NATS_OK, <[key := data]> h, if want_old then Some old else None)
  | None => if ok then (NATS_OK, <[key := data]> h, None)
            else (NATS_NO_MEMORY, h, None)
  end.

(** Modelled from the spec: [natsStrHash_Remove] (hash.c) is not part of
    this file; "remove the inflight entry; if the token was not present
    ...": the value removed, NULL when the key is absent. *)
Definition natsStrHash_Remove (h : gmap string natsMsgPtr) (key : string)
  : option natsMsgPtr * gmap string natsMsgPtr :=
  (h !! key, delete key h).

(** Modelled from the spec: [natsStrHash_Count] (hash.c) is not part of
    this file; the cardinality of the map. *)
Definition natsStrHash_Count (h : gmap string natsMsgPtr) : Z := Z.of_nat (size h).

(** ** Reply subjects *)

Definition jsDigits : string :=
  "0123456789ABCDEFGHIJKLMNOPQRSTUVWXYZabcdefghijklmnopqrstuvwxyz".
Definition jsBase : Z := 62.
Definition jsReplyTokenSize : nat := 8.

(** [jsDigits[k]]. *)
Definition digit_at (k : Z) : ascii :=
  match String.get (Z.to_nat k) jsDigits with
  | Some c => c
  | None => "000"%char
  end.

(** The loop writing the token: [n] digits of [l], least significant
    first, with C's [%] and [/] on [int64_t]. *)
Fixpoint token_digits (n : nat) (l : Z) : string :=
  match n with
  | O => EmptyString
  | S k => String (digit_at (Z.rem l jsBase)) (token_digits k (Z.quot l jsBase))
  end.

(** The outcome of the calls made when the reply subscription does not
    exist yet: creation of the condition variable and of the map, allocation
    of the prefix, the inbox drawn by [natsInbox_init], and the
    subscription. *)
Record reply_init := mkReplyInit {
  ri_cond      : natsStatus;
  ri_hash      : natsStatus;
  ri_malloc    : bool;
  ri_inbox     : string;
  ri_subscribe : natsStatus
}.

Section AsyncReply.

(** [NATS_INBOX_PRE_LEN], the length of the inbox prefix (natsp.h). *)
Variable NATS_INBOX_PRE_LEN : nat.

Definition jsReplyPrefixLen : nat := (NATS_INBOX_PRE_LEN + jsReplyTokenSize + 1)%nat.

(** The prefix built from the inbox [tmp]: its first
    [NATS_INBOX_PRE_LEN] bytes, its last [jsReplyTokenSize] bytes and a
    dot. *)
Definition make_rpre (tmp : string) : string :=
  str_take NATS_INBOX_PRE_LEN tmp
  ++ str_take jsReplyTokenSize (str_drop (String.length tmp - jsReplyTokenSize) tmp)
  ++ ".".

(** The internal objects created by the first async publish. *)
Definition init_reply (ri : reply_init) (js : jsCtx) (e : errSlot)
  : natsStatus * jsCtx * errSlot :=
  let s := ri_cond ri in
  let cond := is_ok s in
  let s := if is_ok s then ri_hash ri else s in
  let pm : option (gmap string natsMsgPtr) := if is_ok s then Some ∅ else None in
  let '(s, rpre, e) :=
    if is_ok s then
      if ri_malloc ri then (s, Some (make_rpre (ri_inbox ri)), e)
      else let '(s', e') := nats_setDefaultError NATS_NO_MEMORY e in (s', None, e')
    else (s, None, e) in
  let '(s, rsub, refs) :=
    if is_ok s then
      if is_ok (ri_subscribe ri)
      then (NATS_OK, true, int32 (js_refs js + 1))
      else (ri_subscribe ri, false, js_refs js)
    else (s, false, js_refs js) in
  if is_ok s then
    (s, mkCtx (js_opts js) refs cond pm rsub rpre (js_pacw js) (js_pmcount js)
              (js_stalled js) (js_freed js), e)
  else
    (s, mkCtx (js_opts js) refs false None false None (js_pacw js) (js_pmcount js)
              (js_stalled js) (js_freed js), e).

(** [_newAsyncReply(reply, js)]: the status, the context and the reply
    subject written in [reply] (left as it was, [None] here, on failure).
    [rnd] is the value drawn by [nats_Rand64]. *)
Definition _newAsyncReply (ri : reply_init) (rnd : Z) (js : jsCtx) (e : errSlot)
  : natsStatus * jsCtx * option string * errSlot :=
  let '(s, js, e) :=
    if js_rsub js then (NATS_OK, js, e) else init_reply ri js e in
  if is_ok s then
    (s, js,
     Some (str_take jsReplyPrefixLen (default EmptyString (js_rpre js))
           ++ token_digits jsReplyTokenSize rnd), e)
  else (s, js, None, e).

(** [reply + jsReplyPrefixLen]. *)
Definition reply_id (reply : string) : string := str_drop jsReplyPrefixLen reply.

End AsyncReply.

(** ** Registering and publishing *)

(** What surrounds one async publish: the clock, the outcome of the
    first-time initialisation, the random number, the successive returns of
    the stall wait, and whether [natsStrHash_Set] gets its memory. *)
Record pub_env := mkPubEnv {
  pe_now    : Z;
  pe_init   : reply_init;
  pe_rand   : Z;
  pe_wakes  : list wake;
  pe_set_ok : bool
}.

(** [while ((s != NATS_TIMEOUT) && (js->pmcount > maxp))
        s = natsCondition_AbsoluteTimedWait(js->cond, js->mu, target);]
    Each iteration uses one return of the wait; the result is [None] when
    the caller is still waiting after the last of them. *)
Fixpoint stall_wait (maxp target : Z) (ws : list wake) (s : natsStatus) (js : jsCtx)
  : option (natsStatus * jsCtx) :=
  if negb (is_timeout s) && (maxp <? js_pmcount js) then
    match ws with
    | [] => None
    | w :: ws' =>
        let '(s', js') := natsCondition_AbsoluteTimedWait target w js in
        stall_wait maxp target ws' s' js'
    end
  else Some (s, js).

Definition stalled_text : string :=
  "stalled with too many outstanding async published messages".

(** The outcome of [_registerPubMsg]: status, context, the reply subject
    and the error slot. *)
Record reg_result := mkRegResult {
  rr_status : natsStatus;
  rr_js     : jsCtx;
  rr_reply  : option string;
  rr_err    : errSlot
}.

Section Publish.

Variable NATS_INBOX_PRE_LEN : nat.

(** The first half of [_registerPubMsg], up to the end of the stall:
    the pending count is incremented, the reply subject drawn and, when
    [MaxPending] is exceeded, the caller waits.  The result gives the
    status, the context, the reply subject, the error slot and the
    [release] flag; it is [None] while the caller is still waiting. *)
Definition await_slot (env : pub_env) (js : jsCtx) (e : errSlot)
  : option (natsStatus * jsCtx * option string * errSlot * bool) :=
  let maxp := MaxPending (PublishAsync (js_opts js)) in
  let js := set_pmcount js (int64 (js_pmcount js + 1)) in
  let '(s, js, reply, e) :=
    _newAsyncReply NATS_INBOX_PRE_LEN (pe_init env) (pe_rand env) js e in
  if is_ok s && (0 <? maxp) && (maxp <? js_pmcount js) then
    let target := nats_setTargetTime (pe_now env)
                    (StallWait (PublishAsync (js_opts js))) in
    let js := _retain js in
    let js := set_stalled js (int32 (js_stalled js + 1)) in
    match stall_wait maxp target (pe_wakes env) s js with
    | None => None
    | Some (s, js) =>
        let js := set_stalled js (int32 (js_stalled js - 1)) in
        let '(s, e) :=
          if is_timeout s then nats_setError s stalled_text e else (s, e) in
        Some (s, js, reply, e, true)
    end
  else Some (s, js, reply, e, false).

(** [_registerPubMsg(nc, reply, js, msg)]: after [await_slot], the
    message is stored under [id = reply + jsReplyPrefixLen] with
    [natsStrHash_Set(js->pm, id, true, msg, NULL)], the pending count is
    taken back on failure and the mutex released.  The map is not NULL
    when the status is [NATS_OK] at this point: it is created with the
    reply subscription. *)
Definition _registerPubMsg (env : pub_env) (js : jsCtx) (msg : natsMsgPtr)
           (e : errSlot) : option reg_result :=
  match await_slot env js e with
  | None => None
  | Some (s, js, reply, e, release) =>
      let id := reply_id NATS_INBOX_PRE_LEN (default EmptyString reply) in
      let '(s, js) :=
        if is_ok s then
          let '(s', h, _) :=
            natsStrHash_Set (default ∅ (js_pm js)) id msg false (pe_set_ok env) in
          (s', set_pm js (Some h))
        else (s, js) in
      let js := if is_ok s then js
                else set_pmcount js (int64 (js_pmcount js - 1)) in
      let js := if release then js_unlockAndRelease js else js in
      Some (mkRegResult s js reply e)
  end.

(** The outcome of [js_PublishMsgAsync]: status, context, what [*msg]
    holds afterwards (NULL when the library took the message), what was
    handed to the connection, the messages given to [natsMsg_Destroy]
    and the error slot. *)
Record pub_result := mkPubResult {
  pr_status    : natsStatus;
  pr_js        : jsCtx;
  pr_msg       : option natsMsgPtr;
  pr_sent      : list (string * natsMsgPtr);
  pr_destroyed : list natsMsgPtr;
  pr_err       : errSlot
}.

(** [js_PublishMsgAsync(js, msg, opts)] on a context and a message that
    are not NULL.  [hdr] is the status of [_setHeadersFromOptions]
    ([NATS_OK] when [opts] is NULL), [pub] the status of
    [natsConn_publish] and [during] what the other threads did between the
    release of the mutex by [_registerPubMsg] and its acquisition after a
    failed publish.  Neither this function nor [_registerPubMsg] calls
    [natsMsg_Destroy]: the value replaced in the map is not asked from
    [natsStrHash_Set] (its [oldData] argument is NULL). *)
Definition js_PublishMsgAsync_body (env : pub_env) (hdr pub : natsStatus)
           (during : interference) (js : jsCtx) (msg : natsMsgPtr)
           (e : errSlot) : option pub_result :=
  if is_ok hdr then
    match _registerPubMsg env js msg e with
    | None => None
    | Some r =>
        let reply := default EmptyString (rr_reply r) in
        if is_ok (rr_status r) then
          let sent := [(reply, msg)] in
          if is_ok pub then
            Some (mkPubResult NATS_OK (rr_js r) None sent [] (rr_err r))
          else
            let id := reply_id NATS_INBOX_PRE_LEN reply in
            let js := interfere during (rr_js r) in
            let '(old, h) := natsStrHash_Remove (default ∅ (js_pm js)) id in
            let js := set_pm js (Some h) in
            match old with
            | None => Some (mkPubResult NATS_OK js None sent [] (rr_err r))
            | Some _ =>
                Some (mkPubResult pub
                        (set_pmcount js (int64 (js_pmcount js - 1)))
                        (Some msg) sent [] (rr_err r))
            end
        else Some (mkPubResult (rr_status r) (rr_js r) (Some msg) [] [] (rr_err r))
    end
  else Some (mkPubResult hdr js (Some msg) [] [] e).

(** [js_PublishMsgAsync(js, msg, opts)]: [msg] is the [natsMsg**], NULL,
    or pointing to a NULL or to a message. *)
Definition js_PublishMsgAsync (env : pub_env) (hdr pub : natsStatus)
           (during : interference) (js : option jsCtx)
           (msg : option (option natsMsgPtr)) (e : errSlot)
  : option (natsStatus * option pub_result * errSlot) :=
  match js, msg with
  | Some js, Some (Some m) =>
      match js_PublishMsgAsync_body env hdr pub during js m e with
      | None => None
      | Some r => Some (pr_status r, Some r, pr_err r)
      end
  | _, _ =>
      let '(s, e') := nats_setDefaultError NATS_INVALID_ARG e in
      Some (s, None, e')
  end.

(** [js_PublishAsync(js, subj, data, dataLen, opts)]: [created] is the
    outcome of [natsMsg_Create] (a status and the new message).  The last
    component lists the messages given to [natsMsg_Destroy]. *)
Definition js_PublishAsync (env : pub_env) (hdr pub : natsStatus)
           (during : interference) (js : option jsCtx)
           (created : natsStatus * option natsMsgPtr) (e : errSlot)
  : option (natsStatus * option pub_result * errSlot * list natsMsgPtr) :=
  let '(s, msg) := created in
  if is_ok s then
    match js_PublishMsgAsync env hdr pub during js (Some msg) e with
    | None => None
    | Some (s, r, e) =>
        let msg := match r with Some r => pr_msg r | None => msg end in
        Some (s, r, e,
              (match r with Some r => pr_destroyed r | None => [] end
               ++ match msg with Some p => [p] | None => [] end)%list)
    end
  else Some (s, None, e, match msg with Some p => [p] | None => [] end).

End Publish.

(** ** Completion and the pending list *)

(** [jsPubOptions], of which the completion call reads [MaxWait]. *)
Record jsPubOptions := mkPubOptions { MaxWait : Z }.

(** [_checkMaxWaitOpt(new_ttl, opts)]. *)
Definition _checkMaxWaitOpt (opts : jsPubOptions) (e : errSlot)
  : natsStatus * Z * errSlot :=
  if MaxWait opts <? 0 then
    let '(s, e') :=
      nats_setError NATS_INVALID_ARG "option 'MaxWait' cannot be negative" e in
    (s, 0, e')
  else (NATS_OK, MaxWait opts, e).

(** [while ((s != NATS_TIMEOUT) && (js->pmcount > 0))
        { if (target > 0) s = natsCondition_AbsoluteTimedWait(...);
          else natsCondition_Wait(...); }] *)
Fixpoint complete_wait (target : Z) (ws : list wake) (s : natsStatus) (js : jsCtx)
  : option (natsStatus * jsCtx) :=
  if negb (is_timeout s) && (0 <? js_pmcount js) then
    match ws with
    | [] => None
    | w :: ws' =>
        let '(s', js') :=
          if 0 <? target then natsCondition_AbsoluteTimedWait target w js
          else (s, natsCondition_Wait w js) in
        complete_wait target ws' s' js'
    end
  else Some (s, js).

(** [js_PublishAsyncComplete(js, opts)]: [now] is the clock at the call,
    [ws] the successive returns of the wait.  [None]: still waiting. *)
Definition js_PublishAsyncComplete (now : Z) (ws : list wake)
           (js : option jsCtx) (opts : option jsPubOptions) (e : errSlot)
  : option (natsStatus * option jsCtx * errSlot) :=
  match js with
  | None =>
      let '(s, e') := nats_setDefaultError NATS_INVALID_ARG e in Some (s, None, e')
  | Some js =>
      let '(s, ttl, e) :=
        match opts with
        | Some o => _checkMaxWaitOpt o e
        | None => (NATS_OK, 0, e)
        end in
      if negb (is_ok s) then Some (s, Some js, e)
      else if (match js_pm js with None => true | Some _ => false end)
              || (js_pmcount js =? 0)
      then Some (NATS_OK, Some js, e)
      else
        let target := if 0 <? ttl then nats_setTargetTime now ttl else 0 in
        let js := _retain js in
        let js := set_pacw js (int32 (js_pacw js + 1)) in
        match complete_wait target ws s js with
        | None => None
        | Some (s, js) =>
            let js := set_pacw js (int32 (js_pacw js - 1)) in
            let s := if is_timeout s && (js_pmcount js =? 0) then NATS_OK else s in
            Some (s, Some (js_unlockAndRelease js), e)
        end
  end.

(** The loop over the inflight map: every entry goes to the list, is
    removed from the map, and lowers the pending count when it is
    positive.  [entries] are the entries in the order of the iterator. *)
Fixpoint drain_entries (entries : list (string * natsMsgPtr))
         (h : gmap string natsMsgPtr) (pmcount : Z) (msgs : list natsMsgPtr)
  : gmap string natsMsgPtr * Z * list natsMsgPtr :=
  match entries with
  | [] => (h, pmcount, msgs)
  | (k, v) :: rest =>
      drain_entries rest (delete k h)
        (if 0 <? pmcount then int64 (pmcount - 1) else pmcount)
        (msgs ++ [v])
  end.

(** The list handed back by [js_PublishAsyncGetPendingList]. *)
Record natsMsgList := mkMsgList { Msgs : list natsMsgPtr; Count : Z }.

(** [js_PublishAsyncGetPendingList(pending, js)] with [pending] not NULL:
    the status, the context and the list written ([None]: [pending] left
    untouched or destroyed).  [calloc_ok] tells whether the array is
    allocated.  No result is given when the inflight map is NULL:
    [natsStrHash_Count] is applied to it without a test, and what it does
    with NULL is decided outside this file. *)
Definition js_PublishAsyncGetPendingList (calloc_ok : bool) (js : option jsCtx)
           (e : errSlot)
  : option (natsStatus * option jsCtx * option natsMsgList * errSlot) :=
  match js with
  | None =>
      let '(s, e') := nats_setDefaultError NATS_INVALID_ARG e in
      Some (s, None, None, e')
  | Some js =>
      match js_pm js with
      | None => None
      | Some h =>
          let count := natsStrHash_Count h in
          if count =? 0 then Some (NATS_NOT_FOUND, Some js, None, e)
          else if calloc_ok then
            let '(h', pmc, msgs) :=
              drain_entries (map_to_list h) h (js_pmcount js) [] in
            Some (NATS_OK, Some (set_pmcount (set_pm js (Some h')) pmc),
                  Some (mkMsgList msgs count), e)
          else
            let '(s, e') := nats_setDefaultError NATS_NO_MEMORY e in
            Some (s, Some js, None, e')
      end
  end.

(** ** Notions used to state the pipeline's properties *)

(** The async publish state exists: the reply subscription and the
    inflight map were created (they are created together by the first async
    publish). *)
Definition async_ready (js : jsCtx) : Prop :=
  js_rsub js = true /\ is_Some (js_pm js).

(** The wait returns consumed by a waiter with deadline [target]: all
    those before the deadline, and the first one at or after it. *)
Fixpoint until_deadline (target : Z) (ws : list wake) : list wake :=
  match ws with
  | [] => []
  | w :: ws' => if target <=? wk_now w then [w] else w :: until_deadline target ws'
  end.

(** The pending count and the inflight map as the other threads alone
    leave them after the wait returns [ws]. *)
Definition others_count (c : Z) (ws : list wake) : Z :=
  fold_left (fun c w => int64 (c + i_pmcount (wk_by w))) ws c.

Definition others_map (h : gmap string natsMsgPtr) (ws : list wake)
  : gmap string natsMsgPtr :=
  fold_left (fun h w => i_pm (wk_by w) h) ws h.

(** Starting from the count [c], the pending count is above [maxp] at every
    return of the wait that comes before the deadline, and a return at or
    after the deadline does come. *)
Fixpoint stays_above (maxp target c : Z) (ws : list wake) : Prop :=
  match ws with
  | [] => False
  | w :: ws' =>
      if target <=? wk_now w then True
      else maxp < int64 (c + i_pmcount (wk_by w)) /\
           stays_above maxp target (int64 (c + i_pmcount (wk_by w))) ws'
  end.

(** Starting from the count [c], every return of the wait in [ws] comes
    before the deadline (there is none when [target] is not positive) and
    leaves a positive pending count. *)
Fixpoint still_pending (target c : Z) (ws : list wake) : Prop :=
  match ws with
  | [] => True
  | w :: ws' =>
      (0 < target -> wk_now w < target) /\
      0 < int64 (c + i_pmcount (wk_by w)) /\
      still_pending target (int64 (c + i_pmcount (wk_by w))) ws'
  end.

(** The messages held by the inflight map. *)
Definition inflight_msgs (js : jsCtx) : list natsMsgPtr :=
  (map_to_list (default ∅ (js_pm js))).*2.

(** The second scenario of the specification: [MaxPending = 2],
    [StallWait = 50], two publishes in flight. *)
Definition stall_opts : jsOptions :=
  mkOptions (Some "$JS.API") None 5000 (mkPublishAsync 2 false 50).

Definition stall_ctx : jsCtx :=
  mkCtx stall_opts 2 true
        (Some (<["AAAAAAAA" := 1%nat]> (<["BBBBBBBB" := 2%nat]> ∅)))
        true (Some "_INBOX.abcdefgh.") 0 2 0 false.

Definition quiet_init : reply_init :=
  mkReplyInit NATS_OK NATS_OK true "_INBOX.0123456789abcdefghijkl" NATS_OK.

(** The clock reads 1000 at the call; the stalled caller runs again at
    1020, nothing having changed, and at the deadline 1050. *)
Definition stall_env : pub_env :=
  mkPubEnv 1000 quiet_init 12345
           [mkWake 1020 no_interference; mkWake 1050 no_interference] true.

(** A context with one publish in flight under the token ["AAAAAAAA"], and
    an environment whose random number gives that token again. *)
Definition collide_ctx : jsCtx :=
  mkCtx (mkOptions (Some "$JS.API") None 5000 (mkPublishAsync 0 false 200)) 2 true
        (Some (<["AAAAAAAA" := 1%nat]> ∅))
        true (Some "_INBOX.abcdefgh.") 0 1 0 false.

Definition collide_rand : Z :=
  10 * (1 + 62 + 62^2 + 62^3 + 62^4 + 62^5 + 62^6 + 62^7).

Definition collide_env : pub_env := mkPubEnv 1000 quiet_init collide_rand [] true.

(** A context with one entry in the inflight map and a pending count of
    two: a second publisher incremented the count and is stalled, or an ack
    handler removed its entry and has not lowered the count yet. *)
Definition drain_ctx : jsCtx :=
  mkCtx (mkOptions (Some "$JS.API") None 5000 (mkPublishAsync 1 false 200)) 3 true
        (Some (<["AAAAAAAA" := 1%nat]> ∅))
        true (Some "_INBOX.abcdefgh.") 0 2 1 false.

(** The context after the other threads ran during the wait returns
    [ws]. *)
Definition interfere_all (ws : list wake) (js : jsCtx) : jsCtx :=
  fold_left (fun j w => interfere (wk_by w) j) ws js.

(** The options of a completion call pass [_checkMaxWaitOpt]; the time
    to live they give, and the deadline derived from it (0: none). *)
Definition maxwait_valid (opts : option jsPubOptions) : Prop :=
  match opts with Some o => 0 <= MaxWait o | None => True end.

Definition ttl_of (opts : option jsPubOptions) : Z :=
  match opts with Some o => MaxWait o | None => 0 end.

Definition complete_target (now : Z) (opts : option jsPubOptions) : Z :=
  if 0 <? ttl_of opts then nats_setTargetTime now (ttl_of opts) else 0.

(** A context with two publishes in flight, and wait returns for a caller
    of the completion call at time 1000 with [MaxWait = 100]: an ack at 1030,
    then the deadline at 1100 with the last ack just in. *)
Definition complete_ctx : jsCtx :=
  mkCtx (mkOptions (Some "$JS.API") None 5000 (mkPublishAsync 0 false 200)) 2 true
        (Some (<["AAAAAAAA" := 1%nat]> (<["BBBBBBBB" := 2%nat]> ∅)))
        true (Some "_INBOX.abcdefgh.") 0 2 0 false.

Definition ack_of (token : string) : interference :=
  mkInterference (-1) 0 0 0 (delete token).

Definition complete_wakes : list wake :=
  [mkWake 1030 (ack_of "AAAAAAAA"); mkWake 1100 (ack_of "BBBBBBBB")].

(** The pending count after [n] entries were drained from the map: one
    less per entry as long as it is positive. *)
Definition drained_count (c : Z) (n : nat) : Z :=
  if 0 <? c then Z.max 0 (c - Z.of_nat n) else c.

(** ** The pull fetcher *)

(** Modelled from the spec: the header names and status codes are
    constants of natsp.h, which is not part of this file; "Status /
    Description (status-message classification, e.g. 404/408/503)". *)
Definition STATUS_HDR : string := "Status".
Definition DESCRIPTION_HDR : string := "Description".
Definition NOT_FOUND_STATUS : string := "404".
Definition REQ_TIMEOUT : string := "408".
Definition HDR_STATUS_LEN : nat := 3.

(** The value of the first header named [key]. *)
Fixpoint hdr_lookup (key : string) (hs : list (string * string)) : option string :=
  match hs with
  | [] => None
  | (k, v) :: rest => if decide (k = key) then Some v else hdr_lookup key rest
  end.

(** Modelled from the spec: [natsMsgHeader_Get] (msg.c) is not part of
    this file; "headers read on delivery: Status / Description".  It gives
    the value of the header, [NATS_NOT_FOUND] when the message does not have
    it, or the failure met while reading the headers. *)
Definition natsMsgHeader_Get (m : natsMsg) (key : string) : natsStatus * cstr :=
  match msg_hdrFault m with
  | Some s => (s, None)
  | None =>
      match hdr_lookup key (msg_hdrs m) with
      | Some v => (NATS_OK, Some v)
      | None => (NATS_NOT_FOUND, None)
      end
  end.

(** [strncmp(val, code, HDR_STATUS_LEN) == 0] for a 3-character [code]. *)
Definition status_is (val : cstr) (code : string) : bool :=
  if decide (str_take HDR_STATUS_LEN (default EmptyString val) = code)
  then true else false.

(** [_checkMsg(msg, checkSts, usrMsg, jerr)]: the status, [*usrMsg] and
    the error slot. *)
Definition _checkMsg (m : natsMsg) (checkSts : bool) (e : errSlot)
  : natsStatus * bool * errSlot :=
  if (0 <? msg_dataLen m) || (msg_hdrLen m <=? 0) then (NATS_OK, true, e)
  else
    let '(s, val) := natsMsgHeader_Get m STATUS_HDR in
    if is_not_found s then (NATS_OK, true, e)
    else if negb (is_ok s) then (s, true, e)
    else if negb checkSts then (NATS_OK, false, e)
    else if status_is val NOT_FOUND_STATUS then (NATS_NOT_FOUND, false, e)
    else if status_is val REQ_TIMEOUT then (NATS_OK, false, e)
    else
      let '(_, desc) := natsMsgHeader_Get m DESCRIPTION_HDR in
      let '(s', e') :=
        nats_setError NATS_ERR
          (default "error checking pull subscribe message" desc) e in
      (s', false, e').

(** What surrounds one call of [_sendPullRequest]: the clock, the status
    left by the appends that build the request in the buffer (an append is
    skipped once one has failed), and the status of
    [natsConnection_PublishRequest]. *)
Record req_env := mkReqEnv { rq_now : Z; rq_buf : natsStatus; rq_pub : natsStatus }.

(** The request [{"batch":N,"expires":NS[,"no_wait":true]}] published on
    [subj] with reply [rply]. *)
Record pull_request := mkPullRequest {
  pq_subj    : cstr;
  pq_reply   : cstr;
  pq_batch   : Z;
  pq_expires : Z;
  pq_noWait  : bool
}.

(** [_sendPullRequest(nc, subj, rply, buf, batchSize, timeout, start,
    noWait)]: the status, the new value of [*timeout], the request handed to
    the connection (if the call got that far) and the error slot. *)
Definition _sendPullRequest (subj rply : cstr) (batchSize timeout start : Z)
           (noWait : bool) (re : req_env) (e : errSlot)
  : natsStatus * Z * option pull_request * errSlot :=
  let timeout := int64 (timeout - int64 (rq_now re - start)) in
  if timeout <=? 0 then
    let '(s, e') := nats_setDefaultError NATS_TIMEOUT e in (s, timeout, None, e')
  else
    let expires := if 20 <=? timeout then int64 (timeout - 10) else timeout in
    let expires := int64 (expires * 1000000) in
    if is_ok (rq_buf re) then
      (rq_pub re, timeout,
       Some (mkPullRequest subj rply batchSize expires noWait), e)
    else (rq_buf re, timeout, None, e).

(** One call of [_sendPullRequest], as [natsSubscription_Fetch] makes it. *)
Record pull_call := mkPullCall { pc_batch : Z; pc_noWait : bool }.

(** One return of [natsSub_nextMsg]: the status and the message (not NULL
    when the status is [NATS_OK]). *)
Record next_msg := mkNext { nm_status : natsStatus; nm_msg : option natsMsg }.

(** The variables of [natsSubscription_Fetch] while it collects: [s],
    [count], [msgs], [timeout] and [doNoWait], then the calls of
    [_sendPullRequest] made so far, the requests published, the messages
    destroyed and the error slot. *)
Record fetch_state := mkFetch {
  fs_status    : natsStatus;
  fs_count     : Z;
  fs_msgs      : list natsMsg;
  fs_timeout   : Z;
  fs_noWait    : bool;
  fs_calls     : list pull_call;
  fs_sent      : list pull_request;
  fs_destroyed : list natsMsg;
  fs_err       : errSlot
}.

Definition set_status (st : fetch_state) (s : natsStatus) : fetch_state :=
  mkFetch s (fs_count st) (fs_msgs st) (fs_timeout st) (fs_noWait st)
          (fs_calls st) (fs_sent st) (fs_destroyed st) (fs_err st).

(** [msgs[count++] = msg]. *)
Definition collect (st : fetch_state) (s : natsStatus) (m : natsMsg) (e : errSlot)
  : fetch_state :=
  mkFetch s (fs_count st + 1) (fs_msgs st ++ [m]) (fs_timeout st) (fs_noWait st)
          (fs_calls st) (fs_sent st) (fs_destroyed st) e.

(** [natsMsg_Destroy(msg)]. *)
Definition discard (st : fetch_state) (s : natsStatus) (m : natsMsg) (e : errSlot)
  : fetch_state :=
  mkFetch s (fs_count st) (fs_msgs st) (fs_timeout st) (fs_noWait st)
          (fs_calls st) (fs_sent st) (fs_destroyed st ++ [m]) e.

(** [s = _sendPullRequest(nc, subj, rply, &buf, batch-count, &timeout,
    start, noWait)], [doNoWait] being set to [noWait]. *)
Definition request (subj rply : cstr) (batch start : Z) (noWait : bool)
           (reqs : nat -> req_env) (st : fetch_state) : fetch_state :=
  let remaining := batch - fs_count st in
  let '(s, timeout, rq, e) :=
    _sendPullRequest subj rply remaining (fs_timeout st) start noWait
                     (reqs (length (fs_calls st))) (fs_err st) in
  mkFetch s (fs_count st) (fs_msgs st) timeout noWait
          (fs_calls st ++ [mkPullCall remaining noWait])
          (fs_sent st ++ match rq with Some r => [r] | None => [] end)
          (fs_destroyed st) e.

Section Fetch.

(** The subjects, the batch size, the clock at the start, and the
    surroundings of the successive calls of [_sendPullRequest]. *)
Variable subj rply : cstr.
Variable batch : Z.
Variable start : Z.
Variable reqs : nat -> req_env.

(** The body of the first loop, for one return of [natsSub_nextMsg]:
    only user messages count, status messages are destroyed.  [None]: the
    return is [NATS_OK] without a message. *)
Definition drain_step (n : next_msg) (st : fetch_state) : option fetch_state :=
  if is_ok (nm_status n) then
    match nm_msg n with
    | None => None
    | Some m =>
        let '(s, usrMsg, e) := _checkMsg m false (fs_err st) in
        Some (if is_ok s && usrMsg then collect st s m e else discard st s m e)
    end
  else Some (set_status st (nm_status n)).

(** [while (pmc && (s == NATS_OK) && (count < batch)) { ... }].  The
    result carries the returns of [natsSub_nextMsg] not used yet; it is
    [None] when they run out before the loop ends. *)
Fixpoint fetch_drain (pmc : bool) (nexts : list next_msg) (st : fetch_state)
  : option (fetch_state * list next_msg) :=
  if pmc && is_ok (fs_status st) && (fs_count st <? batch) then
    match nexts with
    | [] => None
    | n :: rest =>
        match drain_step n st with
        | None => None
        | Some st' => fetch_drain pmc rest st'
        end
    end
  else Some (st, nexts).

(** The body of the second loop: statuses are checked, and a 404 answering
    a "no_wait" request before any message was collected makes the request
    be sent again, to wait this time. *)
Definition wait_step (n : next_msg) (st : fetch_state) : option fetch_state :=
  if is_ok (nm_status n) then
    match nm_msg n with
    | None => None
    | Some m =>
        let '(s, usrMsg, e) := _checkMsg m true (fs_err st) in
        if is_ok s && usrMsg then Some (collect st s m e)
        else
          let st := discard st s m e in
          if fs_noWait st && is_not_found s && (fs_count st =? 0)
          then Some (request subj rply batch start false reqs st)
          else Some st
    end
  else Some (set_status st (nm_status n)).

(** [while ((s == NATS_OK) && (count < batch)) { ... }]. *)
Fixpoint fetch_wait (nexts : list next_msg) (st : fetch_state)
  : option fetch_state :=
  if is_ok (fs_status st) && (fs_count st <? batch) then
    match nexts with
    | [] => None
    | n :: rest =>
        match wait_step n st with
        | None => None
        | Some st' => fetch_wait rest st'
        end
    end
  else Some st.

(** From [start = nats_Now()] to [natsBuf_Destroy(&buf)]: the queued
    messages first, then, short of [batch] messages, one request and the
    wait for its answers. *)
Definition fetch_collect (pmc : bool) (timeout : Z) (nexts : list next_msg)
           (e : errSlot) : option fetch_state :=
  match fetch_drain pmc nexts (mkFetch NATS_OK 0 [] timeout false [] [] [] e) with
  | None => None
  | Some (st, nexts) =>
      if (is_ok (fs_status st) || is_timeout (fs_status st))
         && negb (fs_count st =? batch)
      then
        let doNoWait := 1 <? batch - fs_count st in
        fetch_wait nexts (request subj rply batch start doNoWait reqs st)
      else Some st
  end.

End Fetch.

(** What [natsSubscription_Fetch] leaves behind: the status, the list
    ([list->Msgs] and [list->Count]), and, from the collecting phase, the
    calls of [_sendPullRequest], the requests published and the messages
    destroyed; then the error slot. *)
Record fetch_result := mkFetchResult {
  fr_status    : natsStatus;
  fr_msgs      : list natsMsg;
  fr_count     : Z;
  fr_calls     : list pull_call;
  fr_sent      : list pull_request;
  fr_destroyed : list natsMsg;
  fr_err       : errSlot
}.

(** The end of [natsSubscription_Fetch], from [if (count > 0)] on. *)
Definition fetch_finish (st : fetch_state) : fetch_result :=
  if 0 <? fs_count st then
    mkFetchResult NATS_OK (fs_msgs st) (fs_count st) (fs_calls st) (fs_sent st)
                  (fs_destroyed st)
                  (if is_ok (fs_status st) then fs_err st
                   else nats_clearLastError (fs_err st))
  else
    mkFetchResult (fs_status st) [] 0 (fs_calls st) (fs_sent st)
                  (fs_destroyed st) (fs_err st).

Definition fetch_fail (r : natsStatus * errSlot) : fetch_result :=
  mkFetchResult r.1 [] 0 [] [] [] r.2.

(** Modelled from the spec: the text [jsErrNotAPullSubscription] is a
    constant of js.h, which is not part of this file; "InvalidSubscription:
    not a JS sub / not a pull sub". *)
Definition jsErrNotAPullSubscription : string := "not a pull sub".

(** [natsSubscription_Fetch(list, sub, batch, timeout, errCode)]:
    [has_list] tells whether [list] is not NULL, [calloc_ok] whether the
    array of [batch] messages is allocated, [start] is the clock read before
    the first loop and [nexts] the successive returns of [natsSub_nextMsg].
    [None]: the returns ran out while the call was still collecting. *)
Definition natsSubscription_Fetch (has_list : bool) (sub : option natsSubscription)
           (batch timeout : Z) (calloc_ok : bool) (start : Z)
           (reqs : nat -> req_env) (nexts : list next_msg) (e : errSlot)
  : option fetch_result :=
  if negb has_list then Some (fetch_fail (nats_setDefaultError NATS_INVALID_ARG e))
  else
    match sub with
    | None => Some (fetch_fail (nats_setDefaultError NATS_INVALID_ARG e))
    | Some sub =>
        if batch <=? 0
        then Some (fetch_fail (nats_setDefaultError NATS_INVALID_ARG e))
        else if timeout <=? 0
        then Some (fetch_fail (nats_setDefaultError NATS_INVALID_TIMEOUT e))
        else
          match sub_jsi sub with
          | None =>
              Some (fetch_fail (nats_setError NATS_INVALID_SUBSCRIPTION
                                              jsErrNotAPullSubscription e))
          | Some jsi =>
              if negb (jsi_pull jsi) then
                Some (fetch_fail (nats_setError NATS_INVALID_SUBSCRIPTION
                                                jsErrNotAPullSubscription e))
              else if negb calloc_ok then
                Some (fetch_fail (nats_setDefaultError NATS_NO_MEMORY e))
              else
                let pmc := 0 <? sub_msgs sub in
                option_map fetch_finish
                  (fetch_collect (jsi_nxtMsgSubj jsi) (sub_subject sub) batch start
                                 reqs pmc timeout nexts e)
          end
    end.

(** A pull subscription with nothing queued, and the messages of the third
    scenario of the specification: a 404 status, three user messages, a
    408 status. *)
Definition pull_sub : natsSubscription :=
  mkSub (Some "_INBOX.pull")
        (Some (mkJsSub (mkOptions (Some "$JS.API") None 5000 (mkPublishAsync 0 false 200))
                       true (Some "$JS.API.CONSUMER.MSG.NEXT.ORDERS.dur")))
        0.

Definition status_msg (code : string) : natsMsg :=
  mkMsg (Some "_INBOX.pull") None 0 16 [("Status", code)] None false (Some pull_sub).

Definition user_msg (n : Z) : natsMsg :=
  mkMsg (Some "ORDERS.new") (Some "$JS.ACK.ORDERS.dur.1.42.7.1700000000000000000.3")
        n 0 [] None false (Some pull_sub).

Definition got (m : natsMsg) : next_msg := mkNext NATS_OK (Some m).


Definition scenario_reqs (i : nat) : req_env := mkReqEnv (1000 + Z.of_nat i) NATS_OK NATS_OK.

(** ** Notions used to state the fetcher's properties *)


(** A message the fetch keeps for the caller: it has a payload, or no
    header, or no [Status] header. *)
Definition user_message (m : natsMsg) : bool :=
  (0 <? msg_dataLen m) || (msg_hdrLen m <=? 0)
  || is_not_found (natsMsgHeader_Get m STATUS_HDR).1.

(** The user message, and the other message, that a return of
    [natsSub_nextMsg] hands over. *)
Definition kept (n : next_msg) : option natsMsg :=
  if is_ok (nm_status n) then
    match nm_msg n with
    | Some m => if user_message m then Some m else None
    | None => None
    end
  else None.

Definition dropped (n : next_msg) : option natsMsg :=
  if is_ok (nm_status n) then
    match nm_msg n with
    | Some m => if user_message m then None else Some m
    | None => None
    end
  else None.

Definition user_messages (l : list next_msg) : list natsMsg := omap kept l.
Definition other_messages (l : list next_msg) : list natsMsg := omap dropped l.

(** The number of user messages among returns. *)
Definition held (l : list next_msg) : Z := Z.of_nat (length (user_messages l)).

(** The status in which a return of [natsSub_nextMsg] leaves [s]: its own
    when it failed, else the one [_checkMsg] finds in the message; and the
    error slot it leaves. *)
Definition return_status (checkSts : bool) (n : next_msg) : natsStatus :=
  if is_ok (nm_status n) then
    match nm_msg n with
    | Some m => (_checkMsg m checkSts None).1.1
    | None => NATS_OK
    end
  else nm_status n.

Definition return_err (checkSts : bool) (n : next_msg) (e : errSlot) : errSlot :=
  if is_ok (nm_status n) then
    match nm_msg n with
    | Some m => (_checkMsg m checkSts e).2
    | None => e
    end
  else e.

(** The status and the error slot after the last of some returns. *)
Definition last_status (checkSts : bool) (l : list next_msg) : natsStatus :=
  from_option (return_status checkSts) NATS_OK (last l).

Definition last_err (checkSts : bool) (l : list next_msg) (e : errSlot) : errSlot :=
  from_option (fun n => return_err checkSts n e) e (last l).

(** A status message with code 404 handed over by [natsSub_nextMsg]. *)
Definition no_messages (n : next_msg) : bool :=
  is_ok (nm_status n) && is_not_found (return_status true n).

(** The returns taken by a loop that goes on while the status is
    [NATS_OK] and fewer than [batch] messages are held, [k] being held
    when it starts: all but the last leave the status at [NATS_OK] and the
    batch short; the last fills the batch or leaves another status. *)
Definition taken (checkSts : bool) (batch k : Z) (l : list next_msg) : Prop :=
  exists a al,
    l = (a ++ [al])%list /\
    Forall (fun n => return_status checkSts n = NATS_OK) a /\
    k + held a < batch /\
    (return_status checkSts al <> NATS_OK \/ k + held l = batch).

(** The outcome of a call of [_sendPullRequest]. *)
Definition po_status (o : natsStatus * Z * option pull_request * errSlot)
  : natsStatus := o.1.1.1.
Definition po_timeout (o : natsStatus * Z * option pull_request * errSlot)
  : Z := o.1.1.2.
Definition po_request (o : natsStatus * Z * option pull_request * errSlot)
  : option pull_request := o.1.2.
Definition po_err (o : natsStatus * Z * option pull_request * errSlot)
  : errSlot := o.2.

Section FetchEnds.

(** The subjects, the batch size, the timeout, the clock at the start, the
    surroundings of the calls of [_sendPullRequest], whether messages were
    pending in the subscription, and the error slot at the start. *)
Variable subj rply : cstr.
Variable batch timeout start : Z.
Variable reqs : nat -> req_env.
Variable pmc : bool.
Variable e : errSlot.

(** What the first loop takes from the queue: nothing when no message was
    pending. *)
Definition drained (queued : list next_msg) : Prop :=
  if pmc then taken false batch 0 queued else queued = [].

(** Whether a request is sent once the queue is drained: the status is
    [NATS_OK] or [NATS_TIMEOUT] and the batch is short. *)
Definition asks (queued : list next_msg) : bool :=
  (is_ok (last_status false queued) || is_timeout (last_status false queued))
  && negb (held queued =? batch).

(** The first request: for the messages still missing, with "no_wait"
    exactly when more than one is missing. *)
Definition first_call (queued : list next_msg) : pull_call :=
  mkPullCall (batch - held queued) (1 <? batch - held queued).

Definition first_request (queued : list next_msg)
  : natsStatus * Z * option pull_request * errSlot :=
  _sendPullRequest subj rply (batch - held queued) timeout start
                   (1 <? batch - held queued) (reqs 0%nat) e.

(** The second request: for the whole batch, without "no_wait", with the
    time the first one left. *)
Definition second_call : pull_call := mkPullCall batch false.

Definition second_request (queued : list next_msg)
  : natsStatus * Z * option pull_request * errSlot :=
  _sendPullRequest subj rply batch (po_timeout (first_request queued)) start
                   false (reqs 1%nat) e.

(** Whether the answers to the first request end on the 404 that makes the
    request be sent again: "no_wait" was asked, no user message is held and
    the last answer is a 404 status. *)
Definition resends (queued answers : list next_msg) : bool :=
  (1 <? batch - held queued) && (held (queued ++ answers) =? 0)
  && from_option no_messages false (last answers).

(** How the collecting phase of a fetch ends: the returns of
    [natsSub_nextMsg] it took, the calls of [_sendPullRequest] it made, the
    requests it published, and the status and error slot it ends on. *)
Inductive fetch_ends
  : list next_msg -> list pull_call -> list pull_request -> natsStatus -> errSlot
    -> Prop :=
| ends_in_queue queued :
    drained queued -> asks queued = false ->
    fetch_ends queued [] [] (last_status false queued) e
| ends_at_request queued :
    drained queued -> asks queued = true ->
    is_ok (po_status (first_request queued)) = false ->
    fetch_ends queued [first_call queued]
               (option_list (po_request (first_request queued)))
               (po_status (first_request queued)) (po_err (first_request queued))
| ends_in_answers queued answers :
    drained queued -> asks queued = true ->
    is_ok (po_status (first_request queued)) = true ->
    taken true batch (held queued) answers ->
    resends queued answers = false ->
    fetch_ends (queued ++ answers) [first_call queued]
               (option_list (po_request (first_request queued)))
               (last_status true answers) (last_err true answers e)
| ends_at_second_request queued answers :
    drained queued -> asks queued = true ->
    is_ok (po_status (first_request queued)) = true ->
    taken true batch (held queued) answers ->
    resends queued answers = true ->
    is_ok (po_status (second_request queued)) = false ->
    fetch_ends (queued ++ answers) [first_call queued; second_call]
               (option_list (po_request (first_request queued))
                ++ option_list (po_request (second_request queued)))
               (po_status (second_request queued)) (po_err (second_request queued))
| ends_in_second_answers queued answers more :
    drained queued -> asks queued = true ->
    is_ok (po_status (first_request queued)) = true ->
    taken true batch (held queued) answers ->
    resends queued answers = true ->
    is_ok (po_status (second_request queued)) = true ->
    taken true batch 0 more ->
    fetch_ends (queued ++ answers ++ more) [first_call queued; second_call]
               (option_list (po_request (first_request queued))
                ++ option_list (po_request (second_request queued)))
               (last_status true more) (last_err true more e).

End FetchEnds.

(** Enough returns for any fetch to end: every return with [NATS_OK]
    hands over a message, and [natsSub_nextMsg] fails (times out) at least
    twice, once for each loop. *)
Fixpoint failures (nexts : list next_msg) : nat :=
  match nexts with
  | [] => 0
  | n :: rest => (if is_ok (nm_status n) then 0 else 1) + failures rest
  end.

Definition returns_suffice (nexts : list next_msg) : Prop :=
  Forall (fun n => nm_status n = NATS_OK -> nm_msg n <> None) nexts /\
  (2 <= failures nexts)%nat.

(** The state [st'] holds what [st] held and what the returns [l] handed
    over, and made no request since. *)
Definition grown (st : fetch_state) (l : list next_msg) (st' : fetch_state) : Prop :=
  fs_msgs st' = (fs_msgs st ++ user_messages l)%list /\
  fs_destroyed st' = (fs_destroyed st ++ other_messages l)%list /\
  fs_count st' = fs_count st + held l /\
  fs_calls st' = fs_calls st /\ fs_sent st' = fs_sent st /\
  fs_timeout st' = fs_timeout st /\ fs_noWait st' = fs_noWait st.

(** A pull subscription with messages queued, and a fetch of 5 messages
    on it: the queue hands over a user message and a status message and is
    then empty; the request is answered by a user message and by a status
    that is an error. *)
Definition queued_sub : natsSubscription :=
  mkSub (Some "_INBOX.pull")
        (Some (mkJsSub (mkOptions (Some "$JS.API") None 5000 (mkPublishAsync 0 false 200))
                       true (Some "$JS.API.CONSUMER.MSG.NEXT.ORDERS.dur")))
        2.

Definition queued_nexts : list next_msg :=
  [got (user_msg 1); got (status_msg "100"); mkNext NATS_TIMEOUT None;
   got (user_msg 2); got (status_msg "409"); mkNext NATS_TIMEOUT None].

Definition queued_fetch : option fetch_result :=
  natsSubscription_Fetch true (Some queued_sub) 5 1000 true 1000
                         scenario_reqs queued_nexts None.

(** The same fetch when the queue holds the status message only and the
    answer is the error. *)
Definition failed_nexts : list next_msg :=
  [got (status_msg "100"); mkNext NATS_TIMEOUT None;
   got (status_msg "409"); mkNext NATS_TIMEOUT None].

Definition failed_fetch : option fetch_result :=
  natsSubscription_Fetch true (Some queued_sub) 5 1000 true 1000
                         scenario_reqs failed_nexts None.


(** ** Notions used to state the properties of reply tokens *)

(** The position of a character in [jsDigits]. *)
Fixpoint index_in (c : ascii) (s : string) : option Z :=
  match s with
  | EmptyString => None
  | String d r => if Ascii.eqb c d then Some 0 else option_map Z.succ (index_in c r)
  end.

Definition digit_value (c : ascii) : option Z := index_in c jsDigits.

(** The number a token stands for: its characters are base-62 digits,
    least significant first. *)
Fixpoint token_value (s : string) : Z :=
  match s with
  | EmptyString => 0
  | String c r => default 0 (digit_value c) + jsBase * token_value r
  end.

(** Every character of [s] is one of [jsDigits]. *)
Fixpoint all_digits (s : string) : bool :=
  match s with
  | EmptyString => true
  | String c r =>
      match digit_value c with Some _ => all_digits r | None => false end
  end.

(** A reply subscription being created for the first time, all going
    well, with a 29-character inbox. *)
Definition fresh_ctx : jsCtx :=
  mkCtx (mkOptions (Some "$JS.API") None 5000 (mkPublishAsync 0 false 200)) 1 false
        None false None 0 0 0 false.

(** ** Pub acks: [js_unmarshalResponse] and [_handleAsyncReply] *)

(** The [Error] part of [jsApiResponse], zeroed by [memset]. *)
Record jsApiResponse := mkApiResponse {
  Error_Code        : Z;
  Error_ErrCode     : Z;
  Error_Description : cstr
}.

Definition apiResponse_zero : jsApiResponse := mkApiResponse 0 0 None.

(** What the JSON functions (util.c, not part of this file) answer on the
    payload of a response: the status of [nats_JSONParse], of
    [nats_JSONGetObject] for ["error"] with whether the object is there, and
    of the three getters on that object with the value each one stores. *)
Record json_env := mkJsonEnv {
  je_parse       : natsStatus;
  je_error       : natsStatus * bool;
  je_code        : natsStatus * Z;
  je_err_code    : natsStatus * Z;
  je_description : natsStatus * cstr
}.

(** [js_unmarshalResponse(ar, new_json, resp)]: the status, [*ar], whether
    [*new_json] receives the JSON object, and whether the object was given
    to [nats_JSONDestroy]. *)
Definition js_unmarshalResponse (j : json_env)
  : natsStatus * jsApiResponse * bool * bool :=
  let ar := apiResponse_zero in
  let s := je_parse j in
  if negb (is_ok s) then (s, ar, false, false)
  else
    let '(s, present) := je_error j in
    let '(s, ar) :=
      if is_ok s && present then
        let '(s, code) := je_code j in
        let ar := mkApiResponse code (Error_ErrCode ar) (Error_Description ar) in
        let '(s, ar) :=
          if is_ok s then
            let '(s', ec) := je_err_code j in
            (s', mkApiResponse (Error_Code ar) ec (Error_Description ar))
          else (s, ar) in
        if is_ok s then
          let '(s', d) := je_description j in
          (s', mkApiResponse (Error_Code ar) (Error_ErrCode ar) d)
        else (s, ar)
      else (s, ar) in
    if is_ok s then (s, ar, true, false) else (s, ar, false, true).

(** [jsPubAckErr], as handed to the error handler. *)
Record jsPubAckErr := mkPubAckErr {
  pae_Msg     : option natsMsgPtr;
  pae_Err     : natsStatus;
  pae_ErrCode : Z;
  pae_ErrText : string
}.

(** A message received on the reply subscription: its address, its
    subject, what [natsMsg_IsNoResponders] says of it and what the JSON
    functions find in its payload. *)
Record ack_msg := mkAckMsg {
  am_ptr          : natsMsgPtr;
  am_subject      : cstr;
  am_noResponders : bool;
  am_json         : json_env
}.

(** The outcome of [_handleAsyncReply]: the context, the call made to the
    error handler, whether the condition was broadcast, and the messages
    given to [natsMsg_Destroy], in order. *)
Record reply_result := mkReplyResult {
  hr_js        : jsCtx;
  hr_handled   : option jsPubAckErr;
  hr_broadcast : bool;
  hr_destroyed : list natsMsgPtr
}.

Section HandleAsyncReply.

Variable NATS_INBOX_PRE_LEN : nat.

(** [js_apiResponseIsErr] and [natsStatus_GetText] are not part of this
    file. *)
Variable js_apiResponseIsErr : jsApiResponse -> bool.
Variable natsStatus_GetText : natsStatus -> string.

(** [snprintf(errTxt, sizeof(errTxt), "%s", txt)] with [errTxt[256]]. *)
Definition errTxt_of (txt : string) : string := str_take 255 txt.

(** The classification of the reply when an error handler is installed:
    [pae.Err], [pae.ErrCode] and [errTxt].  The result is [None] when the
    description printed is NULL. *)
Definition classify (m : ack_msg) : option (natsStatus * Z * string) :=
  let '(s, err, code, txt) :=
    if am_noResponders m then (NATS_NO_RESPONDERS, NATS_OK, 0, Some EmptyString)
    else
      let '(s, ar, _, _) := js_unmarshalResponse (am_json m) in
      if is_ok s && js_apiResponseIsErr ar
      then (s, NATS_ERR, Error_ErrCode ar, errTxt_of <$> Error_Description ar)
      else (s, NATS_OK, 0, Some EmptyString) in
  let '(err, txt) :=
    if negb (is_ok s) then (s, Some (errTxt_of (natsStatus_GetText s)))
    else (err, txt) in
  match txt with
  | Some t => Some (err, code, t)
  | None => None
  end.

(** [_handleAsyncReply(nc, sub, msg, closure)], [closure] being the
    context.  [handler] is the user's error handler, giving the value of
    [pae.Msg] when it returns; [during] is what the handler and the other
    threads did to the context while the handler ran, the mutex being
    released.  The result is [None] where the C code is undefined: the map
    is NULL, or a NULL description is printed. *)
Definition _handleAsyncReply (handler : jsPubAckErr -> option natsMsgPtr)
           (during : interference) (js : jsCtx) (m : ack_msg)
  : option reply_result :=
  match am_subject m with
  | None => Some (mkReplyResult js None false [am_ptr m])
  | Some subject =>
      if (String.length subject <=? jsReplyPrefixLen NATS_INBOX_PRE_LEN)%nat
      then Some (mkReplyResult js None false [am_ptr m])
      else
        let key := reply_id NATS_INBOX_PRE_LEN subject in
        match js_pm js with
        | None => None
        | Some h =>
            match natsStrHash_Remove h key with
            | (None, _) => Some (mkReplyResult js None false [am_ptr m])
            | (Some pmsg, h') =>
                let js := set_pm js (Some h') in
                let opa := PublishAsync (js_opts js) in
                let finish (js : jsCtx) (call : option jsPubAckErr)
                           (pmsg' : option natsMsgPtr) :=
                  let js := set_pmcount js (int64 (js_pmcount js - 1)) in
                  let b := ((0 <? js_pacw js) && (js_pmcount js =? 0))
                           || ((0 <? js_stalled js)
                               && (js_pmcount js <=? MaxPending opa)) in
                  mkReplyResult js call b
                    (match pmsg' with Some p => [p] | None => [] end
                     ++ [am_ptr m])%list in
                if ErrHandler opa then
                  match classify m with
                  | None => None
                  | Some (err, code, txt) =>
                      if negb (is_ok err) then
                        let pae := mkPubAckErr (Some pmsg) err code txt in
                        let after := handler pae in
                        let js := interfere during js in
                        Some (finish js (Some pae)
                                (if decide (after = Some pmsg)
                                 then Some pmsg else None))
                      else Some (finish js None (Some pmsg))
                  end
                else Some (finish js None (Some pmsg))
            end
        end
  end.

End HandleAsyncReply.

(** ** Notions used to state the properties of pub acks *)

(** The pending count equals the number of inflight entries, and the
    count is that of an [int64_t]. *)
Definition balanced (js : jsCtx) : Prop :=
  match js_pm js with
  | Some h => js_pmcount js = natsStrHash_Count h
  | None => js_pmcount js = 0
  end.

(** A handler that leaves [pae.Msg] as it is, and one that takes the
    message over (it published it again and cleared [pae.Msg]). *)
Definition handler_keeps (pae : jsPubAckErr) : option natsMsgPtr := pae_Msg pae.
Definition handler_resends (_ : jsPubAckErr) : option natsMsgPtr := None.

(** Sample collaborators and replies: a response is an error when its
    code is not zero; an ack for the token ["AAAAAAAA"] of [collide_ctx],
    a reply without responders and an error response. *)
Definition sample_isErr (ar : jsApiResponse) : bool := negb (Error_Code ar =? 0).
Definition sample_text (s : natsStatus) : string :=
  match s with NATS_NO_RESPONDERS => "No responders" | _ => "Error" end.

Definition json_ok : json_env :=
  mkJsonEnv NATS_OK (NATS_OK, false) (NATS_OK, 0) (NATS_OK, 0) (NATS_OK, None).
Definition json_err : json_env :=
  mkJsonEnv NATS_OK (NATS_OK, true) (NATS_OK, 503) (NATS_OK, 10077)
            (NATS_OK, Some "maximum messages exceeded").

Definition ack_ok : ack_msg :=
  mkAckMsg 9%nat (Some "_INBOX.abcdefgh.AAAAAAAA") false json_ok.
Definition ack_noresp : ack_msg :=
  mkAckMsg 9%nat (Some "_INBOX.abcdefgh.AAAAAAAA") true json_ok.
Definition ack_err : ack_msg :=
  mkAckMsg 9%nat (Some "_INBOX.abcdefgh.AAAAAAAA") false json_err.
Definition ack_stray : ack_msg :=
  mkAckMsg 9%nat (Some "_INBOX.abcdefgh.ZZZZZZZZ") false json_ok.

Definition handler_ctx : jsCtx :=
  mkCtx (mkOptions (Some "$JS.API") None 5000 (mkPublishAsync 0 true 200)) 2 true
        (Some (<["AAAAAAAA" := 1%nat]> ∅))
        true (Some "_INBOX.abcdefgh.") 0 1 0 false.

(** The end of [_handleAsyncReply] once the entry is removed: the count is
    lowered, the waiters woken and the messages destroyed. *)
Definition ack_finish (maxp : Z) (m : ack_msg) (js : jsCtx)
           (call : option jsPubAckErr) (pmsg' : option natsMsgPtr) : reply_result :=
  let js := set_pmcount js (int64 (js_pmcount js - 1)) in
  mkReplyResult js call
    (((0 <? js_pacw js) && (js_pmcount js =? 0))
     || ((0 <? js_stalled js) && (js_pmcount js <=? maxp)))
    (match pmsg' with Some p => [p] | None => [] end ++ [am_ptr m])%list.


(** An environment drawing a token that is not in flight, and one in
    which the entry cannot be stored. *)
Definition fresh_env : pub_env := mkPubEnv 1000 quiet_init 12345 [] true.
Definition nomem_env : pub_env := mkPubEnv 1000 quiet_init 12345 [] false.


(** Starting from the count [c], every return of the wait in [ws] comes
    before the deadline, the count is above [maxp] after each of them but
    the last, and at most [maxp] after the last. *)
Fixpoint released_by (maxp target c : Z) (ws : list wake) : Prop :=
  match ws with
  | [] => False
  | w :: ws' =>
      wk_now w < target /\
      match ws' with
      | [] => int64 (c + i_pmcount (wk_by w)) <= maxp
      | _ :: _ =>
          maxp < int64 (c + i_pmcount (wk_by w)) /\
          released_by maxp target (int64 (c + i_pmcount (wk_by w))) ws'
      end
  end.

(** The stalled publisher of [stall_ctx] sees an ack for ["AAAAAAAA"] at
    1020, before its deadline 1050. *)
Definition release_env : pub_env :=
  mkPubEnv 1000 quiet_init 12345 [mkWake 1020 (ack_of "AAAAAAAA")] true.

(** ** The life of a context: creation, references, destruction *)

(** [js_retain(js)] and [js_release(js)], the public versions of
    [_retain] and [js_unlockAndRelease]: they take the mutex themselves. *)
Definition js_retain (js : jsCtx) : jsCtx := set_refs js (int32 (js_refs js + 1)).

Definition js_release (js : jsCtx) : jsCtx :=
  let js1 := set_refs js (int32 (js_refs js - 1)) in
  if js_refs js1 =? 0 then set_freed js1 else js1.

(** [_subComplete(closure)], the completion callback of the reply
    subscription. *)
Definition _subComplete (js : jsCtx) : jsCtx := js_release js.

Definition set_rsub (js : jsCtx) (v : bool) : jsCtx :=
  mkCtx (js_opts js) (js_refs js) (js_cond js) (js_pm js) v (js_rpre js)
        (js_pacw js) (js_pmcount js) (js_stalled js) (js_freed js).

(** The loop of [jsCtx_Destroy] over the inflight map: every entry is
    removed and its message destroyed.  [entries] are the entries in the
    order of the iterator. *)
Fixpoint destroy_entries (entries : list (string * natsMsgPtr))
         (h : gmap string natsMsgPtr) (msgs : list natsMsgPtr)
  : gmap string natsMsgPtr * list natsMsgPtr :=
  match entries with
  | [] => (h, msgs)
  | (k, v) :: rest => destroy_entries rest (delete k h) (msgs ++ [v])
  end.

(** [jsCtx_Destroy(js)]: the context, whether the reply subscription was
    given to [natsSubscription_Destroy], and the messages given to
    [natsMsg_Destroy], in order. *)
Definition jsCtx_Destroy (js : option jsCtx)
  : option jsCtx * bool * list natsMsgPtr :=
  match js with
  | None => (None, false, [])
  | Some js =>
      let sub := js_rsub js in
      let js := if js_rsub js then set_rsub js false else js in
      let '(js, msgs) :=
        match js_pm js with
        | Some h =>
            if 0 <? natsStrHash_Count h then
              let '(h', msgs) := destroy_entries (map_to_list h) h [] in
              (set_pm js (Some h'), msgs)
            else (js, [])
        | None => (js, [])
        end in
      (Some (js_unlockAndRelease js), sub, msgs)
  end.

(** ** [natsConnection_JetStream] and [js_setOpts] *)

(** [jsOptions.Stream]: the purge options and the stream info option. *)
Record jsOptionsStreamPurge := mkPurge {
  Purge_Subject  : cstr;
  Purge_Sequence : Z;
  Purge_Keep     : Z
}.

Record jsOptionsStream := mkStream {
  Stream_Purge          : jsOptionsStreamPurge;
  Info_DeletedDetails   : bool
}.

Definition stream_zero : jsOptionsStream := mkStream (mkPurge None 0 0) false.

(** The options as the caller gives them: the fields of [jsOptions] used
    by the publish pipeline, and the [Stream] part. *)
Record jsOptionsArg := mkOptionsArg {
  oa_opts   : jsOptions;
  oa_stream : jsOptionsStream
}.

Definition jsDefaultAPIPrefix : string := "$JS.API".
Definition jsDefaultRequestWait : Z := 5000.
Definition jsDefaultStallWait : Z := 200.

(** The last character of a string. *)
Fixpoint last_char (s : string) : option ascii :=
  match s with
  | EmptyString => None
  | String c EmptyString => Some c
  | String _ r => last_char r
  end.

(** [js_lenWithoutTrailingDot(str)]; on the empty string the C code reads
    [str[-1]]: no result. *)
Definition js_lenWithoutTrailingDot (str : string) : option nat :=
  match last_char str with
  | None => None
  | Some c =>
      if Ascii.eqb c "."%char then Some (String.length str - 1)%nat
      else Some (String.length str)
  end.

(** ["%.*s"] with the length given by [js_lenWithoutTrailingDot]. *)
Definition without_trailing_dot (str : string) : option string :=
  (fun l => str_take l str) <$> js_lenWithoutTrailingDot str.

(** The prefix with which a domain is reached. *)
Definition domain_prefix (domain : string) : option string :=
  (fun d => "$JS." ++ d ++ ".API") <$> without_trailing_dot domain.

(** What the allocator and the mutex creation answer during the creation
    of a context. *)
Record new_env := mkNewEnv {
  ne_calloc  : bool;
  ne_mutex   : natsStatus;
  ne_prefix  : bool;
  ne_subject : bool
}.

(** The outcome of [natsConnection_JetStream]: the status, what
    [*new_js] receives with the [Stream] options of the context beside it,
    the context given to [jsCtx_Destroy] on failure, the change in the
    reference count of the connection, and the error slot. *)
Record new_result := mkNewResult {
  nr_status  : natsStatus;
  nr_js      : option (jsCtx * jsOptionsStream);
  nr_dropped : option jsCtx;
  nr_conn    : Z;
  nr_err     : errSlot
}.

(** [_copyPurgeOptions(js, o)]. *)
Definition _copyPurgeOptions (strdup_ok : bool) (o : jsOptionsStreamPurge)
           (e : errSlot) : natsStatus * jsOptionsStreamPurge * errSlot :=
  let po := mkPurge None (Purge_Sequence o) (Purge_Keep o) in
  if negb (nats_IsStringEmpty (Purge_Subject o)) then
    if strdup_ok
    then (NATS_OK, mkPurge (Purge_Subject o) (Purge_Sequence o) (Purge_Keep o), e)
    else let '(s, e') := nats_setDefaultError NATS_NO_MEMORY e in (s, po, e')
  else (NATS_OK, po, e).

(** [natsConnection_JetStream(new_js, nc, opts)]: [new_js_ok] and [nc_ok]
    tell whether the two pointers are not NULL.  No result is given when
    the mutex cannot be created ([jsCtx_Destroy] then locks a NULL mutex,
    and what that does is decided outside this file) or when the domain or
    prefix printed is empty with a length taken at [str[-1]]. *)
Definition natsConnection_JetStream (env : new_env) (new_js_ok nc_ok : bool)
           (opts : option jsOptionsArg) (e : errSlot) : option new_result :=
  if negb new_js_ok || negb nc_ok then
    let '(s, e') := nats_setDefaultError NATS_INVALID_ARG e in
    Some (mkNewResult s None None 0 e')
  else if match opts with Some o => Wait (oa_opts o) <? 0 | None => false end then
    let '(s, e') :=
      nats_setError NATS_INVALID_ARG "option 'Wait' cannot be negative" e in
    Some (mkNewResult s None None 0 e')
  else if match opts with
          | Some o => StallWait (PublishAsync (oa_opts o)) <? 0
          | None => false
          end then
    let '(s, e') :=
      nats_setError NATS_INVALID_ARG
        "option 'PublishAsyncStallWait' cannot be negative" e in
    Some (mkNewResult s None None 0 e')
  else if negb (ne_calloc env) then
    let '(s, e') := nats_setDefaultError NATS_NO_MEMORY e in
    Some (mkNewResult s None None 0 e')
  else if negb (is_ok (ne_mutex env)) then None
  else
    let conn := 1 in
    let wanted : option string :=
      match opts with
      | Some o =>
          if negb (nats_IsStringEmpty (Domain (oa_opts o)))
          then domain_prefix (default EmptyString (Domain (oa_opts o)))
          else if nats_IsStringEmpty (Prefix (oa_opts o))
               then Some jsDefaultAPIPrefix
               else without_trailing_dot (default EmptyString (Prefix (oa_opts o)))
      | None => Some jsDefaultAPIPrefix
      end in
    match wanted with
    | None => None
    | Some pfx =>
        let '(s, prefix, e) :=
          if ne_prefix env then (NATS_OK, Some pfx, e)
          else let '(s, e') := nats_setDefaultError NATS_NO_MEMORY e in
               (s, None, e') in
        let pa :=
          match opts with
          | Some o =>
              if is_ok s then
                (PublishAsync (oa_opts o), Wait (oa_opts o))
              else (mkPublishAsync 0 false 0, 0)
          | None => (mkPublishAsync 0 false 0, 0)
          end in
        let wait := if snd pa =? 0 then jsDefaultRequestWait else snd pa in
        let stall := if StallWait (fst pa) =? 0 then jsDefaultStallWait
                     else StallWait (fst pa) in
        let '(s, stream, e) :=
          match opts with
          | Some o =>
              if is_ok s then
                let '(s', po, e') :=
                  _copyPurgeOptions (ne_subject env) (Stream_Purge (oa_stream o)) e in
                (s', mkStream po (if is_ok s'
                                  then Info_DeletedDetails (oa_stream o)
                                  else false), e')
              else (s, stream_zero, e)
          | None => (s, stream_zero, e)
          end in
        let js :=
          mkCtx (mkOptions prefix None wait
                   (mkPublishAsync (MaxPending (fst pa)) (ErrHandler (fst pa)) stall))
                1 false None false None 0 0 0 false in
        if is_ok s then Some (mkNewResult s (Some (js, stream)) None conn e)
        else
          let '(js', _, _) := jsCtx_Destroy (Some js) in
          Some (mkNewResult s None js'
                  (conn - match js' with
                          | Some j => if js_freed j then 1 else 0
                          | None => 0
                          end) e)
    end.

(** The outcome of [js_setOpts]: the status, [*resOpts] with its [Stream]
    part, [*freePfx] and the error slot. *)
Record setopts_result := mkSetOpts {
  so_status  : natsStatus;
  so_res     : jsOptions;
  so_stream  : jsOptionsStream;
  so_freePfx : bool;
  so_err     : errSlot
}.

Definition options_zero : jsOptions :=
  mkOptions None None 0 (mkPublishAsync 0 false 0).

(** [js_setOpts(nc, freePfx, js, opts, resOpts)]: [stream] is the
    [Stream] part of the context's options, [asprintf_ok] whether the
    prefix of a domain is allocated. *)
Definition js_setOpts (asprintf_ok : bool) (js : jsCtx) (stream : jsOptionsStream)
           (opts : option jsOptionsArg) (e : errSlot) : option setopts_result :=
  let with_domain :=
    match opts with
    | Some o => negb (nats_IsStringEmpty (Domain (oa_opts o)))
    | None => false
    end in
  let dom :=
    match opts with
    | Some o => domain_prefix (default EmptyString (Domain (oa_opts o)))
    | None => None
    end in
  if with_domain && negb (match dom with Some _ => true | None => false end)
  then None
  else if with_domain && negb asprintf_ok then
    let '(s, e') := nats_setDefaultError NATS_NO_MEMORY e in
    Some (mkSetOpts s options_zero stream_zero false e')
  else
    let prefix :=
      if with_domain then dom
      else match opts with
           | Some o => if nats_IsStringEmpty (Prefix (oa_opts o))
                       then Prefix (js_opts js) else Prefix (oa_opts o)
           | None => Prefix (js_opts js)
           end in
    let wait :=
      match opts with
      | Some o => if Wait (oa_opts o) <=? 0 then Wait (js_opts js)
                  else Wait (oa_opts o)
      | None => Wait (js_opts js)
      end in
    let purge :=
      match opts with
      | Some o =>
          let opo := Stream_Purge (oa_stream o) in
          if (match Purge_Subject opo with Some _ => true | None => false end)
             || (0 <? Purge_Sequence opo) || (0 <? Purge_Keep opo)
          then opo else Stream_Purge stream
      | None => Stream_Purge stream
      end in
    let details :=
      match opts with
      | Some o => Info_DeletedDetails (oa_stream o)
      | None => Info_DeletedDetails stream
      end in
    Some (mkSetOpts NATS_OK
            (mkOptions prefix None wait (mkPublishAsync 0 false 0))
            (mkStream purge details) with_domain e).


(** ** Notions used to state the properties of the context's life *)

(** The options with another prefix, with another domain. *)
Definition with_Prefix (o : jsOptionsArg) (p : cstr) : jsOptionsArg :=
  mkOptionsArg (mkOptions p (Domain (oa_opts o)) (Wait (oa_opts o))
                  (PublishAsync (oa_opts o))) (oa_stream o).
Definition with_Domain (o : jsOptionsArg) (d : cstr) : jsOptionsArg :=
  mkOptionsArg (mkOptions (Prefix (oa_opts o)) d (Wait (oa_opts o))
                  (PublishAsync (oa_opts o))) (oa_stream o).

(** A string that is not empty and does not end with a dot. *)
Definition no_trailing_dot (s : string) : Prop :=
  exists c, last_char s = Some c /\ c <> "."%char.

(** Sample inputs: everything is obtained; options with a prefix ending
    with a dot. *)
Definition quiet_new : new_env := mkNewEnv true NATS_OK true true.
Definition sample_opts : jsOptionsArg :=
  mkOptionsArg (mkOptions (Some "$JS.hub.API.") None 0 (mkPublishAsync 10 false 0))
               stream_zero.
Definition sample_created : jsCtx :=
  mkCtx (mkOptions (Some "$JS.hub.API") None 5000 (mkPublishAsync 10 false 200))
        1 false None false None 0 0 0 false.

(** ** Sequence tracking, heartbeats and the consumer of a subscription *)

Definition jsAckPrefix : string := "$JS.ACK.".
Definition jsAckPrefixLen : nat := 8.
Definition jsLastConsumerSeqHdr : string := "Nats-Last-Consumer".

(** The fields of [jsSub] used by the sequence tracking, the heartbeat
    timer and the deletion of the consumer.  [jss_js] tells whether
    [jsi->js] is not NULL. *)
Record jsSubState := mkJsSubState {
  jss_js       : bool;
  jss_active   : bool;
  jss_cmeta    : cstr;
  jss_sseq     : Z;
  jss_dseq     : Z;
  jss_ldseq    : Z;
  jss_sm       : bool;
  jss_ssmn     : bool;
  jss_dc       : bool;
  jss_stream   : cstr;
  jss_consumer : cstr
}.

Definition set_active (j : jsSubState) (v : bool) : jsSubState :=
  mkJsSubState (jss_js j) v (jss_cmeta j) (jss_sseq j) (jss_dseq j) (jss_ldseq j)
               (jss_sm j) (jss_ssmn j) (jss_dc j) (jss_stream j) (jss_consumer j).
Definition set_cmeta (j : jsSubState) (v : cstr) : jsSubState :=
  mkJsSubState (jss_js j) (jss_active j) v (jss_sseq j) (jss_dseq j) (jss_ldseq j)
               (jss_sm j) (jss_ssmn j) (jss_dc j) (jss_stream j) (jss_consumer j).
Definition set_seqs (j : jsSubState) (sseq dseq : Z) : jsSubState :=
  mkJsSubState (jss_js j) (jss_active j) (jss_cmeta j) sseq dseq (jss_ldseq j)
               (jss_sm j) (jss_ssmn j) (jss_dc j) (jss_stream j) (jss_consumer j).
Definition set_ldseq (j : jsSubState) (v : Z) : jsSubState :=
  mkJsSubState (jss_js j) (jss_active j) (jss_cmeta j) (jss_sseq j) (jss_dseq j) v
               (jss_sm j) (jss_ssmn j) (jss_dc j) (jss_stream j) (jss_consumer j).
Definition set_mismatch (j : jsSubState) (sm ssmn : bool) : jsSubState :=
  mkJsSubState (jss_js j) (jss_active j) (jss_cmeta j) (jss_sseq j) (jss_dseq j)
               (jss_ldseq j) sm ssmn (jss_dc j) (jss_stream j) (jss_consumer j).
Definition set_dc (j : jsSubState) (v : bool) : jsSubState :=
  mkJsSubState (jss_js j) (jss_active j) (jss_cmeta j) (jss_sseq j) (jss_dseq j)
               (jss_ldseq j) (jss_sm j) (jss_ssmn j) v (jss_stream j) (jss_consumer j).

(** The two outputs [_getMetaData] is asked for by the mismatch check. *)
Definition ask_seqs : jsMetaAsk :=
  mkMetaAsk false false false false true true false false.

(** [jsConsumerSequenceMismatch]. *)
Record jsConsumerSequenceMismatch := mkSeqMismatch {
  csm_Stream         : Z;
  csm_ConsumerClient : Z;
  csm_ConsumerServer : Z
}.

Section Sequences.

Variable nats_ParseInt64 : cstr -> nat -> Z.
Variable mem : nat -> bool.

(** [DUP_STRING(s, s1, s2)], a macro of natsp.h: the status it leaves in
    [s] and the copy stored in [s1]. *)
Variable DUP_STRING : string -> natsStatus * cstr.

(** [jsSub_trackSequences(jsi, reply)].  [strstr(reply, jsAckPrefix) !=
    reply] holds when [reply] does not start with the prefix. *)
Definition jsSub_trackSequences (jsi : jsSubState) (reply : cstr)
  : natsStatus * jsSubState :=
  match reply with
  | None => (NATS_OK, jsi)
  | Some r =>
      if negb (String.prefix jsAckPrefix r) then (NATS_OK, jsi)
      else
        let jsi := set_active jsi true in
        let '(s, copy) := DUP_STRING (str_drop jsAckPrefixLen r) in
        (s, set_cmeta jsi copy)
  end.

(** [jsSub_processSequenceMismatch(sub, msg, sm)]: the status, [sub->jsi],
    [*sm] and the error slot.  [async] tells whether [sub->msgCb] is not
    NULL. *)
Definition jsSub_processSequenceMismatch (async : bool) (jsi : jsSubState)
           (msg : natsMsg) (e : errSlot)
  : natsStatus * jsSubState * bool * errSlot :=
  let jsi := set_active jsi true in
  match jss_cmeta jsi with
  | None => (NATS_OK, jsi, false, e)
  | Some cmeta =>
      let '(s, o) :=
        _getMetaData nats_ParseInt64 mem ask_seqs cmeta 2
          (mkMetaOut None None None 0 (jss_sseq jsi) (jss_dseq jsi) 0 0) in
      let jsi := set_seqs jsi (md_sseq o) (md_dseq o) in
      if negb (is_ok s) then
        if natsStatus_eq_dec s NATS_ERR then
          let '(s', e') :=
            nats_setError NATS_ERR ("invalid JS ACK: '" ++ cmeta ++ "'") e in
          (s', jsi, false, e')
        else (s, jsi, false, e)
      else
        let '(s, str) := natsMsgHeader_Get msg jsLastConsumerSeqHdr in
        if negb (is_ok s) then (s, jsi, false, e)
        else
          let parsed :=
            match str with
            | Some t => Some (nats_ParseInt64 str (String.length t))
            | None => None
            end in
          if match parsed with Some v => v =? -1 | None => false end then
            let '(s', e') :=
              nats_setError NATS_ERR
                ("invalid last consumer sequence: '" ++ default EmptyString str ++ "'")
                e in
            (s', jsi, false, e')
          else
            let jsi := match parsed with
                       | Some v => set_ldseq jsi (to_uint64 v)
                       | None => jsi
                       end in
            if jss_ldseq jsi =? jss_dseq jsi then
              (NATS_OK, set_mismatch jsi false false, false, e)
            else if negb (jss_ssmn jsi) then
              (NATS_OK, set_mismatch jsi true true, async, e)
            else (NATS_OK, jsi, false, e)
  end.

End Sequences.

(** [natsSubscription_GetSequenceMismatch(csm, sub)]: [csm_ok] tells
    whether [csm] is not NULL, [sub] is the subscription (NULL, or with its
    [jsi], itself NULL for a plain subscription); the result is the status,
    what [*csm] receives and the error slot. *)
Definition natsSubscription_GetSequenceMismatch (jsErrNotAJetStreamSubscription : string)
           (csm_ok : bool) (sub : option (option jsSubState)) (e : errSlot)
  : natsStatus * option jsConsumerSequenceMismatch * errSlot :=
  match csm_ok, sub with
  | true, Some None =>
      let '(s, e') :=
        nats_setError NATS_INVALID_SUBSCRIPTION jsErrNotAJetStreamSubscription e in
      (s, None, e')
  | true, Some (Some jsi) =>
      if jss_dseq jsi =? jss_ldseq jsi then (NATS_NOT_FOUND, None, e)
      else (NATS_OK,
            Some (mkSeqMismatch (jss_sseq jsi) (jss_dseq jsi) (jss_ldseq jsi)), e)
  | _, _ =>
      let '(s, e') := nats_setDefaultError NATS_INVALID_ARG e in (s, None, e')
  end.

(** [_hbTimerFired(timer, closure)]: [sub->jsi] afterwards and the
    statuses posted to the asynchronous error handler; [asyncErrCb] tells
    whether the connection has one. *)
Definition _hbTimerFired (asyncErrCb : bool) (jsi : jsSubState)
  : jsSubState * list natsStatus :=
  let alert := negb (jss_active jsi) in
  let jsi := set_active jsi false in
  (jsi, if alert && asyncErrCb then [NATS_MISSED_HEARTBEAT] else []).

(** [jsSub_deleteConsumer(sub)]: the status, [sub->jsi], the calls made
    to [js_DeleteConsumer] (stream and consumer) and the error slot.
    [deleted] is the status of [js_DeleteConsumer] (jsm.c). *)
Definition jsSub_deleteConsumer (deleted : natsStatus) (jsi : option jsSubState)
           (e : errSlot)
  : natsStatus * option jsSubState * list (string * string) * errSlot :=
  let '(js, stream, consumer, jsi) :=
    match jsi with
    | Some j =>
        if jss_dc j
        then (jss_js j, jss_stream j, jss_consumer j, Some (set_dc j false))
        else (false, None, None, jsi)
    | None => (false, None, None, jsi)
    end in
  match js, stream, consumer with
  | true, Some st, Some c =>
      if is_not_found deleted then
        let '(s, e') :=
          nats_setError deleted
            ("failed to delete consumer '" ++ c ++ "': not found") e in
        (s, jsi, [(st, c)], e')
      else (deleted, jsi, [(st, c)], e)
  | _, _, _ => (NATS_OK, jsi, [], e)
  end.

(** [jsSub_deleteConsumerAfterDrain(sub)]: [sub->jsi], the calls made to
    [js_DeleteConsumer] and the statuses posted to the asynchronous error
    handler. *)
Definition jsSub_deleteConsumerAfterDrain (asyncErrCb : bool) (deleted : natsStatus)
           (jsi : option jsSubState) (e : errSlot)
  : option jsSubState * list (string * string) * list natsStatus * errSlot :=
  match jsi with
  | None => (jsi, [], [], e)
  | Some j =>
      if negb (jss_dc j) then (jsi, [], [], e)
      else
        let '(s, jsi', calls, e') := jsSub_deleteConsumer deleted jsi e in
        (jsi', calls, if negb (is_ok s) && asyncErrCb then [s] else [], e')
  end.

(** [_autoAckCB(nc, sub, msg, closure)]: what goes out on the connection.
    [usrCb] is the user's callback, with what it sends; [strdup_ok] tells
    whether a reply subject of 256 bytes or more can be copied. *)
Definition _autoAckCB (strdup_ok : bool) (usrCb : natsMsg -> list net_op)
           (msg : natsMsg) : list net_op :=
  let reply :=
    match msg_reply msg with
    | Some r =>
        if (String.length r <? 256)%nat then Some r
        else if strdup_ok then Some r else None
    | None => None
    end in
  (usrCb msg
   ++ match reply with
      | Some r => [NetPublish (Some r) jsAckAck]
      | None => []
      end)%list.


(** Sample inputs: a push subscription whose consumer is to be deleted,
    with the reply subject of the last message delivered, and a heartbeat
    telling that the server's last delivered sequence is 9. *)
Definition sample_state : jsSubState :=
  mkJsSubState true false (Some "ORDERS.dur.1.42.7.1700000000000000000.3")
               0 0 0 false false true (Some "ORDERS") (Some "dur").
Definition sample_heartbeat : natsMsg :=
  mkMsg (Some "_INBOX.abc") None 0 40 [("Status", "100"); ("Nats-Last-Consumer", "9")]
        None false (Some sample_sub).
Definition dup_ok (s : string) : natsStatus * cstr := (NATS_OK, Some s).

(** A callback that acknowledges the message itself. *)
Definition acking_cb (m : natsMsg) : list net_op :=
  match natsMsg_Ack (fun s => s) "" "" (Some m) None NATS_OK None with
  | Some r => ar_sent r
  | None => []
  end.

(** ** [natsMsg_GetMetaData] *)

Section GetMetaData.

Variable nats_ParseInt64 : cstr -> nat -> Z.
Variable mem : nat -> bool.
Variable jsErrMsgNotBound : string.
Variable jsErrMsgNotJS : string.

(** [natsMsg_GetMetaData(new_meta, msg)]: the status, what [*new_meta]
    receives, the object given to [jsMsgMetaData_Destroy] and the error
    slot.  [new_meta_ok] tells whether [new_meta] is not NULL and
    [calloc_ok] whether the object is allocated. *)
Definition natsMsg_GetMetaData (calloc_ok new_meta_ok : bool)
           (msg : option natsMsg) (e : errSlot)
  : natsStatus * option jsMetaOut * option jsMetaOut * errSlot :=
  match new_meta_ok, msg with
  | true, Some m =>
      match msg_sub m with
      | None =>
          let '(s, e') := nats_setError NATS_ILLEGAL_STATE jsErrMsgNotBound e in
          (s, None, None, e')
      | Some _ =>
          if nats_IsStringEmpty (msg_reply m) then
            let '(s, e') := nats_setError NATS_ILLEGAL_STATE jsErrMsgNotJS e in
            (s, None, None, e')
          else
            let reply := default EmptyString (msg_reply m) in
            let invalid := ("invalid meta data '" ++ reply ++ "'") in
            if negb (String.prefix jsAckPrefix reply) then
              let '(s, e') := nats_setError NATS_ERR invalid e in
              (s, None, None, e')
            else if negb calloc_ok then
              let '(s, e') := nats_setDefaultError NATS_NO_MEMORY e in
              (s, None, None, e')
            else
              let '(s, meta) :=
                _getMetaData nats_ParseInt64 mem ask_all
                  (str_drop jsAckPrefixLen reply) 8 meta_zero in
              let '(s, e) :=
                if natsStatus_eq_dec s NATS_ERR
                then nats_setError NATS_ERR invalid e else (s, e) in
              if is_ok s then (s, Some meta, None, e)
              else (s, None, Some meta, e)
      end
  | _, _ =>
      let '(s, e') := nats_setDefaultError NATS_INVALID_ARG e in
      (s, None, None, e')
  end.

End GetMetaData.

(** ** Notions used to state the properties of the metadata *)

(** A token: a string without a dot. *)
Definition dotless (t : string) : Prop := strchr_dot t = None.

(** Tokens joined by dots. *)
Fixpoint join_tokens (ts : list string) : string :=
  match ts with
  | [] => EmptyString
  | [t] => t
  | t :: rest => t ++ "." ++ join_tokens rest
  end.

(** The number [nats_ParseInt64] reads at the head of the joined tokens
    [ts], over the length of the first of them. *)
Definition parse_head (parse : cstr -> nat -> Z) (ts : list string) : Z :=
  parse (Some (join_tokens ts)) (String.length (hd EmptyString ts)).

(** ** Attaching to an existing consumer: [_processConsInfo] *)

(** [jsConsumerInfo], with its name, its configuration ([info->Config],
    not NULL here) and the [PushBound] flag. *)
Record jsConsumerInfo := mkConsumerInfo {
  ci_Name      : cstr;
  ci_Config    : jsConsumerConfig;
  ci_PushBound : bool
}.

Section ProcessConsInfo.

(** Texts of js.h. *)
Variable jsErrNoHeartbeatForQueueSub jsErrNoFlowControlForQueueSub : string.
Variable jsErrPullSubscribeToPushConsumer jsErrPullSubscribeRequired : string.

(** [_processConsInfo(dlvSubject, info, userCfg, isPullMode, subj,
    queue)]: the status, [*dlvSubject] and the error slot. *)
Definition _processConsInfo (info : jsConsumerInfo) (userCfg : jsConsumerConfig)
           (isPullMode : bool) (subj : string) (queue : cstr) (e : errSlot)
  : natsStatus * cstr * errSlot :=
  let ccfg := ci_Config info in
  let fail (txt : string) :=
    let '(s, e') := nats_setError NATS_ERR txt e in (s, None, e') in
  if negb (nats_IsStringEmpty (FilterSubject ccfg))
     && strcmp_ne subj (default EmptyString (FilterSubject ccfg))
  then fail ("subject '" ++ subj ++ "' does not match consumer filter subject '"
             ++ default EmptyString (FilterSubject ccfg) ++ "'")
  else
    let queue := if nats_IsStringEmpty queue then None else queue in
    let early :=
      match queue with
      | Some _ =>
          if 0 <? Heartbeat ccfg then Some (fail jsErrNoHeartbeatForQueueSub)
          else if FlowControl ccfg then Some (fail jsErrNoFlowControlForQueueSub)
          else None
      | None => None
      end in
    match early with
    | Some r => r
    | None =>
        let dlvSubjEmpty := nats_IsStringEmpty (DeliverSubject ccfg) in
        if isPullMode && negb dlvSubjEmpty then fail jsErrPullSubscribeToPushConsumer
        else if negb isPullMode && dlvSubjEmpty then fail jsErrPullSubscribeRequired
        else if isPullMode then
          let '(s, txt) := _checkConfig ccfg userCfg in
          (s, None, match txt with Some t => Some (s, t) | None => e end)
        else
          let dg := DeliverGroup ccfg in
          let bad : option string :=
            if nats_IsStringEmpty dg then
              match queue with
              | Some _ =>
                  Some "cannot create a queue subscription for a consumer without a deliver group"
              | None =>
                  if ci_PushBound info
                  then Some "consumer is already bound to a subscription"
                  else None
              end
            else
              match queue with
              | None =>
                  Some ("cannot create a subscription for a consumer with a deliver group "
                        ++ default EmptyString dg)
              | Some q =>
                  if strcmp_ne q (default EmptyString dg)
                  then Some ("cannot create a queue subscription '" ++ q
                             ++ "' for a consumer with a deliver group '"
                             ++ default EmptyString dg ++ "'")
                  else None
              end in
          match bad with
          | Some txt => fail txt
          | None =>
              let '(s, txt) := _checkConfig ccfg userCfg in
              (s, (if is_ok s then DeliverSubject ccfg else None),
               match txt with Some t => Some (s, t) | None => e end)
          end
    end.

End ProcessConsInfo.


(** A push consumer with a deliver group, as the server reports it. *)
Definition group_config : jsConsumerConfig :=
  mkConsumerConfig (Some "dur") None (Some "_INBOX.deliver") (Some "workers") 0 0%N 0
                   1 30000000000 0 (Some "ORDERS.new") 0 0%N None 0 1000 false 0.
Definition group_info : jsConsumerInfo :=
  mkConsumerInfo (Some "dur") group_config false.


(** ** Notions used to state what a fetch hands back *)

(** A user message: whatever is asked of [_checkMsg], it finds no status
    in it. *)
Definition is_user_msg (m : natsMsg) : Prop :=
  forall c e, _checkMsg m c e = (NATS_OK, true, e).

(** [m] is one of the messages returned by [natsSub_nextMsg]. *)
Definition received (nexts : list next_msg) (m : natsMsg) : Prop :=
  exists n, n ∈ nexts /\ nm_status n = NATS_OK /\ nm_msg n = Some m.

(** What the collecting phase keeps true of the messages it holds: the
    count is their number and does not exceed the batch; those kept are user
    messages, those destroyed are not, and all were received. *)
Definition sorted (batch : Z) (all : list next_msg) (st : fetch_state) : Prop :=
  fs_count st = Z.of_nat (length (fs_msgs st)) /\
  fs_count st <= batch /\
  (forall m, m ∈ fs_msgs st -> is_user_msg m /\ received all m) /\
  (forall m, m ∈ fs_destroyed st -> ~ is_user_msg m /\ received all m).

(** ** Subscribing: [_lookupStreamBySubject] and [_subscribe] *)

(** [jsSubOptions_Init(opts)]: what [*opts] holds afterwards. *)
Definition jsSubOptions_Init : jsSubOptions :=
  mkSubOptions None None None false
    (mkConsumerConfig None None None None (-1) 0%N 0 (-1) 0 0 None (-1) 0%N None
                      0 0 false 0).

Definition set_DeliverPolicy (c : jsConsumerConfig) (v : Z) : jsConsumerConfig :=
  mkConsumerConfig (Durable c) (Description c) (DeliverSubject c) (DeliverGroup c) v
    (OptStartSeq c) (OptStartTime c) (AckPolicy c) (AckWait c) (MaxDeliver c)
    (FilterSubject c) (ReplayPolicy c) (RateLimit c) (SampleFrequency c)
    (MaxWaiting c) (MaxAckPending c) (FlowControl c) (Heartbeat c).

(** The configuration sent to [js_AddConsumer]: the user's, with the
    deliver subject (push mode only), the durable name, the deliver group
    and the filter subject set, and [MaxAckPending] given its default when
    it is zero and acks are used. *)
Definition create_config (js_AckNone max_pending : Z) (c : jsConsumerConfig)
           (isPullMode : bool) (inbox : string) (durable queue : cstr)
           (subject : cstr) : jsConsumerConfig :=
  mkConsumerConfig durable (Description c)
    (if isPullMode then DeliverSubject c else Some inbox) queue (DeliverPolicy c)
    (OptStartSeq c) (OptStartTime c) (AckPolicy c) (AckWait c) (MaxDeliver c)
    subject (ReplayPolicy c) (RateLimit c) (SampleFrequency c)
    (MaxWaiting c)
    (if (MaxAckPending c =? 0) && negb (AckPolicy c =? js_AckNone)
     then max_pending else MaxAckPending c)
    (FlowControl c) (Heartbeat c).

(** The request [{"subject":"<subject>"}]; [dq] is the double quote. *)
Definition dq : string := String (ascii_of_nat 34) EmptyString.
Definition lookup_payload (subject : string) : string :=
  "{" ++ dq ++ "subject" ++ dq ++ ":" ++ dq ++ subject ++ dq ++ "}".

(** What the JSON functions and the connection answer to
    [_lookupStreamBySubject]: the status left by the creation of the buffer
    and its three appends, whether the API subject is allocated, the status
    of the request, whether a response came and the length of its data, the
    status of the parse and of [nats_JSONGetArrayStr] with the names it
    stores. *)
Record lookup_env := mkLookupEnv {
  lk_buf      : natsStatus;
  lk_asprintf : bool;
  lk_request  : natsStatus;
  lk_resp     : bool;
  lk_dataLen  : Z;
  lk_parse    : natsStatus;
  lk_streams  : natsStatus * list string
}.

(** The outcome of [_lookupStreamBySubject]: the status, [*stream], the
    request sent, the names freed and the error slot. *)
Record lookup_result := mkLookupResult {
  lr_status : natsStatus;
  lr_stream : cstr;
  lr_sent   : list net_op;
  lr_freed  : list string;
  lr_err    : errSlot
}.

Section Lookup.

(** [IFOK_JSR] and the subject [jsApiStreams] (js.h): the status the macro
    leaves for the status of the request, and the subject printed for a
    prefix. *)
Variable IFOK_JSR_status : natsStatus -> natsStatus.
Variable jsApiStreams : string -> string.
Variable jsErrNoStreamMatchesSubject : string.

(** [_lookupStreamBySubject(stream, nc, subject, jo, errCode)].  No result
    is given when the prefix of [jo] is empty ([js_lenWithoutTrailingDot]
    then reads [str[-1]]). *)
Definition _lookupStreamBySubject (lk : lookup_env) (subject : string)
           (jo : jsOptions) (e : errSlot) : option lookup_result :=
  let payload := lookup_payload subject in
  if negb (is_ok (lk_buf lk)) then Some (mkLookupResult (lk_buf lk) None [] [] e)
  else
    match without_trailing_dot (default EmptyString (Prefix jo)) with
    | None => None
    | Some pfx =>
        if negb (lk_asprintf lk) then
          let '(s, e') := nats_setDefaultError NATS_NO_MEMORY e in
          Some (mkLookupResult s None [] [] e')
        else
          let sent := [NetRequest (Some (jsApiStreams pfx)) payload (Wait jo)] in
          let s := IFOK_JSR_status (lk_request lk) in
          if is_ok s && lk_resp lk && (0 <? lk_dataLen lk) then
            let s := lk_parse lk in
            let '(s, streams) :=
              if is_ok s then lk_streams lk else (s, []) in
            match streams with
            | first :: others =>
                if is_ok s
                then Some (mkLookupResult s (Some first) sent others e)
                else
                  let '(s', e') :=
                    nats_setError NATS_ERR jsErrNoStreamMatchesSubject e in
                  Some (mkLookupResult s' None sent others e')
            | [] =>
                let '(s', e') :=
                  nats_setError NATS_ERR jsErrNoStreamMatchesSubject e in
                Some (mkLookupResult s' None sent [] e')
            end
          else Some (mkLookupResult s None sent [] e)
    end.

End Lookup.

(** The callback given to the NATS subscription: none (synchronous and
    pull subscriptions), the user's, or [_autoAckCB] wrapping the user's. *)
Inductive cb_kind := CbNone | CbUser | CbAutoAck.

(** The subscription made by [natsConn_subscribeImpl] with its [jsSub]:
    the subject and queue subscribed, the callback, and the fields of
    [jsi] set by [_subscribe]; [jsb_timer] is the interval of the
    heartbeat timer, when it exists. *)
Record js_subscription := mkJsSubscription {
  jsb_deliver    : cstr;
  jsb_queue      : cstr;
  jsb_cb         : cb_kind;
  jsb_stream     : cstr;
  jsb_consumer   : cstr;
  jsb_hbi        : Z;
  jsb_pull       : bool;
  jsb_nxtMsgSubj : cstr;
  jsb_dc         : bool;
  jsb_timer      : option Z
}.

(** What [_subscribe] asks of the server and of the connection. *)
Inductive sub_op :=
| OpLookup (subject : string)
| OpGetInfo (stream consumer : cstr)
| OpSubscribe (deliver queue : cstr)
| OpAddConsumer (stream : cstr) (cfg : jsConsumerConfig).

(** A [jsConsumerInfo*] as [_subscribe] reads it: [info->Name],
    [info->Config] (which may be NULL) and [info->PushBound]. *)
Record consumer_info := mkInfo {
  in_Name      : cstr;
  in_Config    : option jsConsumerConfig;
  in_PushBound : bool
}.

(** The answer of [js_GetConsumerInfo] or [js_AddConsumer]: the status,
    [*info] and the error code. *)
Record consumer_reply := mkConsumerReply {
  cr_status : natsStatus;
  cr_info   : option consumer_info;
  cr_jerr   : Z
}.

(** What the collaborators answer during one pass through the label
    [PROCESS_INFO]: the allocation of [jsi] and of its next-message
    subject, whether [IF_OK_DUP_STRING] (natsp.h) leaves the status as it
    is for the stream name, the inbox drawn and the status of
    [natsInbox_init], the status of [natsConn_subscribeImpl] and of
    [natsTimer_Create], the answer of [js_AddConsumer], that of the
    [js_GetConsumerInfo] made when it failed, and whether [DUP_STRING]
    copies the name of the consumer created. *)
Record pass_env := mkPassEnv {
  pa_calloc     : bool;
  pa_asprintf   : bool;
  pa_dup        : bool;
  pa_inbox      : natsStatus * string;
  pa_subscribe  : natsStatus;
  pa_timer      : natsStatus;
  pa_add        : consumer_reply;
  pa_info       : consumer_reply;
  pa_dup_name   : bool
}.

(** What surrounds a call of [_subscribe]: the allocation made by
    [js_setOpts], the answers to the stream lookup and to the first
    [js_GetConsumerInfo], whether the connection has an asynchronous error
    handler, and the passes. *)
Record sub_env := mkSubEnv {
  se_setopts    : bool;
  se_lookup     : lookup_env;
  se_info       : consumer_reply;
  se_asyncErrCb : bool;
  se_pass       : nat -> pass_env
}.

(** The outcome of [_subscribe]: the status, [*new_sub], the requests
    made in order, the subscriptions given to [natsSubscription_Destroy],
    the number of [jsi] given to [jsSub_free], the number of calls of
    [js_retain], what [_subscribe] itself writes to [*errCode] (what
    [IFOK_JSR] writes there during the stream lookup is not tracked),
    whether [js_setOpts] asked for the prefix to be freed and whether it
    was, and the error slot. *)
Record sub_outcome := mkSubOutcome {
  sb_status    : natsStatus;
  sb_sub       : option js_subscription;
  sb_ops       : list sub_op;
  sb_destroyed : list js_subscription;
  sb_freed     : nat;
  sb_retains   : nat;
  sb_errCode   : option Z;
  sb_freePfx   : bool;
  sb_pfx_freed : bool;
  sb_err       : errSlot
}.

(** The variables of [_subscribe] that live across the label
    [PROCESS_INFO]. *)
Record sub_vars := mkSubVars {
  sv_s         : natsStatus;
  sv_info      : option consumer_info;
  sv_jerr      : Z;
  sv_deliver   : cstr;
  sv_hbi       : Z;
  sv_ops       : list sub_op;
  sv_destroyed : list js_subscription;
  sv_retains   : nat;
  sv_err       : errSlot
}.

Section Subscribe.

(** Enum values and limits of nats.h and natsp.h, error codes and texts
    of js.h. *)
Variable js_DeliverByStartSequence js_DeliverByStartTime js_AckNone : Z.
Variable JSNotEnabledErr JSConsumerExistingActiveErr JSConsumerNameExistErr : Z.
Variable NATS_OPTS_DEFAULT_MAX_PENDING_MSGS : Z.
Variable jsErrNoHeartbeatForQueueSub jsErrNoFlowControlForQueueSub : string.
Variable jsErrPullSubscribeToPushConsumer jsErrPullSubscribeRequired : string.
Variable jsErrNoStreamMatchesSubject : string.
Variable IFOK_JSR_status : natsStatus -> natsStatus.
Variable jsApiStreams : string -> string.

(** The subject printed with [jsApiRequestNextT] for a prefix, a stream
    and a consumer. *)
Variable jsApiRequestNextT : cstr -> cstr -> cstr -> string.

Variable env : sub_env.
Variable subject : string.
Variable usrCB isPullMode : bool.
Variable errCode_ok : bool.

(** What the call has settled before the label: the options in force,
    the resolved request options, the names. *)
Variable opts : jsSubOptions.
Variable jo : jsOptions.
Variable freePfx : bool.
Variable stream consumer durable : cstr.
Variable consBound lookupErr : bool.

(** The label [END]: [sub] and [jsi] are the subscription and the [jsSub]
    at that point; [js_set] tells whether [jsi->js] has been set.  No
    result is given when a [jsi] whose [js] is still NULL goes to
    [jsSub_free], which releases [jsi->js]. *)
Definition subscribe_end (v : sub_vars) (sub : option js_subscription)
           (jsi js_set : bool) : option sub_outcome :=
  let code := if errCode_ok then Some (sv_jerr v) else None in
  if is_ok (sv_s v) then
    Some (mkSubOutcome (sv_s v) sub (sv_ops v) (sv_destroyed v) 0 (sv_retains v)
            None freePfx freePfx (sv_err v))
  else
    match sub with
    | Some sb =>
        Some (mkSubOutcome (sv_s v) None (sv_ops v) (sv_destroyed v ++ [sb]) 0
                (sv_retains v) code freePfx freePfx (sv_err v))
    | None =>
        if jsi then
          if js_set then
            Some (mkSubOutcome (sv_s v) None (sv_ops v) (sv_destroyed v) 1
                    (sv_retains v) code freePfx freePfx (sv_err v))
          else None
        else
          Some (mkSubOutcome (sv_s v) None (sv_ops v) (sv_destroyed v) 0
                  (sv_retains v) code freePfx freePfx (sv_err v))
    end.

Definition set_s (v : sub_vars) (s : natsStatus) (e : errSlot) : sub_vars :=
  mkSubVars s (sv_info v) (sv_jerr v) (sv_deliver v) (sv_hbi v) (sv_ops v)
            (sv_destroyed v) (sv_retains v) e.

(** The three cases met at the label [PROCESS_INFO], [k] being the number
    of passes already made: a consumer info to check, an error of the
    lookup, or a consumer to create.  The result gives the variables,
    [create], the configuration to create the consumer with, and whether
    the code goes to [END]. *)
Definition pass_decide (k : nat) (v : sub_vars)
  : sub_vars * bool * option jsConsumerConfig * bool :=
  let pa := se_pass env k in
  match sv_info v with
  | Some info =>
      match in_Config info with
      | None =>
          let '(s, e) :=
            nats_setError NATS_ERR "no configuration in consumer info" (sv_err v) in
          (set_s v s e, false, None, true)
      | Some ccfg =>
          let '(s, deliver, e) :=
            _processConsInfo jsErrNoHeartbeatForQueueSub
              jsErrNoFlowControlForQueueSub jsErrPullSubscribeToPushConsumer
              jsErrPullSubscribeRequired
              (mkConsumerInfo (in_Name info) ccfg (in_PushBound info))
              (so_Config opts) isPullMode subject (so_Queue opts) (sv_err v) in
          if negb (is_ok s) then
            (mkSubVars s (sv_info v) (sv_jerr v) deliver (sv_hbi v) (sv_ops v)
                       (sv_destroyed v) (sv_retains v) e, false, None, true)
          else
            (mkSubVars s (sv_info v) (sv_jerr v) deliver
                       (Z.quot (Heartbeat ccfg) 1000000) (sv_ops v)
                       (sv_destroyed v) (sv_retains v) e, false, None, false)
      end
  | None =>
      if (negb (is_ok (sv_s v)) && negb (is_not_found (sv_s v)))
         || (is_not_found (sv_s v) && consBound)
      then
        if negb (isPullMode && lookupErr && consBound)
        then (v, false, None, true)
        else (set_s v NATS_OK (sv_err v), false, None, false)
      else
        let cfg :=
          create_config js_AckNone NATS_OPTS_DEFAULT_MAX_PENDING_MSGS
            (so_Config opts) isPullMode (snd (pa_inbox pa)) durable
            (so_Queue opts) (Some subject) in
        (mkSubVars NATS_OK (sv_info v) (sv_jerr v)
                   (if isPullMode then sv_deliver v else Some (snd (pa_inbox pa)))
                   (Z.quot (Heartbeat cfg) 1000000) (sv_ops v)
                   (sv_destroyed v) (sv_retains v) (sv_err v),
         true, Some cfg, false)
  end.

(** The allocation of the [jsSub]: the status, the error slot, whether
    [jsi] is not NULL, its next-message subject and whether [jsi->js] was
    set (the context is then retained). *)
Definition pass_jsi (k : nat) (v : sub_vars)
  : natsStatus * errSlot * bool * cstr * bool :=
  let pa := se_pass env k in
  if negb (pa_calloc pa) then
    let '(s, e) := nats_setDefaultError NATS_NO_MEMORY (sv_err v) in
    (s, e, false, None, false)
  else
    let '(s, e, nxt) :=
      if isPullMode then
        if pa_asprintf pa
        then (sv_s v, sv_err v, Some (jsApiRequestNextT (Prefix jo) stream consumer))
        else let '(s, e) := nats_setDefaultError NATS_NO_MEMORY (sv_err v) in
             (s, e, None)
      else (sv_s v, sv_err v, None) in
    let '(s, e) :=
      if is_ok s then
        if pa_dup pa then (s, e) else nats_setDefaultError NATS_NO_MEMORY e
      else (s, e) in
    (s, e, true, nxt, is_ok s).

(** The callback handed to the NATS subscription. *)
Definition pass_cb (js_set : bool) : cb_kind :=
  if js_set then
    if usrCB && negb (so_ManualAck opts)
       && negb (AckPolicy (so_Config opts) =? js_AckNone)
    then CbAutoAck
    else if usrCB then CbUser else CbNone
  else CbNone.

(** The NATS subscription and the heartbeat timer: the status, the
    deliver subject, the requests made so far and the subscription. *)
Definition pass_sub (k : nat) (v : sub_vars) (s : natsStatus) (nxt : cstr)
           (js_set : bool)
  : natsStatus * cstr * list sub_op * option js_subscription :=
  let pa := se_pass env k in
  if is_ok s then
    let '(s, deliver) :=
      if isPullMode then (fst (pa_inbox pa), Some (snd (pa_inbox pa)))
      else (s, sv_deliver v) in
    if is_ok s then
      let ops := (sv_ops v ++ [OpSubscribe deliver (so_Queue opts)])%list in
      if is_ok (pa_subscribe pa) then
        let sb (timer : option Z) :=
          mkJsSubscription deliver (so_Queue opts) (pass_cb js_set) stream None
                           (sv_hbi v) isPullMode nxt false timer in
        if (0 <? sv_hbi v) && se_asyncErrCb env
        then (pa_timer pa, deliver, ops,
              Some (sb (if is_ok (pa_timer pa) then Some (sv_hbi v * 2) else None)))
        else (NATS_OK, deliver, ops, Some (sb None))
      else (pa_subscribe pa, deliver, ops, None)
    else (s, deliver, sv_ops v, None)
  else (s, sv_deliver v, sv_ops v, None).

(** The consumer created, once [js_AddConsumer] succeeded: it is marked
    for deletion and its name is copied. *)
Definition mark_created (sb : js_subscription) (name : cstr) : js_subscription :=
  mkJsSubscription (jsb_deliver sb) (jsb_queue sb) (jsb_cb sb) (jsb_stream sb) name
                   (jsb_hbi sb) (jsb_pull sb) (jsb_nxtMsgSubj sb) true (jsb_timer sb).

(** From the label [PROCESS_INFO] to the return.  [fuel] bounds the
    number of passes: no result is given when it runs out. *)
Fixpoint subscribe_pass (fuel k : nat) (v : sub_vars) : option sub_outcome :=
  match fuel with
  | O => None
  | S fuel' =>
      let pa := se_pass env k in
      let '(v, create, cfg, stop) := pass_decide k v in
      if stop then subscribe_end v None false false
      else
        let '(s, e, jsi, nxt, js_set) := pass_jsi k v in
        let retains := if js_set then S (sv_retains v) else sv_retains v in
        let '(s, deliver, ops, sub) := pass_sub k v s nxt js_set in
        let v := mkSubVars s (sv_info v) (sv_jerr v) deliver (sv_hbi v) ops
                           (sv_destroyed v) retains e in
        match create, cfg, sub with
        | true, Some cfg, Some sb =>
            if is_ok s then
              let add := pa_add pa in
              let ops := (ops ++ [OpAddConsumer stream cfg])%list in
              if negb (is_ok (cr_status add)) then
                if negb (cr_jerr add =? JSConsumerExistingActiveErr)
                   && negb (cr_jerr add =? JSConsumerNameExistErr)
                then
                  subscribe_end
                    (mkSubVars (cr_status add) (cr_info add) (cr_jerr add) deliver
                               (sv_hbi v) ops (sv_destroyed v) retains e)
                    (Some sb) true true
                else
                  let inf := pa_info pa in
                  let ops := (ops ++ [OpGetInfo stream consumer])%list in
                  if negb (is_ok (cr_status inf)) then
                    subscribe_end
                      (mkSubVars (cr_status inf) (cr_info inf) (cr_jerr inf) deliver
                                 (sv_hbi v) ops (sv_destroyed v) retains e)
                      (Some sb) true true
                  else
                    subscribe_pass fuel' (S k)
                      (mkSubVars (cr_status inf) (cr_info inf) (cr_jerr inf) deliver
                                 (sv_hbi v) ops (sv_destroyed v ++ [sb]) retains e)
              else
                match cr_info add with
                | None => None
                | Some info =>
                    let '(s, e, name) :=
                      if pa_dup_name pa then (NATS_OK, e, in_Name info)
                      else let '(s, e) := nats_setDefaultError NATS_NO_MEMORY e in
                           (s, e, None) in
                    subscribe_end
                      (mkSubVars s (cr_info add) (cr_jerr add) deliver (sv_hbi v)
                                 ops (sv_destroyed v) retains e)
                      (Some (mark_created sb name)) true true
                end
            else subscribe_end v sub jsi js_set
        | _, _, _ => subscribe_end v sub jsi js_set
        end
  end.

End Subscribe.

Section SubscribeEntry.

Variable js_DeliverByStartSequence js_DeliverByStartTime js_AckNone : Z.
Variable JSNotEnabledErr JSConsumerExistingActiveErr JSConsumerNameExistErr : Z.
Variable NATS_OPTS_DEFAULT_MAX_PENDING_MSGS : Z.
Variable jsErrNoHeartbeatForQueueSub jsErrNoFlowControlForQueueSub : string.
Variable jsErrPullSubscribeToPushConsumer jsErrPullSubscribeRequired : string.
Variable jsErrNoStreamMatchesSubject : string.
Variable IFOK_JSR_status : natsStatus -> natsStatus.
Variable jsApiStreams : string -> string.
Variable jsApiRequestNextT : cstr -> cstr -> cstr -> string.

(** A return made before the label [END] is reached: nothing was asked,
    nothing is freed and [*errCode] is not written. *)
Definition subscribe_return (s : natsStatus) (freePfx : bool) (e : errSlot)
  : sub_outcome :=
  mkSubOutcome s None [] [] 0 0 None freePfx false e.

(** The options in force: the user's, or those of [jsSubOptions_Init],
    with the deliver policy that an optional start sequence or time
    implies. *)
Definition effective_opts (opts : option jsSubOptions) : jsSubOptions :=
  let o := default jsSubOptions_Init opts in
  let cfg := so_Config o in
  let cfg := if (0 <? OptStartSeq cfg)%N
             then set_DeliverPolicy cfg js_DeliverByStartSequence else cfg in
  let cfg := if 0 <? OptStartTime cfg
             then set_DeliverPolicy cfg js_DeliverByStartTime else cfg in
  mkSubOptions (so_Stream o) (so_Consumer o) (so_Queue o) (so_ManualAck o) cfg.

(** The durable and consumer names [_subscribe] works with. *)
Definition resolve_names (o : jsSubOptions) (pullDurable : cstr) : cstr * cstr :=
  let isQueue := negb (nats_IsStringEmpty (so_Queue o)) in
  let durable := match pullDurable with
                 | Some _ => pullDurable
                 | None => Durable (so_Config o)
                 end in
  if nats_IsStringEmpty (so_Consumer o) then
    let durable := if isQueue && nats_IsStringEmpty durable
                   then so_Queue o else durable in
    (durable, durable)
  else (durable, so_Consumer o).

(** [_subscribe(new_sub, js, subject, pullDurable, usrCB, usrCBClosure,
    isPullMode, jsOpts, opts, errCode)].  [new_sub_ok] and [errCode_ok]
    tell whether the two pointers are not NULL, [js] is the context with
    the [Stream] part of its options, [usrCB] whether a callback is given.
    When [opts] is not NULL the deliver policy implied by a start sequence
    or time is written in the caller's options.  The stream name found by
    the lookup and the consumer infos received are freed on every path that
    reaches [END]; they are not tracked. *)
Definition _subscribe (fuel : nat) (env : sub_env) (new_sub_ok : bool)
           (js : option (jsCtx * jsOptionsStream)) (subject pullDurable : cstr)
           (usrCB isPullMode : bool) (jsOpts : option jsOptionsArg)
           (opts : option jsSubOptions) (errCode_ok : bool) (e : errSlot)
  : option sub_outcome :=
  match js with
  | Some (ctx, st) =>
      if negb new_sub_ok || nats_IsStringEmpty subject then
        let '(s, e') := nats_setDefaultError NATS_INVALID_ARG e in
        Some (subscribe_return s false e')
      else
        let subj := default EmptyString subject in
        match js_setOpts (se_setopts env) ctx st jsOpts e with
        | None => None
        | Some r =>
            if negb (is_ok (so_status r))
            then Some (subscribe_return (so_status r) false (so_err r))
            else
              let jo := so_res r in
              let freePfx := so_freePfx r in
              let o := effective_opts opts in
              let isQueue := negb (nats_IsStringEmpty (so_Queue o)) in
              let stream := so_Stream o in
              let consBound := negb (nats_IsStringEmpty stream)
                               && negb (nats_IsStringEmpty (so_Consumer o)) in
              if isQueue && (0 <? Heartbeat (so_Config o)) then
                let '(s, e') :=
                  nats_setError NATS_INVALID_ARG jsErrNoHeartbeatForQueueSub e in
                Some (subscribe_return s freePfx e')
              else if isQueue && FlowControl (so_Config o) then
                let '(s, e') :=
                  nats_setError NATS_INVALID_ARG jsErrNoFlowControlForQueueSub e in
                Some (subscribe_return s freePfx e')
              else
                let '(durable, consumer) := resolve_names o pullDurable in
                let looked :=
                  if nats_IsStringEmpty stream then
                    match _lookupStreamBySubject IFOK_JSR_status jsApiStreams
                            jsErrNoStreamMatchesSubject (se_lookup env) subj jo e with
                    | None => None
                    | Some lr =>
                        Some (lr_status lr, lr_stream lr, [OpLookup subj], lr_err lr)
                    end
                  else Some (NATS_OK, stream, [], e) in
                match looked with
                | None => None
                | Some (s, stream, ops, e) =>
                    let run :=
                      subscribe_pass js_AckNone JSConsumerExistingActiveErr
                        JSConsumerNameExistErr NATS_OPTS_DEFAULT_MAX_PENDING_MSGS
                        jsErrNoHeartbeatForQueueSub jsErrNoFlowControlForQueueSub
                        jsErrPullSubscribeToPushConsumer jsErrPullSubscribeRequired
                        jsApiRequestNextT env subj usrCB isPullMode errCode_ok
                        o jo freePfx stream consumer durable consBound in
                    if negb (is_ok s) then
                      subscribe_end errCode_ok freePfx
                        (mkSubVars s None 0 None 0 ops [] 0 e) None false false
                    else if negb (nats_IsStringEmpty consumer) then
                      let inf := se_info env in
                      let lookupErr := is_timeout (cr_status inf)
                                       || (cr_jerr inf =? JSNotEnabledErr) in
                      run lookupErr fuel 0%nat
                        (mkSubVars (cr_status inf) (cr_info inf) (cr_jerr inf) None 0
                                   (ops ++ [OpGetInfo stream consumer])%list [] 0 e)
                    else
                      run false fuel 0%nat (mkSubVars s None 0 None 0 ops [] 0 e)
                end
        end
  | None =>
      let '(s, e') := nats_setDefaultError NATS_INVALID_ARG e in
      Some (subscribe_return s false e')
  end.

(** [js_Subscribe(sub, js, subject, cb, cbClosure, jsOpts, opts,
    errCode)] and [js_SubscribeSync(sub, js, subject, jsOpts, opts,
    errCode)]: [*errCode] is zeroed first. *)
Definition js_Subscribe (fuel : nat) (env : sub_env) (new_sub_ok : bool)
           (js : option (jsCtx * jsOptionsStream)) (subject : cstr) (cb : bool)
           (jsOpts : option jsOptionsArg) (opts : option jsSubOptions)
           (errCode_ok : bool) (e : errSlot) : option sub_outcome :=
  if negb cb then
    let '(s, e') := nats_setDefaultError NATS_INVALID_ARG e in
    Some (mkSubOutcome s None [] [] 0 0 (if errCode_ok then Some 0 else None)
            false false e')
  else
    match _subscribe fuel env new_sub_ok js subject None true false jsOpts opts
                     errCode_ok e with
    | None => None
    | Some r =>
        Some (mkSubOutcome (sb_status r) (sb_sub r) (sb_ops r) (sb_destroyed r)
                (sb_freed r) (sb_retains r)
                (match sb_errCode r with
                 | Some c => Some c
                 | None => if errCode_ok then Some 0 else None
                 end)
                (sb_freePfx r) (sb_pfx_freed r) (sb_err r))
    end.

Definition js_SubscribeSync (fuel : nat) (env : sub_env) (new_sub_ok : bool)
           (js : option (jsCtx * jsOptionsStream)) (subject : cstr)
           (jsOpts : option jsOptionsArg) (opts : option jsSubOptions)
           (errCode_ok : bool) (e : errSlot) : option sub_outcome :=
  match _subscribe fuel env new_sub_ok js subject None false false jsOpts opts
                   errCode_ok e with
  | None => None
  | Some r =>
      Some (mkSubOutcome (sb_status r) (sb_sub r) (sb_ops r) (sb_destroyed r)
              (sb_freed r) (sb_retains r)
              (match sb_errCode r with
               | Some c => Some c
               | None => if errCode_ok then Some 0 else None
               end)
              (sb_freePfx r) (sb_pfx_freed r) (sb_err r))
  end.

End SubscribeEntry.


(** ** Notions used to state the properties of [_subscribe] *)

(** Every reference taken on the context is carried by one [jsSub]: that
    of the subscription returned, of a subscription destroyed, or one given
    to [jsSub_free]; a subscription is returned exactly on success; and the
    prefix to free was freed. *)
Definition accounted (out : sub_outcome) : Prop :=
  sb_retains out
  = (length (sb_destroyed out) + sb_freed out
     + match sb_sub out with Some _ => 1 | None => 0 end)%nat /\
  (sb_status out = NATS_OK <-> is_Some (sb_sub out)) /\
  sb_pfx_freed out = sb_freePfx out.

(** [js_GetConsumerInfo] hands back an info whenever it succeeds. *)
Definition infos_present (env : sub_env) : Prop :=
  forall k, cr_status (pa_info (se_pass env k)) = NATS_OK ->
            cr_info (pa_info (se_pass env k)) <> None.

(** Sample inputs: the consumer ["dur"] does not exist and is created on
    the stream ["ORDERS"], everything being obtained. *)
Definition quiet_pass : pass_env :=
  mkPassEnv true true true (NATS_OK, "_INBOX.sub") NATS_OK NATS_OK
            (mkConsumerReply NATS_OK
               (Some (mkInfo (Some "dur") (Some group_config) false)) 0)
            (mkConsumerReply NATS_NOT_FOUND None 0) true.

Definition quiet_lookup : lookup_env :=
  mkLookupEnv NATS_OK true NATS_OK true 20 NATS_OK (NATS_OK, ["ORDERS"]).

Definition create_env : sub_env :=
  mkSubEnv true quiet_lookup (mkConsumerReply NATS_NOT_FOUND None 0) true
           (fun _ => quiet_pass).

Definition durable_opts : jsSubOptions :=
  mkSubOptions (Some "ORDERS") None None false
    (mkConsumerConfig (Some "dur") None None None (-1) 0%N 0 (-1) 0 0 None (-1) 0%N
                      None 0 0 false 0).

Definition queue_hb_opts : jsSubOptions :=
  mkSubOptions (Some "ORDERS") None (Some "workers") false
    (mkConsumerConfig (Some "dur") None None None (-1) 0%N 0 (-1) 0 0 None (-1) 0%N
                      None 0 0 false 5000000000).

(** What a subscription returned by [_subscribe] holds, [ops] being the
    requests made: the mode, the queue, the stream and the callback asked
    for; a heartbeat timer of twice the interval, only with a positive
    interval and an asynchronous error handler; and either the consumer
    was created by the last request, after the NATS subscription was made
    on its deliver subject, and is marked for deletion, or the last request
    is the NATS subscription and no consumer name is kept. *)
Definition subscribed_as (js_AckNone max_pending : Z) (env : sub_env)
           (subject : string) (usrCB isPullMode : bool) (opts : jsSubOptions)
           (stream durable : cstr) (ops : list sub_op) (sb : js_subscription)
  : Prop :=
  jsb_pull sb = isPullMode /\ jsb_queue sb = so_Queue opts /\
  jsb_stream sb = stream /\
  jsb_cb sb
  = (if usrCB && negb (so_ManualAck opts)
        && negb (AckPolicy (so_Config opts) =? js_AckNone)
     then CbAutoAck else if usrCB then CbUser else CbNone) /\
  (forall t, jsb_timer sb = Some t ->
     t = jsb_hbi sb * 2 /\ 0 < jsb_hbi sb /\ se_asyncErrCb env = true) /\
  (jsb_dc sb = true ->
   exists pre inbox,
     ops = (pre ++ [OpSubscribe (jsb_deliver sb) (so_Queue opts);
                    OpAddConsumer stream
                      (create_config js_AckNone max_pending (so_Config opts)
                         isPullMode inbox durable (so_Queue opts)
                         (Some subject))])%list /\
     jsb_hbi sb = Z.quot (Heartbeat (so_Config opts)) 1000000 /\
     (isPullMode = false -> jsb_deliver sb = Some inbox)) /\
  (jsb_dc sb = false ->
   jsb_consumer sb = None /\
   exists pre,
     ops = (pre ++ [OpSubscribe (jsb_deliver sb) (so_Queue opts)])%list).

(** [_subscribe] with the values of nats.h, natsp.h and js.h for the enum
    values, the error codes and the default limit, and sample texts and
    subjects; the context is [sample_created], the subject ["orders.new"]. *)
Definition sample_subscribe (fuel : nat) (env : sub_env) (usrCB : bool)
           (jsOpts : option jsOptionsArg) (opts : option jsSubOptions)
  : option sub_outcome :=
  _subscribe 3 4 1 10076 10105 10013 65536
    "no heartbeat for queue" "no flow control for queue"
    "pull subscribe to push consumer" "pull subscribe required"
    "no stream matches subject" (fun s => s)
    (fun pfx => pfx ++ ".STREAM.NAMES")
    (fun pfx stream consumer =>
       default EmptyString pfx ++ ".CONSUMER.MSG.NEXT."
       ++ default EmptyString stream ++ "." ++ default EmptyString consumer)
    fuel env true (Some (sample_created, stream_zero)) (Some "orders.new") None
    usrCB false jsOpts opts true None.

(** The consumer is created by another subscriber in the meantime: the
    creation is refused with [JSConsumerNameExistErr] and the second lookup
    finds the consumer, which delivers to ["_INBOX.other"]. *)
Definition raced_config : jsConsumerConfig :=
  mkConsumerConfig (Some "dur") None (Some "_INBOX.other") None (-1) 0%N 0 (-1) 0 0
                   (Some "orders.new") (-1) 0%N None 0 0 false 0.

Definition raced_pass : pass_env :=
  mkPassEnv true true true (NATS_OK, "_INBOX.sub") NATS_OK NATS_OK
            (mkConsumerReply NATS_ERR None 10013)
            (mkConsumerReply NATS_OK
               (Some (mkInfo (Some "dur") (Some raced_config) false)) 0) true.

Definition raced_env : sub_env :=
  mkSubEnv true quiet_lookup (mkConsumerReply NATS_NOT_FOUND None 0) true
           (fun _ => raced_pass).


(** * Part II: properties *)

(** ** Statuses *)

Lemma is_ok_true s : is_ok s = true <-> s = NATS_OK.
Proof. destruct s; simpl; split; congruence. Qed.

Lemma is_ok_false s : is_ok s = false <-> s <> NATS_OK.
Proof. destruct s; simpl; split; congruence. Qed.

Lemma is_timeout_true s : is_timeout s = true <-> s = NATS_TIMEOUT.
Proof. destruct s; simpl; split; congruence. Qed.

(** ** The configuration differ *)

Lemma stringPropertyDiffer_same (a : cstr) : _stringPropertyDiffer a a = false.
Proof.
  unfold _stringPropertyDiffer.
  destruct (nats_IsStringEmpty a) eqn:E; [reflexivity|].
  destruct a as [a|]; [|discriminate E].
  unfold strcmp_ne. destruct (decide (a = a)); congruence.
Qed.

Lemma Z_ne_same a : Z_ne a a = false.
Proof. unfold Z_ne. now rewrite Z.eqb_refl. Qed.

Lemma N_ne_same a : N_ne a a = false.
Proof. unfold N_ne. now rewrite N.eqb_refl. Qed.

(** The differ never reports a mismatch of a configuration with itself,
    whatever its fields hold. *)
Lemma checkConfig_same (c : jsConsumerConfig) : _checkConfig c c = (NATS_OK, None).
Proof.
  unfold _checkConfig.
  rewrite !stringPropertyDiffer_same, !Z_ne_same, !N_ne_same, !andb_false_r.
  now destruct (FlowControl c).
Qed.

(** A mismatch is reported when a set field of the user differs. *)
Example checkConfig_ack_wait_differs :
  _checkConfig sample_config
    {| Durable := None; Description := None; DeliverSubject := None;
       DeliverGroup := None; DeliverPolicy := -1; OptStartSeq := 0%N;
       OptStartTime := 0; AckPolicy := -1; AckWait := 1; MaxDeliver := 0;
       FilterSubject := None; ReplayPolicy := -1; RateLimit := 0%N;
       SampleFrequency := None; MaxWaiting := 0; MaxAckPending := 0;
       FlowControl := false; Heartbeat := 0 |}
  = (NATS_ERR, Some "ack wait").
Proof. reflexivity. Qed.

(** C8: for every consumer configuration [c] with no unset field,
    [_checkConfig(c, c)] reports no mismatch and returns [NATS_OK]. *)
Theorem checkConfig_self_ok (c : jsConsumerConfig) :
  no_unset c -> _checkConfig c c = (NATS_OK, None).
Proof.
  intros (Hd & Ha & Hr). unfold _checkConfig.
  (* strings: a non-empty user string equal to the server's does not differ *)
  rewrite !stringPropertyDiffer_same.
  (* enums: set, and equal *)
  assert (Ed : (DeliverPolicy c >=? 0) = true) by (apply Z.geb_le; lia).
  assert (Ea : (AckPolicy c >=? 0) = true) by (apply Z.geb_le; lia).
  assert (Er : (ReplayPolicy c >=? 0) = true) by (apply Z.geb_le; lia).
  rewrite Ed, Ea, Er, !Z_ne_same, !N_ne_same, !andb_false_r.
  (* flow control *)
  now destruct (FlowControl c).
Qed.

Lemma checkConfig_self_ok_witness :
  no_unset sample_config /\ _checkConfig sample_config sample_config = (NATS_OK, None).
Proof.
  assert (H : no_unset sample_config) by (unfold no_unset; simpl; lia).
  split; [exact H | exact (checkConfig_self_ok sample_config H)].
Defined.


(** ** The metadata parser *)

Lemma strchr_dot_None p : strchr_dot p = None -> count_dots p = O.
Proof.
  induction p as [|c r IH]; simpl; [reflexivity|].
  destruct (Ascii.eqb c "."); [discriminate|].
  destruct (strchr_dot r); [discriminate|]. intros _. now apply IH.
Qed.

Lemma strchr_dot_Some p d :
  strchr_dot p = Some d -> count_dots p = S (count_dots (str_drop (S d) p)).
Proof.
  revert d. induction p as [|c r IH]; simpl; intros d; [discriminate|].
  destruct (Ascii.eqb c ".") eqn:E.
  - intros [= <-]. reflexivity.
  - destruct (strchr_dot r) as [d'|] eqn:Er; [|discriminate].
    intros [= <-]. now apply IH.
Qed.

Lemma scan_tokens_count fuel st :
  (sc_nt st + fuel = 9)%nat ->
  let st' := scan_tokens fuel st in
  ((count_dots (sc_p st) < fuel)%nat ->
     sc_np st' = None /\ sc_nt st' = (sc_nt st + count_dots (sc_p st))%nat) /\
  ((fuel <= count_dots (sc_p st))%nat ->
     sc_nt st' = 9%nat /\ (sc_np st' = sc_np st \/ is_Some (sc_np st')) /\
     ((0 < fuel)%nat -> is_Some (sc_np st'))).
Proof.
  revert st. induction fuel as [|f IH]; intros st Hnt; cbn [scan_tokens].
  - split; [lia|]. intros _. repeat split; [lia | now left | lia].
  - assert (Hlt : (sc_nt st <? 9)%nat = true) by (apply Nat.ltb_lt; lia).
    rewrite Hlt.
    destruct (strchr_dot (sc_p st)) as [d|] eqn:Ed.
    + pose proof (strchr_dot_Some _ _ Ed) as Hc.
      match goal with |- context [scan_tokens f ?s] => specialize (IH s) end.
      cbn [sc_nt sc_p sc_np sc_tokens] in IH.
      destruct IH as [IH1 IH2]; [lia|].
      cbv zeta. rewrite Hc. split.
      * intros Hf. destruct IH1 as [-> ->]; [lia|]. split; [reflexivity|lia].
      * intros Hf. destruct IH2 as (-> & Hnp & Hpos); [lia|].
        assert (Hs : is_Some (sc_np (scan_tokens f
           {| sc_nt := S (sc_nt st); sc_p := str_drop (S d) (sc_p st);
              sc_np := Some (str_drop d (sc_p st));
              sc_tokens := <[sc_nt st:=mkToken (Some (sc_p st)) d]> (sc_tokens st) |}))).
        { destruct Hnp as [-> | H]; [eexists; reflexivity | exact H]. }
        repeat split; [now right | intros _; exact Hs].
    + rewrite (strchr_dot_None _ Ed). cbn [sc_nt sc_p sc_np sc_tokens]. split.
      * intros _. split; [reflexivity|lia].
      * lia.
Qed.

Lemma find_tokens_count reply :
  fst (find_tokens reply) = Nat.min 9 (S (count_dots reply)).
Proof.
  unfold find_tokens.
  pose proof (scan_tokens_count 9 (mkScan O reply None (replicate 9 tok_zero)) eq_refl)
    as [H1 H2].
  cbn [sc_nt sc_p sc_np sc_tokens] in H1, H2.
  destruct (le_lt_dec 9 (count_dots reply)) as [Hge|Hlt].
  - destruct H2 as (Hn & _ & Hs); [exact Hge|].
    destruct Hs as [x Hx]; [lia|]. rewrite Hx. cbn [fst]. lia.
  - destruct H1 as [Hnp Hn]; [exact Hlt|]. rewrite Hnp. cbn [fst]. lia.
Qed.
Lemma scan_tokens_nt_mono fuel st : (sc_nt st <= sc_nt (scan_tokens fuel st))%nat.
Proof.
  revert st. induction fuel as [|f IH]; intros st; cbn [scan_tokens]; [lia|].
  destruct (sc_nt st <? 9)%nat; [|lia].
  destruct (strchr_dot (sc_p st)); cbn [sc_nt]; [|lia].
  etransitivity; [|apply IH]. cbn [sc_nt]. lia.
Qed.

(** Entries below [nt] are not written again. *)
Lemma scan_tokens_keep fuel st j :
  (j < sc_nt st)%nat ->
  sc_tokens (scan_tokens fuel st) !! j = sc_tokens st !! j.
Proof.
  revert st. induction fuel as [|f IH]; intros st Hj; cbn [scan_tokens]; [reflexivity|].
  destruct (sc_nt st <? 9)%nat; [|reflexivity].
  destruct (strchr_dot (sc_p st)); cbn [sc_tokens]; [|reflexivity].
  rewrite IH by (cbn [sc_nt]; lia). cbn [sc_tokens].
  apply list_lookup_insert_ne. lia.
Qed.

Lemma scan_tokens_S f st :
  scan_tokens (S f) st =
  if (sc_nt st <? 9)%nat then
    match strchr_dot (sc_p st) with
    | Some d =>
        scan_tokens f
          {| sc_nt := S (sc_nt st);
             sc_p := str_drop (S d) (sc_p st);
             sc_np := Some (str_drop d (sc_p st));
             sc_tokens := <[sc_nt st := mkToken (Some (sc_p st)) d]> (sc_tokens st) |}
    | None =>
        {| sc_nt := sc_nt st; sc_p := sc_p st; sc_np := None;
           sc_tokens := sc_tokens st |}
    end
  else st.
Proof. reflexivity. Qed.

(** The first token starts at the subject and runs to its first dot. *)
Lemma find_tokens_first reply d :
  strchr_dot reply = Some d ->
  nth 0 (snd (find_tokens reply)) tok_zero = mkToken (Some reply) d.
Proof.
  intros Hd. rewrite nth_lookup. unfold find_tokens.
  rewrite scan_tokens_S. cbn [sc_nt sc_p sc_tokens].
  change (0 <? 9)%nat with true. cbv iota. rewrite Hd.
  match goal with |- context [scan_tokens 8 ?s] => set (st1 := s) end.
  pose proof (scan_tokens_nt_mono 8 st1) as Hm.
  pose proof (scan_tokens_keep 8 st1 0) as Hk.
  assert (H1 : sc_nt st1 = 1%nat) by reflexivity.
  assert (H0 : sc_tokens st1 !! 0%nat = Some (mkToken (Some reply) d)) by reflexivity.
  rewrite H1 in Hm. rewrite H0 in Hk. clearbody st1.
  destruct (sc_np _); cbn [snd].
  - rewrite Hk by lia. reflexivity.
  - rewrite list_lookup_insert_ne by lia. rewrite Hk by lia. reflexivity.
Qed.

Section MetaDataFacts.

Variable nats_ParseInt64 : cstr -> nat -> Z.
Variable mem : nat -> bool.
Variable ask : jsMetaAsk.

(** Only token 0 writes the domain. *)
Lemma store_field_domain i str l val done o :
  (1 <= i)%nat ->
  md_domain (step_out (store_field mem ask i str l val done o)) = md_domain o.
Proof.
  intros Hi.
  do 9 (destruct i as [|i]; [try lia; unfold store_field, _copyString;
    repeat match goal with
           | |- context [if ?b then _ else _] => destruct b
           end; reflexivity|]).
  reflexivity.
Qed.

Lemma field_loop_domain n : forall i tokens asked val done o,
  (1 <= i)%nat ->
  md_domain (snd (field_loop nats_ParseInt64 mem ask n i tokens asked val done o))
  = md_domain o.
Proof.
  induction n as [|n IH]; intros i tokens asked val done o Hi; cbn [field_loop];
    [reflexivity|].
  destruct ((3 <? i)%nat && _); [reflexivity|].
  match goal with |- context [store_field ?a ?b ?c ?d ?e ?f ?g ?h] =>
    pose proof (store_field_domain c d e f g h Hi) as Hs;
    destruct (store_field a b c d e f g h) as [s o'|done' o'] end;
    cbn [step_out] in Hs.
  - exact Hs.
  - destruct (done' =? asked); [exact Hs|].
    rewrite IH by lia. exact Hs.
Qed.

(** When token 0 is the NULL token or the token ["_"], a requested domain
    comes out NULL. *)
Lemma field_loop_no_domain n tokens asked o :
  ask_domain ask = true ->
  (tok_start (nth 0 tokens tok_zero) = None \/
   exists t, tok_start (nth 0 tokens tok_zero) = Some t /\
             is_underscore t (tok_len (nth 0 tokens tok_zero)) = true) ->
  md_domain (snd (field_loop nats_ParseInt64 mem ask (S n) 0 tokens asked 0 0 o)) = None.
Proof.
  intros Ha Ht. cbn [field_loop]. change (3 <? 0)%nat with false. cbv iota.
  cbn [andb]. unfold store_field at 1. rewrite Ha.
  destruct Ht as [-> | (t & -> & ->)].
  - destruct (0 + 1 =? asked); [reflexivity|].
    now rewrite field_loop_domain by lia.
  - destruct (0 + 1 =? asked); [reflexivity|].
    now rewrite field_loop_domain by lia.
Qed.

End MetaDataFacts.
(** C5: the ack-reply metadata parser collects at most 9 dot-separated
    tokens (the number of tokens of the subject, capped at 9); it returns
    [NATS_OK] only when it collected 7 or 9 of them, and fewer than 7, or
    exactly 8, is the format error [NATS_ERR] with no output written; a
    7-token (v1) subject is parsed as the 9-token shape obtained by putting
    two empty tokens in front, so its domain, when requested, comes out NULL;
    and a 9-token (v2) subject whose first token is exactly ["_"] also gives
    a NULL domain. *)
Theorem getMetaData_tokens_and_domain
    (nats_ParseInt64 : cstr -> nat -> Z) (mem : nat -> bool) (ask : jsMetaAsk)
    (reply : string) (asked : Z) (o : jsMetaOut) :
  let nt := fst (find_tokens reply) in
  let r := _getMetaData nats_ParseInt64 mem ask reply asked o in
  (1 <= nt <= 9)%nat /\
  nt = Nat.min 9 (S (count_dots reply)) /\
  (fst r = NATS_OK -> nt = 7%nat \/ nt = 9%nat) /\
  ((nt < 7)%nat \/ nt = 8%nat -> r = (NATS_ERR, o)) /\
  (nt = 7%nat ->
     r = field_loop nats_ParseInt64 mem ask 9 0
           (tok_zero :: tok_zero :: take 7 (snd (find_tokens reply))) asked 0 0 o) /\
  (nt = 7%nat -> ask_domain ask = true -> md_domain (snd r) = None) /\
  (nt = 9%nat -> (exists rest, reply = String "_" (String "." rest)) ->
     ask_domain ask = true -> md_domain (snd r) = None).
Proof.
  intros nt r.
  assert (Hnt : nt = Nat.min 9 (S (count_dots reply))) by apply find_tokens_count.
  assert (Hr : r = _getMetaData nats_ParseInt64 mem ask reply asked o) by reflexivity.
  unfold _getMetaData in Hr.
  destruct (find_tokens reply) as [n tokens] eqn:Eft.
  cbn [fst snd] in *. subst nt.
  split; [lia|]. split; [exact Hnt|].
  clear Hnt.
  destruct ((n <? 7)%nat || (7 <? n)%nat && (n <? 9)%nat) eqn:Ebad.
  - (* fewer than 7, or 8 *)
    assert (Hn : (n < 7)%nat \/ n = 8%nat).
    { apply orb_true_iff in Ebad as [H|H].
      - left. now apply Nat.ltb_lt.
      - apply andb_true_iff in H as [H1 H2].
        apply Nat.ltb_lt in H1, H2. right. lia. }
    rewrite Hr. cbn [fst snd].
    split; [discriminate|]. split; [reflexivity|].
    repeat split; intros; lia.
  - assert (Hn : (7 <= n)%nat /\ n <> 8%nat).
    { apply orb_false_iff in Ebad as [H1 H2]. apply Nat.ltb_ge in H1.
      split; [exact H1|]. intros ->. discriminate H2. }
    split.
    { intros _. destruct Hn as [H7 H8].
      destruct (Nat.eq_dec n 7%nat); [now left|].
      right. pose proof (find_tokens_count reply) as Hc. rewrite Eft in Hc.
      cbn [fst] in Hc. lia. }
    split; [intros [H|H]; lia|].
    destruct (n =? 7)%nat eqn:E7.
    + apply Nat.eqb_eq in E7. subst n. unfold promote_v1 in Hr.
      split; [intros _; exact Hr|].
      split; [|intros H; discriminate H].
      intros _ Ha. rewrite Hr.
      apply field_loop_no_domain; [exact Ha|]. now left.
    + apply Nat.eqb_neq in E7.
      split; [intros H; contradiction|]. split; [intros H; contradiction|].
      intros -> [rest Hrest] Ha. rewrite Hr.
      apply field_loop_no_domain; [exact Ha|]. right.
      assert (Hd : strchr_dot reply = Some 1%nat) by (subst reply; reflexivity).
      pose proof (find_tokens_first reply 1 Hd) as Hf. rewrite Eft in Hf.
      cbn [snd] in Hf. rewrite Hf. cbn [tok_start tok_len].
      exists reply. split; [reflexivity|]. subst reply. reflexivity.
Qed.

Lemma getMetaData_tokens_and_domain_witness :
  _getMetaData nats_ParseInt64_model (fun _ => true) ask_all
    "ORDERS.dur.1.42.7.1700000000000000000.3" 8 meta_zero
  = (NATS_OK, mkMetaOut None (Some "ORDERS") (Some "dur") 1 42 7 1700000000000000000 3)
  /\ md_domain (snd (_getMetaData nats_ParseInt64_model (fun _ => true) ask_all
       "ORDERS.dur.1.42.7.1700000000000000000.3" 8 meta_zero)) = None
  /\ md_domain (snd (_getMetaData nats_ParseInt64_model (fun _ => true) ask_all
       "_.acc.ORDERS.dur.1.42.7.1700000000000000000.3.rnd" 8
       (mkMetaOut (Some "stale") None None 0 0 0 0 0))) = None
  /\ _getMetaData nats_ParseInt64_model (fun _ => true) ask_all
       "a.ORDERS.dur.1.42.7.1700000000000000000.3" 8 meta_zero = (NATS_ERR, meta_zero).
Proof.
  split; [vm_compute; reflexivity|].
  split.
  { refine (proj1 (proj2 (proj2 (proj2 (proj2 (proj2
      (getMetaData_tokens_and_domain nats_ParseInt64_model (fun _ => true) ask_all
         "ORDERS.dur.1.42.7.1700000000000000000.3" 8 meta_zero)))))) _ _);
      vm_compute; reflexivity. }
  split.
  { refine (proj2 (proj2 (proj2 (proj2 (proj2 (proj2
      (getMetaData_tokens_and_domain nats_ParseInt64_model (fun _ => true) ask_all
         "_.acc.ORDERS.dur.1.42.7.1700000000000000000.3.rnd" 8
         (mkMetaOut (Some "stale") None None 0 0 0 0 0))))))) _ _ _);
      [vm_compute; reflexivity | eexists; reflexivity | reflexivity]. }
  refine (proj1 (proj2 (proj2 (proj2
      (getMetaData_tokens_and_domain nats_ParseInt64_model (fun _ => true) ask_all
         "a.ORDERS.dur.1.42.7.1700000000000000000.3" 8 meta_zero)))) _).
  right. vm_compute. reflexivity.
Defined.

(** ** The ack API *)

Lemma ack_call_unfold jsr t1 t2 k msg opts net e :
  ack_call jsr t1 t2 k msg opts net e =
  _ackMsg jsr t1 t2 msg opts (ack_payload k)
          (match k with KInProgress => true | _ => false end)
          (match k with KAckSync => true | _ => false end) net e.
Proof. destruct k; reflexivity. Qed.

(** An already acked message: nothing is sent, nothing changes. *)
Lemma ackMsg_already_acked jsr t1 t2 m opts ackType inProgress sync net e :
  msg_acked m = true ->
  _ackMsg jsr t1 t2 (Some m) opts ackType inProgress sync net e
  = Some (mkAckResult NATS_OK (Some m) [] e).
Proof. intros H. unfold _ackMsg, natsMsg_isAcked. now rewrite H. Qed.

(** The message after the call, whatever the path taken. *)
Lemma ackMsg_flag jsr t1 t2 m opts ackType inProgress sync net e r :
  _ackMsg jsr t1 t2 (Some m) opts ackType inProgress sync net e = Some r ->
  exists m', ar_msg r = Some m' /\
    (inProgress = true -> m' = m) /\
    (inProgress = false -> ar_status r = NATS_OK -> msg_acked m' = true).
Proof.
  unfold _ackMsg, natsMsg_isAcked.
  destruct (msg_acked m) eqn:Ea.
  { intros [= <-]. exists m. cbn. auto. }
  destruct (msg_sub m) as [sub|].
  2:{ intros [= <-]. exists m. cbn. split; [reflexivity|].
      split; [reflexivity|]. discriminate. }
  destruct (nats_IsStringEmpty (msg_reply m)).
  { intros [= <-]. exists m. cbn. split; [reflexivity|].
    split; [reflexivity|]. discriminate. }
  destruct (sub_jsi sub) as [jsi|]; [|discriminate].
  destruct sync; intros [= <-]; cbn [ar_msg ar_status]; eexists;
    (split; [reflexivity|]); (split; [intros ->; now rewrite andb_false_r|]);
    intros -> ->; reflexivity.
Qed.

(** C9: for every delivered message and each of [natsMsg_Ack],
    [natsMsg_AckSync], [natsMsg_Nak], [natsMsg_InProgress] and
    [natsMsg_Term]: when the message is already marked acked the call
    returns [NATS_OK], sends nothing and leaves the message as it is;
    otherwise it sends exactly one message, carrying the payload of the entry
    point, to the reply subject; a call other than [natsMsg_InProgress]
    that returns [NATS_OK] leaves the message marked acked, and
    [natsMsg_InProgress] never changes the message, so that a message not
    acked before it is not acked after it. *)
Theorem ack_api_acked_flag
    (jsr : natsStatus -> natsStatus) (t1 t2 : string) (k : ack_kind)
    (m : natsMsg) (opts : option jsOptions) (net : natsStatus) (e : errSlot) :
  delivered m ->
  exists r,
    ack_call jsr t1 t2 k (Some m) opts net e = Some r /\
    exists m', ar_msg r = Some m' /\
    (msg_acked m = true ->
       ar_status r = NATS_OK /\ ar_sent r = [] /\ m' = m /\ ar_err r = e) /\
    (msg_acked m = false ->
       exists op, ar_sent r = [op] /\
         match op with
         | NetPublish subj p => k <> KAckSync /\ subj = msg_reply m /\ p = ack_payload k
         | NetRequest subj p _ => k = KAckSync /\ subj = msg_reply m /\ p = ack_payload k
         end) /\
    (k <> KInProgress -> ar_status r = NATS_OK -> msg_acked m' = true) /\
    (k = KInProgress -> m' = m).
Proof.
  intros (sub & jsi & Hsub & Hjsi & Hreply).
  rewrite ack_call_unfold.
  destruct (msg_acked m) eqn:Ea.
  - rewrite ackMsg_already_acked by exact Ea.
    eexists; split; [reflexivity|]. exists m. cbn.
    split; [reflexivity|]. split; [auto|]. split; [discriminate|]. auto.
  - unfold _ackMsg, natsMsg_isAcked. rewrite Ea, Hsub, Hreply, Hjsi.
    destruct k; cbn [ar_msg ar_status ar_sent ar_err andb negb];
      (eexists; split; [reflexivity|]); cbn [ar_msg ar_status ar_sent ar_err];
      (eexists; split; [reflexivity|]);
      (split; [discriminate|]);
      (split; [intros _; eexists; split; [reflexivity|]; cbn;
               repeat split; congruence|]);
      (split; [try congruence; intros _ ->; reflexivity|]);
      try discriminate.
    intros _. now rewrite andb_false_r.
Qed.

Lemma ack_api_acked_flag_witness :
  delivered sample_delivered /\
  (exists r, ack_call (fun s => s) "not bound" "not js" KAck (Some sample_delivered)
               None NATS_OK None = Some r /\
             ar_status r = NATS_OK /\
             ar_msg r = Some (natsMsg_setAcked sample_delivered)) /\
  (exists r, ack_call (fun s => s) "not bound" "not js" KInProgress
               (Some sample_delivered) None NATS_OK None = Some r /\
             ar_status r = NATS_OK /\ ar_msg r = Some sample_delivered).
Proof.
  assert (H : delivered sample_delivered).
  { exists sample_sub, sample_jsi. repeat split; reflexivity. }
  split; [exact H|]. split.
  - destruct (ack_api_acked_flag (fun s => s) "not bound" "not js" KAck
                sample_delivered None NATS_OK None H) as (r & Hr & _).
    exists r. split; [exact Hr|].
    vm_compute in Hr. injection Hr as <-. split; reflexivity.
  - destruct (ack_api_acked_flag (fun s => s) "not bound" "not js" KInProgress
                sample_delivered None NATS_OK None H) as (r & Hr & _).
    exists r. split; [exact Hr|].
    vm_compute in Hr. injection Hr as <-. split; reflexivity.
Defined.

(** ** Pull subscription *)

(** C10: [js_PullSubscribe] returns [NATS_INVALID_ARG] without going
    through [_subscribe] (so nothing is sent to the server and no
    subscription is stored) whenever the durable name is NULL or empty, or
    the options are given and ask for the ack policy "none" or "all". *)
Theorem pullSubscribe_invalid_arg
    (js_AckNone js_AckAll : Z) (t1 t2 t3 : string)
    (_subscribe : cstr -> cstr -> bool -> bool -> option jsOptions ->
                  option jsSubOptions -> errSlot -> sub_result)
    (subject durable : cstr) (jsOpts : option jsOptions)
    (opts : option jsSubOptions) (e : errSlot) :
  nats_IsStringEmpty durable = true \/
  (exists o, opts = Some o /\
     (AckPolicy (so_Config o) = js_AckNone \/ AckPolicy (so_Config o) = js_AckAll)) ->
  let r := js_PullSubscribe js_AckNone js_AckAll t1 t2 t3 _subscribe
             subject durable jsOpts opts e in
  sr_status r = NATS_INVALID_ARG /\ sr_sub r = None /\ sr_sent r = [] /\
  (exists txt, sr_err r = Some (NATS_INVALID_ARG, txt)).
Proof.
  intros H r. subst r. unfold js_PullSubscribe.
  destruct (nats_IsStringEmpty durable) eqn:Ed.
  - cbn. repeat split. eexists; reflexivity.
  - destruct H as [H | (o & -> & Hp)]; [discriminate|].
    assert (Hb : (AckPolicy (so_Config o) =? js_AckNone)
                 || (AckPolicy (so_Config o) =? js_AckAll) = true).
    { apply orb_true_iff. destruct Hp as [-> | ->]; rewrite Z.eqb_refl; auto. }
    rewrite Hb. cbn. repeat split. eexists; reflexivity.
Qed.

Lemma pullSubscribe_invalid_arg_witness :
  sr_status (js_PullSubscribe 1 2 "durable required" "none" "all" subscribe_always
               (Some "ORDERS.new") (Some "") None None None) = NATS_INVALID_ARG /\
  sr_sent (js_PullSubscribe 1 2 "durable required" "none" "all" subscribe_always
               (Some "ORDERS.new") (Some "dur") None (Some (opts_with_ack 2)) None) = [] /\
  sr_sub (js_PullSubscribe 1 2 "durable required" "none" "all" subscribe_always
               (Some "ORDERS.new") (Some "dur") None (Some (opts_with_ack 1)) None) = None.
Proof.
  split; [|split].
  - refine (proj1 (pullSubscribe_invalid_arg 1 2 "durable required" "none" "all"
             subscribe_always (Some "ORDERS.new") (Some "") None None None _)).
    left. reflexivity.
  - refine (proj1 (proj2 (proj2 (pullSubscribe_invalid_arg 1 2 "durable required"
             "none" "all" subscribe_always (Some "ORDERS.new") (Some "dur") None
             (Some (opts_with_ack 2)) None _)))).
    right. exists (opts_with_ack 2). split; [reflexivity|]. right. reflexivity.
  - refine (proj1 (proj2 (pullSubscribe_invalid_arg 1 2 "durable required"
             "none" "all" subscribe_always (Some "ORDERS.new") (Some "dur") None
             (Some (opts_with_ack 1)) None _))).
    right. exists (opts_with_ack 1). split; [reflexivity|]. left. reflexivity.
Defined.

(** With a durable name and an explicit ack policy the call goes on to
    [_subscribe]. *)
Example pullSubscribe_goes_on :
  sr_status (js_PullSubscribe 1 2 "durable required" "none" "all" subscribe_always
               (Some "ORDERS.new") (Some "dur") None (Some (opts_with_ack 0)) None)
  = NATS_OK.
Proof. reflexivity. Qed.

(** ** Machine integers *)

Lemma int64_id z : in_int64 z -> int64 z = z.
Proof.
  unfold in_int64, int64, wrap. intros H.
  change (64 - 1) with 63. rewrite Z.mod_small; lia.
Qed.

Lemma int64_range z : in_int64 (int64 z).
Proof.
  unfold in_int64, int64, wrap. change (64 - 1) with 63.
  pose proof (Z.mod_pos_bound (z + 2 ^ 63) (2 ^ 64) ltac:(lia)). lia.
Qed.

Lemma int64_add_l a b : int64 (int64 a + b) = int64 (a + b).
Proof.
  unfold int64, wrap. change (64 - 1) with 63. f_equal.
  replace ((a + 2 ^ 63) mod 2 ^ 64 - 2 ^ 63 + b + 2 ^ 63)
    with ((a + 2 ^ 63) mod 2 ^ 64 + b) by lia.
  rewrite Zplus_mod_idemp_l. f_equal. lia.
Qed.

Lemma int64_sub_l a b : int64 (int64 a - b) = int64 (a - b).
Proof. rewrite <- !Z.add_opp_r. apply int64_add_l. Qed.

(** ** The other threads *)

Lemma interfere_all_pmcount ws : forall js,
  js_pmcount (interfere_all ws js) = others_count (js_pmcount js) ws.
Proof.
  induction ws as [|w ws IH]; intros js; [reflexivity|].
  unfold interfere_all, others_count in *. cbn [fold_left]. now rewrite IH.
Qed.

Lemma interfere_all_pm ws : forall js,
  js_pm (interfere_all ws js) = (fun h => others_map h ws) <$> js_pm js.
Proof.
  induction ws as [|w ws IH]; intros js.
  - cbn. now destruct (js_pm js).
  - unfold interfere_all, others_map in *. cbn [fold_left]. rewrite IH.
    cbn [interfere js_pm]. now destruct (js_pm js).
Qed.

Lemma others_count_cons c w ws :
  others_count c (w :: ws) = others_count (int64 (c + i_pmcount (wk_by w))) ws.
Proof. reflexivity. Qed.

Lemma others_count_range c ws : in_int64 c -> in_int64 (others_count c ws).
Proof.
  revert c. induction ws as [|w ws IH]; intros c Hc; [exact Hc|].
  rewrite others_count_cons. apply IH, int64_range.
Qed.

(** The count seen by a caller that added one to it is one more than the
    count the other threads alone produce. *)
Lemma others_count_succ c ws :
  others_count (int64 (c + 1)) ws = int64 (others_count c ws + 1).
Proof.
  revert c. induction ws as [|w ws IH]; intros c; [reflexivity|].
  rewrite !others_count_cons, <- IH. f_equal.
  rewrite !int64_add_l. f_equal. lia.
Qed.

Lemma others_count_back c ws :
  in_int64 c -> int64 (others_count (int64 (c + 1)) ws - 1) = others_count c ws.
Proof.
  intros Hc. rewrite others_count_succ, int64_sub_l.
  replace (others_count c ws + 1 - 1) with (others_count c ws) by lia.
  apply int64_id, others_count_range, Hc.
Qed.

(** ** The stall *)

(** A stalled caller whose count stays above the maximum until the
    deadline leaves the wait with [NATS_TIMEOUT], having used the wait
    returns up to the deadline. *)
Lemma stall_wait_timeout maxp target ws : forall js,
  maxp < js_pmcount js ->
  stays_above maxp target (js_pmcount js) ws ->
  stall_wait maxp target ws NATS_OK js
  = Some (NATS_TIMEOUT, interfere_all (until_deadline target ws) js).
Proof.
  induction ws as [|w ws IH]; intros js Hgt Hs; [destruct Hs|].
  cbn [stall_wait is_timeout negb andb].
  assert (Hm : (maxp <? js_pmcount js) = true) by (apply Z.ltb_lt; exact Hgt).
  rewrite Hm. unfold natsCondition_AbsoluteTimedWait.
  cbn [stays_above until_deadline] in *.
  destruct (target <=? wk_now w) eqn:Et.
  - destruct ws; reflexivity.
  - destruct Hs as [Hgt' Hs'].
    change (interfere_all (w :: until_deadline target ws) js)
      with (interfere_all (until_deadline target ws) (interfere (wk_by w) js)).
    apply IH; cbn [interfere js_pmcount]; assumption.
Qed.
(** C1: for every call to [js_PublishMsgAsync] on a context whose
    [MaxPending] is positive and whose async publish state exists: if the
    pending count, once incremented, exceeds [MaxPending] and is still above
    it at every return of the wait that comes before the absolute deadline
    [now + StallWait], the call fails with [NATS_TIMEOUT] and the "stalled"
    text; the pending count and the inflight map are then exactly what the
    other threads made of them in the meantime (the call adds nothing to the
    count and inserts nothing in the map), nothing is published and the
    caller keeps the message. *)
Theorem publishMsgAsync_stalled
    (pre : nat) (env : pub_env) (pub : natsStatus) (during : interference)
    (js : jsCtx) (msg : natsMsgPtr) (e : errSlot) :
  let maxp := MaxPending (PublishAsync (js_opts js)) in
  let target := pe_now env + StallWait (PublishAsync (js_opts js)) in
  let used := until_deadline target (pe_wakes env) in
  0 < maxp ->
  async_ready js ->
  in_int64 (js_pmcount js) ->
  maxp < int64 (js_pmcount js + 1) ->
  stays_above maxp target (int64 (js_pmcount js + 1)) (pe_wakes env) ->
  exists r,
    js_PublishMsgAsync pre env NATS_OK pub during (Some js) (Some (Some msg)) e
    = Some (NATS_TIMEOUT, Some r, Some (NATS_TIMEOUT, stalled_text)) /\
    pr_status r = NATS_TIMEOUT /\
    js_pmcount (pr_js r) = others_count (js_pmcount js) used /\
    js_pm (pr_js r) = (fun h => others_map h used) <$> js_pm js /\
    pr_sent r = [] /\
    pr_msg r = Some msg.
Proof.
  intros maxp target used Hmax [Hrsub Hpm] Hrange Hgt Hstays.
  unfold js_PublishMsgAsync, js_PublishMsgAsync_body. cbn [is_ok].
  unfold _registerPubMsg, await_slot, _newAsyncReply.
  unfold set_pmcount at 1. cbn [js_rsub]. rewrite Hrsub. cbn [is_ok andb].
  unfold set_pmcount. cbn [js_opts js_pmcount js_rpre js_pm]. fold maxp.
  assert (H0 : (0 <? maxp) = true) by (apply Z.ltb_lt; exact Hmax).
  assert (H1 : (maxp <? int64 (js_pmcount js + 1)) = true)
    by (apply Z.ltb_lt; exact Hgt).
  rewrite H0, H1. cbn [andb].
  unfold nats_setTargetTime. fold target.
  rewrite stall_wait_timeout;
    [|unfold _retain, set_stalled, set_refs; cbn [js_pmcount]; assumption ..].
  fold used. cbn [is_timeout is_ok nats_setError].
  eexists. split; [reflexivity|].
  cbn [pr_status pr_js pr_sent pr_msg].
  split; [reflexivity|].
  split.
  { unfold js_unlockAndRelease.
    match goal with |- context [if ?b then _ else _] => destruct b end;
      cbn [set_freed set_refs set_pmcount set_stalled js_pmcount];
      rewrite interfere_all_pmcount; cbn [js_pmcount];
      apply others_count_back, Hrange. }
  split; [|split; reflexivity].
  unfold js_unlockAndRelease.
  match goal with |- context [if ?b then _ else _] => destruct b end;
    cbn [set_freed set_refs set_pmcount set_stalled js_pm];
    rewrite interfere_all_pm; reflexivity.
Qed.

Lemma publishMsgAsync_stalled_witness :
  exists r,
    js_PublishMsgAsync 7 stall_env NATS_OK NATS_OK no_interference
      (Some stall_ctx) (Some (Some 3%nat)) None
    = Some (NATS_TIMEOUT, Some r, Some (NATS_TIMEOUT, stalled_text)) /\
    js_pmcount (pr_js r) = 2 /\ js_pm (pr_js r) = js_pm stall_ctx.
Proof.
  destruct (publishMsgAsync_stalled 7 stall_env NATS_OK no_interference
              stall_ctx 3%nat None) as (r & Hr & _ & Hc & Hm & _).
  - reflexivity.
  - split; [reflexivity | eexists; reflexivity].
  - unfold in_int64. cbn. lia.
  - vm_compute. reflexivity.
  - cbn. split; [vm_compute; reflexivity | exact I].
  - exists r. split; [exact Hr|]. split; [exact Hc | exact Hm].
Defined.

(** ** Completion *)

Lemma interfere_all_app a b js :
  interfere_all (a ++ b) js = interfere_all b (interfere_all a js).
Proof. unfold interfere_all. apply fold_left_app. Qed.

Lemma others_count_app c a b :
  others_count c (a ++ b) = others_count (others_count c a) b.
Proof. unfold others_count. apply fold_left_app. Qed.

(** The wait is over as soon as its condition fails. *)
Lemma complete_wait_exit target ws s js :
  negb (is_timeout s) && (0 <? js_pmcount js) = false ->
  complete_wait target ws s js = Some (s, js).
Proof. intros H. destruct ws; cbn [complete_wait]; now rewrite H. Qed.

(** While the returns come before the deadline with messages pending, the
    waiter goes back to waiting. *)
Lemma complete_wait_pending target pre : forall rest js,
  0 < js_pmcount js ->
  still_pending target (js_pmcount js) pre ->
  complete_wait target (pre ++ rest) NATS_OK js
  = complete_wait target rest NATS_OK (interfere_all pre js) /\
  0 < js_pmcount (interfere_all pre js).
Proof.
  induction pre as [|w pre IH]; intros rest js Hpos Hp; [split; [reflexivity|exact Hpos]|].
  destruct Hp as (Hbefore & Hpos' & Hp).
  cbn [app complete_wait is_timeout negb andb].
  assert (Hb : (0 <? js_pmcount js) = true) by (apply Z.ltb_lt; exact Hpos).
  rewrite Hb. unfold natsCondition_AbsoluteTimedWait, natsCondition_Wait.
  assert (Hs : (if 0 <? target
                then (if target <=? wk_now w then NATS_TIMEOUT else NATS_OK,
                      interfere (wk_by w) js)
                else (NATS_OK, interfere (wk_by w) js))
               = (NATS_OK, interfere (wk_by w) js)).
  { destruct (0 <? target) eqn:Et; [|reflexivity].
    apply Z.ltb_lt in Et. specialize (Hbefore Et).
    assert (Hle : (target <=? wk_now w) = false) by (apply Z.leb_gt; exact Hbefore).
    now rewrite Hle. }
  rewrite Hs.
  change (interfere_all (w :: pre) js) with (interfere_all pre (interfere (wk_by w) js)).
  apply IH; cbn [interfere js_pmcount]; assumption.
Qed.

Lemma complete_wait_blocked target ws js :
  0 < js_pmcount js ->
  still_pending target (js_pmcount js) ws ->
  complete_wait target ws NATS_OK js = None.
Proof.
  intros Hpos Hp.
  pose proof (complete_wait_pending target ws [] js Hpos Hp) as [Heq Hpos'].
  rewrite app_nil_r in Heq. rewrite Heq. cbn [complete_wait is_timeout negb andb].
  assert (Hb : (0 <? js_pmcount (interfere_all ws js)) = true)
    by (apply Z.ltb_lt; exact Hpos').
  now rewrite Hb.
Qed.

Lemma unlockAndRelease_pmcount js :
  js_pmcount (js_unlockAndRelease js) = js_pmcount js.
Proof.
  unfold js_unlockAndRelease.
  match goal with |- context [if ?b then _ else _] => destruct b end; reflexivity.
Qed.

(** C2: [js_PublishAsyncComplete], called on a context with options that
    pass validation: (1) returns [NATS_OK] at once, the context untouched,
    when the inflight map was never created or the pending count is zero;
    (2) otherwise does not return as long as the wait returns come before
    the deadline and leave messages pending; (3) returns [NATS_OK] at the
    first return of the wait that finds the pending count at zero, also when
    that return is the expiry of the deadline; (4) returns [NATS_TIMEOUT] at
    the expiry of the deadline when messages are still pending. *)
Theorem publishAsyncComplete_waits
    (now : Z) (js : jsCtx) (opts : option jsPubOptions) (e : errSlot) :
  let target := complete_target now opts in
  let c := js_pmcount js in
  maxwait_valid opts ->
  (forall ws, js_pm js = None \/ c = 0 ->
     js_PublishAsyncComplete now ws (Some js) opts e = Some (NATS_OK, Some js, e)) /\
  (forall ws, is_Some (js_pm js) -> 0 < c -> still_pending target c ws ->
     js_PublishAsyncComplete now ws (Some js) opts e = None) /\
  (forall pre w rest, is_Some (js_pm js) -> 0 < c -> still_pending target c pre ->
     others_count c (pre ++ [w]) = 0 ->
     exists js', js_PublishAsyncComplete now (pre ++ w :: rest) (Some js) opts e
                 = Some (NATS_OK, Some js', e) /\ js_pmcount js' = 0) /\
  (forall pre w rest, is_Some (js_pm js) -> 0 < c -> still_pending target c pre ->
     0 < target <= wk_now w -> 0 < others_count c (pre ++ [w]) ->
     exists js', js_PublishAsyncComplete now (pre ++ w :: rest) (Some js) opts e
                 = Some (NATS_TIMEOUT, Some js', e) /\
                 js_pmcount js' = others_count c (pre ++ [w])).
Proof.
  intros target c Hvalid.
  assert (Hchk : match opts with
                 | Some o => _checkMaxWaitOpt o e
                 | None => (NATS_OK, 0, e)
                 end = (NATS_OK, ttl_of opts, e)).
  { destruct opts as [o|]; [|reflexivity]. unfold _checkMaxWaitOpt.
    cbn in Hvalid. assert (Hn : (MaxWait o <? 0) = false) by (apply Z.ltb_ge; lia).
    now rewrite Hn. }
  assert (Hwait : forall ws, is_Some (js_pm js) -> 0 < c ->
            js_PublishAsyncComplete now ws (Some js) opts e =
            match complete_wait target ws NATS_OK
                    (set_pacw (_retain js) (int32 (js_pacw (_retain js) + 1))) with
            | None => None
            | Some (s, js1) =>
                let js2 := set_pacw js1 (int32 (js_pacw js1 - 1)) in
                Some (if is_timeout s && (js_pmcount js2 =? 0) then NATS_OK else s,
                      Some (js_unlockAndRelease js2), e)
            end).
  { intros ws [h Hh] Hc. unfold js_PublishAsyncComplete. rewrite Hchk.
    cbn [is_ok negb]. rewrite Hh.
    assert (Hz : (js_pmcount js =? 0) = false) by (apply Z.eqb_neq; fold c; lia).
    rewrite Hz. cbn [orb]. fold (complete_target now opts). fold target.
    destruct (complete_wait _ _ _ _) as [[s js1]|]; reflexivity. }
  split; [|split; [|split]].
  - intros ws H. unfold js_PublishAsyncComplete. rewrite Hchk. cbn [is_ok negb].
    destruct H as [-> | H]; [reflexivity|].
    fold c. rewrite H. cbn. now rewrite orb_true_r.
  - intros ws Hpm Hc Hp. rewrite (Hwait ws Hpm Hc).
    rewrite complete_wait_blocked; [reflexivity| exact Hc | exact Hp].
  - intros pre w rest Hpm Hc Hp Hzero. rewrite (Hwait _ Hpm Hc).
    destruct (complete_wait_pending target pre (w :: rest)
                (set_pacw (_retain js) (int32 (js_pacw (_retain js) + 1))) Hc Hp)
      as [Heq Hpos].
    rewrite Heq. clear Heq.
    set (js1 := interfere_all pre _) in *.
    cbn [complete_wait is_timeout negb andb].
    assert (Hb : (0 <? js_pmcount js1) = true) by (apply Z.ltb_lt; exact Hpos).
    rewrite Hb.
    assert (Hc1 : js_pmcount (interfere (wk_by w) js1) = 0).
    { rewrite others_count_app in Hzero. unfold js1.
      cbn [interfere js_pmcount]. rewrite interfere_all_pmcount. exact Hzero. }
    unfold natsCondition_AbsoluteTimedWait, natsCondition_Wait.
    destruct (if 0 <? target then _ else _) as [s' js2] eqn:Ew.
    assert (Hjs2 : js2 = interfere (wk_by w) js1)
      by (destruct (0 <? target); now inversion Ew).
    subst js2.
    rewrite complete_wait_exit by (rewrite Hc1; apply andb_false_r).
    cbn zeta. cbn [set_pacw js_pmcount]. rewrite Hc1. cbn [Z.eqb].
    assert (Hs : (if is_timeout s' && true then NATS_OK else s') = NATS_OK).
    { destruct (0 <? target); inversion Ew; subst; [|reflexivity].
      destruct (target <=? wk_now w); reflexivity. }
    rewrite Hs. eexists. split; [reflexivity|].
    rewrite unlockAndRelease_pmcount. exact Hc1.
  - intros pre w rest Hpm Hc Hp [Ht Hd] Hleft. rewrite (Hwait _ Hpm Hc).
    destruct (complete_wait_pending target pre (w :: rest)
                (set_pacw (_retain js) (int32 (js_pacw (_retain js) + 1))) Hc Hp)
      as [Heq Hpos].
    rewrite Heq. clear Heq.
    set (js1 := interfere_all pre _) in *.
    cbn [complete_wait is_timeout negb andb].
    assert (Hb : (0 <? js_pmcount js1) = true) by (apply Z.ltb_lt; exact Hpos).
    rewrite Hb.
    assert (Hc1 : js_pmcount (interfere (wk_by w) js1) = others_count c (pre ++ [w])).
    { rewrite others_count_app. unfold js1.
      cbn [interfere js_pmcount]. now rewrite interfere_all_pmcount. }
    unfold natsCondition_AbsoluteTimedWait, natsCondition_Wait.
    assert (Ht' : (0 <? target) = true) by (apply Z.ltb_lt; exact Ht).
    assert (Hd' : (target <=? wk_now w) = true) by (apply Z.leb_le; exact Hd).
    rewrite Ht', Hd'.
    rewrite complete_wait_exit by reflexivity.
    cbn zeta. cbn [set_pacw js_pmcount is_timeout andb]. rewrite Hc1.
    assert (Hnz : (others_count c (pre ++ [w]) =? 0) = false)
      by (apply Z.eqb_neq; lia).
    rewrite Hnz. eexists. split; [reflexivity|].
    rewrite unlockAndRelease_pmcount. exact Hc1.
Qed.
Lemma publishAsyncComplete_waits_witness :
  maxwait_valid (Some (mkPubOptions 100)) /\
  (exists js',
     js_PublishAsyncComplete 1000 complete_wakes (Some complete_ctx)
       (Some (mkPubOptions 100)) None = Some (NATS_OK, Some js', None) /\
     js_pmcount js' = 0) /\
  js_PublishAsyncComplete 1000 [mkWake 1030 (ack_of "AAAAAAAA")] (Some complete_ctx)
    (Some (mkPubOptions 100)) None = None.
Proof.
  assert (Hv : maxwait_valid (Some (mkPubOptions 100))) by (cbn; lia).
  destruct (publishAsyncComplete_waits 1000 complete_ctx (Some (mkPubOptions 100))
              None Hv) as (_ & Hblock & Hzero & _).
  split; [exact Hv|]. split.
  - apply (Hzero [mkWake 1030 (ack_of "AAAAAAAA")] (mkWake 1100 (ack_of "BBBBBBBB")) []).
    + eexists; reflexivity.
    + cbn. lia.
    + cbn. repeat split; try lia; vm_compute; reflexivity.
    + vm_compute. reflexivity.
  - apply Hblock.
    + eexists; reflexivity.
    + cbn. lia.
    + cbn. repeat split; try lia; vm_compute; reflexivity.
Defined.

(** ** The pending list *)

Lemma drain_entries_msgs entries : forall h c msgs,
  (drain_entries entries h c msgs).2 = (msgs ++ entries.*2)%list.
Proof.
  induction entries as [|[k v] rest IH]; intros h c msgs; cbn [drain_entries].
  - cbn. now rewrite app_nil_r.
  - rewrite IH. cbn. now rewrite <- app_assoc.
Qed.

Lemma drain_entries_map entries : forall h c msgs,
  (forall k, is_Some (h !! k) -> k ∈ entries.*1) ->
  (drain_entries entries h c msgs).1.1 = ∅.
Proof.
  induction entries as [|[k v] rest IH]; intros h c msgs Hdom; cbn [drain_entries].
  - cbn. apply map_eq. intros k. rewrite lookup_empty.
    destruct (h !! k) eqn:E; [|reflexivity].
    assert (Hin : k ∈ ([] : list string)) by (apply Hdom; rewrite E; eauto).
    inversion Hin.
  - apply IH. intros k' Hk'.
    destruct (decide (k' = k)) as [->|Hne].
    + rewrite lookup_delete_eq in Hk'. destruct Hk' as [? [=]].
    + rewrite lookup_delete_ne in Hk' by congruence.
      pose proof (Hdom k' Hk') as Hin. cbn in Hin.
      apply elem_of_cons in Hin as [Heq|Hin]; [contradiction|exact Hin].
Qed.

Lemma drain_entries_count entries : forall h c msgs,
  in_int64 c ->
  (drain_entries entries h c msgs).1.2 = drained_count c (length entries).
Proof.
  induction entries as [|[k v] rest IH]; intros h c msgs Hc; cbn [drain_entries].
  - cbn. unfold drained_count. destruct (0 <? c) eqn:E; [|reflexivity].
    apply Z.ltb_lt in E. cbn. lia.
  - unfold drained_count in *.
    destruct (0 <? c) eqn:E.
    + apply Z.ltb_lt in E.
      assert (Hi : int64 (c - 1) = c - 1) by (apply int64_id; unfold in_int64 in *; lia).
      rewrite Hi, IH by (unfold in_int64 in *; lia).
      cbn [length]. destruct (0 <? c - 1) eqn:E1.
      * apply Z.ltb_lt in E1. lia.
      * apply Z.ltb_ge in E1. lia.
    + rewrite IH by exact Hc. now rewrite E.
Qed.
(** C3, as the code has it: on a context whose inflight map exists,
    [js_PublishAsyncGetPendingList] returns [NATS_NOT_FOUND] and produces no
    list when the map is empty; otherwise, the array being allocated, it
    returns [NATS_OK], empties the map, hands back every message of the map
    in a list whose count is the former cardinality, and lowers the pending
    count by one per entry removed while it is positive: the count ends at
    zero when it did not exceed the cardinality, and at the difference when
    it did.  When the array cannot be allocated the call returns
    [NATS_NO_MEMORY] and leaves the context as it was. *)
Theorem getPendingList_drains
    (js : jsCtx) (h : gmap string natsMsgPtr) (e : errSlot) :
  js_pm js = Some h ->
  in_int64 (js_pmcount js) ->
  (size h = 0%nat ->
     forall ok, js_PublishAsyncGetPendingList ok (Some js) e
                = Some (NATS_NOT_FOUND, Some js, None, e)) /\
  (size h <> 0%nat ->
     (exists js' lst,
        js_PublishAsyncGetPendingList true (Some js) e
        = Some (NATS_OK, Some js', Some lst, e) /\
        js_pm js' = Some ∅ /\
        Count lst = Z.of_nat (size h) /\
        length (Msgs lst) = size h /\
        Msgs lst = (map_to_list h).*2 /\
        (forall k v, h !! k = Some v -> v ∈ Msgs lst) /\
        js_pmcount js' = drained_count (js_pmcount js) (size h) /\
        (0 <= js_pmcount js <= Z.of_nat (size h) -> js_pmcount js' = 0) /\
        (Z.of_nat (size h) < js_pmcount js ->
           js_pmcount js' = js_pmcount js - Z.of_nat (size h))) /\
     js_PublishAsyncGetPendingList false (Some js) e
     = Some (NATS_NO_MEMORY, Some js, None, Some (NATS_NO_MEMORY, ""))).
Proof.
  intros Hpm Hrange. unfold js_PublishAsyncGetPendingList, natsStrHash_Count.
  rewrite Hpm. split.
  - intros -> ok. reflexivity.
  - intros Hne.
    assert (Hz : (Z.of_nat (size h) =? 0) = false) by (apply Z.eqb_neq; lia).
    rewrite Hz. split; [|reflexivity].
    destruct (drain_entries (map_to_list h) h (js_pmcount js) []) as [[h' pmc] msgs] eqn:Ed.
    pose proof (drain_entries_msgs (map_to_list h) h (js_pmcount js) []) as Hm.
    pose proof (drain_entries_map (map_to_list h) h (js_pmcount js) []) as Hh.
    pose proof (drain_entries_count (map_to_list h) h (js_pmcount js) [] Hrange) as Hc.
    rewrite Ed in Hm, Hh, Hc. cbn [fst snd app] in Hm, Hh, Hc.
    rewrite length_map_to_list in Hc.
    assert (Hh' : h' = ∅).
    { apply Hh. intros k [v Hv]. apply list_elem_of_fmap.
      exists (k, v). split; [reflexivity|]. now apply elem_of_map_to_list. }
    subst h' msgs pmc.
    eexists _, _. split; [reflexivity|].
    cbn [js_pm js_pmcount set_pmcount set_pm Msgs Count].
    split; [reflexivity|]. split; [reflexivity|].
    split; [now rewrite length_fmap, length_map_to_list|].
    split; [reflexivity|].
    split.
    { intros k v Hv. apply list_elem_of_fmap. exists (k, v).
      split; [reflexivity|]. now apply elem_of_map_to_list. }
    split; [reflexivity|].
    unfold drained_count. split.
    + intros [H0 H1]. destruct (0 <? js_pmcount js) eqn:E.
      * apply Z.ltb_lt in E. lia.
      * apply Z.ltb_ge in E. lia.
    + intros H1. destruct (0 <? js_pmcount js) eqn:E.
      * lia.
      * apply Z.ltb_ge in E. lia.
Qed.

Lemma getPendingList_drains_witness :
  js_pm complete_ctx = Some (<["AAAAAAAA" := 1%nat]> (<["BBBBBBBB" := 2%nat]> ∅)) /\
  in_int64 (js_pmcount complete_ctx) /\
  exists js' lst,
    js_PublishAsyncGetPendingList true (Some complete_ctx) None
    = Some (NATS_OK, Some js', Some lst, None) /\
    js_pm js' = Some ∅ /\ Count lst = 2 /\ js_pmcount js' = 0.
Proof.
  assert (Hr : in_int64 (js_pmcount complete_ctx)) by (unfold in_int64; cbn; lia).
  split; [reflexivity|]. split; [exact Hr|].
  destruct (getPendingList_drains complete_ctx _ None eq_refl Hr) as [_ H].
  destruct H as [(js' & lst & Hcall & Hmap & Hcount & _ & _ & _ & _ & Hzero & _) _].
  - vm_compute. discriminate.
  - exists js', lst. split; [exact Hcall|]. split; [exact Hmap|].
    split; [rewrite Hcount; vm_compute; reflexivity|].
    apply Hzero. vm_compute. split; discriminate.
Defined.

(** Counterexample to C3 as stated: with one entry in the map and a
    pending count of two, the call succeeds and leaves a pending count of
    one. *)
Lemma getPendingList_count_not_zero :
  exists js' lst,
    js_PublishAsyncGetPendingList true (Some drain_ctx) None
    = Some (NATS_OK, Some js', Some lst, None) /\
    Msgs lst = [1%nat] /\ js_pm js' = Some ∅ /\ js_pmcount js' <> 0.
Proof.
  eexists _, _. split; [vm_compute; reflexivity|].
  cbn. split; [reflexivity|]. split; [reflexivity|]. discriminate.
Qed.

(** ** Token collisions *)

(** When the prefix has its full length, the key of the inflight entry is
    the 8-digit token. *)
Lemma str_drop_app a b : str_drop (String.length a) (a ++ b) = b.
Proof. induction a as [|c a IH]; [reflexivity|exact IH]. Qed.

Lemma str_take_length n s :
  (n <= String.length s)%nat -> String.length (str_take n s) = n.
Proof.
  revert s. induction n as [|n IH]; intros s H; [reflexivity|].
  destruct s as [|c s]; cbn in *; [lia|]. rewrite IH; [reflexivity|lia].
Qed.

Lemma reply_id_token pre rpre tok :
  (jsReplyPrefixLen pre <= String.length rpre)%nat ->
  reply_id pre (str_take (jsReplyPrefixLen pre) rpre ++ tok) = tok.
Proof.
  intros H. unfold reply_id.
  rewrite <- (str_take_length (jsReplyPrefixLen pre) rpre H) at 1.
  apply str_drop_app.
Qed.

(** Without a stall, [await_slot] returns at once. *)
Lemma await_slot_no_stall pre env js e :
  js_rsub js = true ->
  (0 <? MaxPending (PublishAsync (js_opts js)))
  && (MaxPending (PublishAsync (js_opts js)) <? int64 (js_pmcount js + 1)) = false ->
  await_slot pre env js e
  = Some (NATS_OK, set_pmcount js (int64 (js_pmcount js + 1)),
          Some (str_take (jsReplyPrefixLen pre) (default EmptyString (js_rpre js))
                ++ token_digits jsReplyTokenSize (pe_rand env)), e, false).
Proof.
  intros Hrsub Hns. unfold await_slot, _newAsyncReply.
  unfold set_pmcount at 1. cbn [js_rsub]. rewrite Hrsub. cbn [is_ok andb].
  unfold set_pmcount at 1 2. cbn [js_opts js_pmcount].
  rewrite Hns. reflexivity.
Qed.

(** C4, as the code has it: when the caller has its slot (the reply
    subject is drawn and any stall is over) and the inflight map already
    holds the new token, [js_PublishMsgAsync] reports no error: whether or
    not memory is available, the entry of that token now holds the new
    message, the other entries and the cardinality are unchanged, the
    pending count keeps its increment, the message is published and taken
    over by the library.  The message evicted is not given to
    [natsMsg_Destroy], and it is not handed back: when it was stored under
    that token only, the map no longer holds it. *)
Theorem publishMsgAsync_collision
    (pre : nat) (env : pub_env) (during : interference)
    (js js1 : jsCtx) (msg old : natsMsgPtr) (e e1 : errSlot)
    (reply : string) (release : bool) (h1 : gmap string natsMsgPtr) :
  let key := reply_id pre reply in
  await_slot pre env js e = Some (NATS_OK, js1, Some reply, e1, release) ->
  js_pm js1 = Some h1 ->
  h1 !! key = Some old ->
  exists r,
    js_PublishMsgAsync pre env NATS_OK NATS_OK during (Some js) (Some (Some msg)) e
    = Some (NATS_OK, Some r, e1) /\
    js_pm (pr_js r) = Some (<[key := msg]> h1) /\
    size (<[key := msg]> h1) = size h1 /\
    (forall k, k <> key -> <[key := msg]> h1 !! k = h1 !! k) /\
    js_pmcount (pr_js r) = js_pmcount js1 /\
    pr_sent r = [(reply, msg)] /\
    pr_msg r = None /\
    pr_destroyed r = [] /\
    (old <> msg -> (forall k, h1 !! k = Some old -> k = key) ->
       forall k, <[key := msg]> h1 !! k <> Some old).
Proof.
  intros key Hslot Hpm Hold.
  unfold js_PublishMsgAsync, js_PublishMsgAsync_body, _registerPubMsg.
  cbn [is_ok]. rewrite Hslot. cbn [is_ok default from_option id].
  fold key. rewrite Hpm. cbn [default from_option id]. unfold natsStrHash_Set. rewrite Hold.
  cbn [is_ok rr_status rr_js rr_reply rr_err default from_option id].
  eexists. split; [reflexivity|].
  cbn [pr_js pr_sent pr_msg pr_destroyed].
  split.
  { destruct release; [unfold js_unlockAndRelease;
      match goal with |- context [if ?b then _ else _] => destruct b end|];
      reflexivity. }
  split.
  { rewrite map_size_insert_Some; [reflexivity|eauto]. }
  split; [intros k Hk; apply lookup_insert_ne; congruence|].
  split.
  { destruct release; [rewrite unlockAndRelease_pmcount|]; reflexivity. }
  split; [reflexivity|]. split; [reflexivity|]. split; [reflexivity|].
  intros Hne Honly k Hk.
  destruct (decide (k = key)) as [->|Hkn].
  - rewrite lookup_insert_eq in Hk. congruence.
  - rewrite lookup_insert_ne in Hk by congruence. apply Honly in Hk. contradiction.
Qed.

Lemma publishMsgAsync_collision_witness :
  exists r,
    js_PublishMsgAsync 7 collide_env NATS_OK NATS_OK no_interference
      (Some collide_ctx) (Some (Some 3%nat)) None = Some (NATS_OK, Some r, None) /\
    js_pm (pr_js r) = Some (<["AAAAAAAA" := 3%nat]> (<["AAAAAAAA" := 1%nat]> ∅)) /\
    js_pmcount (pr_js r) = 2 /\
    pr_destroyed r = [].
Proof.
  destruct (publishMsgAsync_collision 7 collide_env no_interference collide_ctx
              (set_pmcount collide_ctx 2) 3%nat 1%nat None None
              "_INBOX.abcdefgh.AAAAAAAA" false (<["AAAAAAAA" := 1%nat]> ∅))
    as (r & Hr & Hm & _ & _ & Hc & _ & _ & Hd & _).
  - vm_compute. reflexivity.
  - reflexivity.
  - vm_compute. reflexivity.
  - exists r. split; [exact Hr|]. split; [exact Hm|]. split; [exact Hc|exact Hd].
Defined.

(** Counterexample to C4 as stated: the publish that collides with the
    token of message 1 succeeds, and message 1 is neither given to
    [natsMsg_Destroy], nor left in the map, nor handed back to the caller,
    while the pending count still counts it. *)
Lemma publishMsgAsync_collision_leaks :
  exists r,
    js_pm collide_ctx = Some (<["AAAAAAAA" := 1%nat]> ∅) /\
    js_PublishMsgAsync 7 collide_env NATS_OK NATS_OK no_interference
      (Some collide_ctx) (Some (Some 3%nat)) None = Some (NATS_OK, Some r, None) /\
    (1%nat ∉ pr_destroyed r) /\
    inflight_msgs (pr_js r) = [3%nat] /\
    pr_msg r = None /\
    js_pmcount (pr_js r) = 2.
Proof.
  eexists. split; [vm_compute; reflexivity|].
  split; [vm_compute; reflexivity|].
  cbn [pr_destroyed pr_msg pr_js].
  split; [intros H; inversion H|].
  split; [vm_compute; reflexivity|].
  split; reflexivity.
Qed.

(** ** The pull fetcher *)

Section FetchFacts.

Variable subj rply : cstr.
Variable batch : Z.
Variable start : Z.
Variable reqs : nat -> req_env.

Lemma request_fields noWait st :
  let st' := request subj rply batch start noWait reqs st in
  fs_count st' = fs_count st /\ fs_msgs st' = fs_msgs st /\
  fs_noWait st' = noWait /\
  fs_calls st' = (fs_calls st ++ [mkPullCall (batch - fs_count st) noWait])%list /\
  fs_destroyed st' = fs_destroyed st /\
  (fs_sent st' = fs_sent st \/
   exists q, fs_sent st' = (fs_sent st ++ [q])%list /\
             pq_batch q = batch - fs_count st /\ pq_noWait q = noWait).
Proof.
  unfold request, _sendPullRequest.
  repeat match goal with
         | |- context [if ?b then _ else _] => destruct b
         end; cbn; repeat split; try (left; now rewrite app_nil_r);
    right; eexists; repeat split.
Qed.

End FetchFacts.

(** A completed call either failed on its arguments (or on the allocation
    of the array) before collecting anything, or went through the
    collecting phase. *)
Lemma fetch_cases has_list sub batch timeout calloc_ok start reqs nexts e r :
  natsSubscription_Fetch has_list sub batch timeout calloc_ok start reqs nexts e = Some r ->
  (exists s txt, s <> NATS_OK /\ r = fetch_fail (nats_setError s txt e)) \/
  (0 < batch /\
   exists subj rply pmc st,
     fetch_collect subj rply batch start reqs pmc timeout nexts e = Some st /\
     r = fetch_finish st).
Proof.
  unfold natsSubscription_Fetch, nats_setDefaultError. intros H.
  destruct has_list; cbn [negb] in H;
    [|injection H as <-; left; eexists _, _; split; [|reflexivity]; discriminate].
  destruct sub as [sub|];
    [|injection H as <-; left; eexists _, _; split; [|reflexivity]; discriminate].
  destruct (batch <=? 0) eqn:Eb;
    [injection H as <-; left; eexists _, _; split; [|reflexivity]; discriminate|].
  destruct (timeout <=? 0);
    [injection H as <-; left; eexists _, _; split; [|reflexivity]; discriminate|].
  destruct (sub_jsi sub) as [jsi|];
    [|injection H as <-; left; eexists _, _; split; [|reflexivity]; discriminate].
  destruct (jsi_pull jsi); cbn [negb] in H;
    [|injection H as <-; left; eexists _, _; split; [|reflexivity]; discriminate].
  destruct calloc_ok; cbn [negb] in H;
    [|injection H as <-; left; eexists _, _; split; [|reflexivity]; discriminate].
  right. apply Z.leb_gt in Eb. split; [exact Eb|].
  destruct (fetch_collect _ _ _ _ _ _ _ _ _) as [st|] eqn:Ec; [|discriminate].
  injection H as <-. eexists _, _, _, st. split; [exact Ec|reflexivity].
Qed.



(** *** The returns a fetch takes *)

Lemma checkMsg_kept m c e :
  is_ok (_checkMsg m c e).1.1 && (_checkMsg m c e).1.2 = user_message m.
Proof.
  unfold _checkMsg, user_message.
  destruct ((0 <? msg_dataLen m) || (msg_hdrLen m <=? 0)); [reflexivity|].
  cbn [orb].
  destruct (natsMsgHeader_Get m STATUS_HDR) as [s val]. cbn [fst].
  destruct (is_not_found s) eqn:En; [reflexivity|].
  destruct (is_ok s) eqn:Es; cbn [negb].
  - destruct c; cbn [negb]; [|reflexivity].
    destruct (status_is val NOT_FOUND_STATUS); [reflexivity|].
    destruct (status_is val REQ_TIMEOUT); [reflexivity|].
    destruct (natsMsgHeader_Get m DESCRIPTION_HDR). reflexivity.
  - cbn. rewrite Es. reflexivity.
Qed.

Lemma checkMsg_status m c e e' :
  (_checkMsg m c e).1 = (_checkMsg m c e').1.
Proof.
  unfold _checkMsg.
  destruct ((0 <? msg_dataLen m) || (msg_hdrLen m <=? 0)); [reflexivity|].
  destruct (natsMsgHeader_Get m STATUS_HDR) as [s val].
  destruct (is_not_found s); [reflexivity|].
  destruct (negb (is_ok s)); [reflexivity|].
  destruct (negb c); [reflexivity|].
  destruct (status_is val NOT_FOUND_STATUS); [reflexivity|].
  destruct (status_is val REQ_TIMEOUT); [reflexivity|].
  destruct (natsMsgHeader_Get m DESCRIPTION_HDR). reflexivity.
Qed.

Lemma checkMsg_err m c e :
  c = false \/ is_ok (_checkMsg m c e).1.1 = true
  \/ is_not_found (_checkMsg m c e).1.1 = true ->
  (_checkMsg m c e).2 = e.
Proof.
  unfold _checkMsg.
  destruct ((0 <? msg_dataLen m) || (msg_hdrLen m <=? 0)); [reflexivity|].
  destruct (natsMsgHeader_Get m STATUS_HDR) as [s val].
  destruct (is_not_found s); [reflexivity|].
  destruct (negb (is_ok s)); [reflexivity|].
  destruct c; cbn [negb]; [|reflexivity].
  destruct (status_is val NOT_FOUND_STATUS); [reflexivity|].
  destruct (status_is val REQ_TIMEOUT); [reflexivity|].
  destruct (natsMsgHeader_Get m DESCRIPTION_HDR). cbn.
  intros [H|[H|H]]; discriminate H.
Qed.

Lemma user_messages_snoc l n :
  user_messages (l ++ [n]) = (user_messages l ++ option_list (kept n))%list.
Proof.
  unfold user_messages. rewrite omap_app. now f_equal.
Qed.

Lemma other_messages_snoc l n :
  other_messages (l ++ [n]) = (other_messages l ++ option_list (dropped n))%list.
Proof.
  unfold other_messages. rewrite omap_app. now f_equal.
Qed.

Lemma held_cons n l : held (n :: l) = held [n] + held l.
Proof.
  unfold held, user_messages.
  change (omap kept (n :: l))
    with (match kept n with Some m => m :: omap kept l | None => omap kept l end).
  change (omap kept [n]) with (match kept n with Some m => [m] | None => [] end).
  destruct (kept n); cbn [length]; lia.
Qed.

Lemma held_app l l' : held (l ++ l') = held l + held l'.
Proof.
  unfold held, user_messages. rewrite omap_app, length_app. lia.
Qed.

Lemma held_nonneg l : 0 <= held l.
Proof. unfold held. lia. Qed.

Lemma held_one n : held [n] = match kept n with Some _ => 1 | None => 0 end.
Proof.
  unfold held, user_messages.
  change (omap kept [n]) with (match kept n with Some m => [m] | None => [] end).
  destruct (kept n); reflexivity.
Qed.

Lemma kept_status n m c : kept n = Some m -> return_status c n = NATS_OK.
Proof.
  unfold kept, return_status. destruct (is_ok (nm_status n)); [|discriminate].
  destruct (nm_msg n) as [m'|]; [|discriminate].
  pose proof (checkMsg_kept m' c None) as H.
  destruct (user_message m'); [|discriminate]. intros _.
  apply andb_true_iff in H as [H _]. apply is_ok_true, H.
Qed.

(** One return in the first loop. *)
Lemma drain_step_trace n st st' :
  drain_step n st = Some st' ->
  fs_msgs st' = (fs_msgs st ++ option_list (kept n))%list /\
  fs_destroyed st' = (fs_destroyed st ++ option_list (dropped n))%list /\
  fs_count st' = fs_count st + held [n] /\
  fs_status st' = return_status false n /\
  fs_err st' = fs_err st /\ fs_calls st' = fs_calls st /\ fs_sent st' = fs_sent st /\
  fs_timeout st' = fs_timeout st /\ fs_noWait st' = fs_noWait st.
Proof.
  unfold drain_step, kept, dropped, return_status. rewrite held_one. unfold kept.
  destruct (is_ok (nm_status n)) eqn:Eok.
  - destruct (nm_msg n) as [m|]; [|discriminate].
    pose proof (checkMsg_kept m false (fs_err st)) as Hk.
    pose proof (checkMsg_status m false (fs_err st) None) as Hs.
    pose proof (checkMsg_err m false (fs_err st) (or_introl eq_refl)) as He.
    destruct (_checkMsg m false (fs_err st)) as [[s u] e'].
    cbn [fst snd] in Hk, Hs, He. rewrite <- Hs. cbn [fst]. subst e'.
    intros [= <-]. rewrite Hk.
    destruct (user_message m); cbn; rewrite ?app_nil_r; repeat split; try reflexivity; try lia.

  - intros [= <-]. cbn. rewrite !app_nil_r. repeat split; try reflexivity; try lia.
Qed.

(** One return in the second loop that does not make the request be sent
    again. *)
Lemma wait_step_trace subj rply batch start reqs n st st' :
  wait_step subj rply batch start reqs n st = Some st' ->
  fs_noWait st && no_messages n && (fs_count st =? 0) = false ->
  fs_msgs st' = (fs_msgs st ++ option_list (kept n))%list /\
  fs_destroyed st' = (fs_destroyed st ++ option_list (dropped n))%list /\
  fs_count st' = fs_count st + held [n] /\
  fs_status st' = return_status true n /\
  fs_err st' = return_err true n (fs_err st) /\
  fs_calls st' = fs_calls st /\ fs_sent st' = fs_sent st /\
  fs_timeout st' = fs_timeout st /\ fs_noWait st' = fs_noWait st.
Proof.
  unfold wait_step, kept, dropped, return_status, return_err, no_messages.
  rewrite held_one. unfold kept, return_status.
  destruct (is_ok (nm_status n)) eqn:Eok.
  - destruct (nm_msg n) as [m|]; [|discriminate].
    pose proof (checkMsg_kept m true (fs_err st)) as Hk.
    pose proof (checkMsg_status m true (fs_err st) None) as Hs.
    destruct (_checkMsg m true (fs_err st)) as [[s u] e'].
    cbn [fst snd] in Hk, Hs. rewrite <- Hs. cbn [fst snd andb].
    rewrite Hk.
    destruct (user_message m).
    + intros [= <-] _. cbn. rewrite ?app_nil_r. repeat split; try reflexivity; try lia.
    + cbn [discard fs_noWait fs_count]. intros H Hno.
      replace (fs_noWait st && is_not_found s && (fs_count st =? 0))
        with false in H
        by (symmetry; exact Hno).
      injection H as <-. cbn. rewrite ?app_nil_r. repeat split; try reflexivity; try lia.
  - intros [= <-] _. cbn. rewrite !app_nil_r. repeat split; try reflexivity; try lia.
Qed.

(** The return that makes the request be sent again. *)
Lemma wait_step_resends subj rply batch start reqs n st st' :
  wait_step subj rply batch start reqs n st = Some st' ->
  fs_noWait st && no_messages n && (fs_count st =? 0) = true ->
  kept n = None /\ return_status true n = NATS_NOT_FOUND /\
  st' = request subj rply batch start false reqs
          (mkFetch NATS_NOT_FOUND (fs_count st) (fs_msgs st) (fs_timeout st)
                   (fs_noWait st) (fs_calls st) (fs_sent st)
                   (fs_destroyed st ++ option_list (dropped n)) (fs_err st)).
Proof.
  unfold wait_step, kept, dropped, no_messages, return_status.
  intros H Hre.
  apply andb_true_iff in Hre as [Hre Hz].
  apply andb_true_iff in Hre as [Hnw Hnm].
  destruct (is_ok (nm_status n)) eqn:Eok; [|discriminate Hnm].
  cbn [andb] in Hnm.
  destruct (nm_msg n) as [m|]; [|discriminate].
  pose proof (checkMsg_kept m true (fs_err st)) as Hk.
  pose proof (checkMsg_status m true (fs_err st) None) as Hs.
  pose proof (checkMsg_err m true (fs_err st)) as He.
  destruct (_checkMsg m true (fs_err st)) as [[s u] e'].
  cbn [fst snd] in Hk, Hs, He. rewrite <- Hs in Hnm |- *. cbn [fst] in Hnm |- *.
  assert (Hs' : s = NATS_NOT_FOUND) by (destruct s; try discriminate Hnm; reflexivity).
  subst s. cbn [is_ok andb] in Hk, H. rewrite <- Hk.
  rewrite (He (or_intror (or_intror eq_refl))) in H.
  cbn [discard fs_noWait fs_count is_not_found andb] in H.
  rewrite Hnw, Hz in H. cbn [andb] in H. injection H as <-.
  split; [reflexivity|]. split; [reflexivity|].
  unfold discard. cbn [option_list]. reflexivity.
Qed.

Lemma grown_nil st : grown st [] st.
Proof.
  unfold grown, held. cbn. rewrite !app_nil_r. repeat split; lia.
Qed.

Lemma grown_cons st n st1 l st2 :
  grown st [n] st1 -> grown st1 l st2 -> grown st (n :: l) st2.
Proof.
  intros (A1 & A2 & A3 & A4 & A5 & A6 & A7) (B1 & B2 & B3 & B4 & B5 & B6 & B7).
  unfold grown. rewrite (held_cons n l).
  change (n :: l) with ([n] ++ l)%list.
  unfold user_messages, other_messages in *. rewrite !omap_app.
  rewrite B1, B2, B3, B4, B5, B6, B7, A1, A2, A3, A4, A5, A6, A7, <- !app_assoc.
  repeat split; lia.
Qed.

Lemma return_err_ok n e :
  return_status true n = NATS_OK -> return_err true n e = e.
Proof.
  unfold return_status, return_err.
  destruct (is_ok (nm_status n)); [|reflexivity].
  destruct (nm_msg n) as [m|]; [|reflexivity].
  intros H. apply checkMsg_err. right. left.
  rewrite (checkMsg_status m true e None). rewrite H. reflexivity.
Qed.

Lemma last_status_cons c n l :
  l <> [] -> last_status c (n :: l) = last_status c l.
Proof.
  intros H. unfold last_status. destruct l as [|n' l]; [contradiction|]. reflexivity.
Qed.

Lemma last_err_cons c n l e :
  l <> [] -> last_err c (n :: l) e = last_err c l e.
Proof.
  intros H. unfold last_err. destruct l as [|n' l]; [contradiction|]. reflexivity.
Qed.

Lemma last_cons_ne {A} (x : A) l : l <> [] -> last (x :: l) = last l.
Proof. destruct l; [contradiction|reflexivity]. Qed.

Lemma taken_ne c batch k l : taken c batch k l -> l <> [].
Proof. intros (a & al & -> & _). destruct a; discriminate. Qed.

Lemma taken_one c batch k n :
  k < batch ->
  return_status c n <> NATS_OK \/ k + held [n] = batch ->
  taken c batch k [n].
Proof.
  intros Hk Hstop. exists [], n. split; [reflexivity|]. split; [constructor|].
  split; [unfold held; cbn; lia|exact Hstop].
Qed.

Lemma taken_cons c batch k n l :
  k < batch -> return_status c n = NATS_OK ->
  taken c batch (k + held [n]) l -> taken c batch k (n :: l).
Proof.
  intros Hk Hn (a & al & -> & Ha & Hlt & Hstop).
  exists (n :: a), al. split; [reflexivity|]. split; [constructor; assumption|].
  rewrite (held_cons n a). split; [lia|].
  destruct Hstop as [H|H]; [left; exact H|right].
  change (n :: a ++ [al])%list with (n :: (a ++ [al]))%list.
  rewrite (held_cons n (a ++ [al])). lia.
Qed.

Section FetchTrace.

Variable subj rply : cstr.
Variable batch : Z.
Variable start : Z.
Variable reqs : nat -> req_env.

Lemma drain_step_grown n st st' :
  drain_step n st = Some st' -> grown st [n] st'.
Proof.
  intros H. apply drain_step_trace in H as (A1 & A2 & A3 & _ & _ & A4 & A5 & A6 & A7).
  unfold grown. rewrite A1, A2, A3, A4, A5, A6, A7.
  change [n] with ([] ++ [n])%list at 1 2.
  rewrite user_messages_snoc, other_messages_snoc. repeat split.
Qed.

Lemma wait_step_grown n st st' :
  wait_step subj rply batch start reqs n st = Some st' ->
  fs_noWait st && no_messages n && (fs_count st =? 0) = false ->
  grown st [n] st'.
Proof.
  intros H Hno.
  apply wait_step_trace in H as (A1 & A2 & A3 & _ & _ & A4 & A5 & A6 & A7);
    [|exact Hno].
  unfold grown. rewrite A1, A2, A3, A4, A5, A6, A7.
  change [n] with ([] ++ [n])%list at 1 2.
  rewrite user_messages_snoc, other_messages_snoc. repeat split.
Qed.

(** The first loop. *)
Lemma fetch_drain_taken pmc nexts : forall st st1 rest,
  fetch_drain batch pmc nexts st = Some (st1, rest) ->
  exists queued,
    nexts = (queued ++ rest)%list /\ grown st queued st1 /\ fs_err st1 = fs_err st /\
    ((queued = [] /\ fs_status st1 = fs_status st
      /\ pmc && is_ok (fs_status st) && (fs_count st <? batch) = false)
     \/ (pmc = true /\ is_ok (fs_status st) = true
         /\ taken false batch (fs_count st) queued
         /\ fs_status st1 = last_status false queued)).
Proof.
  induction nexts as [|n nexts IH]; intros st st1 rest H; cbn [fetch_drain] in H;
    destruct (pmc && is_ok (fs_status st) && (fs_count st <? batch)) eqn:Ec;
    try discriminate H;
    try (injection H as <- <-; exists []; split; [reflexivity|];
         split; [apply grown_nil|]; split; [reflexivity|]; left; auto).
  destruct (drain_step n st) as [st'|] eqn:Es; [|discriminate H].
  apply andb_true_iff in Ec as [Ec Hlt]. apply andb_true_iff in Ec as [Hp Hok].
  apply Z.ltb_lt in Hlt.
  pose proof (drain_step_grown _ _ _ Es) as Hg1.
  destruct (drain_step_trace _ _ _ Es) as (_ & _ & Hc & Hs & He & _).
  destruct (IH _ _ _ H) as (queued & -> & Hg & He' & Hcase).
  exists (n :: queued). split; [reflexivity|].
  split; [exact (grown_cons _ _ _ _ _ Hg1 Hg)|]. split; [congruence|].
  right. split; [exact Hp|]. split; [exact Hok|].
  destruct Hcase as [(-> & Hs1 & Hstop) | (_ & Hok1 & Ht & Hs1)].
  - split; [|rewrite Hs1, Hs; reflexivity].
    apply taken_one; [exact Hlt|].
    rewrite Hp in Hstop. cbn [andb] in Hstop.
    apply andb_false_iff in Hstop as [Hstop|Hstop].
    + left. rewrite <- Hs. apply is_ok_false. exact Hstop.
    + right. apply Z.ltb_ge in Hstop.
      pose proof (held_one n). destruct (kept n); lia.
  - split.
    + apply taken_cons; [exact Hlt| |rewrite <- Hc; exact Ht].
      rewrite <- Hs. apply is_ok_true. exact Hok1.
    + rewrite Hs1. symmetry. apply last_status_cons. exact (taken_ne _ _ _ _ Ht).
Qed.

(** The second loop, when the request cannot be sent again. *)
Lemma fetch_wait_plain nexts : forall st st',
  fetch_wait subj rply batch start reqs nexts st = Some st' ->
  fs_noWait st = false \/ 0 < fs_count st ->
  exists answers rest,
    nexts = (answers ++ rest)%list /\ grown st answers st' /\
    ((answers = [] /\ st' = st
      /\ is_ok (fs_status st) && (fs_count st <? batch) = false)
     \/ (is_ok (fs_status st) = true
         /\ taken true batch (fs_count st) answers
         /\ fs_status st' = last_status true answers
         /\ fs_err st' = last_err true answers (fs_err st))).
Proof.
  induction nexts as [|n nexts IH]; intros st st' H Hplain; cbn [fetch_wait] in H;
    destruct (is_ok (fs_status st) && (fs_count st <? batch)) eqn:Ec;
    try discriminate H;
    try (injection H as <-; exists []; eexists; split; [reflexivity|];
         split; [apply grown_nil|]; left; auto).
  destruct (wait_step subj rply batch start reqs n st) as [st1|] eqn:Es;
    [|discriminate H].
  apply andb_true_iff in Ec as [Hok Hlt]. apply Z.ltb_lt in Hlt.
  assert (Hno : fs_noWait st && no_messages n && (fs_count st =? 0) = false).
  { destruct Hplain as [Hn|Hc]; [rewrite Hn; reflexivity|].
    apply andb_false_iff. right. apply Z.eqb_neq. lia. }
  pose proof (wait_step_grown _ _ _ Es Hno) as Hg1.
  destruct (wait_step_trace _ _ _ _ _ _ _ _ Es Hno)
    as (_ & _ & Hc & Hs & He & _ & _ & _ & Hnw).
  assert (Hplain1 : fs_noWait st1 = false \/ 0 < fs_count st1).
  { destruct Hplain as [Hn|Hp]; [left; congruence|right].
    pose proof (held_nonneg [n]). lia. }
  destruct (IH _ _ H Hplain1) as (answers & rest & -> & Hg & Hcase).
  exists (n :: answers), rest. split; [reflexivity|].
  split; [exact (grown_cons _ _ _ _ _ Hg1 Hg)|].
  right. split; [exact Hok|].
  destruct Hcase as [(-> & -> & Hstop) | (Hok1 & Ht & Hs1 & He1)].
  - split; [|split; [rewrite Hs; reflexivity|rewrite He; reflexivity]].
    apply taken_one; [exact Hlt|].
    apply andb_false_iff in Hstop as [Hstop|Hstop].
    + left. rewrite <- Hs. apply is_ok_false. exact Hstop.
    + right. apply Z.ltb_ge in Hstop.
      pose proof (held_one n). destruct (kept n); lia.
  - assert (Hn : return_status true n = NATS_OK)
      by (rewrite <- Hs; apply is_ok_true; exact Hok1).
    split; [apply taken_cons; [exact Hlt|exact Hn|rewrite <- Hc; exact Ht]|].
    pose proof (taken_ne _ _ _ _ Ht) as Hne.
    split; [rewrite Hs1; symmetry; apply last_status_cons; exact Hne|].
    rewrite He1, He, (return_err_ok _ _ Hn). symmetry.
    apply last_err_cons. exact Hne.
Qed.

Lemma user_messages_one n : user_messages [n] = option_list (kept n).
Proof. change [n] with ([] ++ [n])%list. now rewrite user_messages_snoc. Qed.

Lemma other_messages_cons n l :
  other_messages (n :: l) = (option_list (dropped n) ++ other_messages l)%list.
Proof.
  change (n :: l) with ([n] ++ l)%list. unfold other_messages. rewrite omap_app.
  f_equal.
Qed.

(** The second loop, when the request can still be sent again: either it
    is not, or the answers end on the 404 that makes it be sent, and the
    loop goes on from the state the second request leaves. *)
Lemma fetch_wait_resend nexts : forall st st',
  fetch_wait subj rply batch start reqs nexts st = Some st' ->
  fs_noWait st = true -> fs_count st = 0 ->
  (exists answers rest,
     nexts = (answers ++ rest)%list /\ grown st answers st' /\
     ((answers = [] /\ st' = st
       /\ is_ok (fs_status st) && (fs_count st <? batch) = false)
      \/ (is_ok (fs_status st) = true
          /\ taken true batch 0 answers
          /\ fs_status st' = last_status true answers
          /\ fs_err st' = last_err true answers (fs_err st))) /\
     (held answers =? 0) && from_option no_messages false (last answers) = false)
  \/ (exists answers more rest st2,
        nexts = (answers ++ more ++ rest)%list /\
        is_ok (fs_status st) = true /\
        taken true batch 0 answers /\ held answers = 0 /\
        from_option no_messages false (last answers) = true /\
        st2 = request subj rply batch start false reqs
                (mkFetch NATS_NOT_FOUND 0 (fs_msgs st) (fs_timeout st) true
                         (fs_calls st) (fs_sent st)
                         (fs_destroyed st ++ other_messages answers) (fs_err st)) /\
        ((is_ok (fs_status st2) = false /\ more = [] /\ st' = st2)
         \/ (is_ok (fs_status st2) = true /\ taken true batch 0 more
             /\ grown st2 more st'
             /\ fs_status st' = last_status true more
             /\ fs_err st' = last_err true more (fs_err st2)))).
Proof.
  induction nexts as [|n nexts IH]; intros st st' H Hnw Hz; cbn [fetch_wait] in H;
    destruct (is_ok (fs_status st) && (fs_count st <? batch)) eqn:Ec;
    try discriminate H;
    try (injection H as <-; left; exists []; eexists; split; [reflexivity|];
         split; [apply grown_nil|]; split; [left; auto|reflexivity]).
  destruct (wait_step subj rply batch start reqs n st) as [st1|] eqn:Es;
    [|discriminate H].
  apply andb_true_iff in Ec as [Hok Hlt]. apply Z.ltb_lt in Hlt.
  destruct (fs_noWait st && no_messages n && (fs_count st =? 0)) eqn:Ere.
  - (* the request is sent again *)
    destruct (wait_step_resends _ _ _ _ _ _ _ _ Es Ere) as (Hk & Hs & Hst1).
    rewrite Hz, Hnw in Hst1.
    apply andb_true_iff in Ere as [Ere _]. apply andb_true_iff in Ere as [_ Hnm].
    assert (Hnw1 : fs_noWait st1 = false).
    { rewrite Hst1.
      match goal with |- fs_noWait (request _ _ _ _ _ _ ?x) = _ =>
        destruct (request_fields subj rply batch start reqs false x)
          as (_ & _ & Hx & _) end.
      exact Hx. }
    assert (Hc1 : fs_count st1 = 0).
    { rewrite Hst1.
      match goal with |- fs_count (request _ _ _ _ _ _ ?x) = _ =>
        destruct (request_fields subj rply batch start reqs false x)
          as (Hx & _) end.
      exact Hx. }
    destruct (fetch_wait_plain _ _ _ H (or_introl Hnw1))
      as (more & rest & -> & Hg & Hcase).
    right. exists [n], more, rest, st1.
    split; [reflexivity|]. split; [exact Hok|].
    split; [apply taken_one; [lia|left; rewrite Hs; discriminate]|].
    split; [rewrite held_one, Hk; reflexivity|].
    split; [exact Hnm|].
    split; [rewrite Hst1, other_messages_cons; cbn [other_messages omap];
            rewrite app_nil_r; reflexivity|].
    destruct Hcase as [(-> & -> & Hstop) | (Hok1 & Ht & Hs1 & He1)].
    + left. rewrite Hc1 in Hstop.
      apply andb_false_iff in Hstop as [Hstop|Hstop];
        [|apply Z.ltb_ge in Hstop; lia].
      split; [exact Hstop|]. split; reflexivity.
    + right. rewrite Hc1 in Ht.
      split; [exact Hok1|]. split; [exact Ht|]. split; [exact Hg|].
      split; [exact Hs1|exact He1].
  - (* it is not *)
    pose proof (wait_step_grown _ _ _ Es Ere) as Hg1.
    destruct (wait_step_trace _ _ _ _ _ _ _ _ Es Ere)
      as (Hm1 & Hd1 & Hc & Hs & He & Hcalls & Hsent & Htime & Hnw').
    destruct (kept n) as [m|] eqn:Ek.
    + (* a user message: the request will not be sent again *)
      assert (Hpos : fs_noWait st1 = false \/ 0 < fs_count st1).
      { right. rewrite Hc, held_one, Ek. lia. }
      destruct (fetch_wait_plain _ _ _ H Hpos) as (answers & rest & -> & Hg & Hcase).
      left. exists (n :: answers), rest. split; [reflexivity|].
      split; [exact (grown_cons _ _ _ _ _ Hg1 Hg)|].
      assert (Hn : return_status true n = NATS_OK) by exact (kept_status _ _ true Ek).
      split.
      * right. split; [exact Hok|].
        destruct Hcase as [(-> & -> & Hstop) | (Hok1 & Ht & Hs1 & He1)].
        -- split; [|split; [rewrite Hs; reflexivity|rewrite He; reflexivity]].
           apply taken_one; [lia|].
           apply andb_false_iff in Hstop as [Hstop|Hstop].
           ++ left. rewrite <- Hs. apply is_ok_false. exact Hstop.
           ++ right. apply Z.ltb_ge in Hstop. rewrite Hc in Hstop.
              rewrite held_one, Ek in *. lia.
        -- pose proof (taken_ne _ _ _ _ Ht) as Hne.
           split; [apply taken_cons; [lia|exact Hn|]|].
           { rewrite Hc, Hz in Ht. exact Ht. }
           split; [rewrite Hs1; symmetry; apply last_status_cons; exact Hne|].
           rewrite He1, He, (return_err_ok _ _ Hn). symmetry.
           apply last_err_cons. exact Hne.
      * rewrite (held_cons n answers), held_one, Ek.
        pose proof (held_nonneg answers).
        replace (1 + held answers =? 0) with false
          by (symmetry; apply Z.eqb_neq; lia).
        reflexivity.
    + (* nothing is held yet *)
      assert (Hc1 : fs_count st1 = 0) by (rewrite Hc, held_one, Ek; lia).
      assert (Hnw1 : fs_noWait st1 = true) by congruence.
      assert (Hnm : no_messages n = false).
      { rewrite Hnw, Hz in Ere. cbn in Ere. rewrite andb_true_r in Ere. exact Ere. }
      destruct (IH _ _ H Hnw1 Hc1)
        as [(answers & rest & -> & Hg & Hcase & Hlast)
           |(answers & more & rest & st2 & -> & Hok1 & Ht & Hh & Hl & Hst2 & Hcase)].
      * left. exists (n :: answers), rest. split; [reflexivity|].
        split; [exact (grown_cons _ _ _ _ _ Hg1 Hg)|].
        destruct Hcase as [(-> & -> & Hstop) | (Hok1 & Ht & Hs1 & He1)].
        -- split.
           ++ right. split; [exact Hok|].
              split; [|split; [rewrite Hs; reflexivity|rewrite He; reflexivity]].
              apply taken_one; [lia|].
              apply andb_false_iff in Hstop as [Hstop|Hstop].
              ** left. rewrite <- Hs. apply is_ok_false. exact Hstop.
              ** apply Z.ltb_ge in Hstop. lia.
           ++ cbn [last from_option]. rewrite Hnm. apply andb_false_r.
        -- assert (Hn : return_status true n = NATS_OK)
             by (rewrite <- Hs; apply is_ok_true; exact Hok1).
           pose proof (taken_ne _ _ _ _ Ht) as Hne.
           split.
           ++ right. split; [exact Hok|].
              split; [apply taken_cons; [lia|exact Hn|]|].
              { rewrite held_one, Ek. exact Ht. }
              split; [rewrite Hs1; symmetry; apply last_status_cons; exact Hne|].
              rewrite He1, He, (return_err_ok _ _ Hn). symmetry.
              apply last_err_cons. exact Hne.
           ++ rewrite (held_cons n answers), held_one, Ek, (last_cons_ne _ _ Hne).
              exact Hlast.
      * assert (Hn : return_status true n = NATS_OK)
          by (rewrite <- Hs; apply is_ok_true; exact Hok1).
        pose proof (taken_ne _ _ _ _ Ht) as Hne.
        right. exists (n :: answers), more, rest, st2.
        split; [reflexivity|]. split; [exact Hok|].
        split; [apply taken_cons; [lia|exact Hn|rewrite held_one, Ek; exact Ht]|].
        split; [rewrite (held_cons n answers), held_one, Ek; lia|].
        split; [rewrite (last_cons_ne _ _ Hne); exact Hl|].
        split; [|exact Hcase].
        rewrite Hst2, Hm1, Hd1, Hcalls, Hsent, Htime, He, (return_err_ok _ _ Hn).
        cbn [option_list]. rewrite app_nil_r, other_messages_cons, app_assoc.
        reflexivity.
Qed.

End FetchTrace.

Section FetchCollect.

Variable subj rply : cstr.
Variable batch timeout start : Z.
Variable reqs : nat -> req_env.
Variable pmc : bool.
Variable e : errSlot.

Lemma request_outcome noWait st :
  let o := _sendPullRequest subj rply (batch - fs_count st) (fs_timeout st) start
             noWait (reqs (length (fs_calls st))) (fs_err st) in
  request subj rply batch start noWait reqs st
  = mkFetch (po_status o) (fs_count st) (fs_msgs st) (po_timeout o) noWait
            (fs_calls st ++ [mkPullCall (batch - fs_count st) noWait])
            (fs_sent st ++ option_list (po_request o)) (fs_destroyed st) (po_err o).
Proof.
  intros o. unfold request. fold o. destruct o as [[[s t] rq] e']. reflexivity.
Qed.

Lemma sendPullRequest_ok_err su rp b t st nw re e0 :
  is_ok (po_status (_sendPullRequest su rp b t st nw re e0)) = true ->
  po_err (_sendPullRequest su rp b t st nw re e0) = e0.
Proof.
  unfold _sendPullRequest, po_status, po_err.
  destruct (_ <=? 0); [discriminate|].
  destruct (is_ok (rq_buf re)); reflexivity.
Qed.

Lemma user_messages_app l l' :
  user_messages (l ++ l') = (user_messages l ++ user_messages l')%list.
Proof. apply omap_app. Qed.

Lemma other_messages_app l l' :
  other_messages (l ++ l') = (other_messages l ++ other_messages l')%list.
Proof. apply omap_app. Qed.

Lemma held_zero l : held l = 0 -> user_messages l = [].
Proof. unfold held. destruct (user_messages l); [reflexivity|cbn; lia]. Qed.

Lemma fetch_wait_stopped nexts st :
  is_ok (fs_status st) = false ->
  fetch_wait subj rply batch start reqs nexts st = Some st.
Proof. intros H. destruct nexts; cbn [fetch_wait]; rewrite H; reflexivity. Qed.

Lemma taken_held_le c k l : taken c batch k l -> k + held l <= batch.
Proof.
  intros (a & al & -> & _ & Hlt & _). rewrite held_app.
  pose proof (held_one al). destruct (kept al); lia.
Qed.

Lemma drained_held_le queued :
  0 < batch -> drained batch pmc queued -> 0 <= held queued <= batch.
Proof.
  intros Hb. unfold drained. pose proof (held_nonneg queued).
  destruct pmc; [intros H'; apply taken_held_le in H'; lia|].
  intros ->. unfold held; cbn; lia.
Qed.

(** The collecting phase ends in one of the five ways of [fetch_ends]. *)
Lemma fetch_collect_ends nexts st :
  0 < batch ->
  fetch_collect subj rply batch start reqs pmc timeout nexts e = Some st ->
  exists used rest,
    nexts = (used ++ rest)%list /\
    fetch_ends subj rply batch timeout start reqs pmc e used
               (fs_calls st) (fs_sent st) (fs_status st) (fs_err st) /\
    fs_msgs st = user_messages used /\
    fs_destroyed st = other_messages used /\
    fs_count st = held used.
Proof.
  intros Hb. unfold fetch_collect.
  destruct (fetch_drain batch pmc nexts _) as [[st1 rest1]|] eqn:Ed; [|discriminate].
  destruct (fetch_drain_taken _ _ _ _ _ _ Ed)
    as (queued & -> & (Gm & Gd & Gc & Gcalls & Gsent & Gtime & Gnw) & Ge & Hcase).
  cbn [fs_msgs fs_destroyed fs_count fs_calls fs_sent fs_timeout fs_noWait fs_err
       fs_status app] in *.
  assert (Hdr : drained batch pmc queued /\ fs_status st1 = last_status false queued).
  { unfold drained.
    destruct Hcase as [(-> & Hs & Hstop) | (-> & _ & Ht & Hs)].
    - cbn [is_ok] in Hstop. rewrite andb_true_r in Hstop.
      replace (0 <? batch) with true in Hstop by (symmetry; apply Z.ltb_lt; lia).
      rewrite andb_true_r in Hstop. rewrite Hstop. split; [reflexivity|exact Hs].
    - split; [exact Ht|exact Hs]. }
  destruct Hdr as [Hdr Hsd]. clear Hcase.
  pose proof (drained_held_le _ Hb Hdr) as Hle.
  assert (Hc1 : fs_count st1 = held queued) by lia.
  rewrite Hsd, Hc1.
  fold (asks batch queued).
  destruct (asks batch queued) eqn:Easks.
  2:{ intros [= <-]. exists queued, rest1. split; [reflexivity|].
      rewrite Gcalls, Gsent, Hsd, Ge.
      split; [apply ends_in_queue; assumption|].
      split; [exact Gm|]. split; [exact Gd|exact Hc1]. }
  assert (Hlt : held queued < batch).
  { unfold asks in Easks. apply andb_true_iff in Easks as [_ Hne].
    apply negb_true_iff, Z.eqb_neq in Hne. lia. }
  set (st2 := request subj rply batch start (1 <? batch - held queued) reqs st1).
  assert (Hst2 : st2 = mkFetch (po_status (first_request subj rply batch timeout start reqs e queued))
                         (held queued) (user_messages queued)
                         (po_timeout (first_request subj rply batch timeout start reqs e queued))
                         (1 <? batch - held queued) [first_call batch queued]
                         (option_list (po_request (first_request subj rply batch timeout start reqs e queued)))
                         (other_messages queued)
                         (po_err (first_request subj rply batch timeout start reqs e queued))).
  { unfold st2. rewrite request_outcome.
    rewrite Hc1, Gm, Gd, Gcalls, Gsent, Gtime, Ge. reflexivity. }
  clearbody st2.
  set (o1 := first_request subj rply batch timeout start reqs e queued) in *.
  destruct (is_ok (po_status o1)) eqn:Eo1.
  2:{ rewrite fetch_wait_stopped by (rewrite Hst2; exact Eo1).
      intros [= <-]. exists queued, rest1. split; [reflexivity|].
      rewrite Hst2. cbn [fs_calls fs_sent fs_status fs_err fs_msgs fs_destroyed fs_count].
      split; [apply ends_at_request; assumption|]. repeat split. }
  assert (He2 : po_err o1 = e) by (apply sendPullRequest_ok_err; exact Eo1).
  intros Hw.
  destruct ((1 <? batch - held queued) && (held queued =? 0)) eqn:Ecan.
  - (* the request can be sent again *)
    apply andb_true_iff in Ecan as [Enw Ez]. apply Z.eqb_eq in Ez.
    assert (Hnw2 : fs_noWait st2 = true) by (rewrite Hst2; exact Enw).
    assert (Hz2 : fs_count st2 = 0) by (rewrite Hst2; exact Ez).
    destruct (fetch_wait_resend _ _ _ _ _ _ _ _ Hw Hnw2 Hz2)
      as [(answers & rest & -> & G2 & Hcase & Hlast)
         |(answers & more & rest & st3 & -> & Hok2 & Ht & Hh & Hl & Hst3 & Hcase)].
    + destruct G2 as (G2m & G2d & G2c & G2calls & G2sent & _).
      rewrite Hst2 in G2m, G2d, G2c, G2calls, G2sent, Hcase.
      cbn [fs_calls fs_sent fs_status fs_err fs_msgs fs_destroyed fs_count] in *.
      destruct Hcase as [(_ & _ & Hstop) | (_ & Ht & Hs & He)].
      { rewrite Eo1 in Hstop. cbn [andb] in Hstop. apply Z.ltb_ge in Hstop. lia. }
      exists (queued ++ answers)%list, rest. split; [now rewrite app_assoc|].
      rewrite G2calls, G2sent, Hs, He, He2.
      split.
      * apply ends_in_answers; try assumption; [rewrite Ez; exact Ht|].
        unfold resends. rewrite Enw, held_app, Ez. cbn [andb]. exact Hlast.
      * rewrite user_messages_app, other_messages_app, held_app.
        split; [exact G2m|]. split; [exact G2d|exact G2c].
    + rewrite Hst2 in Hst3, Hok2.
      cbn [fs_calls fs_sent fs_status fs_err fs_msgs fs_destroyed fs_count
           fs_timeout] in Hst3.
      rewrite request_outcome in Hst3.
      cbn [fs_calls fs_sent fs_status fs_err fs_msgs fs_destroyed fs_count
           fs_timeout length app] in Hst3.
      rewrite Z.sub_0_r, He2 in Hst3.
      pose (o2 := second_request subj rply batch timeout start reqs e queued).
      change (_sendPullRequest subj rply batch (po_timeout o1) start false
                (reqs 1%nat) e) with o2 in Hst3.
      assert (Hres : resends batch queued answers = true).
      { unfold resends. rewrite Enw, held_app, Ez, Hh, Hl. reflexivity. }
      assert (Ht' : taken true batch (held queued) answers) by (rewrite Ez; exact Ht).
      destruct Hcase as [(Hbad & -> & ->) | (Hok3 & Ht3 & G3 & Hs3 & He3)].
      * exists (queued ++ answers)%list, rest.
        split; [now rewrite app_nil_l, app_assoc|].
        rewrite Hst3 in Hbad |- *.
        cbn [fs_calls fs_sent fs_status fs_err fs_msgs fs_destroyed fs_count] in *.
        split; [apply ends_at_second_request; assumption|].
        rewrite user_messages_app, other_messages_app, held_app, Hh,
          (held_zero _ Hh), app_nil_r.
        split; [reflexivity|]. split; [reflexivity|lia].
      * destruct G3 as (G3m & G3d & G3c & G3calls & G3sent & _).
        rewrite Hst3 in G3m, G3d, G3c, G3calls, G3sent, Hok3, He3.
        cbn [fs_calls fs_sent fs_status fs_err fs_msgs fs_destroyed fs_count] in *.
        assert (He4 : po_err o2 = e) by (apply sendPullRequest_ok_err; exact Hok3).
        exists (queued ++ answers ++ more)%list, rest.
        split; [now rewrite <- !app_assoc|].
        rewrite G3calls, G3sent, Hs3, He3, He4.
        split; [apply ends_in_second_answers; assumption|].
        rewrite !user_messages_app, !other_messages_app, !held_app, Hh,
          (held_zero _ Hh).
        cbn [app].
        split; [exact G3m|]. split; [rewrite G3d, <- app_assoc; reflexivity|lia].
  - (* it cannot *)
    assert (Hplain : fs_noWait st2 = false \/ 0 < fs_count st2).
    { rewrite Hst2. cbn [fs_noWait fs_count].
      apply andb_false_iff in Ecan as [H|H]; [left; exact H|right].
      apply Z.eqb_neq in H. lia. }
    destruct (fetch_wait_plain _ _ _ _ _ _ _ _ Hw Hplain)
      as (answers & rest & -> & G2 & Hcase).
    destruct G2 as (G2m & G2d & G2c & G2calls & G2sent & _).
    rewrite Hst2 in G2m, G2d, G2c, G2calls, G2sent, Hcase.
    cbn [fs_calls fs_sent fs_status fs_err fs_msgs fs_destroyed fs_count] in *.
    destruct Hcase as [(_ & _ & Hstop) | (_ & Ht & Hs & He)].
    { rewrite Eo1 in Hstop. cbn [andb] in Hstop. apply Z.ltb_ge in Hstop. lia. }
    exists (queued ++ answers)%list, rest. split; [now rewrite app_assoc|].
    rewrite G2calls, G2sent, Hs, He, He2.
    split.
    + apply ends_in_answers; try assumption.
      unfold resends. rewrite held_app.
      apply andb_false_iff in Ecan as [H|H]; [rewrite H; reflexivity|].
      apply Z.eqb_neq in H. pose proof (held_nonneg answers).
      replace (held queued + held answers =? 0) with false
        by (symmetry; apply Z.eqb_neq; lia).
      rewrite andb_false_r. reflexivity.
    + rewrite user_messages_app, other_messages_app, held_app.
      split; [exact G2m|]. split; [exact G2d|exact G2c].
Qed.

End FetchCollect.

(** *** A fetch ends when the returns suffice *)

Lemma fetch_wait_completes subj rply batch start reqs nexts : forall st,
  Forall (fun n => nm_status n = NATS_OK -> nm_msg n <> None) nexts ->
  (1 <= failures nexts)%nat ->
  exists st', fetch_wait subj rply batch start reqs nexts st = Some st'.
Proof.
  induction nexts as [|n nexts IH]; intros st Hwf Hf; cbn [fetch_wait].
  - cbn in Hf. lia.
  - destruct (is_ok (fs_status st) && (fs_count st <? batch)); [|eauto].
    apply Forall_cons in Hwf as [Hn Hwf]. cbn [failures] in Hf.
    unfold wait_step. destruct (is_ok (nm_status n)) eqn:Eok.
    + destruct (nm_msg n) as [m|]; [|exfalso; apply Hn; [apply is_ok_true, Eok|reflexivity]].
      destruct (_checkMsg m true (fs_err st)) as [[s u] e'].
      destruct (is_ok s && u); [apply IH; [exact Hwf|lia]|].
      match goal with |- context [if ?b then _ else _] => destruct b end;
        apply IH; try exact Hwf; lia.
    + exists (set_status st (nm_status n)).
      apply fetch_wait_stopped. exact Eok.
Qed.

Lemma fetch_drain_completes batch pmc nexts : forall st,
  Forall (fun n => nm_status n = NATS_OK -> nm_msg n <> None) nexts ->
  (1 <= failures nexts)%nat ->
  exists st1 rest,
    fetch_drain batch pmc nexts st = Some (st1, rest) /\
    Forall (fun n => nm_status n = NATS_OK -> nm_msg n <> None) rest /\
    (failures nexts <= failures rest + 1)%nat.
Proof.
  induction nexts as [|n nexts IH]; intros st Hwf Hf; cbn [fetch_drain].
  - cbn in Hf. lia.
  - destruct (pmc && is_ok (fs_status st) && (fs_count st <? batch)) eqn:Ec.
    2:{ exists st, (n :: nexts). split; [reflexivity|]. split; [exact Hwf|lia]. }
    pose proof Hwf as Hwf0.
    apply Forall_cons in Hwf as [Hn Hwf]. cbn [failures] in Hf |- *.
    unfold drain_step. destruct (is_ok (nm_status n)) eqn:Eok.
    + destruct (nm_msg n) as [m|]; [|exfalso; apply Hn; [apply is_ok_true, Eok|reflexivity]].
      destruct (_checkMsg m false (fs_err st)) as [[s u] e'].
      destruct (IH (if is_ok s && u then collect st s m e' else discard st s m e')
                   Hwf ltac:(lia)) as (st1 & rest & H1 & H2 & H3).
      exists st1, rest. split; [exact H1|]. split; [exact H2|lia].
    + exists (set_status st (nm_status n)), nexts.
      split; [|split; [exact Hwf|lia]].
      destruct nexts; cbn [fetch_drain set_status fs_status]; rewrite Eok;
        rewrite andb_false_r; reflexivity.
Qed.

Lemma fetch_completes has_list sub batch timeout calloc_ok start reqs nexts e :
  returns_suffice nexts ->
  exists r,
    natsSubscription_Fetch has_list sub batch timeout calloc_ok start reqs nexts e
    = Some r.
Proof.
  intros (Hwf & Hf). unfold natsSubscription_Fetch.
  destruct (negb has_list); [eauto|].
  destruct sub as [sb|]; [|eauto].
  destruct (batch <=? 0); [eauto|].
  destruct (timeout <=? 0); [eauto|].
  destruct (sub_jsi sb) as [jsi|]; [|eauto].
  destruct (negb (jsi_pull jsi)); [eauto|].
  destruct (negb calloc_ok); [eauto|].
  unfold fetch_collect.
  destruct (fetch_drain_completes batch (0 <? sub_msgs sb) nexts
              (mkFetch NATS_OK 0 [] timeout false [] [] [] e) Hwf ltac:(lia))
    as (st1 & rest & -> & Hwf1 & Hf1).
  match goal with |- context [if ?b then _ else _] => destruct b end;
    [|eexists; reflexivity].
  match goal with |- context [fetch_wait ?a ?b ?c ?d ?f ?g ?h] =>
    destruct (fetch_wait_completes a b c d f g h Hwf1 ltac:(lia)) as (st' & ->) end.
  eexists. reflexivity.
Qed.

(** *** What the ending tells *)

Lemma taken_status c batch k l :
  taken c batch k l ->
  (last_status c l = NATS_OK <-> k + held l = batch).
Proof.
  intros (a & al & -> & Ha & Hlt & Hstop).
  unfold last_status. rewrite last_snoc. cbn [from_option].
  rewrite held_app, held_one.
  split.
  - intros Hs. destruct Hstop as [H|H]; [contradiction|].
    rewrite held_app, held_one in H. exact H.
  - intros H. destruct (kept al) as [m|] eqn:Ek; [|lia].
    exact (kept_status _ _ c Ek).
Qed.

Lemma taken_last_err batch k l e :
  taken true batch k l -> last_status true l = NATS_OK -> last_err true l e = e.
Proof.
  intros (a & al & -> & _). unfold last_status, last_err. rewrite last_snoc.
  cbn [from_option]. apply return_err_ok.
Qed.

Lemma fetch_ends_status subj rply batch timeout start reqs pmc e used calls sent s' e' :
  0 < batch ->
  fetch_ends subj rply batch timeout start reqs pmc e used calls sent s' e' ->
  0 <= held used <= batch /\
  (s' = NATS_OK <-> held used = batch) /\
  (s' = NATS_OK -> e' = e).
Proof.
  intros Hb H.
  destruct H as [queued Hd Ha
                |queued Hd Ha Ho1
                |queued answers Hd Ha Ho1 Ht Hr
                |queued answers Hd Ha Ho1 Ht Hr Ho2
                |queued answers more Hd Ha Ho1 Ht Hr Ho2 Ht2];
    pose proof (drained_held_le _ _ _ Hb Hd) as Hle.
  - split; [exact Hle|]. split; [|reflexivity].
    unfold drained in Hd. destruct pmc.
    + exact (taken_status _ _ _ _ Hd).
    + subst queued. unfold asks, last_status, held in Ha. cbn in Ha.
      apply negb_false_iff, Z.eqb_eq in Ha. lia.
  - split; [exact Hle|]. apply is_ok_false in Ho1.
    unfold asks in Ha. apply andb_true_iff in Ha as [_ Hne].
    apply negb_true_iff, Z.eqb_neq in Hne.
    split; [split; [intros H; contradiction|intros H; contradiction]|].
    intros H; contradiction.
  - pose proof (taken_held_le _ _ _ _ Ht) as Hle2.
    pose proof (held_nonneg answers).
    rewrite held_app. split; [lia|].
    split; [exact (taken_status _ _ _ _ Ht)|].
    intros Hs. exact (taken_last_err _ _ _ _ Ht Hs).
  - unfold resends in Hr. apply andb_true_iff in Hr as [Hr _].
    apply andb_true_iff in Hr as [_ Hz]. apply Z.eqb_eq in Hz.
    apply is_ok_false in Ho2.
    split; [lia|].
    split; [split; [intros H; contradiction|intros H; lia]|].
    intros H; contradiction.
  - unfold resends in Hr. apply andb_true_iff in Hr as [Hr _].
    apply andb_true_iff in Hr as [_ Hz]. apply Z.eqb_eq in Hz.
    pose proof (taken_held_le _ _ _ _ Ht2) as Hle2.
    pose proof (held_nonneg more).
    rewrite app_assoc, held_app, Hz.
    split; [lia|].
    split; [exact (taken_status _ _ _ _ Ht2)|].
    intros Hs. exact (taken_last_err _ _ _ _ Ht2 Hs).
Qed.

(** A completed call either failed on its arguments (or on the allocation
    of the array) before taking anything, or took the returns [used] and
    ended as [fetch_ends] tells. *)
Lemma fetch_trace has_list sub batch timeout calloc_ok start reqs nexts e r :
  natsSubscription_Fetch has_list sub batch timeout calloc_ok start reqs nexts e = Some r ->
  (exists s txt, s <> NATS_OK /\ r = fetch_fail (nats_setError s txt e)) \/
  (exists sb jsi used rest s' e',
     sub = Some sb /\ sub_jsi sb = Some jsi /\ 0 < batch /\
     nexts = (used ++ rest)%list /\
     fetch_ends (jsi_nxtMsgSubj jsi) (sub_subject sb) batch timeout start reqs
                (0 <? sub_msgs sb) e used (fr_calls r) (fr_sent r) s' e' /\
     fr_msgs r = user_messages used /\ fr_count r = held used /\
     fr_destroyed r = other_messages used /\
     fr_status r = (if 0 <? held used then NATS_OK else s') /\
     fr_err r = (if 0 <? held used then if is_ok s' then e' else None else e')).
Proof.
  unfold natsSubscription_Fetch, nats_setDefaultError. intros H.
  destruct has_list; cbn [negb] in H;
    [|injection H as <-; left; eexists _, _; split; [|reflexivity]; discriminate].
  destruct sub as [sb|];
    [|injection H as <-; left; eexists _, _; split; [|reflexivity]; discriminate].
  destruct (batch <=? 0) eqn:Eb;
    [injection H as <-; left; eexists _, _; split; [|reflexivity]; discriminate|].
  destruct (timeout <=? 0);
    [injection H as <-; left; eexists _, _; split; [|reflexivity]; discriminate|].
  destruct (sub_jsi sb) as [jsi|] eqn:Ej;
    [|injection H as <-; left; eexists _, _; split; [|reflexivity]; discriminate].
  destruct (jsi_pull jsi); cbn [negb] in H;
    [|injection H as <-; left; eexists _, _; split; [|reflexivity]; discriminate].
  destruct calloc_ok; cbn [negb] in H;
    [|injection H as <-; left; eexists _, _; split; [|reflexivity]; discriminate].
  right. apply Z.leb_gt in Eb.
  destruct (fetch_collect _ _ _ _ _ _ _ _ _) as [st|] eqn:Ec; [|discriminate].
  injection H as <-.
  destruct (fetch_collect_ends _ _ _ _ _ _ _ _ _ _ Eb Ec)
    as (used & rest & -> & He & Hm & Hd & Hc).
  exists sb, jsi, used, rest, (fs_status st), (fs_err st).
  split; [reflexivity|]. split; [exact Ej|]. split; [exact Eb|].
  split; [reflexivity|].
  unfold fetch_finish. rewrite Hc.
  destruct (0 <? held used) eqn:Ez;
    cbn [fr_calls fr_sent fr_msgs fr_count fr_destroyed fr_status fr_err].
  - split; [exact He|]. split; [exact Hm|]. split; [reflexivity|].
    split; [exact Hd|]. split; [reflexivity|].
    unfold nats_clearLastError. reflexivity.
  - split; [exact He|]. apply Z.ltb_ge in Ez. pose proof (held_nonneg used).
    assert (Hz : held used = 0) by lia.
    split; [symmetry; exact (held_zero _ Hz)|]. split; [lia|].
    split; [exact Hd|]. split; reflexivity.
Qed.



(** C7: [natsSubscription_Fetch] gives a result as soon as the returns of
    [natsSub_nextMsg] suffice.  A call that is not refused on its arguments
    takes the returns [used] and nothing after them, and ends as
    [fetch_ends] tells, on the status [s'] of the request that failed or of
    the last return it took.  It hands back exactly the user messages of
    [used].  If there is at least one, it returns [NATS_OK], whatever [s']
    is, and the error slot is cleared unless [s'] is [NATS_OK]; only when
    there is none does it return [s'], which is then not [NATS_OK], with
    the error recorded. *)
Theorem fetch_returns_collected
    (has_list : bool) (sub : option natsSubscription) (batch timeout : Z)
    (calloc_ok : bool) (start : Z) (reqs : nat -> req_env)
    (nexts : list next_msg) (e : errSlot) :
  (returns_suffice nexts ->
   exists r,
     natsSubscription_Fetch has_list sub batch timeout calloc_ok start reqs nexts e
     = Some r) /\
  (forall r,
     natsSubscription_Fetch has_list sub batch timeout calloc_ok start reqs nexts e
     = Some r ->
     (fr_status r = NATS_OK <-> fr_msgs r <> []) /\
     fr_count r = Z.of_nat (length (fr_msgs r)) /\
     ((exists s txt, s <> NATS_OK /\ r = fetch_fail (nats_setError s txt e)) \/
      (exists sb jsi used rest s' e',
         sub = Some sb /\ sub_jsi sb = Some jsi /\
         nexts = (used ++ rest)%list /\
         fetch_ends (jsi_nxtMsgSubj jsi) (sub_subject sb) batch timeout start reqs
                    (0 <? sub_msgs sb) e used (fr_calls r) (fr_sent r) s' e' /\
         fr_msgs r = user_messages used /\
         (user_messages used <> [] ->
            fr_status r = NATS_OK /\
            fr_err r = (if is_ok s' then e else None)) /\
         (user_messages used = [] ->
            s' <> NATS_OK /\ fr_status r = s' /\ fr_err r = e')))).
Proof.
  split; [apply fetch_completes|].
  intros r H. apply fetch_trace in H
    as [(s & txt & Hs & ->)
       |(sb & jsi & used & rest & s' & e' & -> & Hj & Hb & -> & He & Hm & Hc & _ & Hst & Herr)].
  - cbn. split; [split; [intros; contradiction | intros Hn; now contradiction Hn]|].
    split; [reflexivity|]. left. eexists _, _. split; [exact Hs|reflexivity].
  - destruct (fetch_ends_status _ _ _ _ _ _ _ _ _ _ _ _ _ Hb He) as (Hle & Hiff & He').
    assert (Hheld : held used = Z.of_nat (length (fr_msgs r)))
      by (rewrite Hm; reflexivity).
    split; [|split; [lia|]].
    + rewrite Hst. destruct (0 <? held used) eqn:Ez.
      * apply Z.ltb_lt in Ez. split; [intros _ Hn|reflexivity].
        rewrite Hn in Hheld. cbn in Hheld. lia.
      * apply Z.ltb_ge in Ez. rewrite (held_zero used) in Hm by lia.
        split; [intros Hs|intros Hn; now contradiction Hn].
        apply Hiff in Hs. lia.
    + right. exists sb, jsi, used, rest, s', e'.
      split; [reflexivity|]. split; [exact Hj|]. split; [reflexivity|].
      split; [exact He|]. split; [exact Hm|]. split.
      * intros Hne. assert (Hpos : (0 <? held used) = true).
        { apply Z.ltb_lt. unfold held. destruct (user_messages used);
            [contradiction|cbn; lia]. }
        rewrite Hst, Herr, Hpos. split; [reflexivity|].
        destruct (is_ok s') eqn:Es; [|reflexivity].
        apply is_ok_true in Es. rewrite (He' Es). reflexivity.
      * intros Hnil. assert (Hz : (0 <? held used) = false).
        { apply Z.ltb_ge. unfold held. rewrite Hnil. cbn. lia. }
        rewrite Hst, Herr, Hz. split; [|split; reflexivity].
        intros Hs. apply Hiff in Hs. unfold held in Hs. rewrite Hnil in Hs.
        cbn in Hs. lia.
Qed.

Lemma fetch_returns_collected_witness :
  (exists r, queued_fetch = Some r /\
             (fr_status r = NATS_OK <-> fr_msgs r <> []) /\
             fr_status r = NATS_OK /\
             fr_msgs r = [user_msg 1; user_msg 2] /\ fr_err r = None) /\
  (exists r, failed_fetch = Some r /\
             (fr_status r = NATS_OK <-> fr_msgs r <> []) /\
             fr_status r = NATS_ERR /\ fr_msgs r = []).
Proof.
  assert (Hq : returns_suffice queued_nexts)
    by (split; [repeat constructor; discriminate|cbn; lia]).
  assert (Hf : returns_suffice failed_nexts)
    by (split; [repeat constructor; discriminate|cbn; lia]).
  pose proof (fetch_returns_collected true (Some queued_sub) 5 1000 true 1000
                scenario_reqs queued_nexts None) as [Hq1 Hq2].
  pose proof (fetch_returns_collected true (Some queued_sub) 5 1000 true 1000
                scenario_reqs failed_nexts None) as [Hf1 Hf2].
  split.
  - destruct (Hq1 Hq) as (r & Hr). exists r. split; [exact Hr|].
    split; [exact (proj1 (Hq2 r Hr))|].
    unfold queued_fetch in *. clear Hq1 Hq2 Hf1 Hf2.
    vm_compute in Hr. injection Hr as <-. repeat split.
  - destruct (Hf1 Hf) as (r & Hr). exists r. split; [exact Hr|].
    split; [exact (proj1 (Hf2 r Hr))|].
    unfold failed_fetch in *. clear Hq1 Hq2 Hf1 Hf2.
    vm_compute in Hr. injection Hr as <-. repeat split.
Defined.



(** ** The public wrapper [js_PublishAsync] *)

(** The message created by [js_PublishAsync] is destroyed by the wrapper
    when the publish fails (here on a stall), and belongs to the library
    when it succeeds. *)
Example publishAsync_stalled_destroys_own :
  exists r,
    js_PublishAsync 7 stall_env NATS_OK NATS_OK no_interference (Some stall_ctx)
                    (NATS_OK, Some 3%nat) None
    = Some (NATS_TIMEOUT, Some r, Some (NATS_TIMEOUT, stalled_text), [3%nat]).
Proof. eexists. vm_compute. reflexivity. Qed.

(** On a collision the wrapper destroys nothing: the new message now
    belongs to the library, and the message it evicted from the map is not
    among the destroyed ones. *)
Example publishAsync_collision_destroys_nothing :
  exists r,
    js_PublishAsync 7 collide_env NATS_OK NATS_OK no_interference (Some collide_ctx)
                    (NATS_OK, Some 3%nat) None
    = Some (NATS_OK, Some r, None, []) /\
    inflight_msgs (pr_js r) = [3%nat].
Proof. eexists. split; vm_compute; reflexivity. Qed.

(** After that collision the map holds one entry for a pending count of
    two, and draining it leaves a pending count of one. *)
Example collision_then_drain :
  exists r js' lst,
    js_PublishMsgAsync 7 collide_env NATS_OK NATS_OK no_interference
      (Some collide_ctx) (Some (Some 3%nat)) None = Some (NATS_OK, Some r, None) /\
    js_PublishAsyncGetPendingList true (Some (pr_js r)) None
    = Some (NATS_OK, Some js', Some lst, None) /\
    Msgs lst = [3%nat] /\ js_pmcount js' = 1.
Proof.
  eexists _, _, _. split; [vm_compute; reflexivity|].
  split; [vm_compute; reflexivity|]. split; reflexivity.
Qed.

(** ** Reply tokens *)

Lemma digit_at_value k :
  0 <= k < 62 -> digit_value (digit_at k) = Some k.
Proof.
  intros Hk. rewrite <- (Z2Nat.id k) by lia.
  assert (Hn : (Z.to_nat k < 62)%nat) by lia.
  revert Hn. generalize (Z.to_nat k). clear Hk. intros n Hn.
  do 62 (destruct n as [|n]; [reflexivity|]). lia.
Qed.

Lemma token_digits_length n l : String.length (token_digits n l) = n.
Proof. revert l. induction n as [|n IH]; intros l; cbn; [reflexivity|]. now rewrite IH. Qed.

Lemma token_digits_value n : forall l,
  0 <= l ->
  token_value (token_digits n l) = l mod jsBase ^ Z.of_nat n /\
  all_digits (token_digits n l) = true.
Proof.
  unfold jsBase.
  induction n as [|n IH]; intros l Hl.
  - cbn [token_digits token_value all_digits]. rewrite Z.mod_1_r. split; reflexivity.
  - cbn [token_digits token_value all_digits]. unfold jsBase.
    rewrite Z.rem_mod_nonneg, Z.quot_div_nonneg by lia.
    pose proof (Z.mod_pos_bound l 62 ltac:(lia)) as Hm.
    rewrite (digit_at_value _ Hm). cbn [default from_option id].
    destruct (IH (l / 62) ltac:(apply Z.div_pos; lia)) as [IHv IHd].
    split; [|exact IHd].
    rewrite IHv, Nat2Z.inj_succ, Z.pow_succ_r by lia.
    symmetry. apply Z.rem_mul_r; [lia|]. apply Z.pow_pos_nonneg; lia.
Qed.

(** X1: the token written by [_newAsyncReply] for a non-negative random
    number has exactly 8 characters, all of them base-62 digits, and it
    encodes the number modulo [62^8], least significant digit first: two
    random numbers give the same token exactly when they are congruent
    modulo [62^8]. *)
Theorem token_digits_encodes (l l' : Z) :
  0 <= l -> 0 <= l' ->
  String.length (token_digits jsReplyTokenSize l) = 8%nat /\
  all_digits (token_digits jsReplyTokenSize l) = true /\
  token_value (token_digits jsReplyTokenSize l) = l mod 62 ^ 8 /\
  (token_digits jsReplyTokenSize l = token_digits jsReplyTokenSize l'
   <-> l mod 62 ^ 8 = l' mod 62 ^ 8).
Proof.
  intros Hl Hl'.
  destruct (token_digits_value jsReplyTokenSize l Hl) as [Hv Hd].
  destruct (token_digits_value jsReplyTokenSize l' Hl') as [Hv' _].
  change (jsBase ^ Z.of_nat jsReplyTokenSize) with (62 ^ 8) in Hv, Hv'.
  split; [apply token_digits_length|]. split; [exact Hd|]. split; [exact Hv|].
  split.
  - intros Heq. rewrite <- Hv, <- Hv', Heq. reflexivity.
  - intros Heq.
    (* equal residues give equal digit sequences *)
    clear Hv Hv' Hd. revert l l' Hl Hl' Heq.
    assert (Hgen : forall n l l', 0 <= l -> 0 <= l' ->
              l mod 62 ^ Z.of_nat n = l' mod 62 ^ Z.of_nat n ->
              token_digits n l = token_digits n l').
    { induction n as [|n IH]; intros l l' Hl Hl' Heq; [reflexivity|].
      cbn [token_digits]. unfold jsBase.
      rewrite !Z.rem_mod_nonneg, !Z.quot_div_nonneg by lia.
      rewrite Nat2Z.inj_succ, Z.pow_succ_r in Heq by lia.
      assert (Hp : 0 < 62 ^ Z.of_nat n) by (apply Z.pow_pos_nonneg; lia).
      rewrite !(Z.rem_mul_r _ 62 _) in Heq by lia.
      pose proof (Z.mod_pos_bound l 62 ltac:(lia)).
      pose proof (Z.mod_pos_bound l' 62 ltac:(lia)).
      pose proof (Z.mod_pos_bound (l / 62) (62 ^ Z.of_nat n) Hp).
      pose proof (Z.mod_pos_bound (l' / 62) (62 ^ Z.of_nat n) Hp).
      assert (Ha : l mod 62 = l' mod 62) by lia.
      assert (Hb : (l / 62) mod 62 ^ Z.of_nat n = (l' / 62) mod 62 ^ Z.of_nat n) by lia.
      rewrite Ha. f_equal. apply IH; [apply Z.div_pos; lia .. | exact Hb]. }
    intros l l' Hl Hl' Heq. apply Hgen; assumption.
Qed.

Lemma token_digits_encodes_witness :
  token_digits jsReplyTokenSize collide_rand = "AAAAAAAA" /\
  token_digits jsReplyTokenSize collide_rand
  = token_digits jsReplyTokenSize (collide_rand + 62 ^ 8).
Proof.
  split; [reflexivity|].
  apply (token_digits_encodes collide_rand (collide_rand + 62 ^ 8));
    [vm_compute; discriminate .. | vm_compute; reflexivity].
Defined.
Lemma string_length_app (a b : string) :
  String.length (a ++ b) = (String.length a + String.length b)%nat.
Proof. induction a as [|c a IH]; [reflexivity|]. change (S (String.length (a ++ b)) = S (String.length a + String.length b)). now f_equal. Qed.

Lemma str_drop_length n s : String.length (str_drop n s) = (String.length s - n)%nat.
Proof.
  revert s. induction n as [|n IH]; intros s; [cbn; lia|].
  destruct s as [|c s]; cbn; [reflexivity|]. apply IH.
Qed.

Lemma make_rpre_length pre tmp :
  (pre <= String.length tmp)%nat -> (jsReplyTokenSize <= String.length tmp)%nat ->
  String.length (make_rpre pre tmp) = jsReplyPrefixLen pre.
Proof.
  intros H1 H2. unfold make_rpre, jsReplyPrefixLen.
  unfold jsReplyTokenSize in *.
  rewrite !string_length_app, !str_take_length;
    [change (String.length ".") with 1%nat; lia | | exact H1].
  rewrite str_drop_length. lia.
Qed.

Lemma str_take_all s : str_take (String.length s) s = s.
Proof. induction s as [|c s IH]; [reflexivity|]. cbn [String.length str_take]. now f_equal. Qed.

(** X2: the first asynchronous publish on a context (no reply
    subscription yet) succeeds exactly when the condition variable, the
    map, the prefix buffer and the subscription are all obtained.  On
    success the context holds the condition variable, an empty inflight
    map, the subscription and one more reference, and the reply subject
    is the prefix (the head of the inbox, its last 8 characters and a
    dot) followed by the token, which is what is used as key.  On failure
    everything that was created is undone: no condition variable, no map,
    no prefix, no subscription, no reply and the same reference count, so
    that the next call starts afresh.  The counters are never touched. *)
Theorem newAsyncReply_first_time
    (pre : nat) (ri : reply_init) (rnd : Z) (js : jsCtx) (e : errSlot) :
  js_rsub js = false ->
  (pre <= String.length (ri_inbox ri))%nat ->
  (jsReplyTokenSize <= String.length (ri_inbox ri))%nat ->
  let '(s, js', reply, e') := _newAsyncReply pre ri rnd js e in
  (s = NATS_OK <->
   ri_cond ri = NATS_OK /\ ri_hash ri = NATS_OK /\ ri_malloc ri = true
   /\ ri_subscribe ri = NATS_OK) /\
  js_pmcount js' = js_pmcount js /\ js_stalled js' = js_stalled js /\
  js_pacw js' = js_pacw js /\ js_opts js' = js_opts js /\
  (s = NATS_OK ->
   js_cond js' = true /\ js_pm js' = Some ∅ /\ js_rsub js' = true /\
   js_refs js' = int32 (js_refs js + 1) /\
   js_rpre js' = Some (make_rpre pre (ri_inbox ri)) /\
   reply = Some (make_rpre pre (ri_inbox ri) ++ token_digits jsReplyTokenSize rnd) /\
   reply_id pre (default EmptyString reply) = token_digits jsReplyTokenSize rnd /\
   e' = e) /\
  (s <> NATS_OK ->
   js_cond js' = false /\ js_pm js' = None /\ js_rsub js' = false /\
   js_refs js' = js_refs js /\ js_rpre js' = None /\ reply = None).
Proof.
  intros Hrsub Hpre Htok.
  pose proof (make_rpre_length pre _ Hpre Htok) as Hlen.
  unfold _newAsyncReply, init_reply. rewrite Hrsub.
  destruct (ri_cond ri) eqn:Hc; cbn [is_ok];
    try (cbn; repeat split; (congruence || (intros; intuition congruence))).
  destruct (ri_hash ri) eqn:Hh; cbn [is_ok];
    try (cbn; repeat split; (congruence || (intros; intuition congruence))).
  destruct (ri_malloc ri) eqn:Hm; cbn [is_ok];
    [| unfold nats_setDefaultError, nats_setError; cbn; repeat split;
       (congruence || (intros; intuition congruence))].
  destruct (ri_subscribe ri) eqn:Hs; cbn [is_ok];
      try (cbn; repeat split; (congruence || (intros; intuition congruence))).
    cbn [js_pmcount js_stalled js_pacw js_opts js_cond js_pm js_rsub js_refs js_rpre
         default from_option id].
    rewrite <- Hlen at 1 2. rewrite str_take_all.
    rewrite <- Hlen at 1. unfold reply_id. rewrite Hlen at 1. rewrite <- Hlen.
    rewrite str_drop_app.
    repeat split; try congruence; intros; intuition congruence.
Qed.

Lemma newAsyncReply_first_time_witness :
  js_rsub fresh_ctx = false /\
  fst (fst (fst (_newAsyncReply 7 quiet_init collide_rand fresh_ctx None))) = NATS_OK /\
  snd (fst (_newAsyncReply 7 quiet_init collide_rand fresh_ctx None))
  = Some "_INBOX.efghijkl.AAAAAAAA".
Proof.
  pose proof (newAsyncReply_first_time 7 quiet_init collide_rand fresh_ctx None
                eq_refl ltac:(vm_compute; lia) ltac:(vm_compute; lia)) as H.
  destruct (_newAsyncReply 7 quiet_init collide_rand fresh_ctx None)
    as [[[s js'] reply] e'].
  destruct H as (Hs & _ & _ & _ & _ & Hok & _).
  assert (s = NATS_OK) as Hs' by (apply Hs; repeat split).
  split; [reflexivity|]. split; [exact Hs'|].
  destruct (Hok Hs') as (_ & _ & _ & _ & _ & Hr & _). exact Hr.
Defined.

(** ** Pub acks *)

Lemma classify_unfold isErr getText m :
  classify isErr getText m
  = if am_noResponders m
    then Some (NATS_NO_RESPONDERS, 0, errTxt_of (getText NATS_NO_RESPONDERS))
    else
      let '(s, ar, _, _) := js_unmarshalResponse (am_json m) in
      if is_ok s then
        if isErr ar
        then match Error_Description ar with
             | Some d => Some (NATS_ERR, Error_ErrCode ar, errTxt_of d)
             | None => None
             end
        else Some (NATS_OK, 0, EmptyString)
      else Some (s, 0, errTxt_of (getText s)).
Proof.
  unfold classify. destruct (am_noResponders m); [reflexivity|].
  destruct (js_unmarshalResponse (am_json m)) as [[[s ar] ?] ?].
  destruct (is_ok s) eqn:Hs; cbn [andb].
  - destruct (isErr ar).
    + rewrite Hs. cbn [negb]. destruct (Error_Description ar); reflexivity.
    + rewrite Hs. reflexivity.
  - rewrite Hs. reflexivity.
Qed.

Lemma errTxt_of_bound t : (String.length (errTxt_of t) <= 255)%nat.
Proof.
  unfold errTxt_of. generalize 255%nat. intros n. revert t.
  induction n as [|n IH]; intros t; [cbn; lia|].
  destruct t as [|c t]; cbn [str_take String.length]; [lia|].
  specialize (IH t). lia.
Qed.

Lemma classify_text_bound isErr getText m err code txt :
  classify isErr getText m = Some (err, code, txt) ->
  (String.length txt <= 255)%nat.
Proof.
  rewrite classify_unfold.
  destruct (am_noResponders m).
  - intros H. injection H as <- <- <-. apply errTxt_of_bound.
  - destruct (js_unmarshalResponse (am_json m)) as [[[s ar] ?] ?].
    destruct (is_ok s) eqn:Hs.
    + destruct (isErr ar).
      * destruct (Error_Description ar) as [d|]; intros H; [|discriminate H].
        injection H as <- <- <-. apply errTxt_of_bound.
      * intros H. injection H as <- <- <-. cbn. lia.
    + intros H. injection H as <- <- <-. apply errTxt_of_bound.
Qed.

Lemma handleAsyncReply_matched pre isErr getText handler during js m subject h pmsg :
  am_subject m = Some subject ->
  (jsReplyPrefixLen pre < String.length subject)%nat ->
  js_pm js = Some h ->
  h !! reply_id pre subject = Some pmsg ->
  let maxp := MaxPending (PublishAsync (js_opts js)) in
  let js1 := set_pm js (Some (delete (reply_id pre subject) h)) in
  _handleAsyncReply pre isErr getText handler during js m
  = if ErrHandler (PublishAsync (js_opts js)) then
      match classify isErr getText m with
      | None => None
      | Some (err, code, txt) =>
          if negb (is_ok err) then
            let pae := mkPubAckErr (Some pmsg) err code txt in
            Some (ack_finish maxp m (interfere during js1) (Some pae)
                    (if decide (handler pae = Some pmsg) then Some pmsg else None))
          else Some (ack_finish maxp m js1 None (Some pmsg))
      end
    else Some (ack_finish maxp m js1 None (Some pmsg)).
Proof.
  intros Hsub Hlen Hpm Hk maxp js1.
  unfold _handleAsyncReply. rewrite Hsub.
  apply Nat.leb_gt in Hlen. rewrite Hlen, Hpm.
  unfold natsStrHash_Remove. rewrite Hk. reflexivity.
Qed.

Lemma ack_finish_balanced maxp m js call pmsg' h key x :
  js_pm js = Some (delete key h) -> h !! key = Some x ->
  js_pmcount js = natsStrHash_Count h -> in_int64 (js_pmcount js) ->
  balanced (hr_js (ack_finish maxp m js call pmsg')).
Proof.
  intros Hpm Hk Hc Hrange. unfold balanced, ack_finish, set_pmcount.
  cbn [hr_js js_pm js_pmcount]. rewrite Hpm.
  unfold natsStrHash_Count in *.
  assert (Hsz : size h = S (size (delete key h))).
  { rewrite <- (insert_delete_id h _ _ Hk) at 1.
    rewrite map_size_insert_None by apply lookup_delete_eq. reflexivity. }
  rewrite Hc in *. rewrite Hsz in *.
  replace (Z.of_nat (S (size (delete key h))) - 1)
    with (Z.of_nat (size (delete key h))) by lia.
  apply int64_id. unfold in_int64 in *. lia.
Qed.

Section HandleAsyncReplyFacts.

Variable pre : nat.
Variable isErr : jsApiResponse -> bool.
Variable getText : natsStatus -> string.
Variable handler : jsPubAckErr -> option natsMsgPtr.
Variable during : interference.

(** X3: a reply that matches no inflight publish changes nothing.  When
    the subject is NULL, is not longer than the reply prefix, or carries a
    token that is not in the inflight map, the context is left as it was,
    the error handler is not called, nothing is broadcast and the reply is
    the only message destroyed. *)
Theorem handleAsyncReply_unmatched (js : jsCtx) (m : ack_msg) :
  (am_subject m = None
   \/ (exists subject, am_subject m = Some subject
        /\ (String.length subject <= jsReplyPrefixLen pre)%nat)
   \/ (exists subject h, am_subject m = Some subject /\ js_pm js = Some h
        /\ h !! reply_id pre subject = None)) ->
  _handleAsyncReply pre isErr getText handler during js m
  = Some (mkReplyResult js None false [am_ptr m]).
Proof.
  unfold _handleAsyncReply.
  intros [H | [(subject & H & Hlen) | (subject & h & H & Hpm & Hk)]]; rewrite H.
  - reflexivity.
  - apply Nat.leb_le in Hlen. rewrite Hlen. reflexivity.
  - destruct (String.length subject <=? jsReplyPrefixLen pre)%nat; [reflexivity|].
    rewrite Hpm. unfold natsStrHash_Remove. rewrite Hk. reflexivity.
Qed.

(** X4: an ack for an inflight publish, when no error is to be reported
    (no error handler is installed, or the reply is a response without
    error).  The entry of the token is removed and the pending count
    lowered by one, so that a count equal to the number of entries stays
    so; the handler is not called; the published message and then the
    reply are destroyed, each once; the reference count, the stalled and
    waiter counts are unchanged. *)
Theorem handleAsyncReply_acked
    (js : jsCtx) (m : ack_msg) (subject : string)
    (h : gmap string natsMsgPtr) (pmsg : natsMsgPtr) :
  am_subject m = Some subject ->
  (jsReplyPrefixLen pre < String.length subject)%nat ->
  js_pm js = Some h ->
  h !! reply_id pre subject = Some pmsg ->
  (ErrHandler (PublishAsync (js_opts js)) = false
   \/ exists code txt, classify isErr getText m = Some (NATS_OK, code, txt)) ->
  in_int64 (js_pmcount js) ->
  exists r,
    _handleAsyncReply pre isErr getText handler during js m = Some r /\
    js_pm (hr_js r) = Some (delete (reply_id pre subject) h) /\
    js_pmcount (hr_js r) = int64 (js_pmcount js - 1) /\
    (balanced js -> balanced (hr_js r)) /\
    hr_handled r = None /\
    hr_destroyed r = [pmsg; am_ptr m] /\
    js_refs (hr_js r) = js_refs js /\ js_stalled (hr_js r) = js_stalled js /\
    js_pacw (hr_js r) = js_pacw js /\ js_rsub (hr_js r) = js_rsub js.
Proof.
  intros Hsub Hlen Hpm Hk Hquiet Hrange.
  rewrite (handleAsyncReply_matched pre isErr getText handler during js m subject h
             pmsg Hsub Hlen Hpm Hk).
  set (js1 := set_pm js (Some (delete (reply_id pre subject) h))).
  set (maxp := MaxPending (PublishAsync (js_opts js))).
  assert (Hrun : (if ErrHandler (PublishAsync (js_opts js)) then
                    match classify isErr getText m with
                    | None => None
                    | Some (err, code, txt) =>
                        if negb (is_ok err) then
                          Some (ack_finish maxp m (interfere during js1)
                                  (Some (mkPubAckErr (Some pmsg) err code txt))
                                  (if decide (handler (mkPubAckErr (Some pmsg) err code txt)
                                              = Some pmsg)
                                   then Some pmsg else None))
                        else Some (ack_finish maxp m js1 None (Some pmsg))
                    end
                  else Some (ack_finish maxp m js1 None (Some pmsg)))
                 = Some (ack_finish maxp m js1 None (Some pmsg))).
  { destruct Hquiet as [-> | (code & txt & ->)]; [reflexivity|].
    destruct (ErrHandler _); reflexivity. }
  cbv zeta. rewrite Hrun. eexists. split; [reflexivity|].
  split; [reflexivity|]. split; [reflexivity|]. split.
  - unfold balanced at 1. rewrite Hpm. intros Hc.
    apply (ack_finish_balanced maxp m js1 None (Some pmsg) h
             (reply_id pre subject) pmsg);
      [reflexivity | exact Hk | exact Hc | exact Hrange].
  - repeat split.
Qed.

(** X5: an ack for an inflight publish that reports an error to an
    installed handler.  The handler is called exactly once, with the
    published message, a status that is not [NATS_OK] and a text of at most
    255 characters; the status is [NATS_NO_RESPONDERS] for a reply without
    responders, the failure of the unmarshalling when there is one, and
    [NATS_ERR] with the response's error code otherwise.  The entry is
    removed before the call and the count lowered after it, on top of what
    happened to the context during the call.  The published message is
    destroyed only when the handler left [pae.Msg] as it was; the reply
    always is. *)
Theorem handleAsyncReply_error
    (js : jsCtx) (m : ack_msg) (subject : string)
    (h : gmap string natsMsgPtr) (pmsg : natsMsgPtr)
    (err : natsStatus) (code : Z) (txt : string) :
  am_subject m = Some subject ->
  (jsReplyPrefixLen pre < String.length subject)%nat ->
  js_pm js = Some h ->
  h !! reply_id pre subject = Some pmsg ->
  ErrHandler (PublishAsync (js_opts js)) = true ->
  classify isErr getText m = Some (err, code, txt) ->
  err <> NATS_OK ->
  let pae := mkPubAckErr (Some pmsg) err code txt in
  exists r,
    _handleAsyncReply pre isErr getText handler during js m = Some r /\
    hr_handled r = Some pae /\
    (String.length txt <= 255)%nat /\
    (am_noResponders m = true -> err = NATS_NO_RESPONDERS /\ code = 0) /\
    (am_noResponders m = false ->
     let '(s, ar, _, _) := js_unmarshalResponse (am_json m) in
     if is_ok s then err = NATS_ERR /\ code = Error_ErrCode ar /\ isErr ar = true
     else err = s /\ code = 0) /\
    js_pm (hr_js r) = Some (i_pm during (delete (reply_id pre subject) h)) /\
    js_pmcount (hr_js r) = int64 (js_pmcount js + i_pmcount during - 1) /\
    hr_destroyed r
    = ((if decide (handler pae = Some pmsg) then [pmsg] else []) ++ [am_ptr m])%list.
Proof.
  intros Hsub Hlen Hpm Hk Hh Hcl Herr pae.
  pose proof (classify_text_bound _ _ _ _ _ _ Hcl) as Hb.
  rewrite (handleAsyncReply_matched pre isErr getText handler during js m subject h
             pmsg Hsub Hlen Hpm Hk).
  cbv zeta. rewrite Hh, Hcl.
  pose proof Herr as Herr'. apply is_ok_false in Herr'. rewrite Herr'. cbn [negb].
  eexists. split; [reflexivity|].
  split; [reflexivity|]. split; [exact Hb|].
  split; [|split].
  - intros Hn. rewrite classify_unfold, Hn in Hcl.
    injection Hcl as <- <- <-. split; reflexivity.
  - intros Hn. rewrite classify_unfold, Hn in Hcl.
    destruct (js_unmarshalResponse (am_json m)) as [[[s ar] ?] ?].
    destruct (is_ok s) eqn:Hs.
    + destruct (isErr ar) eqn:Hi.
      * destruct (Error_Description ar); [|discriminate Hcl].
        injection Hcl as <- <- <-. repeat split.
      * injection Hcl as <- <- <-. contradiction Herr. reflexivity.
    + injection Hcl as <- <- <-. split; reflexivity.
  - unfold ack_finish. cbn [hr_js hr_destroyed].
    unfold set_pmcount, interfere, set_pm.
    cbn [js_pm js_pmcount fmap option_fmap option_map].
    split; [reflexivity|]. split.
    + rewrite int64_sub_l. reflexivity.
    + fold pae. destruct (decide (handler pae = Some pmsg)); reflexivity.
Qed.

(** X6: no waiter is left asleep by an ack.  After an ack for an inflight
    publish, if a publisher is stalled and the pending count is no longer
    above [MaxPending] (its loop would stop), or if a caller waits for
    completion and the count is zero, the condition is broadcast; and it is
    broadcast in these two cases only. *)
Theorem handleAsyncReply_wakes
    (js : jsCtx) (m : ack_msg) (subject : string)
    (h : gmap string natsMsgPtr) (pmsg : natsMsgPtr) (r : reply_result) (target : Z) :
  am_subject m = Some subject ->
  (jsReplyPrefixLen pre < String.length subject)%nat ->
  js_pm js = Some h ->
  h !! reply_id pre subject = Some pmsg ->
  _handleAsyncReply pre isErr getText handler during js m = Some r ->
  let maxp := MaxPending (PublishAsync (js_opts js)) in
  hr_broadcast r = true <->
  (0 < js_stalled (hr_js r)
   /\ stall_wait maxp target [] NATS_OK (hr_js r) = Some (NATS_OK, hr_js r))
  \/ (0 < js_pacw (hr_js r)
      /\ complete_wait target [] NATS_OK (hr_js r) = Some (NATS_OK, hr_js r)
      /\ 0 <= js_pmcount (hr_js r)).
Proof.
  intros Hsub Hlen Hpm Hk Hrun maxp.
  assert (Hgen : forall js0 call pm',
    r = ack_finish maxp m js0 call pm' ->
    hr_broadcast r = true <->
    (0 < js_stalled (hr_js r)
     /\ stall_wait maxp target [] NATS_OK (hr_js r) = Some (NATS_OK, hr_js r))
    \/ (0 < js_pacw (hr_js r)
        /\ complete_wait target [] NATS_OK (hr_js r) = Some (NATS_OK, hr_js r)
        /\ 0 <= js_pmcount (hr_js r))).
  { intros js0 call pm' ->. unfold ack_finish. cbn [hr_broadcast hr_js].
    set (js1 := set_pmcount js0 _).
    cbn [stall_wait complete_wait is_timeout negb andb].
    rewrite orb_true_iff, !andb_true_iff, !Z.ltb_lt, Z.eqb_eq, Z.leb_le.
    destruct (maxp <? js_pmcount js1) eqn:Hm;
      destruct (0 <? js_pmcount js1) eqn:Hz;
      [apply Z.ltb_lt in Hm | apply Z.ltb_lt in Hm | apply Z.ltb_ge in Hm
       | apply Z.ltb_ge in Hm];
      [apply Z.ltb_lt in Hz | apply Z.ltb_ge in Hz | apply Z.ltb_lt in Hz
       | apply Z.ltb_ge in Hz];
      split; intros H; intuition (try discriminate; try lia). }
  rewrite (handleAsyncReply_matched pre isErr getText handler during js m subject h
             pmsg Hsub Hlen Hpm Hk) in Hrun.
  cbv zeta in Hrun. fold maxp in Hrun.
  destruct (ErrHandler (PublishAsync (js_opts js))).
  - destruct (classify isErr getText m) as [[[err code] txt]|]; [|discriminate].
    destruct (negb (is_ok err)); injection Hrun as Hrun; symmetry in Hrun;
      eapply Hgen; exact Hrun.
  - injection Hrun as Hrun. symmetry in Hrun. eapply Hgen; exact Hrun.
Qed.

End HandleAsyncReplyFacts.

Lemma handleAsyncReply_unmatched_witness :
  _handleAsyncReply 7 sample_isErr sample_text handler_keeps no_interference
    collide_ctx ack_stray
  = Some (mkReplyResult collide_ctx None false [9%nat]).
Proof.
  apply (handleAsyncReply_unmatched 7 sample_isErr sample_text handler_keeps
           no_interference collide_ctx ack_stray).
  right. right. exists "_INBOX.abcdefgh.ZZZZZZZZ", (<["AAAAAAAA" := 1%nat]> ∅).
  split; [reflexivity|]. split; [reflexivity|]. vm_compute. reflexivity.
Defined.

Lemma handleAsyncReply_acked_witness :
  exists r,
    _handleAsyncReply 7 sample_isErr sample_text handler_keeps no_interference
      collide_ctx ack_ok = Some r /\
    hr_destroyed r = [1%nat; 9%nat] /\ js_pmcount (hr_js r) = 0.
Proof.
  destruct (handleAsyncReply_acked 7 sample_isErr sample_text handler_keeps
              no_interference collide_ctx ack_ok "_INBOX.abcdefgh.AAAAAAAA"
              (<["AAAAAAAA" := 1%nat]> ∅) 1%nat eq_refl
              ltac:(vm_compute; lia) eq_refl ltac:(vm_compute; reflexivity)
              (or_introl eq_refl) ltac:(unfold in_int64; cbn; lia))
    as (r & Hr & _ & Hc & _ & _ & Hd & _).
  exists r. split; [exact Hr|]. split; [exact Hd | exact Hc].
Defined.

Lemma handleAsyncReply_error_witness :
  exists r,
    _handleAsyncReply 7 sample_isErr sample_text handler_resends no_interference
      handler_ctx ack_err = Some r /\
    hr_handled r
    = Some (mkPubAckErr (Some 1%nat) NATS_ERR 10077 "maximum messages exceeded") /\
    hr_destroyed r = [9%nat].
Proof.
  destruct (handleAsyncReply_error 7 sample_isErr sample_text handler_resends
              no_interference handler_ctx ack_err "_INBOX.abcdefgh.AAAAAAAA"
              (<["AAAAAAAA" := 1%nat]> ∅) 1%nat NATS_ERR 10077
              "maximum messages exceeded" eq_refl
              ltac:(vm_compute; lia) eq_refl ltac:(vm_compute; reflexivity)
              eq_refl ltac:(vm_compute; reflexivity) ltac:(discriminate))
    as (r & Hr & Hh & _ & _ & _ & _ & _ & Hd).
  exists r. split; [exact Hr|]. split; [exact Hh | exact Hd].
Defined.

Lemma handleAsyncReply_wakes_witness :
  exists r,
    _handleAsyncReply 7 sample_isErr sample_text handler_keeps no_interference
      drain_ctx ack_ok = Some r /\
    hr_broadcast r = true.
Proof.
  eexists. split; [reflexivity|].
  apply (handleAsyncReply_wakes 7 sample_isErr sample_text handler_keeps
           no_interference drain_ctx ack_ok "_INBOX.abcdefgh.AAAAAAAA"
           (<["AAAAAAAA" := 1%nat]> ∅) 1%nat _ 0 eq_refl
           ltac:(vm_compute; lia) eq_refl ltac:(vm_compute; reflexivity) eq_refl).
  left. split; [vm_compute; reflexivity | vm_compute; reflexivity].
Defined.

(** ** Accounting of an asynchronous publish *)

Lemma set_pm_pmcount_id js :
  set_pmcount (set_pm js (js_pm js)) (js_pmcount js) = js.
Proof. destruct js; reflexivity. Qed.

Lemma int64_succ_pred c : in_int64 c -> int64 (int64 (c + 1) - 1) = c.
Proof.
  intros H. rewrite int64_sub_l. replace (c + 1 - 1) with c by lia.
  apply int64_id, H.
Qed.

Section PublishFacts.

Variable pre : nat.

(** The publish of a message when the reply subscription exists, no stall
    is needed and the token drawn is not in the inflight map. *)
Lemma publishMsgAsync_fresh_unfold
    (env : pub_env) (hdr pub : natsStatus) (during : interference)
    (js : jsCtx) (msg : natsMsgPtr) (e : errSlot)
    (p : string) (h : gmap string natsMsgPtr) :
  let token := token_digits jsReplyTokenSize (pe_rand env) in
  let reply := str_take (jsReplyPrefixLen pre) p ++ token in
  let js1 := set_pmcount js (int64 (js_pmcount js + 1)) in
  js_rsub js = true ->
  js_rpre js = Some p -> (jsReplyPrefixLen pre <= String.length p)%nat ->
  js_pm js = Some h ->
  (0 <? MaxPending (PublishAsync (js_opts js)))
  && (MaxPending (PublishAsync (js_opts js)) <? int64 (js_pmcount js + 1)) = false ->
  h !! token = None ->
  hdr = NATS_OK ->
  js_PublishMsgAsync_body pre env hdr pub during js msg e
  = if pe_set_ok env then
      let js2 := set_pm js1 (Some (<[token := msg]> h)) in
      if is_ok pub then Some (mkPubResult NATS_OK js2 None [(reply, msg)] [] e)
      else
        let js3 := interfere during js2 in
        let h3 := default ∅ (js_pm js3) in
        match h3 !! token with
        | None =>
            Some (mkPubResult NATS_OK (set_pm js3 (Some (delete token h3)))
                    None [(reply, msg)] [] e)
        | Some _ =>
            Some (mkPubResult pub
                    (set_pmcount (set_pm js3 (Some (delete token h3)))
                       (int64 (js_pmcount js3 - 1)))
                    (Some msg) [(reply, msg)] [] e)
        end
    else
      Some (mkPubResult NATS_NO_MEMORY
              (set_pmcount (set_pm js1 (Some h)) (int64 (js_pmcount js1 - 1)))
              (Some msg) [] [] e).
Proof.
  intros token reply js1 Hrsub Hrpre Hlen Hpm Hns Hfresh ->.
  unfold js_PublishMsgAsync_body, _registerPubMsg. cbn [is_ok].
  rewrite (await_slot_no_stall pre env js e Hrsub Hns).
  rewrite Hrpre. cbn [default from_option id is_ok].
  rewrite (reply_id_token pre p _ Hlen).
  fold token. fold js1. unfold natsStrHash_Set.
  replace (js_pm js1) with (Some h) by (symmetry; exact Hpm).
  cbn [default from_option id]. rewrite Hfresh.
  destruct (pe_set_ok env).
  - cbn [is_ok rr_status rr_js rr_reply rr_err default from_option id].
    rewrite (reply_id_token pre p _ Hlen).
    destruct (is_ok pub); [reflexivity|].
    unfold natsStrHash_Remove.
    destruct (default ∅ (js_pm (interfere during _)) !! token); reflexivity.
  - reflexivity.
Qed.

(** X7: an asynchronous publish that registers its message.  On a context
    whose reply subscription is already in place (with its reply prefix and
    its inflight map), when the publisher has not to stall, the pending
    count plus one fits in an [int64], and the token drawn is not already a
    key of the inflight map: if the headers are set, the entry can be
    stored and the connection takes the message, [js_PublishMsgAsync]
    returns [NATS_OK]; the message is stored under the token, which is the
    key found in the reply subject it is sent with; the pending count grows
    by one, so a count equal to the number of entries stays so; the library
    takes the message ([*msg] is cleared) and destroys nothing.  Nothing is
    said here of a first publish, which creates the reply subscription, nor
    of a token already in the map, whose entry is overwritten. *)
Theorem publishMsgAsync_registers
    (env : pub_env) (during : interference)
    (js : jsCtx) (msg : natsMsgPtr) (e : errSlot)
    (p : string) (h : gmap string natsMsgPtr) :
  let token := token_digits jsReplyTokenSize (pe_rand env) in
  let reply := str_take (jsReplyPrefixLen pre) p ++ token in
  js_rsub js = true ->
  js_rpre js = Some p -> (jsReplyPrefixLen pre <= String.length p)%nat ->
  js_pm js = Some h ->
  (0 <? MaxPending (PublishAsync (js_opts js)))
  && (MaxPending (PublishAsync (js_opts js)) <? int64 (js_pmcount js + 1)) = false ->
  in_int64 (js_pmcount js + 1) ->
  h !! token = None ->
  pe_set_ok env = true ->
  exists r,
    js_PublishMsgAsync_body pre env NATS_OK NATS_OK during js msg e = Some r /\
    pr_status r = NATS_OK /\ pr_msg r = None /\
    pr_sent r = [(reply, msg)] /\ reply_id pre reply = token /\
    pr_destroyed r = [] /\ pr_err r = e /\
    js_pm (pr_js r) = Some (<[token := msg]> h) /\
    js_pmcount (pr_js r) = js_pmcount js + 1 /\
    (balanced js -> balanced (pr_js r)) /\
    js_refs (pr_js r) = js_refs js /\ js_stalled (pr_js r) = js_stalled js.
Proof.
  intros token reply Hrsub Hrpre Hlen Hpm Hns Hrange Hfresh Hset.
  rewrite (publishMsgAsync_fresh_unfold env NATS_OK NATS_OK during js msg e p h
             Hrsub Hrpre Hlen Hpm Hns Hfresh eq_refl).
  rewrite Hset. cbn [is_ok]. eexists. split; [reflexivity|].
  cbn [pr_status pr_msg pr_sent pr_destroyed pr_err pr_js].
  unfold set_pm, set_pmcount. cbn [js_pm js_pmcount js_refs js_stalled].
  rewrite (int64_id _ Hrange).
  repeat split.
  - apply reply_id_token, Hlen.
  - unfold balanced. cbn [js_pm js_pmcount]. rewrite Hpm. intros ->.
    unfold natsStrHash_Count. rewrite map_size_insert_None by exact Hfresh. lia.
Qed.

(** X8: an asynchronous publish that fails after the pending count was
    incremented leaves the accounting as it found it, provided the token
    drawn was not already in the inflight map and no other thread touched
    the context during the call.  On a context whose reply subscription is
    already in place, when the publisher has not to stall and the pending
    count fits in an [int64]: if the entry cannot be stored, or the
    connection refuses the message, the status is the failure, the
    inflight map and the pending count are those of before the call, the
    caller keeps the message and nothing is destroyed.  Nothing is said
    here of a token already in the map (its former entry is then lost) nor
    of an ack handled concurrently. *)
Theorem publishMsgAsync_failure_restores
    (env : pub_env) (pub : natsStatus)
    (js : jsCtx) (msg : natsMsgPtr) (e : errSlot)
    (p : string) (h : gmap string natsMsgPtr) :
  let token := token_digits jsReplyTokenSize (pe_rand env) in
  js_rsub js = true ->
  js_rpre js = Some p -> (jsReplyPrefixLen pre <= String.length p)%nat ->
  js_pm js = Some h ->
  (0 <? MaxPending (PublishAsync (js_opts js)))
  && (MaxPending (PublishAsync (js_opts js)) <? int64 (js_pmcount js + 1)) = false ->
  in_int64 (js_pmcount js) ->
  h !! token = None ->
  (pe_set_ok env = false \/ pub <> NATS_OK) ->
  exists r,
    js_PublishMsgAsync_body pre env NATS_OK pub no_interference js msg e = Some r /\
    pr_status r = (if pe_set_ok env then pub else NATS_NO_MEMORY) /\
    pr_status r <> NATS_OK /\
    pr_msg r = Some msg /\ pr_destroyed r = [] /\
    js_pm (pr_js r) = Some h /\ js_pmcount (pr_js r) = js_pmcount js /\
    (balanced js -> balanced (pr_js r)).
Proof.
  intros token Hrsub Hrpre Hlen Hpm Hns Hrange Hfresh Hfail.
  rewrite (publishMsgAsync_fresh_unfold env NATS_OK pub no_interference js msg e p h
             Hrsub Hrpre Hlen Hpm Hns Hfresh eq_refl).
  fold token.
  assert (Hbal : forall js', js_pm js' = Some h -> js_pmcount js' = js_pmcount js ->
                             balanced js -> balanced js').
  { intros js' H1 H2. unfold balanced. rewrite H1, H2, Hpm. tauto. }
  destruct (pe_set_ok env).
  - destruct Hfail as [Hf | Hpub]; [discriminate|].
    apply is_ok_false in Hpub. rewrite Hpub.
    unfold interfere, no_interference, set_pm, set_pmcount.
    cbn [js_pm js_pmcount i_pm i_pmcount fmap option_fmap option_map default
         from_option id].
    rewrite lookup_insert_eq. eexists. split; [reflexivity|].
    cbn [pr_status pr_msg pr_destroyed pr_js js_pm js_pmcount].
    rewrite (delete_insert_id h token msg Hfresh).
    rewrite Z.add_0_r, !int64_sub_l.
    replace (js_pmcount js + 1 - 1) with (js_pmcount js) by lia.
    rewrite (int64_id _ Hrange).
    apply is_ok_false in Hpub.
    repeat split; try assumption. apply Hbal; reflexivity.
  - eexists. split; [reflexivity|].
    cbn [pr_status pr_msg pr_destroyed pr_js].
    unfold set_pm, set_pmcount. cbn [js_pm js_pmcount].
    rewrite (int64_succ_pred _ Hrange).
    repeat split; try discriminate. apply Hbal; reflexivity.
Qed.

(** X9: a publish refused by the connection after its ack was already
    processed is a success.  When the entry of the token is no longer in
    the map once the connection has failed, the call returns [NATS_OK]
    whatever the failure, the library keeps the message, and the publisher
    does not lower the pending count a second time: the count is the
    incremented one plus what the other threads (the ack handler) did. *)
Theorem publishMsgAsync_ack_raced
    (env : pub_env) (pub : natsStatus) (during : interference)
    (js : jsCtx) (msg : natsMsgPtr) (e : errSlot)
    (p : string) (h : gmap string natsMsgPtr) :
  let token := token_digits jsReplyTokenSize (pe_rand env) in
  js_rsub js = true ->
  js_rpre js = Some p -> (jsReplyPrefixLen pre <= String.length p)%nat ->
  js_pm js = Some h ->
  (0 <? MaxPending (PublishAsync (js_opts js)))
  && (MaxPending (PublishAsync (js_opts js)) <? int64 (js_pmcount js + 1)) = false ->
  h !! token = None ->
  pe_set_ok env = true ->
  pub <> NATS_OK ->
  i_pm during (<[token := msg]> h) !! token = None ->
  exists r,
    js_PublishMsgAsync_body pre env NATS_OK pub during js msg e = Some r /\
    pr_status r = NATS_OK /\ pr_msg r = None /\ pr_destroyed r = [] /\
    js_pm (pr_js r) = Some (i_pm during (<[token := msg]> h)) /\
    js_pmcount (pr_js r) = int64 (js_pmcount js + 1 + i_pmcount during).
Proof.
  intros token Hrsub Hrpre Hlen Hpm Hns Hfresh Hset Hpub Hgone.
  rewrite (publishMsgAsync_fresh_unfold env NATS_OK pub during js msg e p h
             Hrsub Hrpre Hlen Hpm Hns Hfresh eq_refl).
  fold token. rewrite Hset. apply is_ok_false in Hpub. rewrite Hpub.
  unfold interfere, set_pm, set_pmcount.
  cbn [js_pm js_pmcount fmap option_fmap option_map default from_option id].
  rewrite Hgone. eexists. split; [reflexivity|].
  cbn [pr_status pr_msg pr_destroyed pr_js js_pm js_pmcount].
  rewrite (delete_id _ _ Hgone), int64_add_l.
  repeat split.
Qed.

End PublishFacts.

Lemma publishMsgAsync_registers_witness :
  exists r,
    js_PublishMsgAsync_body 7 fresh_env NATS_OK NATS_OK no_interference
      collide_ctx 5%nat None = Some r /\
    pr_status r = NATS_OK /\ js_pmcount (pr_js r) = 2 /\
    pr_sent r = [("_INBOX.abcdefgh.7D300000", 5%nat)].
Proof.
  assert (H1 : (jsReplyPrefixLen 7 <= String.length "_INBOX.abcdefgh.")%nat)
    by (vm_compute; lia).
  assert (H2 : in_int64 (js_pmcount collide_ctx + 1)) by (unfold in_int64; cbn; lia).
  assert (H3 : (<["AAAAAAAA" := 1%nat]> (∅ : gmap string natsMsgPtr))
               !! token_digits jsReplyTokenSize (pe_rand fresh_env) = None)
    by (vm_compute; reflexivity).
  pose proof (publishMsgAsync_registers 7 fresh_env no_interference collide_ctx 5%nat
                None "_INBOX.abcdefgh." (<["AAAAAAAA" := 1%nat]> ∅) eq_refl eq_refl
                H1 eq_refl eq_refl H2 H3 eq_refl) as H.
  destruct H as (r & Hr & Hs & _ & Hsent & _ & _ & _ & _ & Hc & _).
  exists r. split; [exact Hr|]. split; [exact Hs|]. split; [exact Hc | exact Hsent].
Defined.

Lemma publishMsgAsync_failure_restores_witness :
  exists r,
    js_PublishMsgAsync_body 7 fresh_env NATS_OK NATS_ERR no_interference
      collide_ctx 5%nat None = Some r /\
    pr_status r = NATS_ERR /\ pr_msg r = Some 5%nat /\
    js_pmcount (pr_js r) = 1 /\ js_pm (pr_js r) = js_pm collide_ctx.
Proof.
  assert (H1 : (jsReplyPrefixLen 7 <= String.length "_INBOX.abcdefgh.")%nat)
    by (vm_compute; lia).
  assert (H2 : in_int64 (js_pmcount collide_ctx)) by (unfold in_int64; cbn; lia).
  assert (H3 : (<["AAAAAAAA" := 1%nat]> (∅ : gmap string natsMsgPtr))
               !! token_digits jsReplyTokenSize (pe_rand fresh_env) = None)
    by (vm_compute; reflexivity).
  assert (H4 : pe_set_ok fresh_env = false \/ NATS_ERR <> NATS_OK)
    by (right; discriminate).
  pose proof (publishMsgAsync_failure_restores 7 fresh_env NATS_ERR collide_ctx 5%nat
                None "_INBOX.abcdefgh." (<["AAAAAAAA" := 1%nat]> ∅) eq_refl eq_refl
                H1 eq_refl eq_refl H2 H3 H4) as H.
  destruct H as (r & Hr & Hs & _ & Hm & _ & Hpm & Hc & _).
  exists r. split; [exact Hr|]. split; [exact Hs|]. split; [exact Hm|].
  split; [exact Hc | exact Hpm].
Defined.

Lemma publishMsgAsync_ack_raced_witness :
  exists r,
    js_PublishMsgAsync_body 7 fresh_env NATS_OK NATS_ERR (ack_of "7D300000")
      collide_ctx 5%nat None = Some r /\
    pr_status r = NATS_OK /\ pr_msg r = None /\ js_pmcount (pr_js r) = 1.
Proof.
  assert (H1 : (jsReplyPrefixLen 7 <= String.length "_INBOX.abcdefgh.")%nat)
    by (vm_compute; lia).
  assert (H3 : (<["AAAAAAAA" := 1%nat]> (∅ : gmap string natsMsgPtr))
               !! token_digits jsReplyTokenSize (pe_rand fresh_env) = None)
    by (vm_compute; reflexivity).
  assert (H4 : NATS_ERR <> NATS_OK) by discriminate.
  assert (H5 : i_pm (ack_of "7D300000")
                 (<[token_digits jsReplyTokenSize (pe_rand fresh_env) := 5%nat]>
                    (<["AAAAAAAA" := 1%nat]> (∅ : gmap string natsMsgPtr)))
               !! token_digits jsReplyTokenSize (pe_rand fresh_env) = None)
    by (vm_compute; reflexivity).
  pose proof (publishMsgAsync_ack_raced 7 fresh_env NATS_ERR (ack_of "7D300000")
                collide_ctx 5%nat None "_INBOX.abcdefgh." (<["AAAAAAAA" := 1%nat]> ∅)
                eq_refl eq_refl H1 eq_refl eq_refl H3 eq_refl H4 H5) as H.
  destruct H as (r & Hr & Hs & Hm & _ & _ & Hc).
  exists r. split; [exact Hr|]. split; [exact Hs|]. split; [exact Hm | exact Hc].
Defined.

(** ** A publish and its ack *)

(** X10: an asynchronous publish followed by its ack leaves the context
    exactly as it was, on a context whose reply subscription is already in
    place and for a token that was not already in the inflight map.  When
    the publisher has not to stall, the pending count fits in an [int64],
    the entry can be stored and the connection takes the message, the
    message is registered and sent with a reply subject; when a reply then
    arrives on that subject, and no error handler is set or the reply
    reports no error, the handler finds the message under the token of the
    subject, removes it and lowers the count, which gives back the context
    of before the publish; the published message is destroyed then, once,
    followed by the reply.  Nothing is said here of a first publish, which
    creates the reply subscription and takes a reference on the context,
    nor of a token already in the map. *)
Theorem publish_then_ack_restores
    (pre : nat) (isErr : jsApiResponse -> bool) (getText : natsStatus -> string)
    (handler : jsPubAckErr -> option natsMsgPtr) (during during' : interference)
    (env : pub_env) (js : jsCtx) (msg : natsMsgPtr) (e : errSlot)
    (p : string) (h : gmap string natsMsgPtr) (m : ack_msg) :
  let token := token_digits jsReplyTokenSize (pe_rand env) in
  let reply := str_take (jsReplyPrefixLen pre) p ++ token in
  js_rsub js = true ->
  js_rpre js = Some p -> (jsReplyPrefixLen pre <= String.length p)%nat ->
  js_pm js = Some h ->
  (0 <? MaxPending (PublishAsync (js_opts js)))
  && (MaxPending (PublishAsync (js_opts js)) <? int64 (js_pmcount js + 1)) = false ->
  in_int64 (js_pmcount js) ->
  h !! token = None ->
  pe_set_ok env = true ->
  am_subject m = Some reply ->
  (ErrHandler (PublishAsync (js_opts js)) = false
   \/ exists code txt, classify isErr getText m = Some (NATS_OK, code, txt)) ->
  exists r r',
    js_PublishMsgAsync_body pre env NATS_OK NATS_OK during js msg e = Some r /\
    pr_sent r = [(reply, msg)] /\ pr_destroyed r = [] /\
    _handleAsyncReply pre isErr getText handler during' (pr_js r) m = Some r' /\
    hr_js r' = js /\ hr_handled r' = None /\
    hr_destroyed r' = [msg; am_ptr m].
Proof.
  intros token reply Hrsub Hrpre Hlen Hpm Hns Hrange Hfresh Hset Hsub Hquiet.
  rewrite (publishMsgAsync_fresh_unfold pre env NATS_OK NATS_OK during js msg e p h
             Hrsub Hrpre Hlen Hpm Hns Hfresh eq_refl).
  rewrite Hset. cbn [is_ok]. fold token. fold reply.
  set (js2 := set_pm (set_pmcount js (int64 (js_pmcount js + 1)))
                     (Some (<[token := msg]> h))).
  assert (Hlen' : (jsReplyPrefixLen pre < String.length reply)%nat).
  { unfold reply. rewrite string_length_app, (str_take_length _ _ Hlen).
    unfold token. rewrite token_digits_length. unfold jsReplyTokenSize. lia. }
  assert (Hid : reply_id pre reply = token) by apply reply_id_token, Hlen.
  assert (Hk : <[token := msg]> h !! reply_id pre reply = Some msg)
    by (rewrite Hid; apply lookup_insert_eq).
  eexists. eexists. split; [reflexivity|].
  cbn [pr_sent pr_destroyed pr_js].
  split; [reflexivity|]. split; [reflexivity|].
  rewrite (handleAsyncReply_matched pre isErr getText handler during' js2 m reply
             (<[token := msg]> h) msg Hsub Hlen' eq_refl Hk).
  cbv zeta. rewrite Hid, (delete_insert_id h token msg Hfresh).
  assert (Hback : forall maxp,
            hr_js (ack_finish maxp m (set_pm js2 (Some h)) None (Some msg)) = js).
  { intros maxp. unfold ack_finish, js2, set_pm, set_pmcount.
    cbn [hr_js js_opts js_refs js_cond js_pm js_rsub js_rpre js_pacw js_pmcount
         js_stalled js_freed].
    rewrite (int64_succ_pred _ Hrange). rewrite <- Hpm. destruct js; reflexivity. }
  change (js_opts js2) with (js_opts js).
  destruct Hquiet as [-> | (code & txt & ->)].
  - split; [reflexivity|]. split; [apply Hback|]. split; reflexivity.
  - destruct (ErrHandler (PublishAsync (js_opts js))); cbn [is_ok negb];
      (split; [reflexivity|]; split; [apply Hback|]; split; reflexivity).
Qed.

Lemma publish_then_ack_restores_witness :
  exists r r',
    js_PublishMsgAsync_body 7 fresh_env NATS_OK NATS_OK no_interference
      collide_ctx 5%nat None = Some r /\
    _handleAsyncReply 7 sample_isErr sample_text handler_keeps no_interference
      (pr_js r) (mkAckMsg 9%nat (Some "_INBOX.abcdefgh.7D300000") false json_ok)
    = Some r' /\
    hr_js r' = collide_ctx /\ hr_destroyed r' = [5%nat; 9%nat].
Proof.
  destruct (publish_then_ack_restores 7 sample_isErr sample_text handler_keeps
              no_interference no_interference fresh_env collide_ctx 5%nat None
              "_INBOX.abcdefgh." (<["AAAAAAAA" := 1%nat]> ∅)
              (mkAckMsg 9%nat (Some "_INBOX.abcdefgh.7D300000") false json_ok)
              eq_refl eq_refl ltac:(vm_compute; lia) eq_refl eq_refl
              ltac:(unfold in_int64; cbn; lia) ltac:(vm_compute; reflexivity)
              eq_refl eq_refl (or_introl eq_refl))
    as (r & r' & Hr & _ & _ & Hr' & Hjs & _ & Hd).
  exists r, r'. split; [exact Hr|]. split; [exact Hr'|]. split; [exact Hjs | exact Hd].
Defined.

(** ** A stall that ends in time *)

Lemma stall_wait_released maxp target ws : forall js,
  maxp < js_pmcount js ->
  released_by maxp target (js_pmcount js) ws ->
  stall_wait maxp target ws NATS_OK js = Some (NATS_OK, interfere_all ws js).
Proof.
  induction ws as [|w ws IH]; intros js Hgt Hs; [destruct Hs|].
  cbn [stall_wait is_timeout negb andb].
  assert (Hm : (maxp <? js_pmcount js) = true) by (apply Z.ltb_lt; exact Hgt).
  rewrite Hm. unfold natsCondition_AbsoluteTimedWait.
  destruct Hs as [Hnow Hs].
  assert (Et : (target <=? wk_now w) = false) by (apply Z.leb_gt; exact Hnow).
  rewrite Et.
  change (interfere_all (w :: ws) js) with (interfere_all ws (interfere (wk_by w) js)).
  destruct ws as [|w' ws'].
  - cbn [stall_wait is_timeout negb andb interfere_all fold_left].
    assert (Hle : (maxp <? js_pmcount (interfere (wk_by w) js)) = false)
      by (apply Z.ltb_ge; exact Hs).
    rewrite Hle. reflexivity.
  - destruct Hs as [Hgt' Hs']. apply IH; cbn [interfere js_pmcount]; assumption.
Qed.

(** X11: a stalled publish that is released before its deadline goes
    through.  When the pending count, once incremented, exceeds
    [MaxPending], and a return of the wait that comes before the deadline
    [now + StallWait] finds the count at or below [MaxPending], the call
    succeeds: the message is stored under its token in the map as the other
    threads left it and is handed to the connection, the library takes it,
    and the count is what the others made of it plus one for this publish,
    which is at most [MaxPending]. *)
Theorem publishMsgAsync_stall_released
    (pre : nat) (env : pub_env) (during : interference)
    (js : jsCtx) (msg : natsMsgPtr) (e : errSlot)
    (p : string) (h : gmap string natsMsgPtr) :
  let maxp := MaxPending (PublishAsync (js_opts js)) in
  let target := pe_now env + StallWait (PublishAsync (js_opts js)) in
  let token := token_digits jsReplyTokenSize (pe_rand env) in
  let reply := str_take (jsReplyPrefixLen pre) p ++ token in
  0 < maxp ->
  js_rsub js = true ->
  js_rpre js = Some p -> (jsReplyPrefixLen pre <= String.length p)%nat ->
  js_pm js = Some h ->
  in_int64 (js_pmcount js) ->
  maxp < int64 (js_pmcount js + 1) ->
  released_by maxp target (int64 (js_pmcount js + 1)) (pe_wakes env) ->
  others_map h (pe_wakes env) !! token = None ->
  pe_set_ok env = true ->
  exists r,
    js_PublishMsgAsync_body pre env NATS_OK NATS_OK during js msg e = Some r /\
    pr_status r = NATS_OK /\ pr_msg r = None /\ pr_sent r = [(reply, msg)] /\
    pr_destroyed r = [] /\ pr_err r = e /\
    js_pm (pr_js r) = Some (<[token := msg]> (others_map h (pe_wakes env))) /\
    js_pmcount (pr_js r) = int64 (others_count (js_pmcount js) (pe_wakes env) + 1) /\
    js_pmcount (pr_js r) <= maxp.
Proof.
  intros maxp target token reply Hmax Hrsub Hrpre Hlen Hpm Hrange Hgt Hrel Hfresh Hset.
  unfold js_PublishMsgAsync_body. cbn [is_ok].
  unfold _registerPubMsg, await_slot, _newAsyncReply.
  unfold set_pmcount at 1. cbn [js_rsub]. rewrite Hrsub. cbn [is_ok andb].
  unfold set_pmcount. cbn [js_opts js_pmcount js_rpre js_pm]. fold maxp.
  assert (H0 : (0 <? maxp) = true) by (apply Z.ltb_lt; exact Hmax).
  assert (H1 : (maxp <? int64 (js_pmcount js + 1)) = true)
    by (apply Z.ltb_lt; exact Hgt).
  rewrite H0, H1. cbn [andb].
  unfold nats_setTargetTime. fold target.
  rewrite stall_wait_released;
    [|unfold _retain, set_stalled, set_refs; cbn [js_pmcount]; assumption ..].
  cbn [is_timeout is_ok]. rewrite Hrpre. cbn [default from_option id].
  rewrite (reply_id_token pre p _ Hlen). fold token. fold reply.
  set (jsw := interfere_all (pe_wakes env) _).
  assert (Hpmw : js_pm jsw = Some (others_map h (pe_wakes env))).
  { unfold jsw. rewrite interfere_all_pm.
    unfold _retain, set_stalled, set_refs. cbn [js_pm]. rewrite Hpm. reflexivity. }
  assert (Hcw : js_pmcount jsw = int64 (others_count (js_pmcount js) (pe_wakes env) + 1)).
  { unfold jsw. rewrite interfere_all_pmcount.
    unfold _retain, set_stalled, set_refs. cbn [js_pmcount].
    apply others_count_succ. }
  assert (Hle : js_pmcount jsw <= maxp).
  { unfold jsw. rewrite interfere_all_pmcount.
    unfold _retain, set_stalled, set_refs. cbn [js_pmcount].
    clear - Hrel. revert Hrel. generalize (int64 (js_pmcount js + 1)).
    induction (pe_wakes env) as [|w ws IH]; intros c Hrel; [destruct Hrel|].
    destruct Hrel as [_ Hrel]. rewrite others_count_cons.
    destruct ws as [|w' ws']; [exact Hrel|].
    destruct Hrel as [_ Hrel]. apply IH, Hrel. }
  clearbody jsw.
  unfold natsStrHash_Set, set_stalled. cbn [js_pm]. rewrite Hpmw.
  cbn [default from_option id]. rewrite Hfresh, Hset. cbn [is_ok].
  unfold js_unlockAndRelease, set_freed, set_refs, set_pm.
  cbn [js_opts js_refs js_cond js_pm js_rsub js_rpre js_pacw js_pmcount js_stalled
       js_freed].
  rewrite Hcw in *.
  destruct (int32 (js_refs jsw - 1) =? 0);
    (eexists; split; [reflexivity|];
     cbn [pr_status pr_msg pr_sent pr_destroyed pr_err pr_js rr_status rr_js
          rr_reply rr_err js_pm js_pmcount default from_option id is_ok];
     repeat split; exact Hle).
Qed.

Lemma publishMsgAsync_stall_released_witness :
  exists r,
    js_PublishMsgAsync_body 7 release_env NATS_OK NATS_OK no_interference
      stall_ctx 3%nat None = Some r /\
    pr_status r = NATS_OK /\ pr_msg r = None /\ js_pmcount (pr_js r) = 2.
Proof.
  destruct (publishMsgAsync_stall_released 7 release_env no_interference stall_ctx
              3%nat None "_INBOX.abcdefgh."
              (<["AAAAAAAA" := 1%nat]> (<["BBBBBBBB" := 2%nat]> ∅))
              ltac:(vm_compute; reflexivity) eq_refl eq_refl ltac:(vm_compute; lia)
              eq_refl ltac:(unfold in_int64; cbn; lia)
              ltac:(vm_compute; reflexivity)
              ltac:(split; [vm_compute; reflexivity | vm_compute; discriminate])
              ltac:(vm_compute; reflexivity) eq_refl)
    as (r & Hr & Hs & Hm & _ & _ & _ & _ & Hc & _).
  exists r. split; [exact Hr|]. split; [exact Hs|]. split; [exact Hm | exact Hc].
Defined.

(** ** The life of a context *)

Lemma destroy_entries_drain entries : forall h c msgs,
  destroy_entries entries h msgs
  = ((drain_entries entries h c msgs).1.1, (drain_entries entries h c msgs).2).
Proof.
  induction entries as [|[k v] rest IH]; intros h c msgs; cbn [destroy_entries drain_entries].
  - reflexivity.
  - apply IH.
Qed.

Lemma destroy_entries_all h :
  destroy_entries (map_to_list h) h [] = (∅, (map_to_list h).*2).
Proof.
  rewrite (destroy_entries_drain _ h 0 []).
  rewrite drain_entries_msgs, drain_entries_map; [reflexivity|].
  intros k [v Hk]. apply list_elem_of_fmap. exists (k, v). split; [reflexivity|].
  apply elem_of_map_to_list, Hk.
Qed.

(** X12: [jsCtx_Destroy] gives up everything that is in flight.  Every
    message of the inflight map is destroyed, once, in the order of the
    map's iterator, and the map is left empty; the reply subscription is
    destroyed when there is one and forgotten; one reference is dropped,
    and the context is freed exactly when that was the last one.  The
    pending count is not touched: it still counts the messages that were
    destroyed. *)
Theorem jsCtx_Destroy_drops_inflight (js : jsCtx) :
  exists js',
    jsCtx_Destroy (Some js) = (Some js', js_rsub js, inflight_msgs js) /\
    js_pm js' = (fun _ => ∅) <$> js_pm js /\
    inflight_msgs js' = [] /\
    js_rsub js' = false /\
    js_pmcount js' = js_pmcount js /\
    js_refs js' = int32 (js_refs js - 1) /\
    js_freed js' = js_freed js || (int32 (js_refs js - 1) =? 0).
Proof.
  unfold jsCtx_Destroy.
  set (js0 := if js_rsub js then set_rsub js false else js).
  assert (H0 : js_pm js0 = js_pm js /\ js_rsub js0 = false
               /\ js_pmcount js0 = js_pmcount js /\ js_refs js0 = js_refs js
               /\ js_freed js0 = js_freed js).
  { unfold js0. destruct (js_rsub js) eqn:E; cbn; repeat split; assumption. }
  destruct H0 as (Hpm & Hrsub & Hc & Hrefs & Hfreed). clearbody js0.
  assert (Hrel : forall j, js_pm (js_unlockAndRelease j) = js_pm j
                      /\ js_rsub (js_unlockAndRelease j) = js_rsub j
                      /\ js_pmcount (js_unlockAndRelease j) = js_pmcount j
                      /\ js_refs (js_unlockAndRelease j) = int32 (js_refs j - 1)
                      /\ js_freed (js_unlockAndRelease j)
                         = js_freed j || (int32 (js_refs j - 1) =? 0)).
  { intros j. unfold js_unlockAndRelease, set_refs. cbn [js_refs].
    destruct (int32 (js_refs j - 1) =? 0); cbn; repeat split;
      rewrite ?orb_true_r, ?orb_false_r; reflexivity. }
  unfold inflight_msgs. rewrite Hpm.
  destruct (js_pm js) as [h|] eqn:Eh.
  - destruct (0 <? natsStrHash_Count h) eqn:Ec.
    + rewrite destroy_entries_all.
      eexists. split; [reflexivity|].
      destruct (Hrel (set_pm js0 (Some ∅))) as (-> & -> & -> & -> & ->).
      cbn [set_pm js_pm js_rsub js_pmcount js_refs js_freed fmap option_fmap
           option_map default from_option id].
      rewrite map_to_list_empty, Hrefs, Hfreed.
      repeat split; assumption.
    + apply Z.ltb_ge in Ec. unfold natsStrHash_Count in Ec.
      assert (Hh : h = ∅) by (apply map_size_empty_iff; lia). subst h.
      eexists. split; [cbn [default from_option id]; rewrite map_to_list_empty;
                       reflexivity|].
      destruct (Hrel js0) as (-> & -> & -> & -> & ->).
      rewrite Hpm, Hrefs, Hfreed.
      cbn [fmap option_fmap option_map default from_option id].
      rewrite map_to_list_empty. repeat split; assumption.
  - eexists. split; [reflexivity|].
    destruct (Hrel js0) as (-> & -> & -> & -> & ->).
    rewrite Hpm, Hrefs, Hfreed.
    cbn [fmap option_fmap option_map default from_option id].
    rewrite map_to_list_empty. repeat split; assumption.
Qed.

Lemma last_char_app_dot p : last_char (p ++ ".") = Some "."%char.
Proof.
  induction p as [|c p IH]; [reflexivity|].
  change (String c p ++ ".") with (String c (p ++ ".")).
  cbn [last_char]. destruct (p ++ ".") eqn:E; [|exact IH].
  destruct p; discriminate.
Qed.

Lemma str_take_app a b : str_take (String.length a) (a ++ b) = a.
Proof.
  induction a as [|c a IH]; [destruct b; reflexivity|].
  change (String c a ++ b) with (String c (a ++ b)).
  cbn [String.length str_take]. now f_equal.
Qed.

Lemma without_trailing_dot_app p : without_trailing_dot (p ++ ".") = Some p.
Proof.
  unfold without_trailing_dot, js_lenWithoutTrailingDot.
  rewrite last_char_app_dot. cbn [Ascii.eqb Bool.eqb fmap option_fmap option_map].
  rewrite string_length_app. change (String.length ".") with 1%nat.
  replace (String.length p + 1 - 1)%nat with (String.length p) by lia.
  now rewrite str_take_app.
Qed.

Lemma without_trailing_dot_id p : no_trailing_dot p -> without_trailing_dot p = Some p.
Proof.
  intros (c & Hl & Hc). unfold without_trailing_dot, js_lenWithoutTrailingDot.
  rewrite Hl. destruct (Ascii.eqb c ".") eqn:E; [apply Ascii.eqb_eq in E; contradiction|].
  cbn [fmap option_fmap option_map]. now rewrite str_take_all.
Qed.

Lemma isStringEmpty_app_dot p : nats_IsStringEmpty (Some (p ++ ".")) = false.
Proof. destruct p; reflexivity. Qed.

Lemma isStringEmpty_no_trailing_dot p :
  no_trailing_dot p -> nats_IsStringEmpty (Some p) = false.
Proof. intros (c & Hl & _). destruct p; [discriminate|reflexivity]. Qed.

(** X13: a trailing dot in the prefix or in the domain makes no
    difference to [natsConnection_JetStream]: for a prefix (or a domain)
    that is not empty and does not end with a dot, the call gives the same
    result whether or not one dot is appended to it. *)
Theorem natsConnection_JetStream_trailing_dot
    (env : new_env) (a b : bool) (o : jsOptionsArg) (e : errSlot) (p : string) :
  no_trailing_dot p ->
  natsConnection_JetStream env a b (Some (with_Prefix o (Some (p ++ ".")))) e
  = natsConnection_JetStream env a b (Some (with_Prefix o (Some p))) e
  /\ natsConnection_JetStream env a b (Some (with_Domain o (Some (p ++ ".")))) e
     = natsConnection_JetStream env a b (Some (with_Domain o (Some p))) e.
Proof.
  intros Hp.
  pose proof (isStringEmpty_no_trailing_dot p Hp) as Hne.
  unfold natsConnection_JetStream, with_Prefix, with_Domain, domain_prefix.
  cbn [oa_opts oa_stream Prefix Domain Wait PublishAsync default from_option id].
  rewrite !isStringEmpty_app_dot, !Hne, !without_trailing_dot_app,
    !(without_trailing_dot_id p Hp).
  split; reflexivity.
Qed.

Lemma natsConnection_JetStream_trailing_dot_witness :
  natsConnection_JetStream quiet_new true true (Some sample_opts) None
  = natsConnection_JetStream quiet_new true true
      (Some (with_Prefix sample_opts (Some "$JS.hub.API"))) None.
Proof.
  refine (proj1 (natsConnection_JetStream_trailing_dot quiet_new true true sample_opts
                   None "$JS.hub.API" _)).
  exists "I"%char. split; [reflexivity | discriminate].
Defined.

(** The context created on success. *)
Lemma natsConnection_JetStream_ok env a b opts e r js st :
  natsConnection_JetStream env a b opts e = Some r ->
  nr_js r = Some (js, st) ->
  nr_status r = NATS_OK /\ nr_conn r = 1 /\ nr_dropped r = None /\ nr_err r = e /\
  exists pfx,
    js = mkCtx (mkOptions (Some pfx) None
                  (match opts with
                   | Some o => if Wait (oa_opts o) =? 0 then jsDefaultRequestWait
                               else Wait (oa_opts o)
                   | None => jsDefaultRequestWait
                   end)
                  (match opts with
                   | Some o =>
                       mkPublishAsync (MaxPending (PublishAsync (oa_opts o)))
                         (ErrHandler (PublishAsync (oa_opts o)))
                         (if StallWait (PublishAsync (oa_opts o)) =? 0
                          then jsDefaultStallWait
                          else StallWait (PublishAsync (oa_opts o)))
                   | None => mkPublishAsync 0 false jsDefaultStallWait
                   end))
               1 false None false None 0 0 0 false /\
    match opts with
    | Some o => 0 <= Wait (oa_opts o) /\ 0 <= StallWait (PublishAsync (oa_opts o))
    | None => pfx = jsDefaultAPIPrefix
    end.
Proof.
  unfold natsConnection_JetStream.
  destruct (negb a || negb b); [intros [= <-]; discriminate|].
  destruct opts as [o|].
  - destruct (Wait (oa_opts o) <? 0) eqn:Ew; [intros [= <-]; discriminate|].
    destruct (StallWait (PublishAsync (oa_opts o)) <? 0) eqn:Es;
      [intros [= <-]; discriminate|].
    apply Z.ltb_ge in Ew, Es.
    destruct (negb (ne_calloc env)); [intros [= <-]; discriminate|].
    destruct (negb (is_ok (ne_mutex env))); [discriminate|].
    match goal with |- context [match ?w with Some _ => _ | None => None end] =>
      destruct w as [pfx|] end; [|discriminate].
    destruct (ne_prefix env); cbn [is_ok nats_setDefaultError nats_setError];
      [|intros [= <-]; discriminate].
    unfold _copyPurgeOptions.
    destruct (negb (nats_IsStringEmpty (Purge_Subject (Stream_Purge (oa_stream o)))));
      [destruct (ne_subject env)|];
      cbn [is_ok nats_setDefaultError nats_setError fst snd];
      intros [= <-]; try discriminate;
      cbn [nr_js nr_status nr_conn nr_dropped nr_err]; intros [= <- <-];
      (split; [reflexivity|]; split; [reflexivity|]; split; [reflexivity|];
       split; [reflexivity|]; exists pfx; split; [reflexivity|]; split; assumption).
  - destruct (negb (ne_calloc env)); [intros [= <-]; discriminate|].
    destruct (negb (is_ok (ne_mutex env))); [discriminate|].
    destruct (ne_prefix env); cbn [is_ok nats_setDefaultError nats_setError];
      [|intros [= <-]; discriminate].
    intros [= <-]. cbn [nr_js nr_status nr_conn nr_dropped nr_err]. intros [= <- <-].
    repeat split. exists jsDefaultAPIPrefix. split; reflexivity.
Qed.

(** X14: the context returned by [natsConnection_JetStream] is ready for
    use and holds nothing yet.  It has one reference, is not freed, has no
    reply subscription, no inflight map and a pending count of zero; its
    prefix is set; its [Wait] and its [StallWait] are positive, the values
    given when they are not zero and 5000 and 200 milliseconds otherwise.
    The connection is retained once. *)
Theorem natsConnection_JetStream_defaults
    (env : new_env) (a b : bool) (opts : option jsOptionsArg) (e : errSlot)
    (r : new_result) (js : jsCtx) (st : jsOptionsStream) :
  natsConnection_JetStream env a b opts e = Some r ->
  nr_js r = Some (js, st) ->
  nr_status r = NATS_OK /\ nr_conn r = 1 /\
  js_refs js = 1 /\ js_freed js = false /\ js_rsub js = false /\
  js_pm js = None /\ js_pmcount js = 0 /\ js_stalled js = 0 /\ js_pacw js = 0 /\
  is_Some (Prefix (js_opts js)) /\
  0 < Wait (js_opts js) /\ 0 < StallWait (PublishAsync (js_opts js)) /\
  Wait (js_opts js)
  = (match opts with
     | Some o => if Wait (oa_opts o) =? 0 then 5000 else Wait (oa_opts o)
     | None => 5000
     end) /\
  StallWait (PublishAsync (js_opts js))
  = (match opts with
     | Some o => if StallWait (PublishAsync (oa_opts o)) =? 0 then 200
                 else StallWait (PublishAsync (oa_opts o))
     | None => 200
     end).
Proof.
  intros Hrun Hjs.
  destruct (natsConnection_JetStream_ok env a b opts e r js st Hrun Hjs)
    as (Hs & Hc & _ & _ & pfx & -> & Hopts).
  cbn [js_refs js_freed js_rsub js_pm js_pmcount js_stalled js_pacw js_opts Prefix
       Wait PublishAsync StallWait].
  repeat (split; [first [assumption | reflexivity | eexists; reflexivity]|]).
  unfold jsDefaultRequestWait, jsDefaultStallWait.
  destruct opts as [o|]; cbn [StallWait].
  - destruct Hopts as [H1 H2].
    destruct (Wait (oa_opts o) =? 0) eqn:E1;
      destruct (StallWait (PublishAsync (oa_opts o)) =? 0) eqn:E2;
      try apply Z.eqb_neq in E1; try apply Z.eqb_neq in E2;
      repeat split; lia.
  - repeat split; lia.
Qed.

Lemma natsConnection_JetStream_defaults_witness :
  natsConnection_JetStream quiet_new true true (Some sample_opts) None
  = Some (mkNewResult NATS_OK (Some (sample_created, stream_zero)) None 1 None) /\
  Wait (js_opts sample_created) = 5000.
Proof.
  split; [vm_compute; reflexivity|].
  refine (proj1 (proj2 (proj2 (proj2 (proj2 (proj2 (proj2 (proj2 (proj2 (proj2
           (proj2 (proj2 (proj2
             (natsConnection_JetStream_defaults quiet_new true true (Some sample_opts)
                None _ sample_created stream_zero _ _)))))))))))))); reflexivity.
Defined.

Lemma natsConnection_JetStream_rejects env a b opts e :
  (a = false \/ b = false
   \/ (exists o, opts = Some o
        /\ (Wait (oa_opts o) < 0 \/ StallWait (PublishAsync (oa_opts o)) < 0))) ->
  exists e',
    natsConnection_JetStream env a b opts e
    = Some (mkNewResult NATS_INVALID_ARG None None 0 e').
Proof.
  unfold natsConnection_JetStream. intros H.
  destruct (negb a || negb b) eqn:Eab; [eexists; reflexivity|].
  destruct a, b; try discriminate Eab.
  destruct H as [H | [H | (o & -> & H)]]; try discriminate H.
  destruct (Wait (oa_opts o) <? 0) eqn:Ew; [eexists; reflexivity|].
  destruct (StallWait (PublishAsync (oa_opts o)) <? 0) eqn:Es; [eexists; reflexivity|].
  apply Z.ltb_ge in Ew, Es. lia.
Qed.

(** A string that is not empty can be printed without its trailing dot. *)
Lemma last_char_cons c s : is_Some (last_char (String c s)).
Proof.
  revert c. induction s as [|c' s IH]; intros c; [cbn; eauto|].
  change (last_char (String c (String c' s))) with (last_char (String c' s)).
  apply IH.
Qed.

Lemma without_trailing_dot_some s :
  nats_IsStringEmpty s = false ->
  is_Some (without_trailing_dot (default EmptyString s)).
Proof.
  destruct s as [[|c s]|]; try discriminate. intros _.
  cbn [default from_option id]. unfold without_trailing_dot, js_lenWithoutTrailingDot.
  destruct (last_char_cons c s) as [c' ->].
  destruct (Ascii.eqb c' "."); cbn; eauto.
Qed.

Lemma domain_prefix_some s :
  nats_IsStringEmpty s = false ->
  exists d, without_trailing_dot (default EmptyString s) = Some d /\
            domain_prefix (default EmptyString s) = Some ("$JS." ++ d ++ ".API").
Proof.
  intros H. destruct (without_trailing_dot_some s H) as [d Hd].
  exists d. split; [exact Hd|]. unfold domain_prefix. rewrite Hd. reflexivity.
Qed.

(** [natsConnection_JetStream] has an outcome unless the mutex cannot be
    created. *)
Lemma natsConnection_JetStream_undefined env a b opts e :
  natsConnection_JetStream env a b opts e = None <->
  a = true /\ b = true /\
  (forall o, opts = Some o ->
     0 <= Wait (oa_opts o) /\ 0 <= StallWait (PublishAsync (oa_opts o))) /\
  ne_calloc env = true /\ ne_mutex env <> NATS_OK.
Proof.
  unfold natsConnection_JetStream.
  destruct a, b; cbn [negb orb];
    try (split; [discriminate | intros (? & ? & _); discriminate]).
  destruct opts as [o|].
  - destruct (Wait (oa_opts o) <? 0) eqn:Ew.
    { apply Z.ltb_lt in Ew. split; [discriminate|].
      intros (_ & _ & H & _). destruct (H o eq_refl). lia. }
    destruct (StallWait (PublishAsync (oa_opts o)) <? 0) eqn:Es.
    { apply Z.ltb_lt in Es. split; [discriminate|].
      intros (_ & _ & H & _). destruct (H o eq_refl). lia. }
    apply Z.ltb_ge in Ew, Es.
    destruct (ne_calloc env); cbn [negb];
      [|split; [discriminate | intros (_ & _ & _ & ? & _); discriminate]].
    destruct (is_ok (ne_mutex env)) eqn:Em; cbn [negb].
    + apply is_ok_true in Em. split; [|intros (_ & _ & _ & _ & H); contradiction].
      intros H. exfalso. revert H.
      destruct (nats_IsStringEmpty (Domain (oa_opts o))) eqn:Ed; cbn [negb].
      * destruct (nats_IsStringEmpty (Prefix (oa_opts o))) eqn:Ep.
        -- unfold _copyPurgeOptions.
           destruct (ne_prefix env); cbn [is_ok nats_setDefaultError nats_setError];
             [destruct (negb (nats_IsStringEmpty
                                (Purge_Subject (Stream_Purge (oa_stream o)))));
              [destruct (ne_subject env)|]|];
             cbn [is_ok nats_setDefaultError nats_setError fst snd]; discriminate.
        -- destruct (without_trailing_dot_some _ Ep) as [x ->].
           unfold _copyPurgeOptions.
           destruct (ne_prefix env); cbn [is_ok nats_setDefaultError nats_setError];
             [destruct (negb (nats_IsStringEmpty
                                (Purge_Subject (Stream_Purge (oa_stream o)))));
              [destruct (ne_subject env)|]|];
             cbn [is_ok nats_setDefaultError nats_setError fst snd]; discriminate.
      * destruct (domain_prefix_some _ Ed) as (d & _ & ->).
        unfold _copyPurgeOptions.
        destruct (ne_prefix env); cbn [is_ok nats_setDefaultError nats_setError];
          [destruct (negb (nats_IsStringEmpty
                             (Purge_Subject (Stream_Purge (oa_stream o)))));
           [destruct (ne_subject env)|]|];
          cbn [is_ok nats_setDefaultError nats_setError fst snd]; discriminate.
    + apply is_ok_false in Em. split; [intros _|reflexivity].
      split; [reflexivity|]. split; [reflexivity|].
      split; [intros o' [= <-]; lia|]. split; [reflexivity|exact Em].
  - destruct (ne_calloc env); cbn [negb];
      [|split; [discriminate | intros (_ & _ & _ & ? & _); discriminate]].
    destruct (is_ok (ne_mutex env)) eqn:Em; cbn [negb].
    + apply is_ok_true in Em. split; [|intros (_ & _ & _ & _ & H); contradiction].
      destruct (ne_prefix env); cbn [is_ok nats_setDefaultError nats_setError];
        discriminate.
    + apply is_ok_false in Em. split; [intros _|reflexivity].
      split; [reflexivity|]. split; [reflexivity|].
      split; [intros o' [=]|]. split; [reflexivity|exact Em].
Qed.

(** X15: [natsConnection_JetStream] leaves no reference to the connection
    behind, on every path but one.  The call has an outcome in every case
    except when, with valid arguments and the context allocated,
    [natsMutex_Create] fails: the context is then given to [jsCtx_Destroy]
    without a mutex, which locks it, and nothing is said of that path.  In
    every other case a context is returned exactly when the status is
    [NATS_OK], and the connection is then retained once; on a failure the
    count of the connection is back to what it was, and a context that had
    been allocated has been freed.  Invalid arguments (a NULL pointer, a
    negative [Wait] or [StallWait]) are refused with [NATS_INVALID_ARG]
    before anything is allocated or retained. *)
Theorem natsConnection_JetStream_no_leak
    (env : new_env) (a b : bool) (opts : option jsOptionsArg) (e : errSlot) :
  (natsConnection_JetStream env a b opts e = None <->
   a = true /\ b = true /\
   (forall o, opts = Some o ->
      0 <= Wait (oa_opts o) /\ 0 <= StallWait (PublishAsync (oa_opts o))) /\
   ne_calloc env = true /\ ne_mutex env <> NATS_OK) /\
  (forall r,
     natsConnection_JetStream env a b opts e = Some r ->
     (nr_status r = NATS_OK <-> is_Some (nr_js r)) /\
     nr_conn r = (if is_ok (nr_status r) then 1 else 0) /\
     (forall j, nr_dropped r = Some j -> js_freed j = true /\ nr_js r = None) /\
     (nr_status r <> NATS_OK -> ne_calloc env = true -> a = true -> b = true ->
      (forall o, opts = Some o ->
         0 <= Wait (oa_opts o) /\ 0 <= StallWait (PublishAsync (oa_opts o))) ->
      exists j, nr_dropped r = Some j)) /\
  ((a = false \/ b = false
    \/ (exists o, opts = Some o
         /\ (Wait (oa_opts o) < 0 \/ StallWait (PublishAsync (oa_opts o)) < 0))) ->
   exists e',
     natsConnection_JetStream env a b opts e
     = Some (mkNewResult NATS_INVALID_ARG None None 0 e')).
Proof.
  split; [apply natsConnection_JetStream_undefined|].
  split; [|apply natsConnection_JetStream_rejects].
  intros r. unfold natsConnection_JetStream.
  destruct (negb a || negb b) eqn:Eab.
  { intros [= <-]. cbn. split; [split; [discriminate|intros [? [=]]]|].
    split; [reflexivity|]. split; [discriminate|].
    intros _ _ -> ->. discriminate Eab. }
  destruct opts as [o|].
  - destruct (Wait (oa_opts o) <? 0) eqn:Ew.
    { intros [= <-]. cbn. split; [split; [discriminate|intros [? [=]]]|].
      split; [reflexivity|]. split; [discriminate|].
      intros _ _ _ _ H. apply Z.ltb_lt in Ew. destruct (H o eq_refl). lia. }
    destruct (StallWait (PublishAsync (oa_opts o)) <? 0) eqn:Es.
    { intros [= <-]. cbn. split; [split; [discriminate|intros [? [=]]]|].
      split; [reflexivity|]. split; [discriminate|].
      intros _ _ _ _ H. apply Z.ltb_lt in Es. destruct (H o eq_refl). lia. }
    destruct (ne_calloc env); cbn [negb].
    2:{ intros [= <-]. cbn. split; [split; [discriminate|intros [? [=]]]|].
        split; [reflexivity|]. split; [discriminate|]. intros _ [=]. }
    destruct (negb (is_ok (ne_mutex env))); [discriminate|].
    match goal with |- context [match ?w with Some _ => _ | None => None end] =>
      destruct w as [pfx|] end; [|discriminate].
    unfold _copyPurgeOptions.
    destruct (ne_prefix env); cbn [is_ok nats_setDefaultError nats_setError];
      [destruct (negb (nats_IsStringEmpty (Purge_Subject (Stream_Purge (oa_stream o)))));
       [destruct (ne_subject env)|]|];
      cbn [is_ok nats_setDefaultError nats_setError fst snd];
      intros [= <-]; cbn;
      (split; [split; [intros H; first [eexists; reflexivity | discriminate H]
                      | intros H; first [reflexivity | destruct H as [? [=]]]]|]);
      (split; [reflexivity|]);
      (split; [first [intros j [= <-]; split; reflexivity | intros j [=]]|]);
      first [intros H; now contradiction H | intros; eexists; reflexivity].
  - destruct (ne_calloc env); cbn [negb].
    2:{ intros [= <-]. cbn. split; [split; [discriminate|intros [? [=]]]|].
        split; [reflexivity|]. split; [discriminate|]. intros _ [=]. }
    destruct (negb (is_ok (ne_mutex env))); [discriminate|].
    destruct (ne_prefix env); cbn [is_ok nats_setDefaultError nats_setError];
      intros [= <-]; cbn;
      (split; [split; [intros H; first [eexists; reflexivity | discriminate H]
                      | intros H; first [reflexivity | destruct H as [? [=]]]]|]);
      (split; [reflexivity|]);
      (split; [first [intros j [= <-]; split; reflexivity | intros j [=]]|]);
      first [intros H; now contradiction H | intros; eexists; reflexivity].
Qed.

Lemma natsConnection_JetStream_no_leak_witness :
  (exists r j,
     natsConnection_JetStream (mkNewEnv true NATS_OK false true) true true
       (Some sample_opts) None = Some r /\
     nr_status r = NATS_NO_MEMORY /\ nr_conn r = 0 /\
     nr_dropped r = Some j /\ js_freed j = true) /\
  natsConnection_JetStream (mkNewEnv true NATS_ERR true true) true true
    (Some sample_opts) None = None /\
  (exists e',
     natsConnection_JetStream quiet_new false true (Some sample_opts) None
     = Some (mkNewResult NATS_INVALID_ARG None None 0 e')).
Proof.
  pose proof (natsConnection_JetStream_no_leak (mkNewEnv true NATS_OK false true)
                true true (Some sample_opts) None) as (_ & H2 & _).
  pose proof (natsConnection_JetStream_no_leak (mkNewEnv true NATS_ERR true true)
                true true (Some sample_opts) None) as (H1 & _ & _).
  pose proof (natsConnection_JetStream_no_leak quiet_new false true
                (Some sample_opts) None) as (_ & _ & H3).
  split; [|split].
  - assert (Hv : forall o, Some sample_opts = Some o ->
                   0 <= Wait (oa_opts o) /\ 0 <= StallWait (PublishAsync (oa_opts o)))
      by (intros o [= <-]; cbn; lia).
    destruct (H2 _ eq_refl) as (_ & Hc & Hd & Hj).
    destruct Hj as [j Hj]; [discriminate|reflexivity|reflexivity|reflexivity|exact Hv|].
    eexists. exists j. split; [vm_compute; reflexivity|].
    split; [reflexivity|]. split; [exact Hc|]. split; [exact Hj|].
    exact (proj1 (Hd j Hj)).
  - apply H1. split; [reflexivity|]. split; [reflexivity|].
    split; [intros o [= <-]; cbn; lia|]. split; [reflexivity|discriminate].
  - apply H3. left. reflexivity.
Defined.

(** X16: a context is freed only when both its owner and its reply
    subscription have let go of it.  On a context returned by
    [natsConnection_JetStream], [jsCtx_Destroy] frees the context at once
    when no asynchronous publish was made.  After a first asynchronous
    publish created the reply subscription, [jsCtx_Destroy] destroys the
    subscription but does not free the context: it is freed when the
    completion callback of the subscription releases its reference. *)
Theorem context_freed_on_last_release
    (env : new_env) (opts : option jsOptionsArg) (e : errSlot)
    (r : new_result) (js : jsCtx) (st : jsOptionsStream)
    (pre : nat) (ri : reply_init) (rnd : Z) (e' : errSlot) :
  natsConnection_JetStream env true true opts e = Some r ->
  nr_js r = Some (js, st) ->
  (exists j, jsCtx_Destroy (Some js) = (Some j, false, []) /\ js_freed j = true) /\
  (forall s js1 reply e1,
     _newAsyncReply pre ri rnd js e' = (s, js1, reply, e1) -> s = NATS_OK ->
     exists j,
       jsCtx_Destroy (Some js1) = (Some j, true, []) /\
       js_freed j = false /\ js_rsub j = false /\
       js_freed (_subComplete j) = true).
Proof.
  intros Hrun Hjs.
  destruct (natsConnection_JetStream_ok env true true opts e r js st Hrun Hjs)
    as (_ & _ & _ & _ & pfx & -> & _).
  split.
  - eexists. split; reflexivity.
  - intros s js1 reply e1. unfold _newAsyncReply, init_reply. cbn [js_rsub].
    destruct (ri_cond ri); cbn [is_ok];
      try (intros [= <- <- <- <-]; discriminate).
    destruct (ri_hash ri); cbn [is_ok];
      try (intros [= <- <- <- <-]; discriminate).
    destruct (ri_malloc ri); cbn [is_ok nats_setDefaultError nats_setError];
      [|intros [= <- <- <- <-]; discriminate].
    destruct (ri_subscribe ri); cbn [is_ok];
      try (intros [= <- <- <- <-]; discriminate).
    intros [= <- <- <- <-] _.
    eexists. split; [reflexivity|]. split; [reflexivity|]. split; reflexivity.
Qed.

Lemma context_freed_on_last_release_witness :
  exists j,
    jsCtx_Destroy (Some sample_created) = (Some j, false, []) /\ js_freed j = true.
Proof.
  exact (proj1 (context_freed_on_last_release quiet_new (Some sample_opts) None
                  (mkNewResult NATS_OK (Some (sample_created, stream_zero)) None 1 None)
                  sample_created stream_zero 7 quiet_init 0 None
                  ltac:(vm_compute; reflexivity) eq_refl)).
Defined.

(** X17: on a context returned by [natsConnection_JetStream], [js_setOpts]
    always has an outcome; it fails only when a domain is given and its
    prefix cannot be allocated.  When it succeeds the options resolved have
    a prefix and a positive [Wait], selected in this order.  The prefix is
    that of the domain, ["$JS.<domain>.API"] with the domain less its
    trailing dot, when the per-call options give a domain (and only then is
    the caller told to free it), else the per-call prefix when it is not
    empty, else the context's.  [Wait] is the per-call one when it is
    positive, else the context's.  Without per-call options the context's
    values are used. *)
Theorem js_setOpts_resolved
    (env : new_env) (opts0 : option jsOptionsArg) (e0 : errSlot)
    (r0 : new_result) (js : jsCtx) (st : jsOptionsStream)
    (asprintf_ok : bool) (opts : option jsOptionsArg) (e : errSlot) :
  natsConnection_JetStream env true true opts0 e0 = Some r0 ->
  nr_js r0 = Some (js, st) ->
  exists r,
    js_setOpts asprintf_ok js st opts e = Some r /\
    (so_status r <> NATS_OK <->
     asprintf_ok = false /\
     exists o, opts = Some o /\ nats_IsStringEmpty (Domain (oa_opts o)) = false) /\
    (so_status r = NATS_OK ->
     is_Some (Prefix (so_res r)) /\ 0 < Wait (so_res r) /\
     (so_freePfx r = true <->
      exists o, opts = Some o /\ nats_IsStringEmpty (Domain (oa_opts o)) = false) /\
     (opts = None ->
      Prefix (so_res r) = Prefix (js_opts js) /\ Wait (so_res r) = Wait (js_opts js)
      /\ so_stream r = st) /\
     (forall o, opts = Some o ->
        (nats_IsStringEmpty (Domain (oa_opts o)) = false ->
         exists d,
           without_trailing_dot (default EmptyString (Domain (oa_opts o))) = Some d /\
           Prefix (so_res r) = Some ("$JS." ++ d ++ ".API")) /\
        (nats_IsStringEmpty (Domain (oa_opts o)) = true ->
         nats_IsStringEmpty (Prefix (oa_opts o)) = false ->
         Prefix (so_res r) = Prefix (oa_opts o)) /\
        (nats_IsStringEmpty (Domain (oa_opts o)) = true ->
         nats_IsStringEmpty (Prefix (oa_opts o)) = true ->
         Prefix (so_res r) = Prefix (js_opts js)) /\
        (0 < Wait (oa_opts o) -> Wait (so_res r) = Wait (oa_opts o)) /\
        (Wait (oa_opts o) <= 0 -> Wait (so_res r) = Wait (js_opts js)))).
Proof.
  intros Hrun Hjs.
  assert (Hready : is_Some (Prefix (js_opts js)) /\ 0 < Wait (js_opts js)).
  { destruct (natsConnection_JetStream_ok env true true opts0 e0 r0 js st Hrun Hjs)
      as (_ & _ & _ & _ & pfx & -> & Hopts).
    cbn [js_opts Prefix Wait]. split; [eauto|].
    unfold jsDefaultRequestWait. destruct opts0 as [o|]; [|lia].
    destruct Hopts as [H1 _].
    destruct (Wait (oa_opts o) =? 0) eqn:E1; [lia|]. apply Z.eqb_neq in E1. lia. }
  destruct Hready as [Hpfx Hwait].
  unfold js_setOpts.
  destruct opts as [o|].
  - destruct (nats_IsStringEmpty (Domain (oa_opts o))) eqn:Ed; cbn [negb andb].
    + eexists. split; [reflexivity|].
      cbn [so_status so_res so_freePfx so_stream Prefix Wait].
      split.
      { split; [intros H; now contradiction H|].
        intros (_ & o' & [= <-] & H). congruence. }
      intros _.
      split; [destruct (nats_IsStringEmpty (Prefix (oa_opts o))) eqn:Ep;
              [exact Hpfx | destruct (Prefix (oa_opts o)); [eauto | discriminate]]|].
      split; [destruct (Wait (oa_opts o) <=? 0) eqn:Ew;
              [exact Hwait | apply Z.leb_gt in Ew; exact Ew]|].
      split; [split; [discriminate|]; intros (o' & [= <-] & H); congruence|].
      split; [discriminate|].
      intros o' [= <-].
      split; [intros H; congruence|].
      split; [intros _ Hp; now rewrite Hp|].
      split; [intros _ Hp; now rewrite Hp|].
      split; intros Hw.
      * destruct (Wait (oa_opts o) <=? 0) eqn:Ew; [apply Z.leb_le in Ew; lia|reflexivity].
      * destruct (Wait (oa_opts o) <=? 0) eqn:Ew; [reflexivity|apply Z.leb_gt in Ew; lia].
    + destruct (domain_prefix_some _ Ed) as (d & Hd & ->). cbn [negb].
      destruct asprintf_ok; cbn [negb nats_setDefaultError nats_setError].
      * eexists. split; [reflexivity|].
        cbn [so_status so_res so_freePfx so_stream Prefix Wait].
        split.
        { split; [intros H; now contradiction H|]. intros ([=] & _). }
        intros _. split; [eauto|].
        split; [destruct (Wait (oa_opts o) <=? 0) eqn:Ew;
                [exact Hwait | apply Z.leb_gt in Ew; exact Ew]|].
        split; [split; [intros _; exists o; split; [reflexivity | exact Ed]
                       | reflexivity]|].
        split; [discriminate|].
        intros o' [= <-].
        split; [intros _; exists d; split; [exact Hd|reflexivity]|].
        split; [intros H; congruence|].
        split; [intros H; congruence|].
        split; intros Hw.
        -- destruct (Wait (oa_opts o) <=? 0) eqn:Ew; [apply Z.leb_le in Ew; lia|reflexivity].
        -- destruct (Wait (oa_opts o) <=? 0) eqn:Ew; [reflexivity|apply Z.leb_gt in Ew; lia].
      * eexists. split; [reflexivity|]. cbn [so_status].
        split; [|intros [=]].
        split; [intros _|discriminate].
        split; [reflexivity|]. exists o. split; [reflexivity|exact Ed].
  - cbn [andb]. eexists. split; [reflexivity|].
    cbn [so_status so_res so_freePfx so_stream Prefix Wait].
    split.
    { split; [intros H; now contradiction H|]. intros (_ & o' & [=] & _). }
    intros _.
    split; [exact Hpfx|]. split; [exact Hwait|].
    split; [split; [discriminate | intros (o' & [=] & _)]|].
    split; [|intros o' [=]].
    intros _. destruct st as [[? ? ?] ?]. repeat split.
Qed.

Lemma js_setOpts_resolved_witness :
  exists r,
    js_setOpts true sample_created stream_zero
      (Some (with_Domain sample_opts (Some "hub."))) None = Some r /\
    Prefix (so_res r) = Some "$JS.hub.API" /\ 0 < Wait (so_res r).
Proof.
  assert (Hrun : natsConnection_JetStream quiet_new true true (Some sample_opts) None
                 = Some (mkNewResult NATS_OK (Some (sample_created, stream_zero))
                           None 1 None))
    by (vm_compute; reflexivity).
  destruct (js_setOpts_resolved quiet_new (Some sample_opts) None
              (mkNewResult NATS_OK (Some (sample_created, stream_zero)) None 1 None)
              sample_created stream_zero true
              (Some (with_Domain sample_opts (Some "hub."))) None Hrun eq_refl)
    as (r & Hr & _ & H).
  exists r. split; [exact Hr|].
  assert (Hs : so_status r = NATS_OK).
  { clear - Hr. vm_compute in Hr. injection Hr as <-. reflexivity. }
  destruct (H Hs) as (_ & Hw & _ & _ & Ho).
  split; [|exact Hw].
  destruct (Ho _ eq_refl) as (Hd & _).
  destruct (Hd eq_refl) as (d & Ed & ->).
  vm_compute in Ed. injection Ed as <-. reflexivity.
Defined.

(** ** Heartbeats, sequence mismatches and consumer deletion *)

Section SequencesFacts.

Variable nats_ParseInt64 : cstr -> nat -> Z.
Variable mem : nat -> bool.
Variable DUP_STRING : string -> natsStatus * cstr.

Lemma processSequenceMismatch_fields async jsi msg e s jsi' sm e' :
  jsSub_processSequenceMismatch nats_ParseInt64 mem async jsi msg e = (s, jsi', sm, e') ->
  jss_active jsi' = true /\
  jss_dc jsi' = jss_dc jsi /\ jss_cmeta jsi' = jss_cmeta jsi /\
  (jss_ssmn jsi = true -> sm = false) /\
  (sm = true -> async = true /\ jss_ssmn jsi = false /\ s = NATS_OK
                /\ jss_ldseq jsi' <> jss_dseq jsi' /\ jss_sm jsi' = true) /\
  (s = NATS_OK -> jss_cmeta jsi <> None ->
   jss_ssmn jsi' = negb (jss_ldseq jsi' =? jss_dseq jsi') /\
   sm = async && negb (jss_ssmn jsi) && negb (jss_ldseq jsi' =? jss_dseq jsi') /\
   (jss_ldseq jsi' = jss_dseq jsi' -> jss_sm jsi' = false)).
Proof.
  unfold jsSub_processSequenceMismatch.
  unfold set_active at 1. cbn [jss_cmeta].
  destruct (jss_cmeta jsi) as [cmeta|] eqn:Ec.
  2:{ intros [= <- <- <- <-]. cbn. rewrite Ec.
      repeat split; intros; try discriminate; try congruence. }
  destruct (_getMetaData _ _ _ _ _ _) as [s0 o].
  destruct (is_ok s0) eqn:Es0; cbn [negb].
  2:{ destruct (natsStatus_eq_dec s0 NATS_ERR); cbn [nats_setError];
        intros [= <- <- <- <-]; cbn; rewrite Ec;
        repeat split; intros; subst; try discriminate; try congruence. }
  destruct (natsMsgHeader_Get msg jsLastConsumerSeqHdr) as [s1 str].
  destruct (is_ok s1) eqn:Es1; cbn [negb].
  2:{ intros [= <- <- <- <-]. cbn. rewrite Ec.
      repeat split; intros; subst; try discriminate; try congruence. }
  match goal with |- context [if ?b then _ else _] => destruct b eqn:Epar end.
  { cbn [nats_setError]. intros [= <- <- <- <-]. cbn. rewrite Ec.
    repeat split; intros; try discriminate; try congruence. }
  match goal with |- context [jss_ldseq ?j =? jss_dseq ?j] =>
    set (j1 := j); destruct (jss_ldseq j1 =? jss_dseq j1) eqn:Eeq end.
  - assert (Hj : jss_dc j1 = jss_dc jsi /\ jss_cmeta j1 = jss_cmeta jsi
                 /\ jss_active j1 = true /\ jss_ssmn j1 = jss_ssmn jsi).
    { unfold j1. destruct str; cbn; repeat split. }
    destruct Hj as (Hdc & Hcm & Hact & Hss).
    intros [= <- <- <- <-].
    unfold set_mismatch.
    cbn [jss_active jss_dc jss_cmeta jss_ssmn jss_sm jss_ldseq jss_dseq].
    rewrite Eeq, !andb_false_r.
    repeat split; intros; try discriminate; try congruence.
  - assert (Hj : jss_dc j1 = jss_dc jsi /\ jss_cmeta j1 = jss_cmeta jsi
                 /\ jss_active j1 = true /\ jss_ssmn j1 = jss_ssmn jsi).
    { unfold j1. destruct str; cbn; repeat split. }
    destruct Hj as (Hdc & Hcm & Hact & Hss).
    pose proof Eeq as Hne. apply Z.eqb_neq in Hne.
    destruct (jss_ssmn j1) eqn:Essmn; cbn [negb]; intros [= <- <- <- <-];
      unfold set_mismatch;
      cbn [jss_active jss_dc jss_cmeta jss_ssmn jss_sm jss_ldseq jss_dseq];
      rewrite ?Eeq, <- ?Hss; cbn [negb];
      rewrite ?andb_false_r, ?andb_true_r;
      repeat split; intros; try discriminate; try congruence; try contradiction.
Qed.

Lemma trackSequences_fields jsi reply s jsi' :
  jsSub_trackSequences DUP_STRING jsi reply = (s, jsi') ->
  jss_ssmn jsi' = jss_ssmn jsi /\ jss_sm jsi' = jss_sm jsi /\
  jss_dc jsi' = jss_dc jsi /\
  (match reply with
   | Some r => if String.prefix jsAckPrefix r then jss_active jsi' = true
               else jsi' = jsi
   | None => jsi' = jsi
   end).
Proof.
  unfold jsSub_trackSequences. destruct reply as [r|]; [|intros [= <- <-]; repeat split].
  destruct (String.prefix jsAckPrefix r); cbn [negb]; [|intros [= <- <-]; repeat split].
  destruct (DUP_STRING _) as [s0 copy]. intros [= <- <-]. repeat split.
Qed.

(** X18: the heartbeat timer alerts after one full period of silence, and
    only then.  Two consecutive firings of the timer with nothing in
    between post [NATS_MISSED_HEARTBEAT] at the second one (when the
    connection has an error handler).  A heartbeat processed in between, or
    the tracking of a message whose reply subject starts with ["$JS.ACK."],
    prevents the alert, whatever their own outcome; a message with another
    reply subject, or none, does not count as activity. *)
Theorem hbTimer_alerts_after_silence
    (cb async : bool) (jsi : jsSubState) (msg : natsMsg) (e : errSlot)
    (reply : cstr) :
  let ticked := fst (_hbTimerFired cb jsi) in
  snd (_hbTimerFired cb ticked) = (if cb then [NATS_MISSED_HEARTBEAT] else []) /\
  snd (_hbTimerFired cb
         (snd (fst (fst (jsSub_processSequenceMismatch nats_ParseInt64 mem async
                           ticked msg e))))) = [] /\
  snd (_hbTimerFired cb (snd (jsSub_trackSequences DUP_STRING ticked reply)))
  = (if match reply with Some r => String.prefix jsAckPrefix r | None => false end
     then []
     else if cb then [NATS_MISSED_HEARTBEAT] else []).
Proof.
  intros ticked. split; [reflexivity|]. split.
  - destruct (jsSub_processSequenceMismatch nats_ParseInt64 mem async ticked msg e)
      as [[[s jsi'] sm] e'] eqn:Hrun.
    destruct (processSequenceMismatch_fields _ _ _ _ _ _ _ _ Hrun) as (Hact & _).
    cbn [fst snd]. unfold _hbTimerFired. rewrite Hact. reflexivity.
  - destruct (jsSub_trackSequences DUP_STRING ticked reply) as [s jsi'] eqn:Hrun.
    destruct (trackSequences_fields _ _ _ _ Hrun) as (_ & _ & _ & Hact).
    cbn [snd]. destruct reply as [r|]; [destruct (String.prefix jsAckPrefix r)|].
    + unfold _hbTimerFired. rewrite Hact. reflexivity.
    + rewrite Hact. reflexivity.
    + rewrite Hact. reflexivity.
Qed.

(** X19: a sequence mismatch is reported once until it is resolved.
    After a heartbeat was processed with success on a subscription that has
    tracked a message, the suppression flag is set exactly when the last
    sequence known to the server differs from the one delivered to the
    client, and [natsSubscription_GetSequenceMismatch] then gives the three
    sequences (it answers [NATS_NOT_FOUND] otherwise).  The mismatch is
    signalled to an asynchronous subscription only when the flag was not
    set before; so while the mismatch lasts, the next heartbeat, whatever it
    carries and whatever messages were tracked meanwhile, signals
    nothing. *)
Theorem sequenceMismatch_reported_once
    (async : bool) (jsi : jsSubState) (m1 m2 : natsMsg) (e : errSlot)
    (jsi1 : jsSubState) (sm1 : bool) (e1 : errSlot) (reply : cstr) (txt : string) :
  jss_cmeta jsi <> None ->
  jsSub_processSequenceMismatch nats_ParseInt64 mem async jsi m1 e
  = (NATS_OK, jsi1, sm1, e1) ->
  jss_ssmn jsi1 = negb (jss_ldseq jsi1 =? jss_dseq jsi1) /\
  (sm1 = true <->
   async = true /\ jss_ssmn jsi = false /\ jss_ldseq jsi1 <> jss_dseq jsi1) /\
  natsSubscription_GetSequenceMismatch txt true (Some (Some jsi1)) e1
  = (if jss_ssmn jsi1
     then (NATS_OK,
           Some (mkSeqMismatch (jss_sseq jsi1) (jss_dseq jsi1) (jss_ldseq jsi1)), e1)
     else (NATS_NOT_FOUND, None, e1)) /\
  (jss_ldseq jsi1 <> jss_dseq jsi1 ->
   snd (fst (jsSub_processSequenceMismatch nats_ParseInt64 mem async
               (snd (jsSub_trackSequences DUP_STRING jsi1 reply)) m2 e1)) = false).
Proof.
  intros Hc Hrun.
  destruct (processSequenceMismatch_fields _ _ _ _ _ _ _ _ Hrun)
    as (_ & _ & _ & Hsup & Hsm & Hok).
  destruct (Hok eq_refl Hc) as (Hss & Heq & Hres).
  split; [exact Hss|]. split; [|split].
  - rewrite Heq, !andb_true_iff, !negb_true_iff, Z.eqb_neq. tauto.
  - unfold natsSubscription_GetSequenceMismatch. rewrite Hss.
    rewrite (Z.eqb_sym (jss_dseq jsi1)).
    destruct (jss_ldseq jsi1 =? jss_dseq jsi1); reflexivity.
  - intros Hne.
    destruct (jsSub_trackSequences DUP_STRING jsi1 reply) as [s jsi1'] eqn:Htr.
    destruct (trackSequences_fields _ _ _ _ Htr) as (Hssmn & _).
    cbn [snd].
    destruct (jsSub_processSequenceMismatch nats_ParseInt64 mem async jsi1' m2 e1)
      as [[[s2 jsi2] sm2] e2] eqn:Hrun2.
    destruct (processSequenceMismatch_fields _ _ _ _ _ _ _ _ Hrun2)
      as (_ & _ & _ & Hsup2 & _).
    cbn [fst snd]. apply Hsup2. rewrite Hssmn, Hss.
    apply Z.eqb_neq in Hne. rewrite Hne. reflexivity.
Qed.

End SequencesFacts.

(** X20: the consumer of a subscription is deleted at most once.
    [jsSub_deleteConsumer] asks the server to delete the consumer only when
    the subscription is marked for it and knows its stream and consumer,
    and it clears the mark before asking: whatever the first call returned,
    a second call, direct or after a drain, asks nothing, posts nothing and
    returns [NATS_OK]. *)
Theorem deleteConsumer_at_most_once
    (cb : bool) (d1 d2 : natsStatus) (jsi : option jsSubState) (e : errSlot) :
  let '(s1, jsi1, calls1, e1) := jsSub_deleteConsumer d1 jsi e in
  (calls1 = []
   \/ exists j st c,
        jsi = Some j /\ jss_dc j = true /\ jss_js j = true /\
        jss_stream j = Some st /\ jss_consumer j = Some c /\
        calls1 = [(st, c)] /\ s1 = d1) /\
  (calls1 = [] -> s1 = NATS_OK /\ e1 = e) /\
  jsSub_deleteConsumer d2 jsi1 e1 = (NATS_OK, jsi1, [], e1) /\
  jsSub_deleteConsumerAfterDrain cb d2 jsi1 e1 = (jsi1, [], [], e1).
Proof.
  unfold jsSub_deleteConsumerAfterDrain, jsSub_deleteConsumer.
  destruct jsi as [j|]; [|repeat split; left; reflexivity].
  destruct (jss_dc j) eqn:Edc.
  - destruct (jss_js j) eqn:Ejs; [destruct (jss_stream j) as [st|] eqn:Est;
      [destruct (jss_consumer j) as [c|] eqn:Ec|]|];
      try (cbn; repeat split; left; reflexivity).
    destruct (is_not_found d1) eqn:Enf; cbn [nats_setError];
      (split; [right; exists j, st, c; repeat split; assumption|]);
      (split; [discriminate|]); cbn; split; reflexivity.
  - cbn. rewrite Edc. cbn. repeat split. left; reflexivity.
Qed.

(** X21: the automatic ack does not look at what the callback did.  When
    a message is delivered with a reply subject of less than 256 bytes,
    [_autoAckCB] publishes ["+ACK"] on that subject after the user's
    callback returned, whatever the callback sent; in particular, when the
    callback acknowledged the message itself with [natsMsg_Ack], ["+ACK"]
    is published twice on the reply subject.  A message without reply
    subject is not acknowledged. *)
Theorem autoAck_after_callback
    (strdup_ok : bool) (usrCb : natsMsg -> list net_op) (m : natsMsg) (r : string) :
  msg_reply m = Some r ->
  (String.length r < 256)%nat ->
  _autoAckCB strdup_ok usrCb m = (usrCb m ++ [NetPublish (Some r) jsAckAck])%list /\
  (delivered m -> msg_acked m = false ->
   _autoAckCB strdup_ok acking_cb m
   = [NetPublish (Some r) jsAckAck; NetPublish (Some r) jsAckAck]) /\
  (forall m', msg_reply m' = None -> _autoAckCB strdup_ok usrCb m' = usrCb m').
Proof.
  intros Hr Hlen. unfold _autoAckCB. rewrite Hr.
  apply Nat.ltb_lt in Hlen. rewrite Hlen.
  split; [reflexivity|]. split.
  - intros (sub & jsi & Hsub & Hjsi & Hne) Hacked.
    unfold acking_cb, natsMsg_Ack, _ackMsg, natsMsg_isAcked.
    rewrite Hacked, Hsub, Hne, Hjsi, Hr. reflexivity.
  - intros m' Hm'. rewrite Hm'. apply app_nil_r.
Qed.

Lemma sequenceMismatch_reported_once_witness :
  exists jsi1,
    jsSub_processSequenceMismatch nats_ParseInt64_model (fun _ => true) true
      sample_state sample_heartbeat None = (NATS_OK, jsi1, true, None) /\
    jss_ssmn jsi1 = true /\ jss_dseq jsi1 = 7 /\ jss_ldseq jsi1 = 9.
Proof.
  eexists. split; [vm_compute; reflexivity|].
  split; [|split; reflexivity].
  refine (proj1 (sequenceMismatch_reported_once nats_ParseInt64_model (fun _ => true)
                   dup_ok true sample_state sample_heartbeat sample_heartbeat None
                   _ true None None "" _ _)); [discriminate | vm_compute; reflexivity].
Defined.

Lemma autoAck_after_callback_witness :
  _autoAckCB true acking_cb sample_delivered
  = [NetPublish (msg_reply sample_delivered) jsAckAck;
     NetPublish (msg_reply sample_delivered) jsAckAck].
Proof.
  refine (proj1 (proj2 (autoAck_after_callback true acking_cb sample_delivered
                          "$JS.ACK.ORDERS.dur.1.42.7.1700000000000000000.3"
                          eq_refl _)) _ eq_refl).
  - vm_compute. lia.
  - exists sample_sub, sample_jsi. repeat split.
Defined.

(** ** Metadata of a delivered message *)

Lemma dotless_cons c t : dotless (String c t) -> Ascii.eqb c "." = false /\ dotless t.
Proof.
  unfold dotless. cbn [strchr_dot]. destruct (Ascii.eqb c "."); [discriminate|].
  destruct (strchr_dot t); [discriminate|]. split; reflexivity.
Qed.

Lemma strchr_dot_token t r : dotless t -> strchr_dot (t ++ "." ++ r) = Some (String.length t).
Proof.
  induction t as [|c t IH]; intros Hd; [reflexivity|].
  destruct (dotless_cons c t Hd) as [Hc Ht].
  change (String c t ++ "." ++ r) with (String c (t ++ "." ++ r)).
  cbn [strchr_dot String.length]. rewrite Hc, (IH Ht). reflexivity.
Qed.

Lemma str_drop_token t r : str_drop (S (String.length t)) (t ++ "." ++ r) = r.
Proof. induction t as [|c t IH]; [reflexivity|exact IH]. Qed.

Lemma str_drop_token_dot t r :
  str_drop (String.length t) (t ++ "." ++ r) = "." ++ r.
Proof. induction t as [|c t IH]; [reflexivity|exact IH]. Qed.

Lemma str_take_token t r : str_take (String.length t) (t ++ r) = t.
Proof.
  induction t as [|c t IH]; [destruct r; reflexivity|].
  change (String c t ++ r) with (String c (t ++ r)).
  cbn [String.length str_take]. now f_equal.
Qed.

(** One iteration of the tokenising loop on a token followed by a dot. *)
Lemma scan_tokens_token f nt t r np tokens :
  dotless t -> (nt < 9)%nat ->
  scan_tokens (S f) (mkScan nt (t ++ "." ++ r) np tokens)
  = scan_tokens f (mkScan (S nt) r (Some ("." ++ r))
                     (<[nt := mkToken (Some (t ++ "." ++ r)) (String.length t)]> tokens)).
Proof.
  intros Hd Hnt. rewrite scan_tokens_S. cbn [sc_nt sc_p sc_np sc_tokens].
  apply Nat.ltb_lt in Hnt. rewrite Hnt, (strchr_dot_token t r Hd).
  rewrite str_drop_token, str_drop_token_dot. reflexivity.
Qed.

(** The loop stops on a last token without a dot. *)
Lemma scan_tokens_last f nt t np tokens :
  dotless t -> (nt < 9)%nat ->
  scan_tokens (S f) (mkScan nt t np tokens) = mkScan nt t None tokens.
Proof.
  intros Hd Hnt. rewrite scan_tokens_S. cbn [sc_nt sc_p sc_np sc_tokens].
  apply Nat.ltb_lt in Hnt. rewrite Hnt. unfold dotless in Hd. rewrite Hd. reflexivity.
Qed.

Lemma find_tokens_v1 t0 t1 t2 t3 t4 t5 t6 :
  dotless t0 -> dotless t1 -> dotless t2 -> dotless t3 -> dotless t4 ->
  dotless t5 -> dotless t6 ->
  find_tokens (join_tokens [t0; t1; t2; t3; t4; t5; t6])
  = (7%nat,
     [mkToken (Some (join_tokens [t0; t1; t2; t3; t4; t5; t6])) (String.length t0);
      mkToken (Some (join_tokens [t1; t2; t3; t4; t5; t6])) (String.length t1);
      mkToken (Some (join_tokens [t2; t3; t4; t5; t6])) (String.length t2);
      mkToken (Some (join_tokens [t3; t4; t5; t6])) (String.length t3);
      mkToken (Some (join_tokens [t4; t5; t6])) (String.length t4);
      mkToken (Some (join_tokens [t5; t6])) (String.length t5);
      mkToken (Some (join_tokens [t6])) (String.length t6);
      tok_zero; tok_zero]).
Proof.
  intros H0 H1 H2 H3 H4 H5 H6. unfold find_tokens. cbn [join_tokens].
  rewrite (scan_tokens_token _ 0 t0) by (assumption || lia).
  rewrite (scan_tokens_token _ 1 t1) by (assumption || lia).
  rewrite (scan_tokens_token _ 2 t2) by (assumption || lia).
  rewrite (scan_tokens_token _ 3 t3) by (assumption || lia).
  rewrite (scan_tokens_token _ 4 t4) by (assumption || lia).
  rewrite (scan_tokens_token _ 5 t5) by (assumption || lia).
  rewrite (scan_tokens_last _ 6 t6) by (assumption || lia).
  reflexivity.
Qed.

Lemma prefix_app p b : String.prefix p (p ++ b) = true.
Proof.
  induction p as [|c p IH]; [destruct b; reflexivity|].
  change (String c p ++ b) with (String c (p ++ b)).
  cbn [String.prefix]. destruct (ascii_dec c c); [exact IH|contradiction].
Qed.

(** X22: the metadata of a message delivered with a well-formed v1 ack
    subject are the tokens of that subject.  For a message bound to a
    subscription whose reply subject is ["$JS.ACK."] followed by seven
    dot-separated tokens, the last five of which [nats_ParseInt64] accepts,
    [natsMsg_GetMetaData] returns [NATS_OK] and an object with no domain,
    the first token as stream, the second as consumer, and the numbers
    parsed from the five others as delivery count, stream sequence,
    consumer sequence, timestamp and pending count; nothing is destroyed
    and no error is recorded. *)
Theorem getMetaData_v1_fields
    (parse : cstr -> nat -> Z) (mem : nat -> bool) (t1 t2 : string)
    (m : natsMsg) (sub : natsSubscription) (e : errSlot)
    (stream consumer nd ss ds tm np : string) :
  dotless stream -> dotless consumer -> dotless nd -> dotless ss ->
  dotless ds -> dotless tm -> dotless np ->
  mem 2%nat = true -> mem 3%nat = true ->
  parse_head parse [nd; ss; ds; tm; np] <> -1 ->
  parse_head parse [ss; ds; tm; np] <> -1 ->
  parse_head parse [ds; tm; np] <> -1 ->
  parse_head parse [tm; np] <> -1 ->
  parse_head parse [np] <> -1 ->
  msg_sub m = Some sub ->
  msg_reply m
  = Some (jsAckPrefix ++ join_tokens [stream; consumer; nd; ss; ds; tm; np]) ->
  natsMsg_GetMetaData parse mem t1 t2 true true (Some m) e
  = (NATS_OK,
     Some (mkMetaOut None (Some stream) (Some consumer)
             (to_uint64 (parse_head parse [nd; ss; ds; tm; np]))
             (to_uint64 (parse_head parse [ss; ds; tm; np]))
             (to_uint64 (parse_head parse [ds; tm; np]))
             (parse_head parse [tm; np])
             (to_uint64 (parse_head parse [np]))),
     None, e).
Proof.
  intros H0 H1 H2 H3 H4 H5 H6 Hm2 Hm3 Hv4 Hv5 Hv6 Hv7 Hv8 Hsub Hreply.
  unfold natsMsg_GetMetaData. rewrite Hsub, Hreply.
  set (body := join_tokens [stream; consumer; nd; ss; ds; tm; np]).
  assert (Hne : nats_IsStringEmpty (Some (jsAckPrefix ++ body)) = false) by reflexivity.
  rewrite Hne. cbn [default from_option id].
  rewrite (prefix_app jsAckPrefix body). cbn [negb].
  assert (Hdrop : str_drop jsAckPrefixLen (jsAckPrefix ++ body) = body) by reflexivity.
  rewrite Hdrop. unfold _getMetaData, body.
  rewrite (find_tokens_v1 stream consumer nd ss ds tm np H0 H1 H2 H3 H4 H5 H6).
  cbn [Nat.ltb Nat.leb Nat.eqb orb andb].
  unfold promote_v1. cbn [firstn].
  unfold parse_head in *. cbn [hd] in *.
  apply Z.eqb_neq in Hv4, Hv5, Hv6, Hv7, Hv8.
  cbn [field_loop nth tok_start tok_len tok_zero Nat.ltb Nat.leb andb store_field
       ask_all ask_domain ask_stream ask_consumer ask_numDelivered ask_sseq ask_dseq
       ask_tm ask_numPending _copyString].
  rewrite Hm2, Hm3.
  rewrite Hv4, Hv5, Hv6, Hv7, Hv8.
  cbn [_copyString is_ok default from_option id].
  change (join_tokens [stream; consumer; nd; ss; ds; tm; np])
    with (stream ++ "." ++ join_tokens [consumer; nd; ss; ds; tm; np]).
  change (join_tokens [consumer; nd; ss; ds; tm; np])
    with (consumer ++ "." ++ join_tokens [nd; ss; ds; tm; np]).
  rewrite !str_take_token.
  reflexivity.
Qed.

Lemma getMetaData_v1_fields_witness :
  natsMsg_GetMetaData nats_ParseInt64_model (fun _ => true) "" "" true true
    (Some sample_delivered) None
  = (NATS_OK,
     Some (mkMetaOut None (Some "ORDERS") (Some "dur") 1 42 7 1700000000000000000 3),
     None, None).
Proof.
  apply (getMetaData_v1_fields nats_ParseInt64_model (fun _ => true) "" ""
           sample_delivered sample_sub None "ORDERS" "dur" "1" "42" "7"
           "1700000000000000000" "3");
    try reflexivity; vm_compute; discriminate.
Defined.

Lemma find_tokens_v2 t0 t1 t2 t3 t4 t5 t6 t7 t8 rest :
  dotless t0 -> dotless t1 -> dotless t2 -> dotless t3 -> dotless t4 ->
  dotless t5 -> dotless t6 -> dotless t7 -> dotless t8 ->
  find_tokens (join_tokens [t0; t1; t2; t3; t4; t5; t6; t7; t8; rest])
  = (9%nat,
     [mkToken (Some (join_tokens [t0; t1; t2; t3; t4; t5; t6; t7; t8; rest]))
        (String.length t0);
      mkToken (Some (join_tokens [t1; t2; t3; t4; t5; t6; t7; t8; rest]))
        (String.length t1);
      mkToken (Some (join_tokens [t2; t3; t4; t5; t6; t7; t8; rest])) (String.length t2);
      mkToken (Some (join_tokens [t3; t4; t5; t6; t7; t8; rest])) (String.length t3);
      mkToken (Some (join_tokens [t4; t5; t6; t7; t8; rest])) (String.length t4);
      mkToken (Some (join_tokens [t5; t6; t7; t8; rest])) (String.length t5);
      mkToken (Some (join_tokens [t6; t7; t8; rest])) (String.length t6);
      mkToken (Some (join_tokens [t7; t8; rest])) (String.length t7);
      mkToken (Some (join_tokens [t8; rest])) (String.length t8)]).
Proof.
  intros H0 H1 H2 H3 H4 H5 H6 H7 H8. unfold find_tokens. cbn [join_tokens].
  rewrite (scan_tokens_token _ 0 t0) by (assumption || lia).
  rewrite (scan_tokens_token _ 1 t1) by (assumption || lia).
  rewrite (scan_tokens_token _ 2 t2) by (assumption || lia).
  rewrite (scan_tokens_token _ 3 t3) by (assumption || lia).
  rewrite (scan_tokens_token _ 4 t4) by (assumption || lia).
  rewrite (scan_tokens_token _ 5 t5) by (assumption || lia).
  rewrite (scan_tokens_token _ 6 t6) by (assumption || lia).
  rewrite (scan_tokens_token _ 7 t7) by (assumption || lia).
  rewrite (scan_tokens_token _ 8 t8) by (assumption || lia).
  reflexivity.
Qed.

Lemma is_underscore_token d r :
  d <> "_" -> is_underscore (d ++ "." ++ r) (String.length d) = false.
Proof.
  intros Hd. unfold is_underscore.
  destruct d as [|c d]; [reflexivity|].
  destruct d as [|c' d]; [|reflexivity].
  change (String c "" ++ "." ++ r) with (String c ("." ++ r)).
  cbn [String.length Nat.eqb andb].
  destruct (Ascii.eqb c "_") eqn:E; [|reflexivity].
  apply Ascii.eqb_eq in E. subst c. contradiction Hd. reflexivity.
Qed.

(** X23: the metadata of a message delivered with a well-formed v2 ack
    subject.  When the reply subject is ["$JS.ACK."] followed by a domain,
    an account hash, the seven tokens of the v1 form and anything after one
    more dot, [natsMsg_GetMetaData] returns the same fields as for the v1
    form and the domain, the hash and what follows the pending count being
    ignored; the domain is NULL when its token is ["_"]. *)
Theorem getMetaData_v2_fields
    (parse : cstr -> nat -> Z) (mem : nat -> bool) (t1 t2 : string)
    (m : natsMsg) (sub : natsSubscription) (e : errSlot)
    (domain hash stream consumer nd ss ds tm np rest : string) :
  dotless domain -> dotless hash ->
  dotless stream -> dotless consumer -> dotless nd -> dotless ss ->
  dotless ds -> dotless tm -> dotless np ->
  mem 0%nat = true -> mem 2%nat = true -> mem 3%nat = true ->
  parse_head parse [nd; ss; ds; tm; np; rest] <> -1 ->
  parse_head parse [ss; ds; tm; np; rest] <> -1 ->
  parse_head parse [ds; tm; np; rest] <> -1 ->
  parse_head parse [tm; np; rest] <> -1 ->
  parse_head parse [np; rest] <> -1 ->
  msg_sub m = Some sub ->
  msg_reply m
  = Some (jsAckPrefix
          ++ join_tokens [domain; hash; stream; consumer; nd; ss; ds; tm; np; rest]) ->
  natsMsg_GetMetaData parse mem t1 t2 true true (Some m) e
  = (NATS_OK,
     Some (mkMetaOut (if decide (domain = "_") then None else Some domain)
             (Some stream) (Some consumer)
             (to_uint64 (parse_head parse [nd; ss; ds; tm; np; rest]))
             (to_uint64 (parse_head parse [ss; ds; tm; np; rest]))
             (to_uint64 (parse_head parse [ds; tm; np; rest]))
             (parse_head parse [tm; np; rest])
             (to_uint64 (parse_head parse [np; rest]))),
     None, e).
Proof.
  intros Hd Hh H0 H1 H2 H3 H4 H5 H6 Hm0 Hm2 Hm3 Hv4 Hv5 Hv6 Hv7 Hv8 Hsub Hreply.
  unfold natsMsg_GetMetaData. rewrite Hsub, Hreply.
  set (body := join_tokens [domain; hash; stream; consumer; nd; ss; ds; tm; np; rest]).
  assert (Hne : nats_IsStringEmpty (Some (jsAckPrefix ++ body)) = false) by reflexivity.
  rewrite Hne. cbn [default from_option id].
  rewrite (prefix_app jsAckPrefix body). cbn [negb].
  assert (Hdrop : str_drop jsAckPrefixLen (jsAckPrefix ++ body) = body) by reflexivity.
  rewrite Hdrop. unfold _getMetaData, body.
  rewrite (find_tokens_v2 domain hash stream consumer nd ss ds tm np rest
             Hd Hh H0 H1 H2 H3 H4 H5 H6).
  cbn [Nat.ltb Nat.leb Nat.eqb orb andb].
  unfold parse_head in *. cbn [hd] in *.
  apply Z.eqb_neq in Hv4, Hv5, Hv6, Hv7, Hv8.
  cbn [field_loop nth tok_start tok_len tok_zero Nat.ltb Nat.leb andb store_field
       ask_all ask_domain ask_stream ask_consumer ask_numDelivered ask_sseq ask_dseq
       ask_tm ask_numPending].
  rewrite Hm0, Hm2, Hm3, Hv4, Hv5, Hv6, Hv7, Hv8.
  change (join_tokens [domain; hash; stream; consumer; nd; ss; ds; tm; np; rest])
    with (domain ++ "." ++ join_tokens [hash; stream; consumer; nd; ss; ds; tm; np; rest]).
  change (join_tokens [stream; consumer; nd; ss; ds; tm; np; rest])
    with (stream ++ "." ++ join_tokens [consumer; nd; ss; ds; tm; np; rest]).
  change (join_tokens [consumer; nd; ss; ds; tm; np; rest])
    with (consumer ++ "." ++ join_tokens [nd; ss; ds; tm; np; rest]).
  destruct (decide (domain = "_")) as [-> | Hnot].
  - cbn [is_underscore String.length Nat.eqb Ascii.eqb Bool.eqb andb append
         _copyString is_ok default from_option id].
    rewrite !str_take_token. reflexivity.
  - rewrite (is_underscore_token domain _ Hnot).
    cbn [_copyString is_ok default from_option id].
    rewrite !str_take_token. reflexivity.
Qed.

Lemma getMetaData_v2_fields_witness :
  natsMsg_GetMetaData nats_ParseInt64_model (fun _ => true) "" "" true true
    (Some (mkMsg (Some "ORDERS.new")
             (Some "$JS.ACK.hub.acc.ORDERS.dur.1.42.7.1700000000000000000.3.rnd")
             1 0 [] None false (Some sample_sub))) None
  = (NATS_OK,
     Some (mkMetaOut (Some "hub") (Some "ORDERS") (Some "dur") 1 42 7
             1700000000000000000 3),
     None, None).
Proof.
  apply (getMetaData_v2_fields nats_ParseInt64_model (fun _ => true) "" ""
           _ sample_sub None "hub" "acc" "ORDERS" "dur" "1" "42" "7"
           "1700000000000000000" "3" "rnd");
    try reflexivity; vm_compute; discriminate.
Defined.

(** ** Attaching to an existing consumer *)

Lemma checkConfig_status s u :
  (fst (_checkConfig s u) = NATS_OK /\ snd (_checkConfig s u) = None)
  \/ (fst (_checkConfig s u) = NATS_ERR /\ snd (_checkConfig s u) <> None).
Proof.
  unfold _checkConfig, cfg_mismatch.
  repeat match goal with
         | |- context [if ?b then _ else _] => destruct b
         end; cbn [fst snd]; (left; split; reflexivity) || (right; split; [reflexivity|discriminate]).
Qed.

Lemma strcmp_ne_false a b : strcmp_ne a b = false <-> a = b.
Proof. unfold strcmp_ne. destruct (decide (a = b)); split; congruence. Qed.

Lemma strcmp_ne_true a b : strcmp_ne a b = true <-> a <> b.
Proof. unfold strcmp_ne. destruct (decide (a = b)); split; congruence. Qed.

(** X24: [_processConsInfo] accepts an existing consumer exactly when the
    subscription asked for is compatible with it.  The status is [NATS_OK]
    or [NATS_ERR]; it is [NATS_OK] if and only if the consumer's filter
    subject is empty or is the subject; a queue subscription finds a
    consumer without heartbeat and without flow control; pull mode meets a
    consumer without deliver subject and push mode one with a deliver
    subject; in push mode the consumer's deliver group is the queue name,
    or, there being neither, the consumer is not bound yet; and the user's
    configuration passes [_checkConfig].  The deliver subject handed back is
    the consumer's in push mode on success and NULL in every other case,
    and a success records no error. *)
Theorem processConsInfo_accepts
    (t1 t2 t3 t4 : string) (info : jsConsumerInfo) (u : jsConsumerConfig)
    (pull : bool) (subj : string) (queue : cstr) (e : errSlot) :
  let c := ci_Config info in
  let q := if nats_IsStringEmpty queue then None else queue in
  let r := _processConsInfo t1 t2 t3 t4 info u pull subj queue e in
  (fst (fst r) = NATS_OK \/ fst (fst r) = NATS_ERR) /\
  (fst (fst r) = NATS_OK <->
   (nats_IsStringEmpty (FilterSubject c) = true \/ FilterSubject c = Some subj) /\
   (q <> None -> Heartbeat c <= 0 /\ FlowControl c = false) /\
   pull = nats_IsStringEmpty (DeliverSubject c) /\
   (pull = false ->
    if nats_IsStringEmpty (DeliverGroup c)
    then q = None /\ ci_PushBound info = false
    else q = DeliverGroup c) /\
   fst (_checkConfig c u) = NATS_OK) /\
  snd (fst r) = (if is_ok (fst (fst r)) && negb pull then DeliverSubject c else None) /\
  (fst (fst r) = NATS_OK -> snd r = e).
Proof.
  intros c q r. subst r. unfold _processConsInfo. fold c. fold q.
  cbn [nats_setError].
  destruct (checkConfig_status c u) as [[Hcs Hct] | [Hcs Hct]];
    destruct (_checkConfig c u) as [cs ct]; cbn [fst snd] in Hcs, Hct; subst cs.
  all: destruct (nats_IsStringEmpty (FilterSubject c)) eqn:Ef; cbn [negb andb].
  all: try (destruct (strcmp_ne subj (default EmptyString (FilterSubject c))) eqn:Es;
            [apply strcmp_ne_true in Es|apply strcmp_ne_false in Es]).
  all: try (destruct (FilterSubject c) as [fs|] eqn:Efs; [|discriminate Ef];
            cbn [default from_option id] in * ).
  all: clearbody q; destruct q as [qs|].
  all: try (destruct (0 <? Heartbeat c) eqn:Eh;
            [apply Z.ltb_lt in Eh | apply Z.ltb_ge in Eh]).
  all: try destruct (FlowControl c) eqn:Efc.
  all: destruct pull; destruct (nats_IsStringEmpty (DeliverSubject c)) eqn:Ed;
       cbn [negb andb fst snd is_ok].
  all: try destruct (nats_IsStringEmpty (DeliverGroup c)) eqn:Eg.
  all: try destruct (ci_PushBound info) eqn:Eb.
  all: try (destruct (strcmp_ne qs (default EmptyString (DeliverGroup c))) eqn:Eqs;
            [apply strcmp_ne_true in Eqs|apply strcmp_ne_false in Eqs]).
  all: cbn [negb andb fst snd is_ok].
  all: try (destruct (DeliverGroup c) as [dg|] eqn:Edg; [|discriminate Eg];
            cbn [default from_option id] in * ).
  all: try subst ct.
  all: (split; [first [left; reflexivity | right; reflexivity]|]).
  all: (split; [|split; [reflexivity|intros H; first [reflexivity | discriminate H]]]).
  all: split.
  (* from the status to the conditions *)
  all: try (intros H; discriminate H).
  all: try (intros _; repeat split; intros; subst;
            first [ reflexivity | lia | congruence | discriminate
                  | left; reflexivity | right; congruence | right; reflexivity ]).
  (* from the conditions to the status *)
  all: try (intros _; reflexivity).
  all: intros (H1 & H2 & H3 & H4 & H5); exfalso.
  all: try discriminate H3.
  all: try discriminate H5.
  all: try (destruct H1 as [H1|H1]; [discriminate H1 | congruence]).
  all: try (destruct (H2 ltac:(discriminate)) as [Ha Hb]; first [lia | congruence]).
  all: try (specialize (H4 eq_refl); first [destruct H4 as [Ha Hb]; congruence | congruence]).
Qed.

(** ** What a fetch hands back *)

Lemma checkMsg_user m c e s e' :
  _checkMsg m c e = (s, true, e') -> is_ok s = true -> is_user_msg m.
Proof.
  unfold is_user_msg, _checkMsg. intros H Hs c' e''.
  destruct ((0 <? msg_dataLen m) || (msg_hdrLen m <=? 0)); [reflexivity|].
  destruct (natsMsgHeader_Get m STATUS_HDR) as [s0 val].
  destruct (is_not_found s0); [reflexivity|].
  destruct (negb (is_ok s0)) eqn:E0.
  - injection H as <- _. rewrite Hs in E0. discriminate.
  - destruct (negb c); [discriminate|].
    destruct (status_is val NOT_FOUND_STATUS); [discriminate|].
    destruct (status_is val REQ_TIMEOUT); [discriminate|].
    destruct (natsMsgHeader_Get m DESCRIPTION_HDR). cbn in H. discriminate.
Qed.

Lemma checkMsg_not_user m c e s u e' :
  _checkMsg m c e = (s, u, e') -> is_ok s && u = false -> ~ is_user_msg m.
Proof.
  intros H Hf Hu. rewrite (Hu c e) in H. injection H as <- <- _. discriminate.
Qed.

Section FetchSorted.

Variable subj rply : cstr.
Variable batch : Z.
Variable start : Z.
Variable reqs : nat -> req_env.
Variable all : list next_msg.

Lemma sorted_collect st s m e :
  sorted batch all st -> fs_count st < batch -> is_user_msg m -> received all m ->
  sorted batch all (collect st s m e).
Proof.
  intros (Hc & Hb & Hm & Hd) Hlt Hu Hr. unfold sorted, collect.
  cbn [fs_count fs_msgs fs_destroyed].
  split; [rewrite length_app; cbn [length]; lia|].
  split; [lia|]. split; [|exact Hd].
  intros m' Hin. apply elem_of_app in Hin as [Hin|Hin]; [apply Hm, Hin|].
  apply list_elem_of_singleton in Hin. subst m'. split; assumption.
Qed.

Lemma sorted_discard st s m e :
  sorted batch all st -> ~ is_user_msg m -> received all m ->
  sorted batch all (discard st s m e).
Proof.
  intros (Hc & Hb & Hm & Hd) Hu Hr. unfold sorted, discard.
  cbn [fs_count fs_msgs fs_destroyed].
  split; [exact Hc|]. split; [exact Hb|]. split; [exact Hm|].
  intros m' Hin. apply elem_of_app in Hin as [Hin|Hin]; [apply Hd, Hin|].
  apply list_elem_of_singleton in Hin. subst m'. split; assumption.
Qed.

Lemma sorted_request noWait st :
  sorted batch all st -> sorted batch all (request subj rply batch start noWait reqs st).
Proof.
  intros H. destruct (request_fields subj rply batch start reqs noWait st)
    as (Hc & Hm & _ & _ & Hd & _).
  unfold sorted. rewrite Hc, Hm, Hd. exact H.
Qed.

Lemma sorted_drain_step n st st' :
  drain_step n st = Some st' -> n ∈ all ->
  sorted batch all st -> fs_count st < batch -> sorted batch all st'.
Proof.
  unfold drain_step. intros H Hin Hs Hlt.
  destruct (is_ok (nm_status n)) eqn:Eok.
  - destruct (nm_msg n) as [m|] eqn:Em; [|discriminate].
    assert (Hr : received all m).
    { exists n. split; [exact Hin|]. split; [apply is_ok_true, Eok | exact Em]. }
    destruct (_checkMsg m false (fs_err st)) as [[s u] e'] eqn:Ec.
    injection H as <-.
    destruct (is_ok s && u) eqn:Eu.
    + apply andb_true_iff in Eu as [E1 ->].
      apply sorted_collect; [assumption .. | exact (checkMsg_user _ _ _ _ _ Ec E1) | exact Hr].
    + apply sorted_discard; [assumption | exact (checkMsg_not_user _ _ _ _ _ _ Ec Eu) | exact Hr].
  - injection H as <-. exact Hs.
Qed.

Lemma sorted_wait_step n st st' :
  wait_step subj rply batch start reqs n st = Some st' -> n ∈ all ->
  sorted batch all st -> fs_count st < batch -> sorted batch all st'.
Proof.
  unfold wait_step. intros H Hin Hs Hlt.
  destruct (is_ok (nm_status n)) eqn:Eok.
  - destruct (nm_msg n) as [m|] eqn:Em; [|discriminate].
    assert (Hr : received all m).
    { exists n. split; [exact Hin|]. split; [apply is_ok_true, Eok | exact Em]. }
    destruct (_checkMsg m true (fs_err st)) as [[s u] e'] eqn:Ec.
    destruct (is_ok s && u) eqn:Eu.
    + injection H as <-. apply andb_true_iff in Eu as [E1 ->].
      apply sorted_collect; [assumption .. | exact (checkMsg_user _ _ _ _ _ Ec E1) | exact Hr].
    + assert (Hd : sorted batch all (discard st s m e'))
        by (apply sorted_discard;
            [assumption | exact (checkMsg_not_user _ _ _ _ _ _ Ec Eu) | exact Hr]).
      match type of H with (if ?b then _ else _) = _ => destruct b end;
        injection H as <-; [apply sorted_request|]; exact Hd.
  - injection H as <-. exact Hs.
Qed.

Lemma sorted_fetch_drain pmc nexts : forall st st' rest,
  fetch_drain batch pmc nexts st = Some (st', rest) ->
  (forall n, n ∈ nexts -> n ∈ all) ->
  sorted batch all st ->
  sorted batch all st' /\ (forall n, n ∈ rest -> n ∈ all).
Proof.
  induction nexts as [|n nexts IH]; intros st st' rest H Hall Hs;
    cbn [fetch_drain] in H;
    destruct (pmc && is_ok (fs_status st) && (fs_count st <? batch)) eqn:Eg;
    try discriminate; try (injection H as <- <-; split; assumption).
  apply andb_true_iff in Eg as [_ Elt]. apply Z.ltb_lt in Elt.
  destruct (drain_step n st) as [st1|] eqn:Ed; [|discriminate].
  apply (IH st1 st' rest H).
  - intros n' Hn'. apply Hall. now apply list_elem_of_further.
  - apply (sorted_drain_step n st st1 Ed); [apply Hall, list_elem_of_here | exact Hs | exact Elt].
Qed.

Lemma sorted_fetch_wait nexts : forall st st',
  fetch_wait subj rply batch start reqs nexts st = Some st' ->
  (forall n, n ∈ nexts -> n ∈ all) ->
  sorted batch all st -> sorted batch all st'.
Proof.
  induction nexts as [|n nexts IH]; intros st st' H Hall Hs;
    cbn [fetch_wait] in H;
    destruct (is_ok (fs_status st) && (fs_count st <? batch)) eqn:Eg;
    try discriminate; try (injection H as <-; assumption).
  apply andb_true_iff in Eg as [_ Elt]. apply Z.ltb_lt in Elt.
  destruct (wait_step subj rply batch start reqs n st) as [st1|] eqn:Ed; [|discriminate].
  apply (IH st1 st' H).
  - intros n' Hn'. apply Hall. now apply list_elem_of_further.
  - apply (sorted_wait_step n st st1 Ed); [apply Hall, list_elem_of_here | exact Hs | exact Elt].
Qed.

Lemma sorted_fetch_collect pmc timeout e st :
  0 <= batch ->
  fetch_collect subj rply batch start reqs pmc timeout all e = Some st ->
  sorted batch all st.
Proof.
  intros Hb. unfold fetch_collect.
  destruct (fetch_drain batch pmc all _) as [[st1 rest]|] eqn:Ed; [|discriminate].
  destruct (sorted_fetch_drain pmc all _ st1 rest Ed) as [Hs1 Hrest].
  - intros n Hn. exact Hn.
  - unfold sorted. cbn [fs_count fs_msgs fs_destroyed length].
    split; [reflexivity|]. split; [exact Hb|].
    split; intros m Hm; inversion Hm.
  - match goal with |- (if ?b then _ else _) = _ -> _ => destruct b end.
    + intros H. apply (sorted_fetch_wait rest _ st H Hrest).
      apply sorted_request, Hs1.
    + intros [= <-]. exact Hs1.
Qed.

End FetchSorted.

(** A user message is one in which [_checkMsg] finds no status. *)
Lemma user_message_spec m : is_user_msg m <-> user_message m = true.
Proof.
  split.
  - intros H. rewrite <- (checkMsg_kept m true None), (H true None). reflexivity.
  - intros H c e0. pose proof (checkMsg_kept m c e0) as Hk. rewrite H in Hk.
    apply andb_true_iff in Hk as [Hs Hu].
    pose proof (checkMsg_err m c e0 (or_intror (or_introl Hs))) as He.
    apply is_ok_true in Hs.
    destruct (_checkMsg m c e0) as [[s u] e1]. cbn in Hs, Hu, He.
    congruence.
Qed.

(** X25: a fetch hands back user messages only, no more than asked, and
    drops none.  In a completed [natsSubscription_Fetch] the list holds at
    most [batch] messages; every message of the list is a user message
    returned by [natsSub_nextMsg]; every message destroyed was returned by
    [natsSub_nextMsg] too and is not a user message (a status, or a message
    whose headers cannot be read).  Moreover the call takes the returns
    [used] and nothing after them (none when it is refused on its
    arguments, else as [fetch_ends] tells); the list holds exactly the user
    messages of [used], in the order received, and the other messages of
    [used] are exactly those destroyed: no status message reaches the
    caller and no user message taken from [natsSub_nextMsg] is dropped. *)
Theorem fetch_sorts_messages
    (has_list : bool) (sub : option natsSubscription) (batch timeout : Z)
    (calloc_ok : bool) (start : Z) (reqs : nat -> req_env)
    (nexts : list next_msg) (e : errSlot) (r : fetch_result) :
  natsSubscription_Fetch has_list sub batch timeout calloc_ok start reqs nexts e = Some r ->
  0 <= fr_count r <= Z.max 0 batch /\
  (forall m, m ∈ fr_msgs r -> is_user_msg m /\ received nexts m) /\
  (forall m, m ∈ fr_destroyed r -> ~ is_user_msg m /\ received nexts m) /\
  (exists used rest,
     nexts = (used ++ rest)%list /\
     (used = [] \/
      exists sb jsi s' e',
        sub = Some sb /\ sub_jsi sb = Some jsi /\
        fetch_ends (jsi_nxtMsgSubj jsi) (sub_subject sb) batch timeout start reqs
                   (0 <? sub_msgs sb) e used (fr_calls r) (fr_sent r) s' e') /\
     fr_msgs r = user_messages used /\
     fr_destroyed r = other_messages used /\
     (forall m, received used m ->
        (is_user_msg m -> m ∈ fr_msgs r) /\
        (~ is_user_msg m -> m ∈ fr_destroyed r))).
Proof.
  intros H.
  assert (Hold : 0 <= fr_count r <= Z.max 0 batch /\
                 (forall m, m ∈ fr_msgs r -> is_user_msg m /\ received nexts m) /\
                 (forall m, m ∈ fr_destroyed r -> ~ is_user_msg m /\ received nexts m)).
  { apply fetch_cases in H
      as [(s & txt & Hs & ->) | (Hb & subj & rply & pmc & st & Hc & ->)].
    - cbn. split; [lia|]. split; intros m Hm; inversion Hm.
    - assert (Hb0 : 0 <= batch) by lia.
      destruct (sorted_fetch_collect subj rply batch start reqs nexts pmc timeout e st
                  Hb0 Hc) as (Hcnt & Hle & Hm & Hd).
      unfold fetch_finish. destruct (0 <? fs_count st) eqn:Ez.
      + apply Z.ltb_lt in Ez. cbn [fr_count fr_msgs fr_destroyed].
        split; [lia|]. split; assumption.
      + cbn [fr_count fr_msgs fr_destroyed].
        split; [lia|]. split; [intros m Hin; inversion Hin | exact Hd]. }
  destruct Hold as (H1 & H2 & H3).
  split; [exact H1|]. split; [exact H2|]. split; [exact H3|].
  assert (Hall : forall used, fr_msgs r = user_messages used ->
                   fr_destroyed r = other_messages used ->
                   forall m, received used m ->
                     (is_user_msg m -> m ∈ fr_msgs r) /\
                     (~ is_user_msg m -> m ∈ fr_destroyed r)).
  { intros used Hm Hd m (n & Hin & Hs & Hn).
    rewrite Hm, Hd. unfold user_messages, other_messages.
    split; intros Hu; apply list_elem_of_omap; exists n; (split; [exact Hin|]).
    - apply user_message_spec in Hu. unfold kept. now rewrite Hs, Hn, Hu.
    - unfold dropped. rewrite Hs, Hn. cbn [is_ok].
      destruct (user_message m) eqn:Eu; [|reflexivity].
      exfalso. apply Hu, user_message_spec, Eu. }
  apply fetch_trace in H
    as [(s & txt & Hs & ->)
       |(sb & jsi & used & rest & s' & e' & -> & Hj & Hb & -> & He & Hm & _ & Hd & _)].
  - exists [], nexts. split; [reflexivity|]. split; [left; reflexivity|].
    split; [reflexivity|]. split; [reflexivity|].
    apply Hall; reflexivity.
  - exists used, rest. split; [reflexivity|]. split.
    { right. exists sb, jsi, s', e'. split; [reflexivity|]. split; [exact Hj|exact He]. }
    split; [exact Hm|]. split; [exact Hd|]. apply Hall; assumption.
Qed.

Lemma fetch_sorts_messages_witness :
  exists r, queued_fetch = Some r /\
            fr_count r = 2 /\
            (forall m, m ∈ fr_msgs r -> is_user_msg m) /\
            (forall m, m ∈ fr_destroyed r -> ~ is_user_msg m) /\
            fr_msgs r = [user_msg 1; user_msg 2] /\
            exists used rest, queued_nexts = (used ++ rest)%list /\
                              fr_msgs r = user_messages used.
Proof.
  eexists. split; [vm_compute; reflexivity|]. split; [reflexivity|].
  pose proof (fetch_sorts_messages true (Some queued_sub) 5 1000 true 1000
                scenario_reqs queued_nexts None _ eq_refl)
    as (_ & Hm & Hd & used & rest & E & _ & Hu & _).
  split; [intros m Hin; apply (Hm m Hin)|].
  split; [intros m Hin; apply (Hd m Hin)|].
  split; [reflexivity|]. exists used, rest. split; [exact E|exact Hu].
Defined.



(** ** Subscribing *)

Section SubscribeFacts.

Variable js_DeliverByStartSequence js_DeliverByStartTime js_AckNone : Z.
Variable JSNotEnabledErr JSConsumerExistingActiveErr JSConsumerNameExistErr : Z.
Variable NATS_OPTS_DEFAULT_MAX_PENDING_MSGS : Z.
Variable jsErrNoHeartbeatForQueueSub jsErrNoFlowControlForQueueSub : string.
Variable jsErrPullSubscribeToPushConsumer jsErrPullSubscribeRequired : string.
Variable jsErrNoStreamMatchesSubject : string.
Variable IFOK_JSR_status : natsStatus -> natsStatus.
Variable jsApiStreams : string -> string.
Variable jsApiRequestNextT : cstr -> cstr -> cstr -> string.

Section Pass.

Variable env : sub_env.
Variable subject : string.
Variable usrCB isPullMode errCode_ok : bool.
Variable opts : jsSubOptions.
Variable jo : jsOptions.
Variable freePfx : bool.
Variable stream consumer durable : cstr.
Variable consBound lookupErr : bool.

Lemma pass_decide_fields k v v' create cfg stop :
  pass_decide js_AckNone NATS_OPTS_DEFAULT_MAX_PENDING_MSGS
    jsErrNoHeartbeatForQueueSub jsErrNoFlowControlForQueueSub
    jsErrPullSubscribeToPushConsumer jsErrPullSubscribeRequired
    env subject isPullMode opts durable consBound lookupErr k v = (v', create, cfg, stop) ->
  sv_retains v' = sv_retains v /\ sv_destroyed v' = sv_destroyed v /\
  sv_ops v' = sv_ops v /\
  is_ok (sv_s v') = negb stop /\
  (create = true ->
   sv_info v = None /\ stop = false /\
   cfg = Some (create_config js_AckNone NATS_OPTS_DEFAULT_MAX_PENDING_MSGS
                 (so_Config opts) isPullMode (snd (pa_inbox (se_pass env k)))
                 durable (so_Queue opts) (Some subject)) /\
   sv_hbi v' = Z.quot (Heartbeat (so_Config opts)) 1000000 /\
   (isPullMode = false ->
    sv_deliver v' = Some (snd (pa_inbox (se_pass env k))))) /\
  (sv_info v <> None -> create = false).
Proof.
  unfold pass_decide. destruct (sv_info v) as [info|] eqn:Ei.
  - destruct (in_Config info) as [ccfg|].
    + destruct (_processConsInfo _ _ _ _ _ _ _ _ _ _) as [[s d] e].
      destruct (is_ok s) eqn:Es; cbn [negb]; intros [= <- <- <- <-];
        cbn [sv_retains sv_destroyed sv_ops sv_s]; rewrite ?Es;
        repeat split; intros; try discriminate.
    + cbn [nats_setError]. intros [= <- <- <- <-]. cbn.
      repeat split; intros; try discriminate.
  - destruct ((negb (is_ok (sv_s v)) && negb (is_not_found (sv_s v)))
              || (is_not_found (sv_s v) && consBound)) eqn:Eerr.
    + destruct (negb (isPullMode && lookupErr && consBound));
        intros [= <- <- <- <-]; cbn [set_s sv_retains sv_destroyed sv_ops sv_s is_ok negb];
        repeat split; intros; try discriminate; try congruence.
      apply orb_true_iff in Eerr as [H|H].
      * apply andb_true_iff in H as [H _]. now apply negb_true_iff in H.
      * apply andb_true_iff in H as [H _]. destruct (sv_s v); try discriminate H; reflexivity.
    + intros [= <- <- <- <-]. cbn. repeat split; intros; try congruence.
      subst isPullMode. reflexivity.
Qed.

Lemma pass_jsi_fields k v s e jsi nxt js_set :
  pass_jsi jsApiRequestNextT env isPullMode jo stream consumer k v = (s, e, jsi, nxt, js_set) ->
  is_ok (sv_s v) = true ->
  js_set = is_ok s /\ (js_set = true -> jsi = true).
Proof.
  unfold pass_jsi. intros H Hs.
  destruct (negb (pa_calloc (se_pass env k))).
  - cbn in H. injection H as <- <- <- <- <-. split; [reflexivity|discriminate].
  - destruct isPullMode; [destruct (pa_asprintf (se_pass env k))|];
      cbn [nats_setDefaultError nats_setError is_ok] in H; rewrite ?Hs in H;
      try destruct (pa_dup (se_pass env k));
      cbn [nats_setDefaultError nats_setError is_ok] in H;
      injection H as <- <- <- <- <-; rewrite ?Hs; split; reflexivity.
Qed.

Lemma pass_sub_fields k v s nxt js_set s' deliver ops sub :
  pass_sub js_AckNone env usrCB isPullMode opts stream k v s nxt js_set = (s', deliver, ops, sub) ->
  (is_ok s' = true -> sub <> None) /\
  (sub <> None -> is_ok s = true) /\
  (forall sb, sub = Some sb ->
     jsb_deliver sb = deliver /\ jsb_queue sb = so_Queue opts /\
     jsb_cb sb = pass_cb js_AckNone usrCB opts js_set /\
     jsb_stream sb = stream /\ jsb_consumer sb = None /\ jsb_hbi sb = sv_hbi v /\
     jsb_pull sb = isPullMode /\ jsb_nxtMsgSubj sb = nxt /\ jsb_dc sb = false /\
     (forall t, jsb_timer sb = Some t ->
        t = sv_hbi v * 2 /\ 0 < sv_hbi v /\ se_asyncErrCb env = true) /\
     (isPullMode = true -> deliver = Some (snd (pa_inbox (se_pass env k)))) /\
     (isPullMode = false -> deliver = sv_deliver v) /\
     ops = (sv_ops v ++ [OpSubscribe deliver (so_Queue opts)])%list).
Proof.
  unfold pass_sub. destruct (is_ok s) eqn:Es.
  2:{ intros [= <- <- <- <-]. rewrite Es.
      repeat split; intros; try discriminate; try congruence. }
  set (pa := se_pass env k).
  destruct isPullMode eqn:Ep.
  - destruct (is_ok (fst (pa_inbox pa))) eqn:Ein.
    2:{ intros [= <- <- <- <-]. rewrite Ein.
        repeat split; intros; try discriminate; try congruence. }
    destruct (is_ok (pa_subscribe pa)) eqn:Esub.
    2:{ intros [= <- <- <- <-]. rewrite Esub.
        repeat split; intros; try discriminate; try congruence. }
    destruct ((0 <? sv_hbi v) && se_asyncErrCb env) eqn:Et.
    + apply andb_true_iff in Et as [Eh Ea]. apply Z.ltb_lt in Eh.
      intros [= <- <- <- <-].
      split; [intros _; discriminate|]. split; [reflexivity|].
      intros sb [= <-]. cbn.
      repeat split; try reflexivity; try assumption; try discriminate;
        destruct (is_ok (pa_timer pa)); intros; try discriminate; try congruence;
        try (injection H as <-; reflexivity); assumption.
    + intros [= <- <- <- <-].
      split; [intros _; discriminate|]. split; [reflexivity|].
      intros sb [= <-]. cbn.
      repeat split; try reflexivity; intros; discriminate.
  - cbv beta iota. rewrite Es.
    destruct (is_ok (pa_subscribe pa)) eqn:Esub.
    2:{ intros [= <- <- <- <-]. rewrite Esub.
        repeat split; intros; try discriminate; try congruence. }
    destruct ((0 <? sv_hbi v) && se_asyncErrCb env) eqn:Et.
    + apply andb_true_iff in Et as [Eh Ea]. apply Z.ltb_lt in Eh.
      intros [= <- <- <- <-].
      split; [intros _; discriminate|]. split; [reflexivity|].
      intros sb [= <-]. cbn.
      repeat split; try reflexivity; try assumption; try discriminate;
        destruct (is_ok (pa_timer pa)); intros; try discriminate; try congruence;
        try (injection H as <-; reflexivity); assumption.
    + intros [= <- <- <- <-].
      split; [intros _; discriminate|]. split; [reflexivity|].
      intros sb [= <-]. cbn.
      repeat split; try reflexivity; intros; discriminate.
Qed.

Lemma subscribe_end_accounted v sub jsi js_set out :
  subscribe_end errCode_ok freePfx v sub jsi js_set = Some out ->
  (is_ok (sv_s v) = true -> sub <> None) ->
  sv_retains v
  = (length (sv_destroyed v)
     + match sub with
       | Some _ => 1
       | None => if jsi && js_set then 1 else 0
       end)%nat ->
  accounted out /\ sb_ops out = sv_ops v /\ sb_status out = sv_s v /\
  (forall sb, sb_sub out = Some sb -> sub = Some sb).
Proof.
  unfold subscribe_end, accounted. intros H Hs Hr.
  destruct (is_ok (sv_s v)) eqn:Es.
  - injection H as <-. cbn.
    destruct sub as [sb|]; [|now specialize (Hs eq_refl)].
    apply is_ok_true in Es.
    repeat split; auto; try lia.
  - apply is_ok_false in Es.
    destruct sub as [sb|]; [|destruct jsi; [destruct js_set; [|discriminate H]|]];
      injection H as <-; cbn; rewrite ?length_app; cbn in *;
      (repeat split; auto; try lia; try (intros [? ?]; discriminate);
       try (intros ? ?; discriminate); try (intros ?; contradiction)).
Qed.

Lemma pass_attach_end k v1 s e jsi nxt js_set s2 deliver ops sub out :
  pass_jsi jsApiRequestNextT env isPullMode jo stream consumer k v1
  = (s, e, jsi, nxt, js_set) ->
  pass_sub js_AckNone env usrCB isPullMode opts stream k v1 s nxt js_set
  = (s2, deliver, ops, sub) ->
  is_ok (sv_s v1) = true ->
  sv_retains v1 = length (sv_destroyed v1) ->
  subscribe_end errCode_ok freePfx
    (mkSubVars s2 (sv_info v1) (sv_jerr v1) deliver (sv_hbi v1) ops
               (sv_destroyed v1)
               (if js_set then S (sv_retains v1) else sv_retains v1) e)
    sub jsi js_set = Some out ->
  accounted out /\
  forall sb, sb_sub out = Some sb ->
    subscribed_as js_AckNone NATS_OPTS_DEFAULT_MAX_PENDING_MSGS env subject
                  usrCB isPullMode opts stream durable (sb_ops out) sb.
Proof.
  intros Ej Ep Es Hr H.
  apply pass_jsi_fields in Ej as (Ejs & Ejj); [|exact Es].
  apply pass_sub_fields in Ep as (Ep1 & Ep2 & Ep3).
  apply subscribe_end_accounted in H as (Ha & Ho & _ & Hsb).
  - split; [exact Ha|]. intros sb E. apply Hsb in E.
    assert (Hset : js_set = true).
    { rewrite Ejs. apply Ep2. rewrite E. discriminate. }
    destruct (Ep3 sb E) as (F1 & F2 & F3 & F4 & F5 & F6 & F7 & F8 & F9 & F10 & F11 & F12 & F13).
    rewrite Hset in F3. unfold pass_cb in F3.
    unfold subscribed_as. rewrite Ho. cbn [sv_ops].
    split; [exact F7|]. split; [exact F2|]. split; [exact F4|].
    split; [exact F3|]. split; [|split].
    + intros t Ht. rewrite F6. exact (F10 t Ht).
    + intros Hdc. rewrite F9 in Hdc. discriminate Hdc.
    + intros _. split; [exact F5|].
      exists (sv_ops v1). rewrite F1. exact F13.
  - cbn [sv_s]. exact Ep1.
  - cbn [sv_retains sv_destroyed].
    destruct sub as [sb|].
    + assert (Hset : js_set = true).
      { rewrite Ejs. apply Ep2. discriminate. }
      rewrite Hset. lia.
    + destruct js_set.
      * rewrite (Ejj eq_refl). cbn. lia.
      * rewrite andb_false_r. lia.
Qed.

Lemma subscribe_end_failed v sb out :
  subscribe_end errCode_ok freePfx v (Some sb) true true = Some out ->
  is_ok (sv_s v) = false ->
  sv_retains v = S (length (sv_destroyed v)) ->
  accounted out /\ sb_sub out = None.
Proof.
  intros H Es Hr.
  apply subscribe_end_accounted in H as (Ha & _ & Hst & _).
  - split; [exact Ha|].
    destruct Ha as (_ & Hiff & _).
    destruct (sb_sub out) as [sb0|] eqn:E; [|reflexivity].
    assert (Hok : sb_status out = NATS_OK) by (apply Hiff; eauto).
    rewrite Hst in Hok. rewrite Hok in Es. discriminate Es.
  - rewrite Es. discriminate.
  - rewrite Hr. lia.
Qed.

Lemma subscribe_pass_inv fuel : forall k v out,
  subscribe_pass js_AckNone JSConsumerExistingActiveErr JSConsumerNameExistErr
    NATS_OPTS_DEFAULT_MAX_PENDING_MSGS jsErrNoHeartbeatForQueueSub
    jsErrNoFlowControlForQueueSub jsErrPullSubscribeToPushConsumer
    jsErrPullSubscribeRequired jsApiRequestNextT env subject usrCB isPullMode
    errCode_ok opts jo freePfx stream consumer durable consBound lookupErr
    fuel k v = Some out ->
  sv_retains v = length (sv_destroyed v) ->
  accounted out /\
  forall sb, sb_sub out = Some sb ->
    subscribed_as js_AckNone NATS_OPTS_DEFAULT_MAX_PENDING_MSGS env subject
                  usrCB isPullMode opts stream durable (sb_ops out) sb.
Proof.
  induction fuel as [|fuel IH]; intros k v out H Hr; [discriminate H|].
  cbn [subscribe_pass] in H.
  destruct (pass_decide _ _ _ _ _ _ _ _ _ _ _ _ _ k v) as [[[v1 create] cfg] stop] eqn:Ed.
  apply pass_decide_fields in Ed as (Er1 & Ed1 & Eo1 & Es1 & Ec1 & Ei1).
  destruct stop.
  { apply subscribe_end_accounted in H as (Ha & _ & _ & Hsb).
    - split; [exact Ha|]. intros sb E. apply Hsb in E. discriminate E.
    - rewrite Es1. discriminate.
    - rewrite Er1, Ed1, Hr. cbn. lia. }
  cbn [negb] in Es1.
  assert (Hr1 : sv_retains v1 = length (sv_destroyed v1)) by (rewrite Er1, Ed1; exact Hr).
  destruct (pass_jsi _ _ _ _ _ _ k v1) as [[[[s e] jsi] nxt] js_set] eqn:Ej.
  destruct (pass_sub _ _ _ _ _ _ k v1 s nxt js_set) as [[[s2 deliver] ops] sub] eqn:Ep.
  destruct create; [|exact (pass_attach_end _ _ _ _ _ _ _ _ _ _ _ _ Ej Ep Es1 Hr1 H)].
  destruct cfg as [cfg|]; [|exact (pass_attach_end _ _ _ _ _ _ _ _ _ _ _ _ Ej Ep Es1 Hr1 H)].
  destruct sub as [sb|]; [|exact (pass_attach_end _ _ _ _ _ _ _ _ _ _ _ _ Ej Ep Es1 Hr1 H)].
  destruct (is_ok s2) eqn:Es2; [|exact (pass_attach_end _ _ _ _ _ _ _ _ _ _ _ _ Ej Ep Es1 Hr1 H)].
  destruct (Ec1 eq_refl) as (_ & _ & Ecfg & Ehbi & Edlv).
  injection Ecfg as ->.
  apply pass_jsi_fields in Ej as (Ejs & Ejj); [|exact Es1].
  apply pass_sub_fields in Ep as (Ep1 & Ep2 & Ep3).
  assert (Hset : js_set = true).
  { rewrite Ejs. apply Ep2. discriminate. }
  subst js_set. rewrite Hset in *. cbn [sv_hbi sv_destroyed] in H.
  destruct (Ep3 sb eq_refl) as (F1 & F2 & F3 & F4 & F5 & F6 & F7 & F8 & F9 & F10 & F11 & F12 & F13).
  destruct (is_ok (cr_status (pa_add (se_pass env k)))) eqn:Eadd; cbn [negb] in H.
  2:{ destruct (negb (_ =? _) && negb (_ =? _)).
      - apply subscribe_end_failed in H as (Ha & Hn);
          [|exact Eadd|cbn; rewrite Hr1; reflexivity].
        split; [exact Ha|]. intros sb0 E. rewrite Hn in E. discriminate E.
      - destruct (is_ok (cr_status (pa_info (se_pass env k)))) eqn:Einf;
          cbn [negb] in H.
        + apply IH in H; [exact H|].
          cbn. rewrite length_app, Hr1. cbn. lia.
        + apply subscribe_end_failed in H as (Ha & Hn);
            [|exact Einf|cbn; rewrite Hr1; reflexivity].
          split; [exact Ha|]. intros sb0 E. rewrite Hn in E. discriminate E. }
  destruct (cr_info (pa_add (se_pass env k))) as [info|]; [|discriminate H].
  destruct (pa_dup_name (se_pass env k)).
  2:{ cbn [nats_setDefaultError nats_setError] in H.
      apply subscribe_end_failed in H as (Ha & Hn);
        [|reflexivity|cbn; rewrite Hr1; reflexivity].
      split; [exact Ha|]. intros sb0 E. rewrite Hn in E. discriminate E. }
  apply subscribe_end_accounted in H as (Ha & Ho & _ & Hsb);
    [|discriminate|cbn; rewrite Hr1; lia].
  split; [exact Ha|]. intros sb0 E. apply Hsb in E. injection E as <-.
  unfold subscribed_as, mark_created. rewrite Ho.
  cbn [jsb_pull jsb_queue jsb_stream jsb_cb jsb_timer jsb_hbi jsb_dc
       jsb_consumer jsb_deliver sv_ops].
  split; [exact F7|]. split; [exact F2|]. split; [exact F4|].
  split; [exact F3|]. split; [|split].
  - intros t Ht. rewrite F6. exact (F10 t Ht).
  - intros _. exists (sv_ops v1), (snd (pa_inbox (se_pass env k))).
    split; [|split].
    + rewrite F13, F1, <- app_assoc. reflexivity.
    + rewrite F6. exact Ehbi.
    + intros Hp. rewrite F1, (F12 Hp). exact (Edlv Hp).
  - intros Hdc. discriminate Hdc.
Qed.

(** *** The number of passes *)

Lemma subscribe_pass_attach f1 f2 k v :
  sv_info v <> None ->
  subscribe_pass js_AckNone JSConsumerExistingActiveErr JSConsumerNameExistErr
    NATS_OPTS_DEFAULT_MAX_PENDING_MSGS jsErrNoHeartbeatForQueueSub
    jsErrNoFlowControlForQueueSub jsErrPullSubscribeToPushConsumer
    jsErrPullSubscribeRequired jsApiRequestNextT env subject usrCB isPullMode
    errCode_ok opts jo freePfx stream consumer durable consBound lookupErr
    (S f1) k v
  = subscribe_pass js_AckNone JSConsumerExistingActiveErr JSConsumerNameExistErr
      NATS_OPTS_DEFAULT_MAX_PENDING_MSGS jsErrNoHeartbeatForQueueSub
      jsErrNoFlowControlForQueueSub jsErrPullSubscribeToPushConsumer
      jsErrPullSubscribeRequired jsApiRequestNextT env subject usrCB isPullMode
      errCode_ok opts jo freePfx stream consumer durable consBound lookupErr
      (S f2) k v.
Proof.
  intros Hi. cbn [subscribe_pass].
  destruct (pass_decide _ _ _ _ _ _ _ _ _ _ _ _ _ k v) as [[[v1 create] cfg] stop] eqn:Ed.
  apply pass_decide_fields in Ed as (_ & _ & _ & _ & _ & Ei1).
  rewrite (Ei1 Hi). destruct stop; [reflexivity|].
  destruct (pass_jsi _ _ _ _ _ _ k v1) as [[[[s e] jsi] nxt] js_set].
  destruct (pass_sub _ _ _ _ _ _ k v1 s nxt js_set) as [[[s2 deliver] ops] sub].
  reflexivity.
Qed.

Lemma subscribe_pass_two_passes f k v :
  infos_present env ->
  subscribe_pass js_AckNone JSConsumerExistingActiveErr JSConsumerNameExistErr
    NATS_OPTS_DEFAULT_MAX_PENDING_MSGS jsErrNoHeartbeatForQueueSub
    jsErrNoFlowControlForQueueSub jsErrPullSubscribeToPushConsumer
    jsErrPullSubscribeRequired jsApiRequestNextT env subject usrCB isPullMode
    errCode_ok opts jo freePfx stream consumer durable consBound lookupErr
    (S (S f)) k v
  = subscribe_pass js_AckNone JSConsumerExistingActiveErr JSConsumerNameExistErr
      NATS_OPTS_DEFAULT_MAX_PENDING_MSGS jsErrNoHeartbeatForQueueSub
      jsErrNoFlowControlForQueueSub jsErrPullSubscribeToPushConsumer
      jsErrPullSubscribeRequired jsApiRequestNextT env subject usrCB isPullMode
      errCode_ok opts jo freePfx stream consumer durable consBound lookupErr
      2 k v.
Proof.
  intros Hinf.
  change 2%nat with (S 1).
  remember 1%nat as g eqn:Hg.
  remember (S f) as f' eqn:Hf.
  cbn [subscribe_pass].
  destruct (pass_decide _ _ _ _ _ _ _ _ _ _ _ _ _ k v) as [[[v1 create] cfg] stop].
  destruct stop; [reflexivity|].
  destruct (pass_jsi _ _ _ _ _ _ k v1) as [[[[s e] jsi] nxt] js_set].
  destruct (pass_sub _ _ _ _ _ _ k v1 s nxt js_set) as [[[s2 deliver] ops] sub].
  destruct create; [|reflexivity].
  destruct cfg as [cfg|]; [|reflexivity].
  destruct sub as [sb|]; [|reflexivity].
  destruct (is_ok s2); [|reflexivity].
  destruct (negb (is_ok (cr_status (pa_add (se_pass env k))))); [|reflexivity].
  destruct (negb (_ =? _) && negb (_ =? _)); [reflexivity|].
  destruct (is_ok (cr_status (pa_info (se_pass env k)))) eqn:Einf;
    cbn [negb]; [|reflexivity].
  subst f' g. apply subscribe_pass_attach. cbn [sv_info].
  apply Hinf. apply is_ok_true. exact Einf.
Qed.

Lemma pass_jsi_allocated k v s e jsi nxt js_set :
  (pa_calloc (se_pass env k) = true ->
   (isPullMode = true -> pa_asprintf (se_pass env k) = true)
   /\ pa_dup (se_pass env k) = true) ->
  pass_jsi jsApiRequestNextT env isPullMode jo stream consumer k v
  = (s, e, jsi, nxt, js_set) ->
  is_ok (sv_s v) = true ->
  jsi = js_set.
Proof.
  unfold pass_jsi. intros Hm H Hs.
  destruct (pa_calloc (se_pass env k)); cbn [negb] in H.
  - destruct (Hm eq_refl) as (Ha & Hd). rewrite Hd in H.
    destruct isPullMode; [rewrite (Ha eq_refl) in H|];
      rewrite Hs in H; injection H as <- <- <- <- <-; rewrite Hs; reflexivity.
  - cbn in H. injection H as <- <- <- <- <-. reflexivity.
Qed.

Lemma subscribe_end_defined v sub jsi js_set :
  (sub = None -> jsi = js_set) ->
  exists out, subscribe_end errCode_ok freePfx v sub jsi js_set = Some out.
Proof.
  intros Hj. unfold subscribe_end.
  destruct (is_ok (sv_s v)); [eexists; reflexivity|].
  destruct sub; [eexists; reflexivity|].
  rewrite (Hj eq_refl). destruct js_set; eexists; reflexivity.
Qed.

Lemma subscribe_pass_attach_defined f k v :
  (forall k, pa_calloc (se_pass env k) = true ->
     (isPullMode = true -> pa_asprintf (se_pass env k) = true)
     /\ pa_dup (se_pass env k) = true) ->
  sv_info v <> None ->
  exists out,
    subscribe_pass js_AckNone JSConsumerExistingActiveErr JSConsumerNameExistErr
      NATS_OPTS_DEFAULT_MAX_PENDING_MSGS jsErrNoHeartbeatForQueueSub
      jsErrNoFlowControlForQueueSub jsErrPullSubscribeToPushConsumer
      jsErrPullSubscribeRequired jsApiRequestNextT env subject usrCB isPullMode
      errCode_ok opts jo freePfx stream consumer durable consBound lookupErr
      (S f) k v = Some out.
Proof.
  intros Hmem Hi. cbn [subscribe_pass].
  destruct (pass_decide _ _ _ _ _ _ _ _ _ _ _ _ _ k v) as [[[v1 create] cfg] stop] eqn:Ed.
  apply pass_decide_fields in Ed as (_ & _ & _ & Es1 & _ & Ei1).
  rewrite (Ei1 Hi). destruct stop.
  { apply subscribe_end_defined. reflexivity. }
  destruct (pass_jsi _ _ _ _ _ _ k v1) as [[[[s e] jsi] nxt] js_set] eqn:Ej.
  destruct (pass_sub _ _ _ _ _ _ k v1 s nxt js_set) as [[[s2 deliver] ops] sub].
  apply subscribe_end_defined. intros _.
  exact (pass_jsi_allocated _ _ _ _ _ _ _ (Hmem k) Ej Es1).
Qed.

Lemma subscribe_pass_defined f k v :
  (forall k, pa_calloc (se_pass env k) = true ->
     (isPullMode = true -> pa_asprintf (se_pass env k) = true)
     /\ pa_dup (se_pass env k) = true) ->
  (forall k, cr_status (pa_add (se_pass env k)) = NATS_OK ->
     cr_info (pa_add (se_pass env k)) <> None) ->
  infos_present env ->
  exists out,
    subscribe_pass js_AckNone JSConsumerExistingActiveErr JSConsumerNameExistErr
      NATS_OPTS_DEFAULT_MAX_PENDING_MSGS jsErrNoHeartbeatForQueueSub
      jsErrNoFlowControlForQueueSub jsErrPullSubscribeToPushConsumer
      jsErrPullSubscribeRequired jsApiRequestNextT env subject usrCB isPullMode
      errCode_ok opts jo freePfx stream consumer durable consBound lookupErr
      (S (S f)) k v = Some out.
Proof.
  intros Hmem Hadd Hinf.
  remember (S f) as f' eqn:Hf.
  cbn [subscribe_pass].
  destruct (pass_decide _ _ _ _ _ _ _ _ _ _ _ _ _ k v) as [[[v1 create] cfg] stop] eqn:Ed.
  apply pass_decide_fields in Ed as (_ & _ & _ & Es1 & _ & _).
  destruct stop.
  { apply subscribe_end_defined. reflexivity. }
  destruct (pass_jsi _ _ _ _ _ _ k v1) as [[[[s e] jsi] nxt] js_set] eqn:Ej.
  pose proof (pass_jsi_allocated _ _ _ _ _ _ _ (Hmem k) Ej Es1) as Hj.
  destruct (pass_sub _ _ _ _ _ _ k v1 s nxt js_set) as [[[s2 deliver] ops] sub].
  destruct create; [|apply subscribe_end_defined; intros _; exact Hj].
  destruct cfg as [cfg|]; [|apply subscribe_end_defined; intros _; exact Hj].
  destruct sub as [sb|]; [|apply subscribe_end_defined; intros _; exact Hj].
  destruct (is_ok s2); [|apply subscribe_end_defined; intros _; exact Hj].
  destruct (is_ok (cr_status (pa_add (se_pass env k)))) eqn:Eadd; cbn [negb].
  - apply is_ok_true in Eadd. specialize (Hadd k Eadd).
    destruct (cr_info (pa_add (se_pass env k))) as [info|]; [|contradiction].
    destruct (pa_dup_name (se_pass env k));
      cbn [nats_setDefaultError nats_setError];
      apply subscribe_end_defined; discriminate.
  - destruct (negb (_ =? _) && negb (_ =? _)).
    { apply subscribe_end_defined; discriminate. }
    destruct (is_ok (cr_status (pa_info (se_pass env k)))) eqn:Einf; cbn [negb].
    + subst f'. apply subscribe_pass_attach_defined; [exact Hmem|].
      cbn [sv_info]. apply Hinf. apply is_ok_true. exact Einf.
    + apply subscribe_end_defined; discriminate.
Qed.

End Pass.


Section Entry.

Variable env : sub_env.
Variable new_sub_ok : bool.
Variable js : option (jsCtx * jsOptionsStream).
Variable subject pullDurable : cstr.
Variable usrCB isPullMode : bool.
Variable jsOpts : option jsOptionsArg.
Variable opts : option jsSubOptions.
Variable errCode_ok : bool.
Variable e : errSlot.

Lemma subscribe_cases fuel out :
  _subscribe js_DeliverByStartSequence js_DeliverByStartTime js_AckNone
    JSNotEnabledErr JSConsumerExistingActiveErr JSConsumerNameExistErr
    NATS_OPTS_DEFAULT_MAX_PENDING_MSGS jsErrNoHeartbeatForQueueSub
    jsErrNoFlowControlForQueueSub jsErrPullSubscribeToPushConsumer
    jsErrPullSubscribeRequired jsErrNoStreamMatchesSubject IFOK_JSR_status
    jsApiStreams jsApiRequestNextT fuel env new_sub_ok js subject pullDurable
    usrCB isPullMode jsOpts opts errCode_ok e = Some out ->
  let o := effective_opts js_DeliverByStartSequence js_DeliverByStartTime opts in
  (exists s fp e', out = subscribe_return s fp e' /\ s <> NATS_OK
                   /\ (fp = true -> s = NATS_INVALID_ARG))
  \/ (accounted out /\ sb_sub out = None)
  \/ (exists jo fp stream consumer consBound lookupErr v subj,
        subject = Some subj /\
        (nats_IsStringEmpty (so_Stream o) = false -> stream = so_Stream o) /\
        sv_retains v = 0%nat /\ sv_destroyed v = [] /\
        subscribe_pass js_AckNone JSConsumerExistingActiveErr
          JSConsumerNameExistErr NATS_OPTS_DEFAULT_MAX_PENDING_MSGS
          jsErrNoHeartbeatForQueueSub jsErrNoFlowControlForQueueSub
          jsErrPullSubscribeToPushConsumer jsErrPullSubscribeRequired
          jsApiRequestNextT env subj usrCB isPullMode errCode_ok o jo fp stream
          consumer (fst (resolve_names o pullDurable)) consBound lookupErr
          fuel 0 v = Some out).
Proof.
  intros H o. unfold _subscribe in H.
  destruct js as [[ctx st]|].
  2:{ left. cbn in H. injection H as <-. do 3 eexists.
      split; [reflexivity|]. split; [discriminate|discriminate]. }
  destruct (negb new_sub_ok || nats_IsStringEmpty subject) eqn:Earg.
  { left. cbn in H. injection H as <-. do 3 eexists.
    split; [reflexivity|]. split; [discriminate|discriminate]. }
  apply orb_false_iff in Earg as [_ Esubj].
  destruct subject as [subj|]; [|discriminate Esubj].
  cbn [default from_option id] in H.
  destruct (js_setOpts (se_setopts env) ctx st jsOpts e) as [r|]; [|discriminate H].
  destruct (is_ok (so_status r)) eqn:Eset; cbn [negb] in H.
  2:{ left. injection H as <-. do 3 eexists.
      split; [reflexivity|]. split; [|discriminate].
      apply is_ok_false. exact Eset. }
  fold o in H.
  destruct (negb (nats_IsStringEmpty (so_Queue o)) && (0 <? Heartbeat (so_Config o))).
  { left. cbn in H. injection H as <-. do 3 eexists.
    split; [reflexivity|]. split; [discriminate|reflexivity]. }
  destruct (negb (nats_IsStringEmpty (so_Queue o)) && FlowControl (so_Config o)).
  { left. cbn in H. injection H as <-. do 3 eexists.
    split; [reflexivity|]. split; [discriminate|reflexivity]. }
  destruct (resolve_names o pullDurable) as [durable consumer] eqn:En.
  cbn [fst].
  destruct (nats_IsStringEmpty (so_Stream o)) eqn:Estr.
  - destruct (_lookupStreamBySubject _ _ _ _ _ _ _) as [lr|]; [|discriminate H].
    destruct (is_ok (lr_status lr)) eqn:El; cbn [negb] in H.
    + right. right.
      destruct (nats_IsStringEmpty consumer); cbn [negb] in H;
        do 8 eexists; (split; [reflexivity|]); (split; [discriminate|]);
        (split; [|split; [|exact H]]); reflexivity.
    + right. left.
      apply subscribe_end_accounted in H as (Ha & _ & Hst & Hsb).
      * split; [exact Ha|].
        destruct (sb_sub out) as [sb|] eqn:E; [|reflexivity].
        discriminate (Hsb sb eq_refl).
      * cbn. rewrite El. discriminate.
      * reflexivity.
  - cbn [is_ok negb] in H. right. right.
    destruct (nats_IsStringEmpty consumer); cbn [negb] in H;
      do 8 eexists; (split; [reflexivity|]); (split; [intros _; reflexivity|]);
      (split; [|split; [|exact H]]); reflexivity.
Qed.

Lemma subscribe_fuel n :
  infos_present env ->
  _subscribe js_DeliverByStartSequence js_DeliverByStartTime js_AckNone
    JSNotEnabledErr JSConsumerExistingActiveErr JSConsumerNameExistErr
    NATS_OPTS_DEFAULT_MAX_PENDING_MSGS jsErrNoHeartbeatForQueueSub
    jsErrNoFlowControlForQueueSub jsErrPullSubscribeToPushConsumer
    jsErrPullSubscribeRequired jsErrNoStreamMatchesSubject IFOK_JSR_status
    jsApiStreams jsApiRequestNextT (S (S n)) env new_sub_ok js subject
    pullDurable usrCB isPullMode jsOpts opts errCode_ok e
  = _subscribe js_DeliverByStartSequence js_DeliverByStartTime js_AckNone
      JSNotEnabledErr JSConsumerExistingActiveErr JSConsumerNameExistErr
      NATS_OPTS_DEFAULT_MAX_PENDING_MSGS jsErrNoHeartbeatForQueueSub
      jsErrNoFlowControlForQueueSub jsErrPullSubscribeToPushConsumer
      jsErrPullSubscribeRequired jsErrNoStreamMatchesSubject IFOK_JSR_status
      jsApiStreams jsApiRequestNextT 2 env new_sub_ok js subject pullDurable
      usrCB isPullMode jsOpts opts errCode_ok e.
Proof.
  intros Hinf. unfold _subscribe.
  destruct js as [[ctx st]|]; [|reflexivity].
  destruct (negb new_sub_ok || nats_IsStringEmpty subject); [reflexivity|].
  destruct (js_setOpts (se_setopts env) ctx st jsOpts e) as [r|]; [|reflexivity].
  destruct (negb (is_ok (so_status r))); [reflexivity|].
  destruct (negb _ && (0 <? _)); [reflexivity|].
  destruct (negb _ && FlowControl _); [reflexivity|].
  destruct (resolve_names _ pullDurable) as [durable consumer].
  destruct (if nats_IsStringEmpty _ then _ else _) as [[[[s stream] ops] e1]|];
    [|reflexivity].
  destruct (negb (is_ok s)); [reflexivity|].
  destruct (negb (nats_IsStringEmpty consumer));
    apply subscribe_pass_two_passes; exact Hinf.
Qed.

(** X27: a queue subscription whose configuration asks for heartbeats or
    for flow control is refused with NATS_INVALID_ARG and the matching
    text before anything is asked of the server or created; [*errCode] is
    not written, and the prefix that [js_setOpts] allocated for a domain is
    not freed on that return. *)
Theorem subscribe_queue_refused fuel ctx st r :
  js = Some (ctx, st) -> new_sub_ok = true ->
  nats_IsStringEmpty subject = false ->
  js_setOpts (se_setopts env) ctx st jsOpts e = Some r ->
  so_status r = NATS_OK ->
  let o := effective_opts js_DeliverByStartSequence js_DeliverByStartTime opts in
  nats_IsStringEmpty (so_Queue o) = false ->
  (0 < Heartbeat (so_Config o) \/ FlowControl (so_Config o) = true) ->
  exists txt,
    _subscribe js_DeliverByStartSequence js_DeliverByStartTime js_AckNone
      JSNotEnabledErr JSConsumerExistingActiveErr JSConsumerNameExistErr
      NATS_OPTS_DEFAULT_MAX_PENDING_MSGS jsErrNoHeartbeatForQueueSub
      jsErrNoFlowControlForQueueSub jsErrPullSubscribeToPushConsumer
      jsErrPullSubscribeRequired jsErrNoStreamMatchesSubject IFOK_JSR_status
      jsApiStreams jsApiRequestNextT fuel env new_sub_ok js subject pullDurable
      usrCB isPullMode jsOpts opts errCode_ok e
    = Some (mkSubOutcome NATS_INVALID_ARG None [] [] 0 0 None (so_freePfx r)
              false (Some (NATS_INVALID_ARG, txt))) /\
    txt = (if 0 <? Heartbeat (so_Config o) then jsErrNoHeartbeatForQueueSub
           else jsErrNoFlowControlForQueueSub) /\
    (forall a, jsOpts = Some a ->
       nats_IsStringEmpty (Domain (oa_opts a)) = false ->
       so_freePfx r = true).
Proof.
  intros Hjs Hnew Hsubj Hset Hok o Hq Hcfg.
  eexists. split; [|split; [reflexivity|]].
  - unfold _subscribe. rewrite Hjs, Hnew, Hsubj. cbn [negb orb].
    rewrite Hset, Hok. cbn [is_ok negb]. fold o. rewrite Hq. cbn [negb andb].
    destruct (0 <? Heartbeat (so_Config o)) eqn:Eh; [reflexivity|].
    destruct Hcfg as [Hh|Hf]; [apply Z.ltb_lt in Hh; congruence|].
    rewrite Hf. reflexivity.
  - intros a -> Hd. unfold js_setOpts in Hset. rewrite Hd in Hset.
    cbn [negb andb] in Hset.
    destruct (domain_prefix _); cbn [negb] in Hset; [|discriminate Hset].
    destruct (negb (se_setopts env)).
    + cbn in Hset. injection Hset as <-. discriminate Hok.
    + injection Hset as <-. reflexivity.
Qed.

(** X28: whatever [_subscribe] returns, every reference it took on the
    context is carried by one [jsSub]: that of the subscription returned,
    of a subscription it destroyed, or one it gave to [jsSub_free]; a
    subscription is returned exactly when the status is NATS_OK; and the
    prefix allocated for a domain is freed, unless the call was refused with
    NATS_INVALID_ARG before anything was asked. *)
Theorem subscribe_accounts_references fuel out :
  _subscribe js_DeliverByStartSequence js_DeliverByStartTime js_AckNone
    JSNotEnabledErr JSConsumerExistingActiveErr JSConsumerNameExistErr
    NATS_OPTS_DEFAULT_MAX_PENDING_MSGS jsErrNoHeartbeatForQueueSub
    jsErrNoFlowControlForQueueSub jsErrPullSubscribeToPushConsumer
    jsErrPullSubscribeRequired jsErrNoStreamMatchesSubject IFOK_JSR_status
    jsApiStreams jsApiRequestNextT fuel env new_sub_ok js subject pullDurable
    usrCB isPullMode jsOpts opts errCode_ok e = Some out ->
  sb_retains out
  = (length (sb_destroyed out) + sb_freed out
     + match sb_sub out with Some _ => 1 | None => 0 end)%nat /\
  (sb_status out = NATS_OK <-> is_Some (sb_sub out)) /\
  (sb_pfx_freed out = sb_freePfx out
   \/ (sb_status out = NATS_INVALID_ARG /\ sb_ops out = [])).
Proof.
  intros H. apply subscribe_cases in H.
  destruct H as [(s & fp & e' & -> & Hs & Hfp)|[(Ha & _)|H]].
  - cbn. split; [reflexivity|]. split.
    + split; [intros E; contradiction|intros [? E]; discriminate E].
    + destruct fp; [right; split; [exact (Hfp eq_refl)|reflexivity]|left; reflexivity].
  - destruct Ha as (A1 & A2 & A3). split; [exact A1|]. split; [exact A2|].
    left. exact A3.
  - destruct H as (jo & fp & stream & consumer & consBound & lookupErr & v & subj
                   & _ & _ & Hr & Hd & H).
    apply subscribe_pass_inv in H as ((A1 & A2 & A3) & _);
      [|rewrite Hr, Hd; reflexivity].
    split; [exact A1|]. split; [exact A2|]. left. exact A3.
Qed.

(** X29: a subscription returned by [_subscribe] has the mode and the
    queue asked for; its callback is [_autoAckCB] exactly when a callback
    was given, acks are not manual and the ack policy is not js_AckNone;
    it has a heartbeat timer only with a positive interval and an
    asynchronous error handler, of twice the interval.  Either its consumer
    was created by the last request, after the NATS subscription was made
    on the deliver subject of that consumer, with the subject as filter and
    the queue as deliver group, and is marked for deletion; or the last
    request is the NATS subscription, and no consumer name is kept. *)
Theorem subscribe_success_shape fuel out sb :
  _subscribe js_DeliverByStartSequence js_DeliverByStartTime js_AckNone
    JSNotEnabledErr JSConsumerExistingActiveErr JSConsumerNameExistErr
    NATS_OPTS_DEFAULT_MAX_PENDING_MSGS jsErrNoHeartbeatForQueueSub
    jsErrNoFlowControlForQueueSub jsErrPullSubscribeToPushConsumer
    jsErrPullSubscribeRequired jsErrNoStreamMatchesSubject IFOK_JSR_status
    jsApiStreams jsApiRequestNextT fuel env new_sub_ok js subject pullDurable
    usrCB isPullMode jsOpts opts errCode_ok e = Some out ->
  sb_sub out = Some sb ->
  let o := effective_opts js_DeliverByStartSequence js_DeliverByStartTime opts in
  jsb_pull sb = isPullMode /\ jsb_queue sb = so_Queue o /\
  (nats_IsStringEmpty (so_Stream o) = false -> jsb_stream sb = so_Stream o) /\
  jsb_cb sb
  = (if usrCB && negb (so_ManualAck o)
        && negb (AckPolicy (so_Config o) =? js_AckNone)
     then CbAutoAck else if usrCB then CbUser else CbNone) /\
  (forall t, jsb_timer sb = Some t ->
     t = jsb_hbi sb * 2 /\ 0 < jsb_hbi sb /\ se_asyncErrCb env = true) /\
  (jsb_dc sb = true ->
   exists pre inbox,
     sb_ops out
     = (pre ++ [OpSubscribe (jsb_deliver sb) (so_Queue o);
                OpAddConsumer (jsb_stream sb)
                  (create_config js_AckNone NATS_OPTS_DEFAULT_MAX_PENDING_MSGS
                     (so_Config o) isPullMode inbox
                     (fst (resolve_names o pullDurable)) (so_Queue o)
                     subject)])%list /\
     jsb_hbi sb = Z.quot (Heartbeat (so_Config o)) 1000000 /\
     (isPullMode = false -> jsb_deliver sb = Some inbox)) /\
  (jsb_dc sb = false ->
   jsb_consumer sb = None /\
   exists pre,
     sb_ops out = (pre ++ [OpSubscribe (jsb_deliver sb) (so_Queue o)])%list).
Proof.
  intros H Hsb o. apply subscribe_cases in H. fold o in H.
  destruct H as [(s & fp & e' & -> & _)|[(_ & Hn)|H]].
  - discriminate Hsb.
  - rewrite Hn in Hsb. discriminate Hsb.
  - destruct H as (jo & fp & stream & consumer & consBound & lookupErr & v & subj
                   & -> & Hstr & Hr & Hd & H).
    apply subscribe_pass_inv in H as (_ & H); [|rewrite Hr, Hd; reflexivity].
    destruct (H sb Hsb) as (B1 & B2 & B3 & B4 & B5 & B6 & B7).
    split; [exact B1|]. split; [exact B2|].
    split; [intros Hne; rewrite B3; exact (Hstr Hne)|].
    split; [exact B4|]. split; [exact B5|].
    split; [|exact B7].
    intros Hdc. rewrite B3. exact (B6 Hdc).
Qed.

(** X30: when [js_setOpts] and the stream lookup give a result, the
    strings of a [jsSub] are obtained whenever the [jsSub] is, and
    [js_AddConsumer] and [js_GetConsumerInfo] hand back an info whenever
    they succeed, [_subscribe] returns after at most two passes through the
    label PROCESS_INFO: two passes give a result, and more give the same. *)
Theorem subscribe_returns_within_two_passes ctx st r :
  js = Some (ctx, st) ->
  js_setOpts (se_setopts env) ctx st jsOpts e = Some r ->
  without_trailing_dot (default EmptyString (Prefix (so_res r))) <> None ->
  (forall k, pa_calloc (se_pass env k) = true ->
     (isPullMode = true -> pa_asprintf (se_pass env k) = true)
     /\ pa_dup (se_pass env k) = true) ->
  (forall k, cr_status (pa_add (se_pass env k)) = NATS_OK ->
     cr_info (pa_add (se_pass env k)) <> None) ->
  infos_present env ->
  exists out, forall n,
    _subscribe js_DeliverByStartSequence js_DeliverByStartTime js_AckNone
      JSNotEnabledErr JSConsumerExistingActiveErr JSConsumerNameExistErr
      NATS_OPTS_DEFAULT_MAX_PENDING_MSGS jsErrNoHeartbeatForQueueSub
      jsErrNoFlowControlForQueueSub jsErrPullSubscribeToPushConsumer
      jsErrPullSubscribeRequired jsErrNoStreamMatchesSubject IFOK_JSR_status
      jsApiStreams jsApiRequestNextT (2 + n) env new_sub_ok js subject
      pullDurable usrCB isPullMode jsOpts opts errCode_ok e = Some out.
Proof.
  intros Hjs Hset Hpfx Hmem Hadd Hinf.
  assert (Hdef : exists out,
    _subscribe js_DeliverByStartSequence js_DeliverByStartTime js_AckNone
      JSNotEnabledErr JSConsumerExistingActiveErr JSConsumerNameExistErr
      NATS_OPTS_DEFAULT_MAX_PENDING_MSGS jsErrNoHeartbeatForQueueSub
      jsErrNoFlowControlForQueueSub jsErrPullSubscribeToPushConsumer
      jsErrPullSubscribeRequired jsErrNoStreamMatchesSubject IFOK_JSR_status
      jsApiStreams jsApiRequestNextT 2 env new_sub_ok js subject
      pullDurable usrCB isPullMode jsOpts opts errCode_ok e = Some out).
  { unfold _subscribe. rewrite Hjs.
    destruct (negb new_sub_ok || nats_IsStringEmpty subject) eqn:Earg;
      [eexists; reflexivity|].
    apply orb_false_iff in Earg as [_ Esubj].
    destruct subject as [subj|]; [|discriminate Esubj].
    rewrite Hset.
    destruct (negb (is_ok (so_status r))); [eexists; reflexivity|].
    destruct (negb _ && (0 <? _)); [eexists; reflexivity|].
    destruct (negb _ && FlowControl _); [eexists; reflexivity|].
    destruct (resolve_names _ pullDurable) as [durable consumer].
    assert (Hlook : exists s stream ops e1,
      (if nats_IsStringEmpty
            (so_Stream (effective_opts js_DeliverByStartSequence
                          js_DeliverByStartTime opts))
       then
         match _lookupStreamBySubject IFOK_JSR_status jsApiStreams
                 jsErrNoStreamMatchesSubject (se_lookup env)
                 (default EmptyString (Some subj)) (so_res r) e with
         | Some lr => Some (lr_status lr, lr_stream lr,
                            [OpLookup (default EmptyString (Some subj))],
                            lr_err lr)
         | None => None
         end
       else Some (NATS_OK,
                  so_Stream (effective_opts js_DeliverByStartSequence
                               js_DeliverByStartTime opts), [], e))
      = Some (s, stream, ops, e1)).
    { destruct (nats_IsStringEmpty (so_Stream _)); [|do 4 eexists; reflexivity].
      unfold _lookupStreamBySubject.
      destruct (negb (is_ok (lk_buf (se_lookup env)))); [do 4 eexists; reflexivity|].
      destruct (without_trailing_dot _) as [pfx|]; [|contradiction].
      destruct (negb (lk_asprintf (se_lookup env))); [do 4 eexists; reflexivity|].
      destruct (_ && _ && _); [|do 4 eexists; reflexivity].
      destruct (if is_ok (lk_parse _) then _ else _) as [s1 [|first others]];
        [do 4 eexists; reflexivity|].
      destruct (is_ok s1); do 4 eexists; reflexivity. }
    destruct Hlook as (s & stream & ops & e1 & ->).
    destruct (negb (is_ok s)).
    { apply subscribe_end_defined. reflexivity. }
    destruct (negb (nats_IsStringEmpty consumer));
      apply subscribe_pass_defined; assumption. }
  destruct Hdef as (out & Hout). exists out. intros n.
  change (2 + n)%nat with (S (S n)).
  rewrite subscribe_fuel; assumption.
Qed.

End Entry.

End SubscribeFacts.

Lemma subscribe_queue_refused_witness :
  exists txt,
    sample_subscribe 2 create_env true
      (Some (with_Domain sample_opts (Some "hub."))) (Some queue_hb_opts)
    = Some (mkSubOutcome NATS_INVALID_ARG None [] [] 0 0 None true false
              (Some (NATS_INVALID_ARG, txt))).
Proof.
  assert (Hset : exists r,
    js_setOpts (se_setopts create_env) sample_created stream_zero
      (Some (with_Domain sample_opts (Some "hub."))) None = Some r
    /\ so_status r = NATS_OK)
    by (eexists; split; [vm_compute; reflexivity|reflexivity]).
  destruct Hset as (r & Hset & Hok).
  assert (Hq : nats_IsStringEmpty
                 (so_Queue (effective_opts 3 4 (Some queue_hb_opts))) = false)
    by reflexivity.
  assert (Hhb : 0 < Heartbeat (so_Config (effective_opts 3 4 (Some queue_hb_opts)))
                \/ FlowControl (so_Config (effective_opts 3 4 (Some queue_hb_opts)))
                   = true)
    by (left; vm_compute; reflexivity).
  pose proof (subscribe_queue_refused 3 4 1 10076 10105 10013 65536
                "no heartbeat for queue" "no flow control for queue"
                "pull subscribe to push consumer" "pull subscribe required"
                "no stream matches subject" (fun s => s)
                (fun pfx => pfx ++ ".STREAM.NAMES")
                (fun pfx stream consumer =>
                   default EmptyString pfx ++ ".CONSUMER.MSG.NEXT."
                   ++ default EmptyString stream ++ "."
                   ++ default EmptyString consumer)
                create_env true (Some (sample_created, stream_zero))
                (Some "orders.new") None true false
                (Some (with_Domain sample_opts (Some "hub.")))
                (Some queue_hb_opts) true None 2 sample_created stream_zero r
                eq_refl eq_refl eq_refl Hset Hok Hq Hhb) as H.
  destruct H as (txt & Heq & _ & Hfp).
  exists txt. unfold sample_subscribe.
  rewrite (Hfp _ eq_refl eq_refl) in Heq. exact Heq.
Defined.

Lemma subscribe_accounts_references_witness :
  exists out,
    sample_subscribe 2 raced_env true None (Some durable_opts) = Some out /\
    sb_retains out
    = (length (sb_destroyed out) + sb_freed out
       + match sb_sub out with Some _ => 1 | None => 0 end)%nat.
Proof.
  assert (Hout : exists out,
    sample_subscribe 2 raced_env true None (Some durable_opts) = Some out)
    by (eexists; vm_compute; reflexivity).
  destruct Hout as (out & Hout). exists out. split; [exact Hout|].
  unfold sample_subscribe in Hout.
  exact (proj1 (subscribe_accounts_references _ _ _ _ _ _ _ _ _ _ _ _ _ _ _
                  _ _ _ _ _ _ _ _ _ _ _ _ _ Hout)).
Defined.

Lemma subscribe_success_shape_witness :
  exists out sb,
    sample_subscribe 2 create_env true None (Some durable_opts) = Some out /\
    sb_sub out = Some sb /\
    jsb_pull sb = false /\ jsb_queue sb = None.
Proof.
  assert (Hout : exists out sb,
    sample_subscribe 2 create_env true None (Some durable_opts) = Some out
    /\ sb_sub out = Some sb)
    by (do 2 eexists; split; [vm_compute; reflexivity|reflexivity]).
  destruct Hout as (out & sb & Hout & Hsb). exists out, sb.
  split; [exact Hout|]. split; [exact Hsb|].
  unfold sample_subscribe in Hout.
  pose proof (subscribe_success_shape _ _ _ _ _ _ _ _ _ _ _ _ _ _ _
                _ _ _ _ _ _ _ _ _ _ _ _ _ sb Hout Hsb) as H.
  destruct H as (B1 & B2 & _). split; [exact B1|exact B2].
Defined.

Lemma subscribe_returns_within_two_passes_witness :
  exists out, forall n,
    sample_subscribe (2 + n) raced_env true None (Some durable_opts) = Some out.
Proof.
  assert (Hset : exists r,
    js_setOpts (se_setopts raced_env) sample_created stream_zero None None = Some r
    /\ without_trailing_dot (default EmptyString (Prefix (so_res r))) <> None)
    by (eexists; split; [vm_compute; reflexivity|vm_compute; discriminate]).
  destruct Hset as (r & Hset & Hpfx).
  assert (Hmem : forall k, pa_calloc (se_pass raced_env k) = true ->
            (false = true -> pa_asprintf (se_pass raced_env k) = true)
            /\ pa_dup (se_pass raced_env k) = true)
    by (intros k _; split; reflexivity).
  assert (Hadd : forall k, cr_status (pa_add (se_pass raced_env k)) = NATS_OK ->
            cr_info (pa_add (se_pass raced_env k)) <> None)
    by (intros k Hk; discriminate Hk).
  assert (Hinf : infos_present raced_env)
    by (intros k _; discriminate).
  exact (subscribe_returns_within_two_passes 3 4 1 10076 10105 10013 65536
           "no heartbeat for queue" "no flow control for queue"
           "pull subscribe to push consumer" "pull subscribe required"
           "no stream matches subject" (fun s => s)
           (fun pfx => pfx ++ ".STREAM.NAMES")
           (fun pfx stream consumer =>
              default EmptyString pfx ++ ".CONSUMER.MSG.NEXT."
              ++ default EmptyString stream ++ "."
              ++ default EmptyString consumer)
           raced_env true (Some (sample_created, stream_zero))
           (Some "orders.new") None true false None (Some durable_opts) true
           None sample_created stream_zero r eq_refl Hset Hpfx Hmem Hadd Hinf).
Defined.
